(* ===== verification/_CoqProject ===== *)
-Q . S2P
Prelude.v
Mem.v
Ctype.v
CString.v
Strtol.v
Strtok.v
Heap.v
Malloc.v
Printf.v
RoundTrip.v
Keyboard.v
Pic.v
Stdio.v
UserCopies.v
UserLib.v
Sh.v
Thread.v
Programs.v
IntDiv.v
IntOps.v
BitOps.v
Kernel.v
Devices.v
Process.v
Invariant.v
ProcessInv.v
Sched.v
Elf.v
Syscall.v
SyscallInv.v
Wakeup.v
Termination.v
ForkExit.v
ExecArgs.v
File.v
FileSpec.v
Directory.v
DirectorySpec.v
Terminal.v
TerminalSpec.v
ProtectedMode.v
Trap.v
SpecialPath.v
Cmdline.v
Boot.v
BootMemory.v
System.v
SystemSpec.v
ExecImage.v
ExecDisk.v
