(* ===== verification/Prelude.v ===== *)
(** * SysImpl: a verification library of the SysImpl kernel

    SysImpl is a small i386 kernel with its own C library, a heap, devices, a
    read-only FAT16 file system, processes without paging, system calls, and a
    few user programs.  This library models its C and C++ sources as
    executable definitions and proves what each part promises.

    ** How the program fits together, and where each part is modelled

    Base.  Prelude.v: machine integers ([wrap], [sgn]), outcomes and the state
    monad [prog].  Mem.v: the byte memory that the kernel and the programs
    share.

    The C library (linked into the kernel and into the user programs).
    Ctype.v: src/src/ctype.c.  CString.v: string.c.  Strtol.v: strtol of
    string.c.  Strtok.v: src/user/lib/strtok.c.  Printf.v: format_int and
    vsnprintf of printf.c.  RoundTrip.v: printing and parsing together.
    IntDiv.v, IntOps.v, BitOps.v: the integer routines of
    src/compile-rt-builtins: division, double words and checked arithmetic,
    bit counting and byte order.

    The heap.  Heap.v: src/src/heap.c over the nodes in the memory.  Malloc.v:
    stdlib.c and strdup as clients of the interface [Allocator], which the
    heap implements.

    Input and output.  Keyboard.v: the scan code decoder of keyboard.c over
    the interface [PortIO].  Pic.v: 8259.c and apic.c.  Stdio.v: stdio.c,
    stdio_cpp.cpp, panic.c.  Terminal.v and TerminalSpec.v: the line discipline
    of LineBufferedIOMixin.hpp over the interface [LineBase], which the
    keyboard with the screen (VGATextIODevice.cpp) and the serial line
    (SerialIODevice.cpp) implement, and the early output.

    The kernel proper.  Kernel.v: objects, reference counts, processes as one
    record [kernel].  Devices.v: semaphores, :SLEEP, :WAITPID and the wrapper
    of blocking reads.  Process.v: Process.cpp (clone, exec, saved stacks, the
    end of a process).  Sched.v: resche.cpp and pit.cpp.  Elf.v:
    elf-loader.cpp.  Syscall.v: every handler of src/src/syscall, exec.cpp and
    real_syscall_handler.  What lies behind the objects and the paths is
    reached through the interfaces [External] and [Files].

    Files.  File.v: disks, sequential files and cluster chains.  Directory.v:
    directories, paths and the volume.  FileSpec.v, DirectorySpec.v: the same
    as streams of bytes and listings of names.

    The whole.  System.v implements [External] and [Files] by the terminals,
    the files, the special paths and the heap, so that the handlers of
    Syscall.v run on the models of all the parts.  SpecialPath.v: the named and
    the default devices.  Boot.v: main(), enter_init() and the object that
    crt_init() makes.  Cmdline.v: parse_cmdline.  BootMemory.v: how crt_init(),
    enter_main() and main() lay the memory out: both heaps, the boot
    information, the constructors, the stacks.  ProtectedMode.v: the GDT, the
    IDT and the monitor of the virtual 8086 mode.  Trap.v: the handlers of the
    processor's exceptions.

    User programs.  UserCopies.v: the second copy of the C library.  UserLib.v:
    the system calls, exec_exv, the entry code.  Sh.v, Programs.v, Thread.v:
    the shell, echo, sleep, hlt, and the two threads of thread.c.

    ** How state and operations correspond to the code

    An operation is a [prog S A], a function from the state to an outcome: [Ret]
    with the result and the new state, [Panic] (an assertion, abort() or an
    exception that nothing catches), [Fault] (an access outside the mapped
    memory or outside an array), or [NoFuel].  [x <- p; q] reads as the
    statements of the code do.  Integers are [Z] with their conversions
    written out ([u32], [s32], ...).

    The state of the kernel is [kernel W]: the memory, the tables
    ([process_list], the blocking devices, the semaphores), the store of the
    reference-counted objects, and [W] for the rest of the system.  A pointer
    to a process is its pid, a pointer to an object a number that is not used
    again; [release] of the last reference destroys the object as
    ~shared_ptr does.  In System.v, [W] is the statics of SpecialPath.v and the
    record [machine].

    Two step relations cover what a function cannot.  [system_step] of
    SyscallInv.v has one step per system call, clock tick, device interrupt or
    stretch of user code.  An interrupt that arrives while a system call runs
    is taken before or after it: the tick then only counts (it does not
    reschedule kernel code), and the keyboard's handler appends to a ring of
    which the kernel moves the other end.  [step] of Thread.v has one step per
    access to a shared variable of the two threads.

    ** What the theorems show

    The kernel: in every reachable state no reference dangles and the counts
    are exact (SyscallInv.no_dangling_object), every sleeping process waits
    where it will be found (SyscallInv.sleepers_accounted), no wake-up is lost
    (Wakeup.no_lost_wakeup), the tables stay in bounds
    (SyscallInv.tables_in_bounds), every system call ends
    (Termination.syscall_terminates), the scheduler is fair (Sched), fork()
    gives the parent its stack back (ForkExit), the arguments of exec() reach
    main (ExecArgs), main() ends in such a state (Boot.boot_well_formed), and
    before that it has cut the memory into disjoint heaps and stacks
    (BootMemory.boot_memory_correct).

    The whole system: open() and read() of a program return the bytes of the
    file on the disk, and a program that waits for the console is woken by
    the line that is typed (SystemSpec); exec() of a path puts the segments of
    the file on the disk into the space of the process, through a block of the
    heap that it gives back, and a path or file that is no program leaves the
    caller as it was (ExecImage for the kernel's part, ExecDisk for the whole).

    Refinements of an abstract specification: the heap against a list of
    nodes, vsnprintf against the texts of a grammar of formats, paths against
    listings of directories, the line discipline against queues; the division
    routines against [Z.div] and [Z.modulo], strtok against the maximal parts
    between delimiters; the routines on double words against the
    64-bit integers, the checked operations against the exact results, the
    bit counts against the bits.

    The processor's tables: the segments and gates as the processor decodes
    them, the monitor's [int] with the handler's [iret], and what an exception
    prints before it halts.

    The user programs: the shell's parser, and for the two threads mutual
    exclusion, the order of the output, progress and termination.

    Where the code does not do what it means to, a theorem says what it does:
    the requests that wrap around in the heap (Heap.HeapAlloc_zero_and_wrap)
    and the valid volumes that are refused (DirectorySpec.fat16_mounts).

    ** Bounds

    Recursion that is not structural has fuel.  A loop that runs to a NUL has
    [mem_fuel], the number of mapped addresses plus one: each turn reads one
    more address.  The loop of check() has 33 turns, one more than there
    are processes to wait.  A file or directory loop has the number of bytes, clusters or
    entries it runs over.  A read of the console has the size of the
    keyboard's ring.  Polls of the serial line and of the controllers have a
    bound that is a parameter: the line may stay busy for ever.  For every
    other loop a theorem shows that the fuel is enough, either on its own
    (Termination.v) or because the theorem's conclusion is a [Ret].

    ** Not modelled

    Assembly (start.S, the interrupt stubs, the 16-bit stubs of 8086.S and the
    far call into them, crt): processor state below the level of the C text.
    The BIOS, the ports, the screen's memory mapping and the linker's
    addresses are parameters ([Bios], [PortIO], [VgaMachine], [Layout]).
    Of main(): the banner, the cpuid instruction and the catch blocks that
    report an uncaught exception.  Exceptions are values: the unwinder, the
    demangler and the rest of libcxxrt are vendored.  Of compiler-rt the
    integer routines of 32 and 64 bits are modelled; the soft floating point,
    the complex and the 128-bit routines are vendored code that the kernel does
    not use.  test.cpp is called by nothing; pipe.cpp is empty. *)
From Stdlib Require Export ZArith Lia.
From stdpp Require Export base numbers list gmap strings option.

#[global] Open Scope Z_scope.

#[global] Arguments Z.eqb !_ !_ / : simpl nomatch.
#[global] Arguments Z.ltb !_ !_ / : simpl nomatch.
#[global] Arguments Z.leb !_ !_ / : simpl nomatch.

(** ** Machine integers

    A [w]-bit C integer is a [Z].  [wrap w z] is the conversion to the
    unsigned type of that width, [sgn w z] the conversion to the signed
    (two's complement) one. *)
Definition wrap (w z : Z) : Z := z mod 2 ^ w.

Definition sgn (w z : Z) : Z :=
  let u := wrap w z in if u <? 2 ^ (w - 1) then u else u - 2 ^ w.

Abbreviation u8 := (wrap 8).
Abbreviation u16 := (wrap 16).
Abbreviation u32 := (wrap 32).
Abbreviation u64 := (wrap 64).
Abbreviation s8 := (sgn 8).
Abbreviation s16 := (sgn 16).
Abbreviation s32 := (sgn 32).
Abbreviation s64 := (sgn 64).

(** The range of the unsigned and of the signed type of width [w]. *)
Definition urange (w z : Z) : Prop := 0 <= z < 2 ^ w.
Definition srange (w z : Z) : Prop := - 2 ^ (w - 1) <= z < 2 ^ (w - 1).

(** [b ? 1 : 0], the value of a C comparison. *)
Definition b2z (b : bool) : Z := if b then 1 else 0.

(** The character codes of a Rocq string. *)
Definition chars (s : string) : list Z :=
  map (fun c => Z.of_N (Ascii.N_of_ascii c)) (String.list_ascii_of_string s).

Create HintDb word discriminated.

Lemma wrap_range w z : 0 <= w -> urange w (wrap w z).
Proof. intros. apply Z.mod_pos_bound. lia. Qed.

Lemma wrap_small w z : urange w z -> wrap w z = z.
Proof. apply Z.mod_small. Qed.

Lemma wrap_wrap w z : wrap w (wrap w z) = wrap w z.
Proof. apply Zmod_mod. Qed.

Lemma wrap_add_l w a b : wrap w (wrap w a + b) = wrap w (a + b).
Proof. apply Zplus_mod_idemp_l. Qed.

Lemma wrap_add_r w a b : wrap w (a + wrap w b) = wrap w (a + b).
Proof. apply Zplus_mod_idemp_r. Qed.

Lemma wrap_sub_l w a b : wrap w (wrap w a - b) = wrap w (a - b).
Proof. apply Zminus_mod_idemp_l. Qed.

Lemma wrap_sub_r w a b : wrap w (a - wrap w b) = wrap w (a - b).
Proof. apply Zminus_mod_idemp_r. Qed.

Lemma wrap_mul_l w a b : wrap w (wrap w a * b) = wrap w (a * b).
Proof. apply Zmult_mod_idemp_l. Qed.

Lemma wrap_mul_r w a b : wrap w (a * wrap w b) = wrap w (a * b).
Proof. apply Zmult_mod_idemp_r. Qed.

(** Adding a multiple of the modulus changes nothing. *)
Lemma wrap_shift w z k : wrap w (z + k * 2 ^ w) = wrap w z.
Proof. apply Z_mod_plus_full. Qed.

Lemma sgn_congr w z : 0 <= w -> exists k, sgn w z = z + k * 2 ^ w.
Proof.
  intros. unfold sgn, wrap. pose proof (Z.div_mod z (2 ^ w) ltac:(lia)).
  destruct (_ <? _); [exists (- (z / 2 ^ w)) | exists (- (z / 2 ^ w) - 1)]; lia.
Qed.

Lemma wrap_sgn w z : 0 <= w -> wrap w (sgn w z) = wrap w z.
Proof. intros H. destruct (sgn_congr w z H) as [k ->]. apply wrap_shift. Qed.

Lemma sgn_wrap w z : sgn w (wrap w z) = sgn w z.
Proof. unfold sgn. by rewrite wrap_wrap. Qed.

Lemma pow2_half w : 0 < w -> 2 ^ w = 2 * 2 ^ (w - 1).
Proof. intros. rewrite <- Z.pow_succ_r by lia. f_equal. lia. Qed.

Lemma sgn_range w z : 0 < w -> srange w (sgn w z).
Proof.
  intros. unfold sgn, srange. pose proof (wrap_range w z ltac:(lia)) as [? ?].
  pose proof (pow2_half w ltac:(lia)).
  destruct (Z.ltb_spec (wrap w z) (2 ^ (w - 1))); lia.
Qed.

Lemma sgn_small w z : 0 < w -> srange w z -> sgn w z = z.
Proof.
  intros ? [? ?]. unfold sgn. pose proof (pow2_half w ltac:(lia)).
  destruct (Z.lt_ge_cases z 0).
  - assert (wrap w z = z + 2 ^ w) as ->.
    { rewrite <- (wrap_shift w z 1), Z.mul_1_l.
      apply wrap_small. unfold urange. lia. }
    destruct (Z.ltb_spec (z + 2 ^ w) (2 ^ (w - 1))); lia.
  - rewrite wrap_small by (unfold urange; lia).
    destruct (Z.ltb_spec z (2 ^ (w - 1))); lia.
Qed.

(** Two [w]-bit values with the same unsigned reading have the same signed one. *)
Lemma sgn_eq w a b : wrap w a = wrap w b -> sgn w a = sgn w b.
Proof. unfold sgn. by intros ->. Qed.

Create Rewrite HintDb wrap.
#[export] Hint Rewrite wrap_wrap wrap_add_l wrap_add_r wrap_sub_l wrap_sub_r
  wrap_mul_l wrap_mul_r sgn_wrap : wrap.
#[export] Hint Resolve wrap_range sgn_range : word.

(** Replace the powers of two by their values, for [lia]. *)
Ltac pow2_literals :=
  change (2 ^ 1) with 2 in *; change (2 ^ 4) with 16 in *;
  change (2 ^ 7) with 128 in *;
  change (2 ^ 8) with 256 in *; change (2 ^ 16) with 65536 in *;
  change (2 ^ 24) with 16777216 in *; change (2 ^ 31) with 2147483648 in *;
  change (2 ^ 32) with 4294967296 in *;
  change (2 ^ 63) with 9223372036854775808 in *;
  change (2 ^ 64) with 18446744073709551616 in *.

(** [word_simpl] removes inner conversions; [word_lia] closes goals about
    conversions of values that are already in range. *)
Ltac word_simpl := autorewrite with wrap in *.
Ltac unfold_ranges := unfold urange, srange in *.
Ltac word_lia :=
  unfold_ranges;
  repeat match goal with
  | |- context [wrap ?w ?z] =>
      rewrite (wrap_small w z) by (unfold urange; lia)
  | |- context [sgn ?w ?z] =>
      rewrite (sgn_small w z) by (unfold srange; lia)
  end; lia.

(** Split the next boolean comparison of the goal. *)
Ltac case_cmp :=
  match goal with
  | |- context [?a =? ?b] => destruct (Z.eqb_spec a b)
  | |- context [?a <? ?b] => destruct (Z.ltb_spec a b)
  | |- context [?a <=? ?b] => destruct (Z.leb_spec a b)
  end.

(** ** Bit-level equality

    [bitwise] proves an equation between integers bit by bit: the database
    [bits] computes the bit of each operation, the comparisons that remain
    are split and [lia] identifies the bit positions. *)
Lemma wrap_bits w z n :
  0 <= w -> Z.testbit (wrap w z) n = (n <? w) && Z.testbit z n.
Proof.
  intros. unfold wrap. destruct (Z.ltb_spec n w) as [Hn|Hn].
  - destruct (Z.lt_ge_cases n 0); [by rewrite !Z.testbit_neg_r by lia|].
    by apply Z.mod_pow2_bits_low.
  - by apply Z.mod_pow2_bits_high.
Qed.

Create Rewrite HintDb bits.
#[export] Hint Rewrite wrap_bits Z.land_spec Z.lor_spec Z.lxor_spec Z.ldiff_spec
  Z.lnot_spec Z.shiftr_spec Z.shiftl_spec Z.testbit_0_l Z.testbit_ones_nonneg
  using lia : bits.
#[export] Hint Rewrite andb_true_l andb_true_r andb_false_l andb_false_r
  orb_true_l orb_true_r orb_false_l orb_false_r xorb_false_l xorb_false_r : bits.

Ltac bit_cases :=
  repeat (autorewrite with bits;
    match goal with
    | |- context [Z.ltb ?a ?b] => destruct (Z.ltb_spec a b); try lia
    | |- context [Z.testbit ?a ?n] =>
        rewrite (Z.testbit_neg_r a n) by lia
    end);
  autorewrite with bits.

Ltac bitwise_core :=
  bit_cases; try reflexivity; try lia; repeat f_equal; lia.

Ltac bitwise :=
  let n := fresh "n" in let Hn := fresh "Hn" in
  apply Z.bits_inj'; intros n Hn; bitwise_core.

(** ** Outcomes and the state monad

    A C function is a state transformer that returns, or stops: [Fault] is
    an access outside the mapped memory (or another step whose C meaning is
    undefined), [Panic] a call of the kernel's [panic], [NoFuel] a loop
    whose bound was too small (the theorems show that the bounds chosen
    suffice). *)
Inductive outcome (A : Type) : Type :=
  | Ret (a : A)
  | Fault
  | Panic (msg : string)
  | NoFuel.
Arguments Ret {A} _.
Arguments Fault {A}.
Arguments Panic {A} _.
Arguments NoFuel {A}.

Definition prog (S A : Type) : Type := S -> outcome (A * S).

#[global] Instance prog_ret S : MRet (prog S) := fun A a s => Ret (a, s).

#[global] Instance prog_bind S : MBind (prog S) := fun A B f p s =>
  match p s with
  | Ret (a, s') => f a s'
  | Fault => Fault
  | Panic msg => Panic msg
  | NoFuel => NoFuel
  end.

Section prog.
Context {S : Type}.

Definition pfault {A} : prog S A := fun _ => Fault.
Definition ppanic {A} (msg : string) : prog S A := fun _ => Panic msg.
Definition pnofuel {A} : prog S A := fun _ => NoFuel.
Definition pget : prog S S := fun s => Ret (s, s).
Definition pput (s : S) : prog S unit := fun _ => Ret (tt, s).
Definition pmodify (f : S -> S) : prog S unit := fun s => Ret (tt, f s).
(** [plift o] is a computation on no state of the program. *)
Definition plift {A} (o : outcome A) : prog S A := fun s =>
  match o with
  | Ret a => Ret (a, s)
  | Fault => Fault
  | Panic msg => Panic msg
  | NoFuel => NoFuel
  end.

Lemma bind_Ret {A B} (p : prog S A) (f : A -> prog S B) s a s' :
  p s = Ret (a, s') -> (p ≫= f) s = f a s'.
Proof. unfold mbind, prog_bind. by intros ->. Qed.

Lemma bind_Ret_inv {A B} (p : prog S A) (f : A -> prog S B) s b s' :
  (p ≫= f) s = Ret (b, s') ->
  exists a s1, p s = Ret (a, s1) /\ f a s1 = Ret (b, s').
Proof. unfold mbind, prog_bind. destruct (p s) as [[a s1]| | |]; naive_solver. Qed.

Lemma bind_assoc {A B C} (p : prog S A) (f : A -> prog S B) (g : B -> prog S C) s :
  ((p ≫= f) ≫= g) s = (p ≫= (fun a => f a ≫= g)) s.
Proof. unfold mbind, prog_bind. by destruct (p s) as [[a s1]| | |]. Qed.

Lemma mret_bind {A B} (a : A) (f : A -> prog S B) s : (mret a ≫= f) s = f a s.
Proof. done. Qed.

Lemma pget_bind {B} (f : S -> prog S B) s : (pget ≫= f) s = f s s.
Proof. done. Qed.
End prog.

(** [prog_norm] brings the first command of the program of the goal to the
    front and runs the commands that do not depend on the state. *)
Ltac prog_norm :=
  repeat (rewrite bind_assoc || rewrite mret_bind || rewrite pget_bind).

(** [zoom] runs a program on a part of a larger state. *)
Definition zoom {S T A} (get : T -> S) (set : S -> T -> T) (p : prog S A) : prog T A :=
  fun t =>
    match p (get t) with
    | Ret (a, s) => Ret (a, set s t)
    | Fault => Fault
    | Panic msg => Panic msg
    | NoFuel => NoFuel
    end.

(** [prog_step H] runs the first command of a program whose outcome is [H]. *)
Ltac prog_step H := prog_norm; rewrite (bind_Ret _ _ _ _ _ H).

(** [ret_lia] closes an equation between two returned results that differ in
    an arithmetic value. *)
Ltac ret_lia :=
  rewrite ?mret_bind; unfold mret, prog_ret; simpl;
  repeat match goal with
  | |- Ret _ = Ret _ => apply f_equal
  | |- (_, _) = (_, _) => apply f_equal2
  end; try reflexivity; lia.
