(* ===== verification/Mem.v ===== *)
(** * Mem: the byte-addressed memory

    The kernel and the user programs run without paging in one flat address
    space.  The memory is a finite map from addresses to bytes; an access to
    an address that is not mapped is a [Fault], so that a function shown to
    return is also shown to stay inside the memory it was given. *)
From S2P Require Import Prelude.

Abbreviation mem := (gmap Z Z).

(** ** Accesses *)
Definition load8 (a : Z) : prog mem Z := fun m =>
  match m !! a with Some b => Ret (b, m) | None => Fault end.

Definition store8 (a v : Z) : prog mem unit := fun m =>
  match m !! a with Some _ => Ret (tt, <[a := u8 v]> m) | None => Fault end.

(** A 32-bit access, little-endian as on the i386. *)
Definition load32 (a : Z) : prog mem Z :=
  b0 ← load8 a; b1 ← load8 (a + 1); b2 ← load8 (a + 2); b3 ← load8 (a + 3);
  mret (b0 + 2 ^ 8 * b1 + 2 ^ 16 * b2 + 2 ^ 24 * b3).

Definition store32 (a v : Z) : prog mem unit :=
  store8 a v;; store8 (a + 1) (Z.shiftr v 8);;
  store8 (a + 2) (Z.shiftr v 16);; store8 (a + 3) (Z.shiftr v 24).

(** The bound of a loop that reads one new byte of the memory per turn. *)
Definition mem_fuel (m : mem) : nat := S (size m).

(** ** Assertions *)

(** The bytes [l] lie at address [a]. *)
Fixpoint bytes_at (m : mem) (a : Z) (l : list Z) : Prop :=
  match l with
  | [] => True
  | b :: l' => m !! a = Some b /\ bytes_at m (a + 1) l'
  end.

(** A character of a C string: a byte that is not NUL. *)
Definition is_char (c : Z) : Prop := 0 < c < 256.

(** The C string [s] (its characters, without the NUL) lies at [a]. *)
Definition cstr_at (m : mem) (a : Z) (s : list Z) : Prop :=
  Forall is_char s /\ bytes_at m a (s ++ [0]).

(** The [n] bytes from [a] are mapped. *)
Definition mapped (m : mem) (a n : Z) : Prop :=
  forall x, a <= x < a + n -> is_Some (m !! x).

(** Every byte of the memory is a byte. *)
Definition mem_wf (m : mem) : Prop := map_Forall (fun _ b => urange 8 b) m.

(** [m] with the bytes [l] written from [a] on. *)
Fixpoint write_bytes (m : mem) (a : Z) (l : list Z) : mem :=
  match l with
  | [] => m
  | b :: l' => write_bytes (<[a := b]> m) (a + 1) l'
  end.

(** A memory that holds the given regions, for concrete examples. *)
Definition mem_of (regions : list (Z * list Z)) : mem :=
  foldr (fun '(a, l) m => write_bytes m a l) ∅ regions.

(** The four bytes of a 32-bit word. *)
Definition le32 (v : Z) : list Z :=
  [u8 v; u8 (Z.shiftr v 8); u8 (Z.shiftr v 16); u8 (Z.shiftr v 24)].

Definition word_at (m : mem) (a v : Z) : Prop :=
  urange 32 v /\ bytes_at m a (le32 v).

(** ** Bytes at an address *)
Lemma bytes_at_lookup m a l :
  bytes_at m a l <-> forall i b, l !! i = Some b -> m !! (a + Z.of_nat i) = Some b.
Proof.
  revert a. induction l as [|b l IH]; intros a; simpl; [naive_solver|].
  rewrite IH. split.
  - intros [? H] [|i] c; simpl; [intros [= ->]; by rewrite Z.add_0_r|].
    intros ?%H. by replace (a + Z.of_nat (S i)) with (a + 1 + Z.of_nat i) by lia.
  - intros H. split; [specialize (H 0%nat b eq_refl); by rewrite Z.add_0_r in H|].
    intros i c Hi. specialize (H (S i) c Hi).
    by replace (a + Z.of_nat (S i)) with (a + 1 + Z.of_nat i) in H by lia.
Qed.

Lemma bytes_at_app m a l1 l2 :
  bytes_at m a (l1 ++ l2) <->
  bytes_at m a l1 /\ bytes_at m (a + Z.of_nat (length l1)) l2.
Proof.
  revert a. induction l1 as [|b l1 IH]; intros a; simpl.
  - rewrite Z.add_0_r. tauto.
  - rewrite IH. replace (a + Z.of_nat (S (length l1)))
      with (a + 1 + Z.of_nat (length l1)) by lia. tauto.
Qed.

Lemma bytes_at_mapped m a l : bytes_at m a l -> mapped m a (Z.of_nat (length l)).
Proof.
  rewrite bytes_at_lookup. intros H x Hx.
  destruct (lookup_lt_is_Some_2 l (Z.to_nat (x - a))) as [b Hb]; [lia|].
  specialize (H _ _ Hb). replace (a + Z.of_nat (Z.to_nat (x - a))) with x in H by lia. eauto.
Qed.

Lemma bytes_at_range m a l : mem_wf m -> bytes_at m a l -> Forall (urange 8) l.
Proof.
  intros Hwf. revert a. induction l as [|b l IH]; intros a; constructor.
  - destruct H. by apply (Hwf a).
  - destruct H. by eapply IH.
Qed.

Lemma mapped_le m a n k : mapped m a n -> k <= n -> mapped m a k.
Proof. intros H ? x ?. apply H. lia. Qed.

Lemma mapped_sub m a n b k :
  mapped m a n -> a <= b -> b + k <= a + n -> mapped m b k.
Proof. intros H ? ? x ?. apply H. lia. Qed.

Lemma mapped_bytes m a (n : nat) :
  mapped m a (Z.of_nat n) -> exists l, length l = n /\ bytes_at m a l.
Proof.
  revert a. induction n as [|n IH]; intros a H; [by exists []|].
  destruct (IH (a + 1)) as (l & <- & Hl); [eapply mapped_sub; eauto; lia|].
  destruct (H a) as [b Hb]; [lia|]. exists (b :: l). by split.
Qed.

(** A region that is mapped is not longer than the memory: the reason why
    [mem_fuel] is enough. *)
Lemma bytes_at_size m a l : bytes_at m a l -> (length l <= size m)%nat.
Proof.
  intros H. assert (list_to_set (seqZ a (Z.of_nat (length l))) ⊆ dom m) as Hsub.
  { intros x. rewrite elem_of_list_to_set, elem_of_seqZ, elem_of_dom.
    intros. apply (bytes_at_mapped _ _ _ H). lia. }
  apply subseteq_size in Hsub. rewrite size_dom in Hsub.
  rewrite size_list_to_set in Hsub by apply NoDup_seqZ.
  rewrite length_seqZ in Hsub. lia.
Qed.

Lemma cstr_at_fuel m a s : cstr_at m a s -> (length s < mem_fuel m)%nat.
Proof.
  intros [_ H]. apply bytes_at_size in H. rewrite length_app in H.
  unfold mem_fuel. simpl in H. lia.
Qed.

Lemma is_char_u8 c : is_char c -> u8 c = c.
Proof. unfold is_char. intros. apply wrap_small. unfold urange. lia. Qed.

Lemma cstr_at_nil m a : cstr_at m a [] <-> m !! a = Some 0.
Proof.
  unfold cstr_at. simpl. split; [by intros (_ & H & _)|]. intros. by repeat constructor.
Qed.

Lemma cstr_at_cons m a c s :
  cstr_at m a (c :: s) <-> is_char c /\ m !! a = Some c /\ cstr_at m (a + 1) s.
Proof. unfold cstr_at. rewrite Forall_cons_iff. simpl. tauto. Qed.

Lemma cstr_at_mapped m a s : cstr_at m a s -> mapped m a (Z.of_nat (length s) + 1).
Proof.
  intros [_ H%bytes_at_mapped]. rewrite length_app in H. simpl in H.
  eapply mapped_le; [exact H|lia].
Qed.

Lemma cstr_at_drop m a s n :
  cstr_at m a s -> (n <= length s)%nat -> cstr_at m (a + Z.of_nat n) (drop n s).
Proof.
  revert a s. induction n as [|n IH]; intros a s Hs Hn; [by rewrite Z.add_0_r|].
  destruct s as [|c s]; simpl in Hn; [lia|]. apply cstr_at_cons in Hs as (_ & _ & Hs).
  simpl. replace (a + Z.of_nat (S n)) with (a + 1 + Z.of_nat n) by lia.
  apply IH; [done|lia].
Qed.

(** The first byte of a string, and [cstr_first] for the case analysis on it. *)
Lemma cstr_at_first m a l :
  cstr_at m a l ->
  exists c, (l ++ [0]) !! 0%nat = Some c /\ m !! a = Some c /\
    (c = 0 /\ l = [] \/ c <> 0 /\ exists l', l = c :: l' /\ is_char c /\ cstr_at m (a + 1) l').
Proof.
  destruct l as [|c l]; rewrite ?cstr_at_nil, ?cstr_at_cons.
  - intros. exists 0. naive_solver.
  - intros (? & ? & ?). exists c. split_and!; try done. right.
    unfold is_char in *. split; [lia|]. eauto.
Qed.

Ltac cstr_first H c :=
  apply cstr_at_first in H as (c & ? & ? & [[? ?]|[? (? & ? & ? & H)]]); subst; simplify_eq/=.

(** The string at an address is unique. *)
Lemma cstr_at_fun m a s s' : cstr_at m a s -> cstr_at m a s' -> s = s'.
Proof.
  revert a s'. induction s as [|c s IH]; intros a [|c' s']; [done|..];
    rewrite ?cstr_at_nil, ?cstr_at_cons; unfold is_char.
  - intros H0 [Hc [H1 _]]. simplify_eq. lia.
  - intros [Hc [H1 _]] H0. simplify_eq. lia.
  - intros [Hc [H1 Hs]] [Hc' [H2 Hs']]. simplify_eq. f_equal. by eapply IH.
Qed.

(** ** Writing bytes *)
Lemma lookup_write_bytes m a l x :
  write_bytes m a l !! x =
  if decide (a <= x < a + Z.of_nat (length l)) then l !! Z.to_nat (x - a) else m !! x.
Proof.
  revert m a. induction l as [|b l IH]; intros m a; simpl.
  - case_decide; [lia|done].
  - rewrite IH. case_decide; case_decide; try lia.
    + replace (Z.to_nat (x - a)) with (S (Z.to_nat (x - (a + 1)))) by lia. done.
    + replace x with a by lia. rewrite lookup_insert_eq, Z.sub_diag. done.
    + apply lookup_insert_ne. lia.
Qed.

Lemma lookup_write_out m a l x :
  x < a \/ a + Z.of_nat (length l) <= x -> write_bytes m a l !! x = m !! x.
Proof. intros. rewrite lookup_write_bytes. case_decide; [lia|done]. Qed.

Lemma write_bytes_app m a l1 l2 :
  write_bytes m a (l1 ++ l2) =
  write_bytes (write_bytes m a l1) (a + Z.of_nat (length l1)) l2.
Proof.
  revert m a. induction l1 as [|b l1 IH]; intros m a; simpl.
  - by rewrite Z.add_0_r.
  - rewrite IH. f_equal. lia.
Qed.

Lemma bytes_at_write m a l : bytes_at (write_bytes m a l) a l.
Proof.
  apply bytes_at_lookup. intros i b Hi. rewrite lookup_write_bytes.
  pose proof (lookup_lt_Some _ _ _ Hi).
  rewrite decide_True by lia. by replace (Z.to_nat (a + Z.of_nat i - a)) with i by lia.
Qed.

Lemma bytes_at_write_out m a l b k :
  a + Z.of_nat (length l) <= b \/ b + Z.of_nat (length k) <= a ->
  bytes_at (write_bytes m a l) b k <-> bytes_at m b k.
Proof.
  intros Hd. rewrite !bytes_at_lookup. split; intros H i c Hi.
  - rewrite <- (lookup_write_out m a l); [by apply H|].
    apply lookup_lt_Some in Hi. lia.
  - rewrite lookup_write_out; [by apply H|]. apply lookup_lt_Some in Hi. lia.
Qed.

(** What lies in a part of the memory that stays the same stays there. *)
Lemma bytes_at_frame m m' a l :
  bytes_at m a l -> (forall x, a <= x < a + Z.of_nat (length l) -> m' !! x = m !! x) -> bytes_at m' a l.
Proof.
  rewrite !bytes_at_lookup. intros Hb Hf i b Hi. rewrite <- (Hb i b Hi). apply Hf.
  apply lookup_lt_Some in Hi. lia.
Qed.

Lemma word_at_frame m m' a v : word_at m a v -> (forall x, a <= x < a + 4 -> m' !! x = m !! x) -> word_at m' a v.
Proof. intros [Hv Hb] Hf. split; [done|]. by apply (bytes_at_frame m). Qed.

Lemma cstr_at_frame m m' p t :
  cstr_at m p t -> (forall x, p <= x <= p + Z.of_nat (length t) -> m' !! x = m !! x) -> cstr_at m' p t.
Proof.
  intros [Hc Hb] Hf. split; [done|]. apply (bytes_at_frame m); [done|]. intros x Hx. apply Hf.
  rewrite length_app in Hx. simpl in Hx. lia.
Qed.

Lemma cstr_at_write_out m a l b s :
  a + Z.of_nat (length l) <= b \/ b + Z.of_nat (length s) + 1 <= a ->
  cstr_at (write_bytes m a l) b s <-> cstr_at m b s.
Proof.
  intros. unfold cstr_at. rewrite bytes_at_write_out; [done|].
  rewrite length_app. simpl. lia.
Qed.

Lemma mapped_write m a l b n : mapped m b n -> mapped (write_bytes m a l) b n.
Proof.
  intros H x Hx. rewrite lookup_write_bytes. case_decide; [|by apply H].
  apply lookup_lt_is_Some_2. lia.
Qed.

Lemma mapped_insert m x v b n : mapped m b n -> mapped (<[x := v]> m) b n.
Proof. apply (mapped_write m x [v]). Qed.

(** Writing what is there already changes nothing. *)
Lemma write_bytes_id m a l : bytes_at m a l -> write_bytes m a l = m.
Proof.
  intros H. apply map_eq. intros x. rewrite lookup_write_bytes.
  case_decide as Hx; [|done]. rewrite bytes_at_lookup in H.
  destruct (lookup_lt_is_Some_2 l (Z.to_nat (x - a))) as [b Hb]; [lia|].
  rewrite Hb. symmetry. replace x with (a + Z.of_nat (Z.to_nat (x - a))) by lia. eauto.
Qed.

(** Two writes to regions that do not overlap commute. *)
Lemma write_bytes_comm m a l b k :
  a + Z.of_nat (length l) <= b \/ b + Z.of_nat (length k) <= a ->
  write_bytes (write_bytes m a l) b k = write_bytes (write_bytes m b k) a l.
Proof.
  intros. apply map_eq. intros x. rewrite !lookup_write_bytes.
  repeat case_decide; done || lia.
Qed.

(** A second write of the same length replaces the first. *)
Lemma write_bytes_twice m a l k :
  (length l <= length k)%nat ->
  write_bytes (write_bytes m a l) a k = write_bytes m a k.
Proof.
  intros. apply map_eq. intros x. rewrite !lookup_write_bytes.
  repeat case_decide; done || lia.
Qed.

Lemma size_write_mapped m a l :
  mapped m a (Z.of_nat (length l)) -> size (write_bytes m a l) = size m.
Proof.
  revert m a. induction l as [|b l IH]; intros m a H; simpl; [done|].
  destruct (H a) as [c Hc]; [simpl; lia|].
  rewrite IH.
  - by apply map_size_insert_Some.
  - apply mapped_insert. eapply mapped_sub; eauto; simpl; lia.
Qed.

Lemma mem_wf_write m a l : mem_wf m -> Forall (urange 8) l -> mem_wf (write_bytes m a l).
Proof.
  intros Hm Hl x b. rewrite lookup_write_bytes. case_decide; [|apply Hm].
  intros Hb. by eapply Forall_lookup_1 in Hb.
Qed.

(** ** Outcomes of the accesses *)
Lemma load8_at m a b : m !! a = Some b -> load8 a m = Ret (b, m).
Proof. unfold load8. by intros ->. Qed.

Lemma load8_unmapped m a : m !! a = None -> load8 a m = Fault.
Proof. unfold load8. by intros ->. Qed.

Lemma store8_at m a v : is_Some (m !! a) -> store8 a v m = Ret (tt, <[a := u8 v]> m).
Proof. intros [b H]. unfold store8. by rewrite H. Qed.

Lemma load8_bytes m a b l : bytes_at m a (b :: l) -> load8 a m = Ret (b, m).
Proof. intros [H _]. by apply load8_at. Qed.

Lemma le32_combine v :
  urange 32 v ->
  u8 v + 2 ^ 8 * u8 (Z.shiftr v 8) + 2 ^ 16 * u8 (Z.shiftr v 16) +
    2 ^ 24 * u8 (Z.shiftr v 24) = v.
Proof.
  unfold urange, wrap. rewrite !Z.shiftr_div_pow2 by lia. pow2_literals. intros.
  replace (v / 65536) with (v / 256 / 256) by (by rewrite Zdiv_Zdiv by lia).
  replace (v / 16777216) with (v / 256 / 256 / 256) by (by rewrite !Zdiv_Zdiv by lia).
  pose proof (Z.div_mod v 256 ltac:(lia)).
  pose proof (Z.div_mod (v / 256) 256 ltac:(lia)).
  pose proof (Z.div_mod (v / 256 / 256) 256 ltac:(lia)).
  assert (0 <= v / 256 / 256 / 256 < 256).
  { rewrite !Zdiv_Zdiv by lia. split; [apply Z.div_pos; lia|].
    apply Z.div_lt_upper_bound; lia. }
  rewrite (Z.mod_small (v / 256 / 256 / 256)) by lia. lia.
Qed.

Lemma le32_wrap v : le32 (u32 v) = le32 v.
Proof. unfold le32. repeat (apply f_equal2; [bitwise|]). done. Qed.

Lemma le32_range v : Forall (urange 8) (le32 v).
Proof. repeat constructor; by apply wrap_range. Qed.

Lemma load32_at m a v : word_at m a v -> load32 a m = Ret (v, m).
Proof.
  intros (Hv & H0 & H1 & H2 & H3 & _). unfold load32.
  replace (a + 1 + 1) with (a + 2) in * by lia.
  replace (a + 2 + 1) with (a + 3) in * by lia.
  repeat (erewrite bind_Ret by (apply load8_at; eassumption)).
  unfold mret, prog_ret. by rewrite le32_combine.
Qed.

Lemma store32_at m a v :
  mapped m a 4 -> store32 a v m = Ret (tt, write_bytes m a (le32 v)).
Proof.
  intros H. unfold store32.
  do 3 (erewrite bind_Ret by (apply store8_at; repeat apply mapped_insert;
    try (rewrite !lookup_insert_ne by lia); apply H; lia)).
  rewrite store8_at by (rewrite !lookup_insert_ne by lia; apply H; lia).
  unfold le32. simpl. by replace (a + 1 + 1) with (a + 2) by lia;
    replace (a + 2 + 1) with (a + 3) by lia.
Qed.

Lemma word_at_mapped m a v : word_at m a v -> mapped m a 4.
Proof. intros [_ H]. by apply bytes_at_mapped in H. Qed.

Lemma word_at_store m a v : urange 32 v -> word_at (write_bytes m a (le32 v)) a v.
Proof. split; [done|]. apply bytes_at_write. Qed.

Lemma word_at_write_out m a l b v :
  a + Z.of_nat (length l) <= b \/ b + 4 <= a ->
  word_at (write_bytes m a l) b v <-> word_at m b v.
Proof. intros. unfold word_at. by rewrite bytes_at_write_out. Qed.

Lemma word_at_fun m a v v' : word_at m a v -> word_at m a v' -> v = v'.
Proof.
  intros H%load32_at H'%load32_at. rewrite H in H'. by injection H'.
Qed.

(** [run_prog] evaluates the accesses whose outcome the context determines. *)
Ltac mem_step :=
  match goal with
  | H : ?m !! ?a = Some ?b |- context [(load8 ?a ≫= _) ?m] =>
      rewrite (bind_Ret _ _ _ _ _ (load8_at _ _ _ H))
  | H : word_at ?m ?a ?v |- context [(load32 ?a ≫= _) ?m] =>
      rewrite (bind_Ret _ _ _ _ _ (load32_at _ _ _ H))
  | |- context [(mret _ ≫= _) _] => rewrite mret_bind
  end.

(** ** Programs keep the memory mapped

    No program maps or unmaps memory: the property is closed under the
    combinators, so that [auto] with the database [mapped] proves it. *)
Definition keeps_mapped {A} (p : prog mem A) : Prop :=
  forall m a m', p m = Ret (a, m') -> forall x n, mapped m x n -> mapped m' x n.

Create HintDb mapped discriminated.

Lemma keeps_ret {A} (a : A) : keeps_mapped (mret a).
Proof. by intros m b m' [= <- <-]. Qed.

Lemma keeps_bind {A B} (p : prog mem A) (f : A -> prog mem B) :
  keeps_mapped p -> (forall a, keeps_mapped (f a)) -> keeps_mapped (p ≫= f).
Proof. intros Hp Hf m b m' (a & m1 & H1 & H2)%bind_Ret_inv x n Hm. eapply Hf, Hp; eauto. Qed.

Lemma keeps_if {A} (b : bool) (p q : prog mem A) :
  keeps_mapped p -> keeps_mapped q -> keeps_mapped (if b then p else q).
Proof. by destruct b. Qed.

Lemma keeps_pget : keeps_mapped (pget : prog mem mem).
Proof. by intros m b m' [= <- <-]. Qed.

Lemma keeps_nofuel {A} : keeps_mapped (pnofuel : prog mem A).
Proof. done. Qed.

Lemma keeps_panic {A} msg : keeps_mapped (ppanic msg : prog mem A).
Proof. done. Qed.

Lemma keeps_load8 a : keeps_mapped (load8 a).
Proof. intros m b m'. unfold load8. by destruct (m !! a); intros [= <- <-]. Qed.

Lemma keeps_store8 a v : keeps_mapped (store8 a v).
Proof.
  intros m b m'. unfold store8. destruct (m !! a); intros [= <- <-] x n.
  apply mapped_insert.
Qed.

#[export] Hint Resolve keeps_ret keeps_bind keeps_if keeps_pget keeps_nofuel keeps_panic
  keeps_load8 keeps_store8 : mapped.

Lemma keeps_load32 a : keeps_mapped (load32 a).
Proof. unfold load32. auto 10 with mapped. Qed.

Lemma keeps_store32 a v : keeps_mapped (store32 a v).
Proof. unfold store32. auto 10 with mapped. Qed.

#[export] Hint Resolve keeps_load32 keeps_store32 : mapped.

(** ** Concrete memories

    [mem_compute] proves assertions about a closed memory by evaluation. *)
Lemma mapped_compute m a n :
  forallb (fun x => bool_decide (is_Some (m !! x))) (seqZ a n) = true -> mapped m a n.
Proof.
  rewrite forallb_forall. intros H x Hx. eapply bool_decide_eq_true, H.
  apply list_elem_of_In, elem_of_seqZ. lia.
Qed.

Lemma bytes_at_compute m a l :
  forallb (fun '(i, b) => bool_decide (m !! (a + Z.of_nat i) = Some b)) (imap pair l) = true ->
  bytes_at m a l.
Proof.
  rewrite forallb_forall, bytes_at_lookup. intros H i b Hi.
  specialize (H (i, b)). rewrite bool_decide_eq_true in H. apply H.
  apply list_elem_of_In, list_elem_of_lookup_2 with i. by rewrite list_lookup_imap, Hi.
Qed.

Lemma is_char_compute l :
  forallb (fun c => (0 <? c) && (c <? 256)) l = true -> Forall is_char l.
Proof.
  intros H. apply List.Forall_forall. intros c Hc.
  rewrite forallb_forall in H. specialize (H c Hc). unfold is_char. lia.
Qed.

Ltac mem_compute :=
  match goal with
  | |- cstr_at _ _ _ => split; [apply is_char_compute|apply bytes_at_compute]; vm_compute; reflexivity
  | |- mapped _ _ _ => apply mapped_compute; vm_compute; reflexivity
  | |- bytes_at _ _ _ => apply bytes_at_compute; vm_compute; reflexivity
  | |- Forall is_char _ => apply is_char_compute; vm_compute; reflexivity
  | |- word_at _ _ _ => split; [unfold urange; lia|apply bytes_at_compute; vm_compute; reflexivity]
  end.
