(* ===== verification/Ctype.v ===== *)
(** * Ctype: the character classes of src/src/ctype.c

    The same text is compiled for the kernel (src/src/ctype.c) and for the
    user library (src/user/lib/ctype.c).  Each predicate takes an [int] and
    returns a C truth value, modelled as a [bool]. *)
From S2P Require Import Prelude.

Definition isascii (c : Z) : bool := Z.land c (Z.lnot 127) =? 0.
Definition isupper (c : Z) : bool := (65 <=? c) && (c <=? 90).
Definition islower (c : Z) : bool := (97 <=? c) && (c <=? 122).
Definition isspace (c : Z) : bool := (c =? 32) || ((9 <=? c) && (c <=? 13)).
Definition isdigit (c : Z) : bool := (48 <=? c) && (c <=? 57).
Definition isxdigit (c : Z) : bool :=
  isdigit c || ((97 <=? c) && (c <=? 102)) || ((65 <=? c) && (c <=? 70)).
Definition isalpha (c : Z) : bool := isupper c || islower c.
Definition isalnum (c : Z) : bool := isalpha c || isdigit c.
Definition iscntrl (c : Z) : bool := ((0 <=? c) && (c <? 32)) || (c =? 127).
Definition isgraph (c : Z) : bool := (33 <=? c) && (c <=? 126).
Definition ispunct (c : Z) : bool :=
  ((33 <=? c) && (c <=? 47)) || ((58 <=? c) && (c <=? 64)) ||
  ((91 <=? c) && (c <=? 96)) || ((123 <=? c) && (c <=? 126)).
Definition toupper (c : Z) : Z := if islower c then c - 97 + 65 else c.
Definition tolower (c : Z) : Z := if isupper c then c - 65 + 97 else c.
Definition isprint (c : Z) : bool := (32 <=? c) && (c <=? 126).

(** [ctype_cases] turns every class test of the goal and the hypotheses into
    linear arithmetic. *)
Ltac ctype_unfold :=
  unfold isalnum, isalpha, isxdigit, isupper, islower, isspace, isdigit,
    iscntrl, isgraph, ispunct, isprint in *.
Ltac ctype_lia := ctype_unfold; lia.

Lemma isascii_spec c : isascii c = true <-> 0 <= c < 128.
Proof.
  unfold isascii. rewrite Z.eqb_eq, <- Z.ldiff_land.
  change 127 with (Z.ones 7). rewrite Z.ldiff_ones_r by lia.
  rewrite Z.shiftl_eq_0_iff, Z.shiftr_div_pow2 by lia.
  change (2 ^ 7) with 128. split; intros.
  - Z.to_euclidean_division_equations. lia.
  - apply Z.div_small. lia.
Qed.

Lemma tolower_idem c : tolower (tolower c) = tolower c.
Proof.
  unfold tolower. destruct (isupper c) eqn:E; [|by rewrite E].
  replace (isupper (c - 65 + 97)) with false; [done|]. symmetry. ctype_lia.
Qed.

Lemma tolower_nul c : tolower c = tolower 0 -> c = 0.
Proof.
  unfold tolower at 2. simpl. unfold tolower. destruct (isupper c) eqn:E; [|done].
  ctype_unfold. lia.
Qed.

Lemma toupper_tolower c : isupper c = true -> toupper (tolower c) = c.
Proof.
  unfold toupper, tolower. intros E. rewrite E.
  replace (islower (c - 65 + 97)) with true; [lia|]. symmetry. ctype_lia.
Qed.

(** Every ASCII character falls in exactly one of the classes control,
    space (32), digit, letter and punctuation; printing characters are the
    graphic ones and the space; and the two case conversions are inverse on
    letters and the identity elsewhere. *)
Theorem ctype_partition c :
  isascii c = true ->
  b2z (iscntrl c) + b2z (c =? 32) + b2z (isdigit c) + b2z (isupper c) +
    b2z (islower c) + b2z (ispunct c) = 1 /\
  isgraph c = isalnum c || ispunct c /\
  isprint c = isgraph c || (c =? 32) /\
  (isalpha c = true -> toupper (tolower c) = c \/ tolower (toupper c) = c) /\
  (isalpha c = false -> tolower c = c /\ toupper c = c).
Proof.
  rewrite isascii_spec. intros Hc. unfold toupper, tolower.
  split_and!.
  - ctype_unfold. unfold b2z.
    repeat match goal with |- context [if ?b then _ else _] => destruct b eqn:?; simpl end; lia.
  - ctype_lia.
  - ctype_lia.
  - intros. destruct (isupper c) eqn:E.
    + left. replace (islower (c - 65 + 97)) with true; [lia|]. symmetry. ctype_lia.
    + right. replace (islower c) with true by (symmetry; ctype_lia).
      replace (isupper (c - 97 + 65)) with true; [lia|]. symmetry. ctype_lia.
  - intros. replace (isupper c) with false by (symmetry; ctype_lia).
    by replace (islower c) with false by (symmetry; ctype_lia).
Qed.

Lemma ctype_partition_witness :
  b2z (iscntrl 65) + b2z (65 =? 32) + b2z (isdigit 65) + b2z (isupper 65) +
    b2z (islower 65) + b2z (ispunct 65) = 1 /\
  isgraph 65 = isalnum 65 || ispunct 65 /\
  isprint 65 = isgraph 65 || (65 =? 32) /\
  (isalpha 65 = true -> toupper (tolower 65) = 65 \/ tolower (toupper 65) = 65) /\
  (isalpha 65 = false -> tolower 65 = 65 /\ toupper 65 = 65).
Proof. exact (ctype_partition 65 eq_refl). Defined.
