(* ===== verification/CString.v ===== *)
(** * CString: the memory and string functions of src/src/string.c

    One definition per function, over the byte memory.  Characters are read
    as bytes; a test [*s1 != *s2] of two [char]s and the test of their bytes
    agree whatever the sign of [char].  A loop that runs to a NUL has the
    fuel [mem_fuel]: each turn reads one more address, so on a string that
    is terminated in the mapped memory the fuel is never exhausted. *)
From S2P Require Import Prelude Mem Ctype.

(** ** Definitions *)

(** [for (i = 0; i < len; i++) ((uint8_t * )b)[i] = (uint8_t)c;] with
    [n = len - i] turns to go. *)
Fixpoint memset_loop (n : nat) (b c i : Z) : prog mem unit :=
  match n with
  | O => mret tt
  | S n' => store8 (b + i) c;; memset_loop n' b c (i + 1)
  end.

Definition memset (b c len : Z) : prog mem Z :=
  memset_loop (Z.to_nat len) b c 0;; mret b.

(** The [do ... while (--n != 0)] of memcmp, entered with [n != 0]. *)
Fixpoint memcmp_loop (n : nat) (p1 p2 : Z) : prog mem Z :=
  match n with
  | O => mret 0
  | S n' =>
      c1 ← load8 p1; c2 ← load8 p2;
      if c1 =? c2 then memcmp_loop n' (p1 + 1) (p2 + 1) else mret (c1 - c2)
  end.

Definition memcmp (s1 s2 n : Z) : prog mem Z :=
  if n =? 0 then mret 0 else memcmp_loop (Z.to_nat n) s1 s2.

Fixpoint memcpy_loop (n : nat) (dst src i : Z) : prog mem unit :=
  match n with
  | O => mret tt
  | S n' => c ← load8 (src + i); store8 (dst + i) c;; memcpy_loop n' dst src (i + 1)
  end.

Definition memcpy (dst src n : Z) : prog mem Z :=
  memcpy_loop (Z.to_nat n) dst src 0;; mret dst.

Fixpoint strlen_loop (fuel : nat) (s cnt : Z) : prog mem Z :=
  match fuel with
  | O => pnofuel
  | S fuel' =>
      c ← load8 s;
      if c =? 0 then mret cnt else strlen_loop fuel' (s + 1) (u32 (cnt + 1))
  end.

Definition strlen (s : Z) : prog mem Z := fun m => strlen_loop (mem_fuel m) s 0 m.

Fixpoint strcmp_loop (fuel : nat) (s1 s2 : Z) : prog mem Z :=
  match fuel with
  | O => pnofuel
  | S fuel' =>
      c1 ← load8 s1; c2 ← load8 s2;
      if negb (c1 =? c2) then mret (c1 - c2)
      else if c1 =? 0 then mret 0 else strcmp_loop fuel' (s1 + 1) (s2 + 1)
  end.

Definition strcmp (s1 s2 : Z) : prog mem Z := fun m => strcmp_loop (mem_fuel m) s1 s2 m.

(** The [do ... while (--n != 0)] of strncmp, entered with [n != 0]. *)
Fixpoint strncmp_loop (n : nat) (s1 s2 : Z) : prog mem Z :=
  match n with
  | O => mret 0
  | S n' =>
      c1 ← load8 s1; c2 ← load8 s2;
      if negb (c1 =? c2) then mret (c1 - c2)
      else if c1 =? 0 then mret 0 else strncmp_loop n' (s1 + 1) (s2 + 1)
  end.

Definition strncmp (s1 s2 n : Z) : prog mem Z :=
  if n =? 0 then mret 0 else strncmp_loop (Z.to_nat n) s1 s2.

Fixpoint strcasecmp_loop (fuel : nat) (us1 us2 : Z) : prog mem Z :=
  match fuel with
  | O => pnofuel
  | S fuel' =>
      c1 ← load8 us1; c2 ← load8 us2;
      if tolower c1 =? tolower c2
      then if c1 =? 0 then mret 0 else strcasecmp_loop fuel' (us1 + 1) (us2 + 1)
      else mret (tolower c1 - tolower c2)
  end.

Definition strcasecmp (s1 s2 : Z) : prog mem Z := fun m =>
  strcasecmp_loop (mem_fuel m) s1 s2 m.

Fixpoint strncasecmp_loop (n : nat) (us1 us2 : Z) : prog mem Z :=
  match n with
  | O => mret 0
  | S n' =>
      c1 ← load8 us1; c2 ← load8 us2;
      if negb (tolower c1 =? tolower c2) then mret (tolower c1 - tolower c2)
      else if c1 =? 0 then mret 0 else strncasecmp_loop n' (us1 + 1) (us2 + 1)
  end.

Definition strncasecmp (s1 s2 n : Z) : prog mem Z :=
  if n =? 0 then mret 0 else strncasecmp_loop (Z.to_nat n) s1 s2.

(** The inner [do ... while (sc != c)] of strstr: the address after the next
    [c] of the string at [s], or 0 ([NULL]) at its end. *)
Fixpoint strstr_scan (fuel : nat) (s c : Z) : prog mem Z :=
  match fuel with
  | O => pnofuel
  | S fuel' =>
      sc ← load8 s;
      if sc =? 0 then mret 0
      else if sc =? c then mret (s + 1) else strstr_scan fuel' (s + 1) c
  end.

(** The outer loop: [find] is already advanced past its first character [c]. *)
Fixpoint strstr_loop (fuel : nat) (s c find len : Z) : prog mem Z :=
  match fuel with
  | O => pnofuel
  | S fuel' =>
      m ← pget;
      s' ← strstr_scan (mem_fuel m) s c;
      if s' =? 0 then mret 0
      else r ← strncmp s' find len;
           if r =? 0 then mret (s' - 1) else strstr_loop fuel' s' c find len
  end.

Definition strstr (s find : Z) : prog mem Z :=
  c ← load8 find;
  if c =? 0 then mret s
  else len ← strlen (find + 1);
       m ← pget;
       strstr_loop (mem_fuel m) s c (find + 1) len.

Fixpoint strcpy_loop (fuel : nat) (to from : Z) : prog mem unit :=
  match fuel with
  | O => pnofuel
  | S fuel' =>
      c ← load8 from; store8 to c;;
      if u8 c =? 0 then mret tt else strcpy_loop fuel' (to + 1) (from + 1)
  end.

Definition strcpy (to from : Z) : prog mem Z := fun m =>
  (strcpy_loop (mem_fuel m) to from;; mret to) m.

(** [while (--nleft != 0) if (( *dst++ = *src++) == 0) break;] entered with
    [nleft = n]; the result is [(nleft, dst, src)] after the loop. *)
Fixpoint strlcpy_loop (n : nat) (dst src : Z) : prog mem (Z * Z * Z) :=
  match n with
  | O => mret (0, dst, src)
  | S n' =>
      if (n' =? 0)%nat then mret (0, dst, src)
      else c ← load8 src; store8 dst c;;
           if u8 c =? 0 then mret (Z.of_nat n', dst + 1, src + 1)
           else strlcpy_loop n' (dst + 1) (src + 1)
  end.

(** [while ( *src++) ;] *)
Fixpoint skip_string (fuel : nat) (src : Z) : prog mem Z :=
  match fuel with
  | O => pnofuel
  | S fuel' =>
      c ← load8 src; if c =? 0 then mret (src + 1) else skip_string fuel' (src + 1)
  end.

Definition strlcpy (dst src dsize : Z) : prog mem Z :=
  r ← (if dsize =? 0 then mret (dsize, dst, src) else strlcpy_loop (Z.to_nat dsize) dst src);
  let '(nleft, dst', src') := r in
  src'' ← (if nleft =? 0
           then (if dsize =? 0 then mret tt else store8 dst' 0);;
                m ← pget; skip_string (mem_fuel m) src'
           else mret src');
  mret (u32 (src'' - src - 1)).

(** [for (; *s; ++s) ;] *)
Fixpoint find_nul (fuel : nat) (s : Z) : prog mem Z :=
  match fuel with
  | O => pnofuel
  | S fuel' => c ← load8 s; if c =? 0 then mret s else find_nul fuel' (s + 1)
  end.

Definition strcat (s append : Z) : prog mem Z := fun m =>
  (e ← find_nul (mem_fuel m) s; strcpy_loop (mem_fuel m) e append;; mret s) m.

(** ** Specifications on lists of characters *)

(** The difference of the first two characters that [f] tells apart, 0 when
    there is none. *)
Fixpoint first_diff (f : Z -> Z) (l1 l2 : list Z) : Z :=
  match l1, l2 with
  | c1 :: l1', c2 :: l2' => if f c1 =? f c2 then first_diff f l1' l2' else f c1 - f c2
  | _, _ => 0
  end.

(** The comparison that keeps the case of letters. *)
Abbreviation cid := (fun c : Z => c).

(** The suffix of [hay] that starts at the first occurrence of [needle]. *)
Fixpoint find_sub (needle hay : list Z) : option nat :=
  if decide (take (length needle) hay = needle) then Some 0%nat
  else match hay with [] => None | _ :: hay' => S <$> find_sub needle hay' end.

Lemma first_diff_0 f l1 l2 :
  length l1 = length l2 -> first_diff f l1 l2 = 0 <-> map f l1 = map f l2.
Proof.
  revert l2. induction l1 as [|c1 l1 IH]; intros [|c2 l2] H; simplify_eq/=; [done|].
  destruct (Z.eqb_spec (f c1) (f c2)) as [E|E].
  - rewrite IH by done. rewrite E. split; [by intros ->|by intros [=]].
  - split; [intros; exfalso; lia|by intros [=]].
Qed.

(** [take_nul n s]: the part of a C string that a bounded comparison reads. *)
Lemma first_diff_strings s1 s2 :
  Forall is_char s1 -> Forall is_char s2 ->
  first_diff cid (s1 ++ [0]) (s2 ++ [0]) = 0 <-> s1 = s2.
Proof.
  unfold is_char. intros H1. revert s2.
  induction H1 as [|c1 s1 Hc1 H1 IH]; intros s2 H2; destruct H2 as [|c2 s2' Hc2 H2];
    cbn [first_diff app].
  - done.
  - destruct (Z.eqb_spec 0 c2); split; intros; try done; exfalso; lia.
  - destruct (Z.eqb_spec c1 0); split; intros; try done; exfalso; lia.
  - destruct (Z.eqb_spec c1 c2) as [E|E].
    + subst. rewrite IH by done. split; [by intros ->|by intros [=]].
    + split; [intros; exfalso; lia|by intros [=]].
Qed.

(** ** The memory functions *)
Lemma memset_loop_spec k n b c i m :
  mapped m (b + i) (Z.of_nat n) -> k = replicate n (u8 c) ->
  memset_loop n b c i m = Ret (tt, write_bytes m (b + i) k).
Proof.
  intros H ->. revert i m H. induction n as [|n IH]; intros i m H; simpl; [done|].
  erewrite bind_Ret by (apply store8_at, H; lia).
  rewrite IH.
  - by replace (b + (i + 1)) with (b + i + 1) by lia.
  - apply mapped_insert. eapply mapped_sub; eauto; lia.
Qed.

Lemma memset_spec b c len m :
  0 <= len -> mapped m b len ->
  memset b c len m = Ret (b, write_bytes m b (replicate (Z.to_nat len) (u8 c))).
Proof.
  intros ? H. unfold memset.
  erewrite bind_Ret by (eapply memset_loop_spec; [|done];
    rewrite Z2Nat.id, Z.add_0_r by lia; exact H).
  by rewrite Z.add_0_r.
Qed.

(** memcpy copies forwards: it is right for regions that do not overlap and
    also when the destination starts before the source. *)
Lemma memcpy_loop_spec l dst src i m :
  Forall (urange 8) l -> bytes_at m (src + i) l ->
  mapped m (dst + i) (Z.of_nat (length l)) ->
  dst <= src \/ src + i + Z.of_nat (length l) <= dst + i ->
  memcpy_loop (length l) dst src i m = Ret (tt, write_bytes m (dst + i) l).
Proof.
  intros Hl. revert i m. induction Hl as [|b l Hb Hl IH]; intros i m Hs Hd Hov; simpl; [done|].
  destruct Hs as [Hb0 Hs]. simpl in *. mem_step.
  erewrite bind_Ret by (apply store8_at, Hd; lia).
  rewrite wrap_small by done.
  rewrite IH.
  - by replace (dst + (i + 1)) with (dst + i + 1) by lia.
  - apply (bytes_at_write_out m (dst + i) [b]); [simpl; lia|].
    by replace (src + (i + 1)) with (src + i + 1) by lia.
  - apply mapped_insert. eapply mapped_sub; eauto; lia.
  - lia.
Qed.

Lemma memcpy_spec dst src l m :
  Forall (urange 8) l -> bytes_at m src l -> mapped m dst (Z.of_nat (length l)) ->
  dst <= src \/ src + Z.of_nat (length l) <= dst ->
  memcpy dst src (Z.of_nat (length l)) m = Ret (dst, write_bytes m dst l).
Proof.
  intros Hl Hs Hd Hov. unfold memcpy. rewrite Nat2Z.id.
  erewrite bind_Ret by (apply memcpy_loop_spec; rewrite ?Z.add_0_r; done).
  by rewrite Z.add_0_r.
Qed.

Lemma memcmp_loop_spec l1 l2 p1 p2 m :
  length l1 = length l2 -> bytes_at m p1 l1 -> bytes_at m p2 l2 ->
  memcmp_loop (length l1) p1 p2 m = Ret (first_diff cid l1 l2, m).
Proof.
  revert l2 p1 p2. induction l1 as [|c1 l1 IH]; intros [|c2 l2] p1 p2 Hlen H1 H2;
    simplify_eq/=; [done|].
  destruct H1 as [Hc1 H1], H2 as [Hc2 H2]. do 2 mem_step.
  destruct (c1 =? c2); [by apply IH|done].
Qed.

Lemma memcmp_spec l1 l2 s1 s2 m :
  length l1 = length l2 -> bytes_at m s1 l1 -> bytes_at m s2 l2 ->
  memcmp s1 s2 (Z.of_nat (length l1)) m = Ret (first_diff cid l1 l2, m).
Proof.
  intros Hlen H1 H2. unfold memcmp. destruct (Z.eqb_spec (Z.of_nat (length l1)) 0).
  - destruct l1; [|simpl in *; lia]. done.
  - rewrite Nat2Z.id. by apply memcmp_loop_spec.
Qed.

(** ** Length and comparison of strings *)
Lemma strlen_loop_spec l fuel s cnt m :
  cstr_at m s l -> (length l < fuel)%nat ->
  0 <= cnt -> cnt + Z.of_nat (length l) < 2 ^ 32 ->
  strlen_loop fuel s cnt m = Ret (cnt + Z.of_nat (length l), m).
Proof.
  revert fuel s cnt. induction l as [|c l IH]; intros [|fuel] s cnt Hs Hf Hc Hb;
    simpl in Hf; try lia; cbn [strlen_loop].
  - apply cstr_at_nil in Hs. mem_step. simpl. by rewrite Z.add_0_r.
  - apply cstr_at_cons in Hs as (Hch & Hc0 & Hs). mem_step. simpl in Hb.
    unfold is_char in Hch. destruct (Z.eqb_spec c 0); [lia|].
    rewrite wrap_small by (unfold urange; lia).
    rewrite IH; [|done|lia..]. simpl. f_equal. f_equal. lia.
Qed.

Lemma strlen_spec s l m :
  cstr_at m s l -> Z.of_nat (length l) < 2 ^ 32 ->
  strlen s m = Ret (Z.of_nat (length l), m).
Proof.
  intros Hs Hl. unfold strlen. rewrite (strlen_loop_spec l); try done.
  by eapply cstr_at_fuel.
Qed.

Lemma strcmp_loop_spec l1 l2 fuel s1 s2 m :
  cstr_at m s1 l1 -> cstr_at m s2 l2 -> (length l1 < fuel)%nat ->
  strcmp_loop fuel s1 s2 m = Ret (first_diff cid (l1 ++ [0]) (l2 ++ [0]), m).
Proof.
  revert l2 fuel s1 s2. induction l1 as [|c1 l1 IH];
    intros l2 [|fuel] s1 s2 H1 H2 Hf; simpl in Hf; try lia; cbn [strcmp_loop];
    cstr_first H1 d1; cstr_first H2 d2; do 2 mem_step; cbn [first_diff app].
  - done.
  - by destruct (Z.eqb_spec 0 d2).
  - by destruct (Z.eqb_spec d1 0).
  - destruct (Z.eqb_spec d1 d2); simpl; [|done].
    destruct (Z.eqb_spec d1 0); [done|]. apply IH; [done..|lia].
Qed.

Lemma strcasecmp_loop_spec l1 l2 fuel s1 s2 m :
  cstr_at m s1 l1 -> cstr_at m s2 l2 -> (length l1 < fuel)%nat ->
  strcasecmp_loop fuel s1 s2 m = Ret (first_diff tolower (l1 ++ [0]) (l2 ++ [0]), m).
Proof.
  revert l2 fuel s1 s2. induction l1 as [|c1 l1 IH];
    intros l2 [|fuel] s1 s2 H1 H2 Hf; simpl in Hf; try lia; cbn [strcasecmp_loop];
    cstr_first H1 d1; cstr_first H2 d2; do 2 mem_step; cbn [first_diff app].
  - done.
  - by repeat case_cmp.
  - destruct (Z.eqb_spec (tolower d1) (tolower 0)) as [E|E]; [by apply tolower_nul in E|done].
  - destruct (tolower d1 =? tolower d2); simpl; [|done].
    destruct (Z.eqb_spec d1 0); [done|]. apply IH; [done..|lia].
Qed.

Lemma strncmp_loop_spec n l1 l2 s1 s2 m :
  cstr_at m s1 l1 -> cstr_at m s2 l2 ->
  strncmp_loop n s1 s2 m = Ret (first_diff cid (take n (l1 ++ [0])) (take n (l2 ++ [0])), m).
Proof.
  revert l1 l2 s1 s2. induction n as [|n IH]; intros l1 l2 s1 s2 H1 H2; [done|];
    cbn [strncmp_loop]; cstr_first H1 d1; cstr_first H2 d2; do 2 mem_step;
    cbn [take app first_diff].
  - by rewrite !take_nil.
  - by destruct (Z.eqb_spec 0 d2).
  - by destruct (Z.eqb_spec d1 0).
  - destruct (Z.eqb_spec d1 d2); simpl; [|done].
    destruct (Z.eqb_spec d1 0); [done|]. by apply IH.
Qed.

Lemma strncasecmp_loop_spec n l1 l2 s1 s2 m :
  cstr_at m s1 l1 -> cstr_at m s2 l2 ->
  strncasecmp_loop n s1 s2 m =
  Ret (first_diff tolower (take n (l1 ++ [0])) (take n (l2 ++ [0])), m).
Proof.
  revert l1 l2 s1 s2. induction n as [|n IH]; intros l1 l2 s1 s2 H1 H2; [done|];
    cbn [strncasecmp_loop]; cstr_first H1 d1; cstr_first H2 d2; do 2 mem_step;
    cbn [take app first_diff].
  - by rewrite !take_nil.
  - rewrite take_nil. by repeat case_cmp.
  - destruct (Z.eqb_spec (tolower d1) (tolower 0)) as [E|E]; [by apply tolower_nul in E|done].
  - destruct (tolower d1 =? tolower d2); simpl; [|done].
    destruct (Z.eqb_spec d1 0); [done|]. by apply IH.
Qed.

(** ** Copying strings *)
Lemma strcpy_loop_spec l fuel to from m :
  cstr_at m from l -> mapped m to (Z.of_nat (length l) + 1) ->
  to + Z.of_nat (length l) < from \/ from + Z.of_nat (length l) < to ->
  (length l < fuel)%nat ->
  strcpy_loop fuel to from m = Ret (tt, write_bytes m to (l ++ [0])).
Proof.
  revert fuel to from m. induction l as [|c l IH];
    intros [|fuel] to from m Hs Hd Hov Hf; simpl in Hf; try lia; cbn [strcpy_loop].
  - apply cstr_at_nil in Hs. mem_step.
    by erewrite bind_Ret by (apply store8_at, Hd; simpl; lia).
  - apply cstr_at_cons in Hs as (Hc & Hc0 & Hs). mem_step.
    erewrite bind_Ret by (apply store8_at, Hd; simpl; lia).
    rewrite is_char_u8 by done. unfold is_char in Hc.
    destruct (Z.eqb_spec c 0); [lia|]. simpl in *. rewrite IH; [done| | |lia|lia].
    + apply (cstr_at_write_out m to [c]); [simpl; lia|done].
    + apply mapped_insert. eapply mapped_sub; eauto; lia.
Qed.

Lemma find_nul_spec l fuel s m :
  cstr_at m s l -> (length l < fuel)%nat ->
  find_nul fuel s m = Ret (s + Z.of_nat (length l), m).
Proof.
  revert fuel s. induction l as [|c l IH]; intros [|fuel] s Hs Hf; simpl in Hf; try lia;
    cbn [find_nul].
  - apply cstr_at_nil in Hs. mem_step. simpl. by rewrite Z.add_0_r.
  - apply cstr_at_cons in Hs as (Hc & Hc0 & Hs). mem_step. unfold is_char in Hc.
    destruct (Z.eqb_spec c 0); [lia|]. rewrite IH by (done || lia). simpl. do 2 f_equal. lia.
Qed.

Lemma skip_string_spec l fuel s m :
  cstr_at m s l -> (length l < fuel)%nat ->
  skip_string fuel s m = Ret (s + Z.of_nat (length l) + 1, m).
Proof.
  revert fuel s. induction l as [|c l IH]; intros [|fuel] s Hs Hf; simpl in Hf; try lia;
    cbn [skip_string].
  - apply cstr_at_nil in Hs. mem_step. simpl. by rewrite Z.add_0_r.
  - apply cstr_at_cons in Hs as (Hc & Hc0 & Hs). mem_step. unfold is_char in Hc.
    destruct (Z.eqb_spec c 0); [lia|]. rewrite IH by (done || lia). simpl. do 2 f_equal. lia.
Qed.

Lemma strlcpy_loop_S n dst src :
  strlcpy_loop (S n) dst src =
  (if (n =? 0)%nat then mret (0, dst, src)
   else c ← load8 src; store8 dst c;;
        if u8 c =? 0 then mret (Z.of_nat n, dst + 1, src + 1)
        else strlcpy_loop n (dst + 1) (src + 1)).
Proof. done. Qed.

(** The copying loop of strlcpy stops either at the NUL (when the string
    fits) or with one byte of the buffer left. *)
Lemma strlcpy_loop_spec l n dst src m :
  cstr_at m src l -> mapped m dst (Z.of_nat (S n)) ->
  dst + Z.of_nat (S n) <= src \/ src + Z.of_nat (length l) < dst ->
  strlcpy_loop (S n) dst src m =
  if (length l <? n)%nat
  then Ret ((Z.of_nat (n - length l), dst + Z.of_nat (length l) + 1,
             src + Z.of_nat (length l) + 1), write_bytes m dst (l ++ [0]))
  else Ret ((0, dst + Z.of_nat n, src + Z.of_nat n), write_bytes m dst (take n l)).
Proof.
  revert n dst src m. induction l as [|c l IH]; intros [|n] dst src m Hs Hd Hov;
    rewrite strlcpy_loop_S; cbn [Nat.eqb]; try (simpl; by rewrite !Z.add_0_r).
  - apply cstr_at_nil in Hs. mem_step.
    erewrite bind_Ret by (apply store8_at, Hd; lia). simpl. by rewrite !Z.add_0_r.
  - apply cstr_at_cons in Hs as (Hc & Hc0 & Hs). mem_step.
    erewrite bind_Ret by (apply store8_at, Hd; lia).
    rewrite is_char_u8 by done. unfold is_char in Hc.
    destruct (Z.eqb_spec c 0); [lia|]. cbn [length] in *. rewrite IH; [| | |lia].
    + change (S (length l) <? S n)%nat with (length l <? n)%nat.
      destruct (length l <? n)%nat; simpl; repeat (f_equal; try lia).
    + apply (cstr_at_write_out m dst [c]); [simpl; lia|done].
    + apply mapped_insert. eapply mapped_sub; eauto; lia.
Qed.

(** strlcpy truncates and always terminates: it returns the length of
    the source, writes the first [dsize - 1] characters and a NUL into the
    destination and touches nothing else (nothing at all when [dsize] is 0). *)
Theorem strlcpy_correct dst src l dsize m :
  cstr_at m src l -> 0 <= dsize -> mapped m dst dsize ->
  dst + dsize <= src \/ src + Z.of_nat (length l) < dst ->
  Z.of_nat (length l) < 2 ^ 32 ->
  strlcpy dst src dsize m =
  Ret (Z.of_nat (length l),
       if dsize =? 0 then m
       else write_bytes m dst (take (Z.to_nat dsize - 1) l ++ [0])).
Proof.
  intros Hs Hd Hm Hov Hlen. unfold strlcpy.
  assert (forall x m', x = src + Z.of_nat (length l) + 1 ->
    (mret (u32 (x - src - 1)) : prog mem Z) m' = Ret (Z.of_nat (length l), m')) as Hend.
  { intros x m' ->. unfold mret, prog_ret. do 2 f_equal.
    replace (src + Z.of_nat (length l) + 1 - src - 1) with (Z.of_nat (length l)) by lia.
    apply wrap_small. unfold urange. lia. }
  destruct (Z.eqb_spec dsize 0) as [->|Hne].
  - rewrite mret_bind. cbn [Z.eqb]. prog_norm.
    erewrite bind_Ret by (apply (skip_string_spec l); [done|by eapply cstr_at_fuel]).
    by apply Hend.
  - destruct (Z.to_nat dsize) as [|n] eqn:En; [lia|].
    pose proof (strlcpy_loop_spec l n dst src m Hs ltac:(rewrite <- En, Z2Nat.id by lia; done)
      ltac:(lia)) as Hloop.
    destruct (Nat.ltb_spec (length l) n).
    + prog_step Hloop. destruct (Z.eqb_spec (Z.of_nat (n - length l)) 0); [lia|].
      rewrite mret_bind, Hend by done. rewrite take_ge by lia. done.
    + prog_step Hloop. cbn [Z.eqb]. prog_norm.
      erewrite bind_Ret by (apply store8_at, (mapped_write _ _ _ _ _ Hm); lia).
      change (u8 0) with 0. prog_norm.
      replace (<[dst + Z.of_nat n := 0]> (write_bytes m dst (take n l)))
        with (write_bytes m dst (take n l ++ [0])).
      2: { rewrite write_bytes_app. simpl. by rewrite length_take_le by lia. }
      assert (cstr_at (write_bytes m dst (take n l ++ [0])) (src + Z.of_nat n) (drop n l)).
      { apply cstr_at_write_out; [|by apply cstr_at_drop].
        rewrite length_app, length_take, length_drop. simpl. lia. }
      erewrite bind_Ret by (apply (skip_string_spec (drop n l)); [done|by eapply cstr_at_fuel]).
      rewrite Hend by (rewrite length_drop; lia).
      by replace (S n - 1)%nat with n by lia.
Qed.

Lemma strcpy_spec to from l m :
  cstr_at m from l -> mapped m to (Z.of_nat (length l) + 1) ->
  to + Z.of_nat (length l) < from \/ from + Z.of_nat (length l) < to ->
  strcpy to from m = Ret (to, write_bytes m to (l ++ [0])).
Proof.
  intros Hs Hm Hov. unfold strcpy.
  by erewrite bind_Ret by (apply (strcpy_loop_spec l); [done..|by eapply cstr_at_fuel]).
Qed.

Lemma strcat_spec s append l1 l2 m :
  cstr_at m s l1 -> cstr_at m append l2 ->
  mapped m s (Z.of_nat (length l1 + length l2) + 1) ->
  s + Z.of_nat (length l1 + length l2) < append \/ append + Z.of_nat (length l2) < s ->
  strcat s append m = Ret (s, write_bytes m (s + Z.of_nat (length l1)) (l2 ++ [0])).
Proof.
  intros H1 H2 Hm Hov. unfold strcat.
  erewrite bind_Ret by (apply (find_nul_spec l1); [done|by eapply cstr_at_fuel]).
  by erewrite bind_Ret by (apply (strcpy_loop_spec l2);
    [done|eapply mapped_sub; eauto; lia|lia|by eapply cstr_at_fuel]).
Qed.

(** The terminator of a string is where its text ends. *)
Lemma cstr_at_app_write m a l1 l2 :
  Forall is_char l2 -> cstr_at m a l1 ->
  cstr_at (write_bytes m (a + Z.of_nat (length l1)) (l2 ++ [0])) a (l1 ++ l2).
Proof.
  intros Hl2 [Hl1 Hb]. split; [by apply Forall_app|].
  rewrite <- app_assoc, bytes_at_app. split; [|apply bytes_at_write].
  apply bytes_at_write_out; [lia|]. by apply bytes_at_app in Hb as [? _].
Qed.

(** strcat appends: from a string [l1] with room after it and a string
    [l2] elsewhere, it returns its destination, which then holds [l1 ++ l2],
    leaves [l2] in place and changes no byte outside the appended part. *)
Theorem strcat_correct s append l1 l2 m :
  cstr_at m s l1 -> cstr_at m append l2 ->
  mapped m s (Z.of_nat (length l1 + length l2) + 1) ->
  s + Z.of_nat (length l1 + length l2) < append \/ append + Z.of_nat (length l2) < s ->
  exists m', strcat s append m = Ret (s, m') /\
    cstr_at m' s (l1 ++ l2) /\ cstr_at m' append l2 /\
    forall x, x < s + Z.of_nat (length l1) \/ s + Z.of_nat (length l1 + length l2) < x ->
      m' !! x = m !! x.
Proof.
  intros H1 H2 Hm Hov. eexists. split; [by apply (strcat_spec s append l1 l2)|].
  split_and!.
  - apply cstr_at_app_write; [apply H2|done].
  - apply cstr_at_write_out; [|done]. rewrite length_app. simpl. lia.
  - intros x Hx. apply lookup_write_out. rewrite length_app. simpl. lia.
Qed.

(** the four comparison functions compute the difference of the first
    characters that differ (after case folding for the two [case] variants,
    within the first [n] characters for the two [n] variants), reading no
    further than the terminators; strcmp returns 0 exactly on equal strings. *)
Theorem compare_family s1 s2 l1 l2 n m :
  cstr_at m s1 l1 -> cstr_at m s2 l2 -> 0 <= n ->
  strcmp s1 s2 m = Ret (first_diff cid (l1 ++ [0]) (l2 ++ [0]), m) /\
  strcasecmp s1 s2 m = Ret (first_diff tolower (l1 ++ [0]) (l2 ++ [0]), m) /\
  strncmp s1 s2 n m = Ret (first_diff cid (take (Z.to_nat n) (l1 ++ [0]))
                             (take (Z.to_nat n) (l2 ++ [0])), m) /\
  strncasecmp s1 s2 n m = Ret (first_diff tolower (take (Z.to_nat n) (l1 ++ [0]))
                                 (take (Z.to_nat n) (l2 ++ [0])), m) /\
  (first_diff cid (l1 ++ [0]) (l2 ++ [0]) = 0 <-> l1 = l2).
Proof.
  intros H1 H2 Hn. split_and!.
  - apply strcmp_loop_spec; [done..|by eapply cstr_at_fuel].
  - apply strcasecmp_loop_spec; [done..|by eapply cstr_at_fuel].
  - unfold strncmp. destruct (Z.eqb_spec n 0) as [->|]; [done|]. by apply strncmp_loop_spec.
  - unfold strncasecmp. destruct (Z.eqb_spec n 0) as [->|]; [done|].
    by apply strncasecmp_loop_spec.
  - apply first_diff_strings; [apply H1|apply H2].
Qed.

(** ** Searching *)
Lemma find_sub_skip c nd pre suf :
  c ∉ pre -> find_sub (c :: nd) (pre ++ suf) = Nat.add (length pre) <$> find_sub (c :: nd) suf.
Proof.
  intros Hc. induction pre as [|d pre IH]; cbn [app length].
  - by destruct (find_sub (c :: nd) suf).
  - cbn [find_sub]. rewrite decide_False.
    + rewrite IH by set_solver. by destruct (find_sub (c :: nd) suf).
    + simpl. set_solver.
Qed.

Lemma find_sub_absent c nd l : c ∉ l -> find_sub (c :: nd) l = None.
Proof.
  intros Hc. rewrite <- (app_nil_r l), find_sub_skip by done. done.
Qed.

Lemma strstr_scan_spec l fuel s c m :
  cstr_at m s l -> (length l < fuel)%nat -> is_char c ->
  ((c ∉ l) /\ strstr_scan fuel s c m = Ret (0, m)) \/
  (exists pre suf, l = pre ++ c :: suf /\ (c ∉ pre) /\
     strstr_scan fuel s c m = Ret (s + Z.of_nat (length pre) + 1, m)).
Proof.
  intros Hs Hf Hc. revert fuel s Hs Hf. induction l as [|d l IH]; intros [|fuel] s Hs Hf;
    simpl in Hf; try lia; cbn [strstr_scan].
  - apply cstr_at_nil in Hs. mem_step. left. split; [set_solver|done].
  - apply cstr_at_cons in Hs as (Hd & Hd0 & Hs). mem_step. unfold is_char in Hd.
    destruct (Z.eqb_spec d 0); [lia|]. destruct (Z.eqb_spec d c) as [->|Hne].
    + right. exists [], l. simpl. rewrite Z.add_0_r. split_and!; [done|by apply not_elem_of_nil|done].
    + destruct (IH fuel (s + 1) Hs ltac:(lia)) as [[H1 H2]|(pre & suf & -> & H1 & H2)].
      * left. split; [|done]. by apply not_elem_of_cons.
      * right. exists (d :: pre), suf. split_and!; [done|by apply not_elem_of_cons|].
        rewrite H2. simpl. do 2 f_equal. lia.
Qed.

(** The test of strstr at a candidate: [strncmp(s, find, strlen(find)) == 0]
    holds exactly when the text goes on with the needle. *)
Lemma strncmp_prefix nd suf :
  Forall is_char nd -> Forall is_char suf ->
  first_diff cid (take (length nd) (suf ++ [0])) (take (length nd) (nd ++ [0])) = 0 <->
  take (length nd) suf = nd.
Proof.
  unfold is_char. intros Hnd. revert suf. induction Hnd as [|c nd Hc Hnd IH]; intros suf Hsuf.
  - done.
  - destruct Hsuf as [|d suf Hd Hsuf]; cbn [length take app first_diff].
    + destruct (Z.eqb_spec 0 c); split; intros; try done; exfalso; lia.
    + destruct (Z.eqb_spec d c) as [->|]; [rewrite IH by done; split; [by intros ->|by intros [=]]|].
      split; [intros; exfalso; lia|by intros [=]].
Qed.

Lemma find_sub_here c nd suf :
  find_sub (c :: nd) (c :: suf) =
  if decide (take (length nd) suf = nd) then Some 0%nat else S <$> find_sub (c :: nd) suf.
Proof.
  cbn [find_sub length take]. repeat case_decide; try done; congruence.
Qed.

Lemma strstr_loop_spec l fuel s c find nd m :
  cstr_at m s l -> cstr_at m find nd -> is_char c -> 0 <= s -> (length l < fuel)%nat ->
  strstr_loop fuel s c find (Z.of_nat (length nd)) m =
  Ret (match find_sub (c :: nd) l with Some i => s + Z.of_nat i | None => 0 end, m).
Proof.
  intros Hs Hfind Hc. revert l s Hs.
  induction fuel as [|fuel IH]; intros l s Hs H0 Hf; [lia|]. cbn [strstr_loop]. prog_norm.
  destruct (strstr_scan_spec l (mem_fuel m) s c m Hs) as [[Habs E]|(pre & suf & -> & Hpre & E)];
    [by eapply cstr_at_fuel|done|..]; prog_step E.
  - by rewrite find_sub_absent by done.
  - destruct (Z.eqb_spec (s + Z.of_nat (length pre) + 1) 0); [lia|].
    pose proof Hs as Hsuf. apply (cstr_at_drop _ _ _ (S (length pre))) in Hsuf;
      [|rewrite length_app; simpl; lia].
    rewrite drop_app_ge in Hsuf by lia.
    replace (S (length pre) - length pre)%nat with 1%nat in Hsuf by lia.
    cbn [drop] in Hsuf.
    replace (s + Z.of_nat (S (length pre))) with (s + Z.of_nat (length pre) + 1) in Hsuf by lia.
    assert (strncmp (s + Z.of_nat (length pre) + 1) find (Z.of_nat (length nd)) m =
      Ret (first_diff cid (take (length nd) (suf ++ [0])) (take (length nd) (nd ++ [0])), m))
      as Hcmp.
    { unfold strncmp. destruct (Z.eqb_spec (Z.of_nat (length nd)) 0).
      - by destruct nd.
      - rewrite Nat2Z.id. by apply strncmp_loop_spec. }
    prog_step Hcmp. rewrite find_sub_skip by done. rewrite find_sub_here.
    pose proof (strncmp_prefix nd suf (proj1 Hfind) (proj1 Hsuf)) as Hiff.
    case_decide as Hd.
    + apply Hiff in Hd. rewrite Hd. ret_lia.
    + destruct (Z.eqb_spec (first_diff cid (take (length nd) (suf ++ [0]))
        (take (length nd) (nd ++ [0]))) 0) as [Hz|Hz]; [by apply Hiff in Hz|].
      rewrite (IH suf); [|done|lia|rewrite length_app in Hf; simpl in Hf; lia].
      destruct (find_sub (c :: nd) suf); [ret_lia|done].
Qed.

(** [find_sub] finds the leftmost occurrence. *)
Lemma find_sub_Some nd l i :
  find_sub nd l = Some i <->
  take (length nd) (drop i l) = nd /\ (i <= length l)%nat /\
  forall j, (j < i)%nat -> take (length nd) (drop j l) <> nd.
Proof.
  revert i. induction l as [|c l IH]; intros i; cbn [find_sub].
  - case_decide as Hd.
    + split; [intros [= <-]; split_and!; [done|simpl; lia|lia]|].
      intros (_ & Hi & _). simpl in Hi. f_equal. lia.
    + split; [done|]. intros (H & _). by rewrite drop_nil in H.
  - case_decide as Hd.
    + split; [intros [= <-]; split_and!; [done|lia|lia]|].
      intros (_ & _ & H). destruct i as [|i]; [done|]. by destruct (H 0%nat ltac:(lia)).
    + split.
      * intros (k & Hk & ->)%fmap_Some. apply IH in Hk as (H1 & H2 & H3).
        split_and!; [done|simpl; lia|]. intros [|j] Hj; [done|]. apply H3. lia.
      * intros (H1 & H2 & H3). destruct i as [|i]; [done|]. simpl in H2.
        apply fmap_Some. exists i. split; [|done]. apply IH. split_and!; [done|lia|].
        intros j Hj. apply (H3 (S j)). lia.
Qed.

Lemma find_sub_None nd l :
  find_sub nd l = None ->
  forall j, (j <= length l)%nat -> take (length nd) (drop j l) <> nd.
Proof.
  induction l as [|c l IH]; cbn [find_sub]; case_decide as Hd; try done.
  - intros _ j Hj. simpl in Hj. by replace j with 0%nat by lia.
  - intros E%fmap_None [|j] Hj; [done|]. apply (IH E). simpl in Hj. lia.
Qed.

(** strstr returns the address of the leftmost occurrence of the needle
    (the haystack itself for an empty needle) and NULL when there is none. *)
Theorem strstr_correct s find hay needle m :
  cstr_at m s hay -> cstr_at m find needle -> 0 <= s ->
  Z.of_nat (length needle) < 2 ^ 32 ->
  exists r, strstr s find m = Ret (r, m) /\
    ((exists i, r = s + Z.of_nat i /\ (i <= length hay)%nat /\
        take (length needle) (drop i hay) = needle /\
        forall j, (j < i)%nat -> take (length needle) (drop j hay) <> needle) \/
     (r = 0 /\ forall j, (j <= length hay)%nat -> take (length needle) (drop j hay) <> needle)).
Proof.
  intros Hs Hfind H0 Hlen. unfold strstr. destruct needle as [|c nd].
  - apply cstr_at_nil in Hfind. mem_step. exists s. split; [done|]. left. exists 0%nat.
    split_and!; [lia|lia|done|lia].
  - pose proof Hfind as (Hc & Hc0 & Hnd)%cstr_at_cons. mem_step.
    destruct (Z.eqb_spec c 0); [unfold is_char in Hc; lia|].
    erewrite bind_Ret by (apply strlen_spec; [done|simpl in Hlen; lia]). prog_norm.
    eexists. split; [apply (strstr_loop_spec hay); try done; by eapply cstr_at_fuel|].
    destruct (find_sub (c :: nd) hay) as [i|] eqn:E.
    + apply find_sub_Some in E as (? & ? & ?). left. by exists i.
    + right. split; [done|]. by apply find_sub_None.
Qed.

(** ** The theorems at concrete strings *)
Definition cstring_example : mem :=
  mem_of [(1000, chars "foo bar" ++ replicate 10 0); (2000, chars "bar" ++ [0]);
          (3000, chars "FOO Bar" ++ [0])].

Lemma strcat_correct_witness :
  exists m', strcat 1000 2000 cstring_example = Ret (1000, m') /\
    cstr_at m' 1000 (chars "foo bar" ++ chars "bar") /\ cstr_at m' 2000 (chars "bar") /\
    forall x, x < 1000 + 7 \/ 1000 + 10 < x -> m' !! x = cstring_example !! x.
Proof.
  refine (strcat_correct 1000 2000 (chars "foo bar") (chars "bar") cstring_example _ _ _ _);
    try mem_compute; simpl; lia.
Defined.

Lemma compare_family_witness :
  strcmp 1000 3000 cstring_example = Ret (102 - 70, cstring_example) /\
  strcasecmp 1000 3000 cstring_example = Ret (0, cstring_example) /\
  strncmp 1000 3000 0 cstring_example = Ret (0, cstring_example) /\
  strncasecmp 1000 3000 0 cstring_example = Ret (0, cstring_example) /\
  (first_diff cid (chars "foo bar" ++ [0]) (chars "FOO Bar" ++ [0]) = 0 <->
   chars "foo bar" = chars "FOO Bar").
Proof.
  refine (compare_family 1000 3000 (chars "foo bar") (chars "FOO Bar") 0 cstring_example _ _ _);
    try mem_compute; lia.
Defined.

Lemma strstr_correct_witness :
  exists r, strstr 1000 2000 cstring_example = Ret (r, cstring_example) /\
    ((exists i, r = 1000 + Z.of_nat i /\ (i <= 7)%nat /\
        take 3 (drop i (chars "foo bar")) = chars "bar" /\
        forall j, (j < i)%nat -> take 3 (drop j (chars "foo bar")) <> chars "bar") \/
     (r = 0 /\ forall j, (j <= 7)%nat -> take 3 (drop j (chars "foo bar")) <> chars "bar")).
Proof.
  refine (strstr_correct 1000 2000 (chars "foo bar") (chars "bar") cstring_example _ _ _ _);
    try mem_compute; simpl; lia.
Defined.

Lemma strlcpy_correct_witness :
  strlcpy 1008 3000 5 cstring_example =
  Ret (7, write_bytes cstring_example 1008 (chars "FOO " ++ [0])).
Proof.
  refine (strlcpy_correct 1008 3000 (chars "FOO Bar") 5 cstring_example _ _ _ _ _);
    try mem_compute; simpl; lia.
Defined.
