(* ===== verification/Strtol.v ===== *)
(** * Strtol: the number parser of src/src/string.c

    [strtol] follows the code's phases: white space, sign, base prefix, and
    the digit loop with its overflow test.  The theorem relates it to the
    value of the digits as an unbounded integer, clamped to [long]. *)
From S2P Require Import Prelude Mem Ctype.

(** ** Definitions *)

(** [do c = *s++; while (isspace(c));], the result is [(c, s)]. *)
Fixpoint strtol_space (fuel : nat) (s : Z) : prog mem (Z * Z) :=
  match fuel with
  | O => pnofuel
  | S fuel' =>
      c ← load8 s; if isspace c then strtol_space fuel' (s + 1) else mret (c, s + 1)
  end.

Definition strtol_sign (c s : Z) : prog mem (bool * Z * Z) :=
  if c =? 45 then c' ← load8 s; mret (true, c', s + 1)
  else if c =? 43 then c' ← load8 s; mret (false, c', s + 1)
  else mret (false, c, s).

Definition strtol_prefix (c s base : Z) : prog mem (Z * Z * Z) :=
  '(c, s, base) ←
    (if ((base =? 0) || (base =? 16)) && (c =? 48)
     then x ← load8 s;
          if (x =? 120) || (x =? 88)
          then c' ← load8 (s + 1); mret (c', s + 2, 16)
          else mret (c, s, base)
     else mret (c, s, base));
  mret (c, s, if base =? 0 then (if c =? 48 then 8 else 10) else base).

(** The value of a digit character, [None] where the loop breaks. *)
Definition digit_val (c : Z) : option Z :=
  if negb (isascii c) then None
  else if isdigit c then Some (u8 (c - 48))
  else if isalpha c then Some (u8 (c - (if isupper c then 65 - 10 else 97 - 10)))
  else None.

(** [for (acc = 0, any = 0;; c = *s++)], the result is [(acc, any, s)]. *)
Fixpoint strtol_loop (fuel : nat) (base cutoff cutlim s c acc any : Z) : prog mem (Z * Z * Z) :=
  match fuel with
  | O => pnofuel
  | S fuel' =>
      match digit_val c with
      | None => mret (acc, any, s)
      | Some d =>
          if base <=? d then mret (acc, any, s)
          else
            let '(acc', any') :=
              if (any <? 0) || (cutoff <? acc) || ((acc =? cutoff) && (cutlim <? d))
              then (acc, -1)
              else (u32 (u32 (acc * base) + d), 1) in
            c' ← load8 s; strtol_loop fuel' base cutoff cutlim (s + 1) c' acc' any'
      end
  end.

Definition strtol (nptr endptr base : Z) : prog mem Z :=
  m ← pget;
  '(c, s) ← strtol_space (mem_fuel m) nptr;
  '(neg, c, s) ← strtol_sign c s;
  '(c, s, base) ← strtol_prefix c s base;
  let cutoff := if (neg : bool) then u32 (- 0x80000000) else 0x7FFFFFFF in
  let cutlim := s32 (cutoff mod u32 base) in
  let cutoff := cutoff / u32 base in
  '(acc, any, s) ← strtol_loop (mem_fuel m) base cutoff cutlim s c 0 0;
  let acc := if any <? 0 then (if neg then 0x80000000 else 0x7FFFFFFF)
             else if neg then u32 (- acc) else acc in
  (if endptr =? 0 then mret tt
   else store32 endptr (if any =? 0 then nptr else s - 1));;
  mret (s32 acc).

(** ** Specification *)

(** The characters [cs] are digits of base [b] with the values [ds]. *)
Definition digits_of (b : Z) (cs ds : list Z) : Prop :=
  Forall2 (fun c d => digit_val c = Some d /\ d < b) cs ds.

(** No further digit of base [b] follows. *)
Definition no_digit (b : Z) (tl : list Z) : Prop :=
  forall d, digit_val (default 0 (tl !! 0%nat)) = Some d -> b <= d.

Definition digits_value (b : Z) (ds : list Z) : Z :=
  foldl (fun acc d => acc * b + d) 0 ds.

(** The sign characters and whether they negate. *)
Inductive sign_chars : list Z -> bool -> Prop :=
  | sign_minus : sign_chars [45] true
  | sign_plus : sign_chars [43] false
  | sign_none : sign_chars [] false.

Definition hex_prefix (l : list Z) : Prop :=
  l !! 0%nat = Some 48 /\ (l !! 1%nat = Some 120 \/ l !! 1%nat = Some 88).

(** [base_prefix base pre rest b]: for the argument [base] the text
    [pre ++ rest] is a number of base [b] whose digits start at [rest]. *)
Inductive base_prefix : Z -> list Z -> list Z -> Z -> Prop :=
  | bp_hex base x rest :
      base = 0 \/ base = 16 -> x = 120 \/ x = 88 -> base_prefix base [48; x] rest 16
  | bp_explicit base rest :
      2 <= base <= 36 -> (base = 16 -> ~ hex_prefix rest) -> base_prefix base [] rest base
  | bp_octal rest :
      ~ hex_prefix rest -> rest !! 0%nat = Some 48 -> base_prefix 0 [] rest 8
  | bp_decimal rest :
      rest !! 0%nat <> Some 48 -> base_prefix 0 [] rest 10.

(** A value clamped to the range of [long]. *)
Definition clamp_long (neg : bool) (v : Z) : Z :=
  if neg then - Z.min v (2 ^ 31) else Z.min v (2 ^ 31 - 1).

(** ** Characters and values *)
Lemma digit_val_range c d : is_char c \/ c = 0 -> digit_val c = Some d -> 0 <= d < 36.
Proof.
  unfold digit_val, is_char. intros Hc. destruct (isascii c); [simpl|done].
  destruct (isdigit c) eqn:E1.
  - intros [= <-]. rewrite wrap_small; unfold urange; ctype_lia.
  - destruct (isalpha c) eqn:E2; [|done]. intros [= <-].
    destruct (isupper c) eqn:E3; rewrite wrap_small; unfold urange; ctype_lia.
Qed.

Lemma digit_val_nul : digit_val 0 = None.
Proof. done. Qed.

(** Neither white space nor a sign is a digit, and digits are not NUL. *)
Lemma digits_value_app b ds d :
  digits_value b (ds ++ [d]) = digits_value b ds * b + d.
Proof. unfold digits_value. by rewrite foldl_app. Qed.

Lemma digits_value_mono b ds ds' :
  1 <= b -> Forall (fun d => 0 <= d) ds -> Forall (fun d => 0 <= d) ds' ->
  0 <= digits_value b ds <= digits_value b (ds ++ ds').
Proof.
  intros Hb Hds Hds'.
  assert (forall l, Forall (fun d => 0 <= d) l -> 0 <= digits_value b l) as Hpos.
  { intros l. induction l as [|d l IH] using rev_ind; [done|].
    rewrite Forall_app, digits_value_app. intros [?%IH Hd]. inversion Hd. nia. }
  split; [by apply Hpos|]. induction ds' as [|d ds' IH] using rev_ind.
  - by rewrite app_nil_r.
  - apply Forall_app in Hds' as [Hds' Hd]. inversion Hd.
    rewrite app_assoc, digits_value_app. pose proof (IH Hds').
    pose proof (Hpos (ds ++ ds') ltac:(by apply Forall_app)). nia.
Qed.

(** The overflow test is exact. *)
Lemma cutoff_exact b M acc d :
  0 < b -> 0 <= d < b ->
  ((M / b <? acc) || ((acc =? M / b) && (M mod b <? d))) = (M <? acc * b + d).
Proof.
  intros Hb Hd. pose proof (Z.div_mod M b ltac:(lia)). pose proof (Z.mod_pos_bound M b ltac:(lia)).
  destruct (Z.ltb_spec (M / b) acc); simpl.
  - symmetry. apply Z.ltb_lt. nia.
  - destruct (Z.eqb_spec acc (M / b)) as [->|]; simpl.
    + destruct (Z.ltb_spec (M mod b) d); symmetry; [apply Z.ltb_lt|apply Z.ltb_ge]; lia.
    + symmetry. apply Z.ltb_ge. nia.
Qed.

(** ** The phases of the parser *)
Lemma strtol_space_spec sp l fuel s m :
  Forall (fun c => isspace c = true) sp -> cstr_at m s (sp ++ l) ->
  isspace (default 0 (l !! 0%nat)) = false -> (length (sp ++ l) < fuel)%nat ->
  strtol_space fuel s m =
  Ret ((default 0 (l !! 0%nat), s + Z.of_nat (length sp) + 1), m).
Proof.
  revert fuel s. induction sp as [|c sp IH]; intros [|fuel] s Hsp Hs Hl Hf;
    try (exfalso; lia); cbn [strtol_space].
  - apply cstr_at_first in Hs as (c & Hc & Hm & _). mem_step.
    assert (c = default 0 (l !! 0%nat)) as -> by (destruct l; simpl in *; congruence).
    rewrite Hl. ret_lia.
  - inversion Hsp as [|? ? Hc Hsp']; subst. apply cstr_at_cons in Hs as (? & ? & Hs).
    mem_step. rewrite Hc, (IH fuel (s + 1)); try done; [ret_lia|simpl in Hf; lia].
Qed.

(** What the digit loop knows after the digits [ds]. *)
Definition strtol_inv (b M : Z) (ds : list Z) (acc any : Z) : Prop :=
  (any = 0 /\ ds = [] /\ acc = 0) \/
  (any = 1 /\ ds <> [] /\ acc = digits_value b ds /\ digits_value b ds <= M) \/
  (any = -1 /\ ds <> [] /\ M < digits_value b ds).

Lemma digits_of_nonneg b cs ds :
  Forall is_char cs -> digits_of b cs ds -> Forall (fun d => 0 <= d) ds.
Proof.
  intros Hcs H. induction H as [|c d cs ds [Hd _] H IH]; [done|]. inversion Hcs; subst.
  constructor; [|by apply IH]. apply digit_val_range in Hd; [lia|by left].
Qed.

Lemma strtol_inv_step b M ds acc any d :
  2 <= b <= 36 -> 0 <= M <= 2 ^ 31 -> 0 <= d < b -> Forall (fun d => 0 <= d) ds ->
  strtol_inv b M ds acc any ->
  exists acc' any',
    (if (any <? 0) || (M / b <? acc) || ((acc =? M / b) && (M mod b <? d))
     then (acc, -1) else (u32 (u32 (acc * b) + d), 1)) = (acc', any') /\
    strtol_inv b M (ds ++ [d]) acc' any'.
Proof.
  intros Hb HM Hd Hds Hinv. rewrite <- orb_assoc, cutoff_exact by lia. pow2_literals.
  assert (ds ++ [d] <> []) by (by destruct ds).
  assert (0 <= digits_value b ds).
  { apply (digits_value_mono b ds []); [lia|done..]. }
  destruct Hinv as [(-> & -> & ->)|[(-> & Hne & -> & Hle)|(-> & Hne & Hlt)]]; simpl.
  - destruct (Z.ltb_spec M (0 * b + d)); do 2 eexists; (split; [reflexivity|]); unfold strtol_inv, digits_value; simpl.
    + right; right. split_and!; done || lia.
    + right; left. rewrite wrap_add_l, wrap_small by (unfold urange; pow2_literals; lia).
      split_and!; done || lia.
  - destruct (Z.ltb_spec M (digits_value b ds * b + d)); do 2 eexists; (split; [reflexivity|]);
      unfold strtol_inv; rewrite digits_value_app.
    + right; right. split_and!; done || lia.
    + right; left. rewrite wrap_add_l, wrap_small by (unfold urange; pow2_literals; nia).
      split_and!; done || lia.
  - do 2 eexists. split; [reflexivity|]. right; right. rewrite digits_value_app.
    split_and!; [done|done|nia].
Qed.

Lemma strtol_loop_spec b M cs ds tl fuel a m ds0 acc any :
  2 <= b <= 36 -> 0 <= M <= 2 ^ 31 -> Forall (fun d => 0 <= d) ds0 ->
  cstr_at m a (cs ++ tl) -> digits_of b cs ds -> no_digit b tl ->
  (length cs < fuel)%nat -> strtol_inv b M ds0 acc any ->
  exists acc' any',
    strtol_loop fuel b (M / b) (M mod b) (a + 1) (default 0 ((cs ++ tl) !! 0%nat)) acc any m =
      Ret ((acc', any', a + Z.of_nat (length cs) + 1), m) /\
    strtol_inv b M (ds0 ++ ds) acc' any'.
Proof.
  intros Hb HM Hds0 Hs Hcs Hstop. revert fuel a ds0 acc any Hds0 Hs.
  induction Hcs as [|c d cs ds [Hd Hdb] Hcs IH]; intros [|fuel] a ds0 acc any Hds0 Hs Hf Hinv;
    try (exfalso; simpl in Hf; lia); cbn [strtol_loop].
  - exists acc, any. rewrite app_nil_r. split; [|done]. cbn [app]. unfold no_digit in Hstop.
    destruct (digit_val (default 0 (tl !! 0%nat))) as [d|] eqn:E.
    + destruct (Z.leb_spec b d); [ret_lia|]. specialize (Hstop d eq_refl). lia.
    + ret_lia.
  - rewrite <- app_comm_cons in *. simpl in Hf.
    apply cstr_at_cons in Hs as (Hch & Hm & Hs).
    change (default 0 ((c :: cs ++ tl) !! 0%nat)) with c. rewrite Hd. pose proof (digit_val_range _ _ (or_introl Hch) Hd).
    destruct (Z.leb_spec b d); [lia|].
    destruct (strtol_inv_step b M ds0 acc any d) as (acc' & any' & -> & Hinv'); try done; [lia|].
    pose proof Hs as (c' & Hc' & Hm' & _)%cstr_at_first.
    erewrite bind_Ret by (by apply load8_at).
    assert (c' = default 0 ((cs ++ tl) !! 0%nat)) as ->.
    { destruct (cs ++ tl); simpl in *; congruence. }
    destruct (IH fuel (a + 1) (ds0 ++ [d]) acc' any') as (acc'' & any'' & Hrun & Hinv''); try done.
    { apply Forall_app. split; [done|]. constructor; [lia|done]. }
    { lia. }
    rewrite Hrun. exists acc'', any''. rewrite <- app_assoc in Hinv''. split; [ret_lia|done].
Qed.

Abbreviation first_char l := (default 0 (l !! 0%nat)).

Lemma strtol_sign_spec sg neg l a m :
  sign_chars sg neg -> cstr_at m a (sg ++ l) ->
  (sg = [] -> first_char l <> 45 /\ first_char l <> 43) ->
  strtol_sign (first_char (sg ++ l)) (a + 1) m =
  Ret ((neg, first_char l, a + Z.of_nat (length sg) + 1), m).
Proof.
  intros Hsg Hs Hno. unfold strtol_sign. destruct Hsg; cbn [app length] in *.
  1, 2: change (first_char (?c :: l)) with c;
    apply cstr_at_cons in Hs as (_ & _ & (c & Hc & Hm & _)%cstr_at_first);
    cbn [Z.eqb Pos.eqb]; mem_step;
    assert (c = first_char l) as -> by (destruct l; simpl in *; congruence); ret_lia.
  destruct (Hno eq_refl). repeat case_cmp; [done..|]. ret_lia.
Qed.

Lemma strtol_prefix_spec base pre l b a m :
  base_prefix base pre l b -> cstr_at m a (pre ++ l) ->
  strtol_prefix (first_char (pre ++ l)) (a + 1) base m =
  Ret ((first_char l, a + Z.of_nat (length pre) + 1, b), m).
Proof.
  intros Hb Hs. unfold strtol_prefix.
  assert (forall c, m !! a = Some c -> c = first_char (pre ++ l) ) as Hfst.
  { intros c Hc. apply cstr_at_first in Hs as (c' & Hc' & Hm & _).
    destruct (pre ++ l); simpl in *; congruence. }
  assert (forall c, (pre ++ l) !! 0%nat = Some c ->
    m !! (a + 1) = Some (default 0 ((pre ++ l) !! 1%nat))) as Hsnd.
  { intros c Hc. destruct (pre ++ l) as [|c0 l'] eqn:E; [done|].
    apply cstr_at_cons in Hs as (_ & _ & (c' & Hc' & Hm & _)%cstr_at_first).
    rewrite Hm. destruct l'; simpl in *; congruence. }
  destruct Hb as [base x rest Hbase Hx|base rest Hr Hhex|rest Hhex Hz|rest Hnz];
    cbn [app length] in *.
  - replace ((base =? 0) || (base =? 16)) with true by (symmetry; lia).
    change (first_char (48 :: x :: rest)) with 48. cbn [andb Z.eqb Pos.eqb]. prog_norm.
    specialize (Hsnd 48 eq_refl). simpl in Hsnd. mem_step.
    replace ((x =? 120) || (x =? 88)) with true by (symmetry; lia).
    apply cstr_at_cons in Hs as (_ & _ & Hs).
    apply cstr_at_cons in Hs as (_ & _ & (c & Hc & Hm & _)%cstr_at_first).
    prog_norm. mem_step.
    assert (c = first_char rest) as -> by (destruct rest; simpl in *; congruence). ret_lia.
  - assert ((base =? 0) = false) as E0 by lia. rewrite E0. cbn [orb].
    destruct (Z.eqb_spec base 16) as [->|]; cbn [andb]; [|prog_norm; rewrite E0; ret_lia].
    destruct (Z.eqb_spec (first_char rest) 48) as [E|E]; [|prog_norm; ret_lia].
    destruct rest as [|c rest]; [done|]. simpl in E. subst c. prog_norm.
    specialize (Hsnd 48 eq_refl). simpl in Hsnd. mem_step.
    destruct (_ || _) eqn:Ex; [|prog_norm; ret_lia].
    destruct (Hhex eq_refl). split; [done|]. cbn. destruct rest; simpl in *; [done|].
    destruct (Z.eqb_spec z 120) as [->|]; [by left|].
    destruct (Z.eqb_spec z 88) as [->|]; [by right|done].
  - destruct rest as [|c rest]; [done|]. simpl in Hz. injection Hz as ->.
    cbn. specialize (Hsnd 48 eq_refl). simpl in Hsnd. prog_norm. mem_step.
    destruct (_ || _) eqn:Ex; [|prog_norm; ret_lia].
    destruct Hhex. split; [done|]. cbn. destruct rest; simpl in *; [done|].
    destruct (Z.eqb_spec z 120) as [->|]; [by left|].
    destruct (Z.eqb_spec z 88) as [->|]; [by right|done].
  - assert (first_char rest <> 48) by (destruct rest; simpl in *; congruence).
    assert ((first_char rest =? 48) = false) as E by lia.
    rewrite E, andb_false_r. prog_norm. rewrite E. ret_lia.
Qed.

Lemma base_prefix_range base pre l b : base_prefix base pre l b -> 2 <= b <= 36.
Proof. intros []; lia. Qed.

Lemma sgn_clamp neg v :
  0 <= v ->
  s32 (if neg : bool then u32 (- Z.min v (2 ^ 31)) else Z.min v (2 ^ 31 - 1)) =
  clamp_long neg v.
Proof.
  intros. unfold clamp_long. destruct neg; rewrite ?sgn_wrap;
    apply sgn_small; unfold srange; pow2_literals; lia.
Qed.

(** The result that the code computes from the state of the digit loop. *)
Lemma strtol_result neg b ds acc any :
  0 <= digits_value b ds ->
  strtol_inv b (if neg : bool then 2 ^ 31 else 2 ^ 31 - 1) ds acc any ->
  (any =? 0) = bool_decide (ds = []) /\
  s32 (if any <? 0 then (if neg then 2147483648 else 2147483647)
       else if neg then u32 (- acc) else acc) = clamp_long neg (digits_value b ds).
Proof.
  intros Hv [(-> & -> & ->)|[(-> & Hne & -> & Hle)|(-> & Hne & Hlt)]];
    rewrite <- sgn_clamp by done; cbn [Z.eqb Z.ltb Z.compare].
  - by destruct neg.
  - rewrite bool_decide_eq_false_2 by done. split; [done|].
    destruct neg; rewrite Z.min_l by lia; done.
  - rewrite bool_decide_eq_false_2 by done. split; [done|].
    destruct neg; rewrite Z.min_r by lia; [by rewrite sgn_wrap|done].
Qed.

Lemma strtol_spec nptr endptr base sp sg neg pre b cs ds tl m :
  cstr_at m nptr (sp ++ sg ++ pre ++ cs ++ tl) ->
  Forall (fun c => isspace c = true) sp ->
  isspace (first_char (sg ++ pre ++ cs ++ tl)) = false ->
  sign_chars sg neg ->
  (sg = [] -> first_char (pre ++ cs ++ tl) <> 45 /\ first_char (pre ++ cs ++ tl) <> 43) ->
  base_prefix base pre (cs ++ tl) b -> digits_of b cs ds -> no_digit b tl ->
  endptr = 0 \/ mapped m endptr 4 ->
  let len := Z.of_nat (length (sp ++ sg ++ pre ++ cs)) in
  strtol nptr endptr base m =
  Ret (clamp_long neg (digits_value b ds),
       if endptr =? 0 then m
       else write_bytes m endptr (le32 (if bool_decide (ds = []) then nptr else nptr + len))).
Proof.
  intros Hs Hsp Hns Hsg Hnosg Hpre Hds Hstop Hend len. unfold strtol. prog_norm.
  pose proof (base_prefix_range _ _ _ _ Hpre) as Hb.
  prog_step (strtol_space_spec sp _ (mem_fuel m) nptr m Hsp Hs Hns (cstr_at_fuel _ _ _ Hs)).
  pose proof (cstr_at_drop _ _ _ (length sp) Hs ltac:(rewrite length_app; lia)) as Hs1.
  rewrite drop_app_length in Hs1.
  prog_step (strtol_sign_spec sg neg _ _ m Hsg Hs1 Hnosg).
  pose proof (cstr_at_drop _ _ _ (length sg) Hs1 ltac:(rewrite length_app; lia)) as Hs2.
  rewrite drop_app_length in Hs2.
  prog_step (strtol_prefix_spec base pre _ b _ m Hpre Hs2).
  pose proof (cstr_at_drop _ _ _ (length pre) Hs2 ltac:(rewrite length_app; lia)) as Hs3.
  rewrite drop_app_length in Hs3.
  set (M := if neg then u32 (- 2147483648) else 2147483647).
  assert (M = if neg then 2 ^ 31 else 2 ^ 31 - 1) as EM by (by destruct neg).
  rewrite (wrap_small 32 b) by (unfold urange; pow2_literals; lia).
  rewrite sgn_small; [|lia|pose proof (Z.mod_pos_bound M b ltac:(lia)); unfold srange; pow2_literals; lia].
  destruct (strtol_loop_spec b M cs ds tl (mem_fuel m) _ m [] 0 0 Hb
    ltac:(rewrite EM; destruct neg; pow2_literals; lia) ltac:(constructor) Hs3 Hds Hstop)
    as (acc & any & Hrun & Hinv).
  { apply cstr_at_fuel in Hs3. rewrite length_app in Hs3. lia. }
  { by left. }
  prog_step Hrun. cbn [app] in Hinv.
  assert (0 <= digits_value b ds /\ strtol_inv b (if neg then 2 ^ 31 else 2 ^ 31 - 1) ds acc any)
    as [Hv Hinv'].
  { rewrite <- EM. split; [|done]. apply (digits_value_mono b ds []); [lia| |done].
    eapply digits_of_nonneg; [|done]. destruct Hs3 as [Hs3 _]. by apply Forall_app in Hs3 as [? _]. }
  destruct (strtol_result neg b ds acc any Hv Hinv') as [Eany Eacc].
  assert (len = Z.of_nat (length sp) + Z.of_nat (length sg) + Z.of_nat (length pre) +
    Z.of_nat (length cs)) as Hlen.
  { unfold len. rewrite !length_app. lia. }
  destruct (Z.eqb_spec endptr 0) as [->|Hne].
  - prog_norm. unfold mret, prog_ret. by rewrite Eacc.
  - destruct Hend as [?|Hend]; [done|].
    prog_step (store32_at m endptr (if any =? 0 then nptr else nptr + Z.of_nat (length sp) +
      Z.of_nat (length sg) + Z.of_nat (length pre) + Z.of_nat (length cs) + 1 - 1) Hend).
    unfold mret, prog_ret. rewrite Eacc, Eany.
    replace (nptr + len) with (nptr + Z.of_nat (length sp) + Z.of_nat (length sg) +
      Z.of_nat (length pre) + Z.of_nat (length cs) + 1 - 1) by lia.
    by case_bool_decide.
Qed.

(** C38: strtol on white space [sp], a sign [sg], a base prefix [pre], digits
    [cs] with values [ds] and a rest [tl] that does not continue the number
    returns the signed value of the digits in the base that the prefix
    selects, clamped to [LONG_MIN .. LONG_MAX], and stores through [endptr]
    (when it is not NULL) the address after the last digit, or [nptr] when
    there is no digit. *)
Theorem strtol_correct nptr endptr base sp sg neg pre b cs ds tl m :
  cstr_at m nptr (sp ++ sg ++ pre ++ cs ++ tl) ->
  Forall (fun c => isspace c = true) sp ->
  isspace (first_char (sg ++ pre ++ cs ++ tl)) = false ->
  sign_chars sg neg ->
  (sg = [] -> first_char (pre ++ cs ++ tl) <> 45 /\ first_char (pre ++ cs ++ tl) <> 43) ->
  base_prefix base pre (cs ++ tl) b -> digits_of b cs ds -> no_digit b tl ->
  endptr = 0 \/ mapped m endptr 4 ->
  let len := Z.of_nat (length (sp ++ sg ++ pre ++ cs)) in
  strtol nptr endptr base m =
  Ret (clamp_long neg (digits_value b ds),
       if endptr =? 0 then m
       else write_bytes m endptr (le32 (if bool_decide (ds = []) then nptr else nptr + len))).
Proof. apply strtol_spec. Qed.

Definition strtol_example : mem :=
  mem_of [(1000, chars " -0x1fg" ++ [0]); (2000, [0; 0; 0; 0])].

Lemma strtol_correct_witness :
  strtol 1000 2000 0 strtol_example =
  Ret (-31, write_bytes strtol_example 2000 (le32 1006)).
Proof.
  refine (strtol_correct 1000 2000 0 (chars " ") (chars "-") true (chars "0x") 16
    (chars "1f") [1; 15] (chars "g") strtol_example _ _ _ _ _ _ _ _ _).
  - mem_compute.
  - by repeat constructor.
  - done.
  - constructor.
  - done.
  - apply (bp_hex 0 120 (chars "1fg")); lia.
  - by repeat constructor.
  - intros d [= <-]. done.
  - right. mem_compute.
Defined.
