(* ===== verification/Strtok.v ===== *)
(** * Strtok: src/user/lib/strtok.c

    [__strtok_r] cuts tokens out of a string in place: it overwrites the
    delimiter after the token with a NUL and remembers the rest through
    [last].  The specification says which part of the memory is the token
    and which the rest, and that a sequence of calls lists the maximal
    delimiter-free parts of the text. *)
From S2P Require Import Prelude Mem.

(** ** Definitions *)

(** [for (spanp = delim; (sc = *spanp++) != 0;) if (c == sc) goto cont;] *)
Fixpoint strtok_is_delim (fuel : nat) (c spanp : Z) : prog mem bool :=
  match fuel with
  | O => pnofuel
  | S fuel' =>
      sc ← load8 spanp;
      if sc =? 0 then mret false
      else if c =? sc then mret true else strtok_is_delim fuel' c (spanp + 1)
  end.

(** The [cont:] loop over the leading delimiters; the result is [(c, s)]. *)
Fixpoint strtok_skip (fuel : nat) (s delim : Z) : prog mem (Z * Z) :=
  match fuel with
  | O => pnofuel
  | S fuel' =>
      c ← load8 s; m ← pget;
      d ← strtok_is_delim (mem_fuel m) c delim;
      if d : bool then strtok_skip fuel' (s + 1) delim else mret (c, s + 1)
  end.

(** [do { if ((sc = *spanp++) == c) ... } while (sc != 0);], which also
    stops at the NUL of [delim]. *)
Fixpoint strtok_stop (fuel : nat) (c spanp : Z) : prog mem bool :=
  match fuel with
  | O => pnofuel
  | S fuel' =>
      sc ← load8 spanp;
      if sc =? c then mret true
      else if sc =? 0 then mret false else strtok_stop fuel' c (spanp + 1)
  end.

(** The token loop; the result is the value stored to [*last]. *)
Fixpoint strtok_token (fuel : nat) (s delim : Z) : prog mem Z :=
  match fuel with
  | O => pnofuel
  | S fuel' =>
      c ← load8 s; m ← pget;
      stop ← strtok_stop (mem_fuel m) c delim;
      if stop : bool
      then if c =? 0 then mret 0 else store8 s 0;; mret (s + 1)
      else strtok_token fuel' (s + 1) delim
  end.

Definition __strtok_r (s delim last : Z) : prog mem Z :=
  s ← (if s =? 0 then load32 last else mret s);
  if s =? 0 then mret 0
  else
    m ← pget;
    '(c, s) ← strtok_skip (mem_fuel m) s delim;
    if c =? 0 then store32 last 0;; mret 0
    else
      let tok := s - 1 in
      m ← pget;
      next ← strtok_token (mem_fuel m) s delim;
      store32 last next;; mret tok.

(** The static variable [last] of strtok lies at [strtok_last]. *)
Section strtok.
Variable strtok_last : Z.

Definition strtok (s delim : Z) : prog mem Z := __strtok_r s delim strtok_last.
End strtok.

(** ** Delimiter tests *)
Lemma strtok_is_delim_spec ds fuel c a m :
  cstr_at m a ds -> (length ds < fuel)%nat ->
  strtok_is_delim fuel c a m = Ret (bool_decide (c ∈ ds), m).
Proof.
  revert fuel a. induction ds as [|d ds IH]; intros [|fuel] a Hs Hf;
    try (exfalso; simpl in Hf; lia); cbn [strtok_is_delim]; cstr_first Hs x; mem_step.
  - done.
  - destruct (Z.eqb_spec x 0); [done|]. destruct (Z.eqb_spec c x) as [->|].
    + by rewrite bool_decide_eq_true_2 by apply list_elem_of_here.
    + rewrite IH by (done || lia). do 2 f_equal. apply bool_decide_ext.
      rewrite elem_of_cons. naive_solver.
Qed.

Lemma strtok_stop_spec ds fuel c a m :
  cstr_at m a ds -> (length ds < fuel)%nat ->
  strtok_stop fuel c a m = Ret (bool_decide (c = 0 \/ c ∈ ds), m).
Proof.
  revert fuel a. induction ds as [|d ds IH]; intros [|fuel] a Hs Hf;
    try (exfalso; simpl in Hf; lia); cbn [strtok_stop]; cstr_first Hs x; mem_step.
  - destruct (Z.eqb_spec 0 c) as [<-|]; cbn [Z.eqb].
    + by rewrite bool_decide_eq_true_2 by auto.
    + rewrite bool_decide_eq_false_2; [done|]. rewrite elem_of_nil. naive_solver.
  - destruct (Z.eqb_spec x c) as [->|].
    + rewrite bool_decide_eq_true_2; [done|]. right. apply list_elem_of_here.
    + destruct (Z.eqb_spec x 0); [done|]. rewrite IH by (done || lia).
      do 2 f_equal. apply bool_decide_ext. rewrite elem_of_cons. naive_solver.
Qed.

Lemma strtok_skip_spec lead l ds fuel s delim m :
  cstr_at m s (lead ++ l) -> cstr_at m delim ds ->
  Forall (.∈ ds) lead -> default 0 (l !! 0%nat) ∉ ds -> (length (lead ++ l) < fuel)%nat ->
  strtok_skip fuel s delim m = Ret ((default 0 (l !! 0%nat), s + Z.of_nat (length lead) + 1), m).
Proof.
  intros Hs Hd Hlead Hl. revert fuel s Hs.
  induction Hlead as [|c lead Hc Hlead IH]; intros [|fuel] s Hs Hf;
    try (exfalso; lia); cbn [strtok_skip app] in *.
  - apply cstr_at_first in Hs as (c & Hc & Hm & _). mem_step. prog_norm.
    assert (c = default 0 (l !! 0%nat)) as -> by (destruct l; simpl in *; congruence).
    prog_step (strtok_is_delim_spec ds (mem_fuel m) (default 0 (l !! 0%nat)) delim m Hd
      (cstr_at_fuel _ _ _ Hd)).
    rewrite bool_decide_eq_false_2 by done. ret_lia.
  - apply cstr_at_cons in Hs as (_ & Hm & Hs). mem_step. prog_norm.
    prog_step (strtok_is_delim_spec ds (mem_fuel m) c delim m Hd (cstr_at_fuel _ _ _ Hd)).
    rewrite bool_decide_eq_true_2 by done. rewrite IH; [ret_lia|done|simpl in Hf; lia].
Qed.

(** After the token [tok] the scan stops at the end of the string, or at a
    delimiter, which it overwrites. *)
Lemma strtok_token_spec tok l ds fuel s delim m :
  cstr_at m s (tok ++ l) -> cstr_at m delim ds ->
  Forall (.∉ ds) tok -> (forall c, l !! 0%nat = Some c -> c ∈ ds) ->
  (length (tok ++ l) < fuel)%nat ->
  strtok_token fuel s delim m =
  match l with
  | [] => Ret (0, m)
  | _ :: _ => Ret (s + Z.of_nat (length tok) + 1, <[s + Z.of_nat (length tok) := 0]> m)
  end.
Proof.
  intros Hs Hd Htok Hl. revert fuel s Hs.
  induction Htok as [|c tok Hc Htok IH]; intros [|fuel] s Hs Hf;
    try (exfalso; lia); cbn [strtok_token app] in *.
  - pose proof Hs as (c & Hc & Hm & _)%cstr_at_first. mem_step. prog_norm.
    prog_step (strtok_stop_spec ds (mem_fuel m) c delim m Hd (cstr_at_fuel _ _ _ Hd)).
    destruct l as [|c' l]; simpl in Hc; injection Hc as <-.
    + by rewrite bool_decide_eq_true_2 by auto.
    + rewrite bool_decide_eq_true_2 by auto. simpl. apply cstr_at_cons in Hs as (Hch & _ & _).
      destruct (Z.eqb_spec c' 0); [unfold is_char in Hch; lia|].
      erewrite bind_Ret by (apply store8_at; eauto). by rewrite !Z.add_0_r.
  - apply cstr_at_cons in Hs as (Hch & Hm & Hs). mem_step. prog_norm.
    prog_step (strtok_stop_spec ds (mem_fuel m) c delim m Hd (cstr_at_fuel _ _ _ Hd)).
    rewrite bool_decide_eq_false_2 by (unfold is_char in Hch; intros [->|]; [lia|done]).
    rewrite IH; [|done|simpl in Hf; lia]. simpl.
    replace (s + Z.of_nat (S (length tok))) with (s + 1 + Z.of_nat (length tok)) by lia. done.
Qed.

(** ** One call *)

(** The separation a caller guarantees: the text [l] at [s], the delimiters
    and the variable [last] do not overlap. *)
Record strtok_pre (m : mem) (s : Z) (l : list Z) (delim : Z) (ds : list Z) (last : Z) : Prop := {
  sp_text : cstr_at m s l;
  sp_delim : cstr_at m delim ds;
  sp_last : mapped m last 4;
  sp_bound : 0 < s /\ s + Z.of_nat (length l) < 2 ^ 32;
  sp_text_last : last + 4 <= s \/ s + Z.of_nat (length l) < last;
  sp_text_delim : delim + Z.of_nat (length ds) < s \/ s + Z.of_nat (length l) < delim;
  sp_delim_last : last + 4 <= delim \/ delim + Z.of_nat (length ds) < last
}.

(** The value of [*last] and the memory after a token [tok] at [t] that is
    followed by [l]. *)
Definition next_of (t : Z) (tok l : list Z) : Z :=
  match l with [] => 0 | _ => t + Z.of_nat (length tok) + 1 end.
Definition cut_of (m : mem) (t : Z) (tok l : list Z) : mem :=
  match l with [] => m | _ => <[t + Z.of_nat (length tok) := 0]> m end.

(** With NULL the scan goes on at [*last]. *)
Lemma strtok_r_null m s delim last :
  word_at m last s -> s <> 0 -> __strtok_r 0 delim last m = __strtok_r s delim last m.
Proof.
  intros Hw Hs. unfold __strtok_r. cbn [Z.eqb].
  prog_step (load32_at _ _ _ Hw). destruct (Z.eqb_spec s 0); [done|]. prog_norm.
  by destruct (Z.eqb_spec s 0).
Qed.

Lemma strtok_r_none m s lead delim ds last :
  strtok_pre m s lead delim ds last -> Forall (.∈ ds) lead ->
  __strtok_r s delim last m = Ret (0, write_bytes m last (le32 0)).
Proof.
  intros [Hs Hd Hlast Hb _ _ _] Hlead. unfold __strtok_r.
  destruct (Z.eqb_spec s 0); [lia|]. prog_norm. destruct (Z.eqb_spec s 0); [lia|]. prog_norm.
  rewrite <- (app_nil_r lead) in Hs.
  assert (0 ∉ ds) as H0.
  { intros Hin%list_elem_of_In. destruct Hd as [Hds _]. rewrite List.Forall_forall in Hds.
    apply Hds in Hin. unfold is_char in Hin. lia. }
  prog_step (strtok_skip_spec lead [] ds (mem_fuel m) s delim m Hs Hd Hlead H0
    (cstr_at_fuel _ _ _ Hs)).
  cbn. by prog_step (store32_at m last 0 Hlast).
Qed.

Lemma strtok_r_found m s lead c tok l delim ds last :
  strtok_pre m s (lead ++ (c :: tok) ++ l) delim ds last ->
  Forall (.∈ ds) lead -> Forall (.∉ ds) (c :: tok) ->
  (forall d, l !! 0%nat = Some d -> d ∈ ds) ->
  let t := s + Z.of_nat (length lead) in
  __strtok_r s delim last m =
  Ret (t, write_bytes (cut_of m t (c :: tok) l) last (le32 (next_of t (c :: tok) l))).
Proof.
  intros [Hs Hd Hlast Hb _ _ _] Hlead Htok Hl t. unfold __strtok_r.
  destruct (Z.eqb_spec s 0); [lia|]. prog_norm. destruct (Z.eqb_spec s 0); [lia|]. prog_norm.
  assert (c ∉ ds) as Hc by (by inversion Htok).
  prog_step (strtok_skip_spec lead ((c :: tok) ++ l) ds (mem_fuel m) s delim m Hs Hd Hlead Hc
    (cstr_at_fuel _ _ _ Hs)).
  apply (cstr_at_drop _ _ _ (length lead)) in Hs; [|rewrite length_app; lia].
  rewrite drop_app_length in Hs. apply cstr_at_cons in Hs as (Hch & Hm & Hs). fold t in Hs, Hm |- *.
  change (default 0 (((c :: tok) ++ l) !! 0%nat)) with c.
  destruct (Z.eqb_spec c 0); [unfold is_char in Hch; lia|]. prog_norm.
  inversion Htok; subst.
  pose proof (strtok_token_spec tok l ds (mem_fuel m) (t + 1) delim m Hs Hd ltac:(done) Hl
    (cstr_at_fuel _ _ _ Hs)) as Hrun.
  destruct l as [|d l].
  - prog_step Hrun. prog_step (store32_at m last 0 Hlast). ret_lia.
  - prog_step Hrun. replace (t + 1 + Z.of_nat (length tok)) with
      (t + Z.of_nat (length (c :: tok))) by (simpl; lia).
    prog_step (store32_at _ last (t + Z.of_nat (length (c :: tok)) + 1)
      (mapped_insert _ (t + Z.of_nat (length (c :: tok))) 0 _ _ Hlast)).
    simpl. ret_lia.
Qed.

(** ** A sequence of calls *)

(** The maximal parts of [l] without delimiters, in order. *)
Fixpoint split_go (ds l cur : list Z) : list (list Z) :=
  match l with
  | [] => match cur with [] => [] | _ => [cur] end
  | c :: l' =>
      if decide (c ∈ ds)
      then match cur with [] => split_go ds l' [] | _ => cur :: split_go ds l' [] end
      else split_go ds l' (cur ++ [c])
  end.
Definition split_tokens (ds l : list Z) : list (list Z) := split_go ds l [].

(** [t = strtok_r(s, ...); while (t) t = strtok_r(NULL, ...);] the way the
    shell reads its command line. *)
Fixpoint strtok_all (fuel : nat) (s delim last : Z) : prog mem (list Z) :=
  match fuel with
  | O => pnofuel
  | S fuel' =>
      t ← __strtok_r s delim last;
      if t =? 0 then mret []
      else ts ← strtok_all fuel' 0 delim last; mret (t :: ts)
  end.

Lemma split_lead ds lead l :
  Forall (.∈ ds) lead -> split_tokens ds (lead ++ l) = split_tokens ds l.
Proof.
  unfold split_tokens. induction 1 as [|c lead Hc _ IH]; [done|].
  simpl. by rewrite decide_True.
Qed.

Lemma split_go_tok ds tok l cur :
  Forall (.∉ ds) tok -> split_go ds (tok ++ l) cur = split_go ds l (cur ++ tok).
Proof.
  intros H. revert cur. induction H as [|c tok Hc _ IH]; intros cur; simpl.
  - by rewrite app_nil_r.
  - rewrite decide_False by done. by rewrite IH, <- app_assoc.
Qed.

Lemma split_tokens_found ds lead c tok l :
  Forall (.∈ ds) lead -> Forall (.∉ ds) (c :: tok) ->
  (forall d, l !! 0%nat = Some d -> d ∈ ds) ->
  split_tokens ds (lead ++ (c :: tok) ++ l) = (c :: tok) :: split_tokens ds (tail l).
Proof.
  intros Hlead Htok Hl. rewrite split_lead by done. unfold split_tokens.
  rewrite split_go_tok by done. destruct l as [|d l]; [done|]. cbn [split_go app tail].
  by rewrite decide_True by (by apply Hl).
Qed.

Lemma split_tokens_none ds lead : Forall (.∈ ds) lead -> split_tokens ds lead = [].
Proof. intros. rewrite <- (app_nil_r lead). by rewrite split_lead. Qed.

(** Every text is leading delimiters, a token and a rest. *)
Lemma split_cases (ds l : list Z) :
  Forall (.∈ ds) l \/
  exists lead c tok rest, l = lead ++ (c :: tok) ++ rest /\
    Forall (.∈ ds) lead /\ Forall (.∉ ds) (c :: tok) /\
    (forall d, rest !! 0%nat = Some d -> d ∈ ds).
Proof.
  assert (forall l, exists tok rest, l = tok ++ rest /\ Forall (.∉ ds) tok /\
    (forall d, rest !! 0%nat = Some d -> d ∈ ds)) as Htok.
  { induction l0 as [|c l0 (tok & rest & -> & H1 & H2)]; [by exists [], []|].
    destruct (decide (c ∈ ds)).
    - exists [], (c :: tok ++ rest). split_and!; [done|constructor|by intros ? [= <-]].
    - exists (c :: tok), rest. by split_and!; [|constructor|]. }
  induction l as [|c l IH]; [by left; constructor|]. destruct (decide (c ∈ ds)).
  - destruct IH as [?|(lead & c' & tok & rest & -> & ? & ? & ?)]; [left; by constructor|].
    right. exists (c :: lead), c', tok, rest. by split_and!; [|constructor| |].
  - right. destruct (Htok l) as (tok & rest & -> & ? & ?).
    exists [], c, tok, rest. by split_and!; [|constructor|constructor|].
Qed.

(** The state of the next call satisfies the precondition again. *)
Lemma strtok_pre_next m s lead tok d l delim ds last :
  strtok_pre m s (lead ++ tok ++ d :: l) delim ds last ->
  let t := s + Z.of_nat (length lead) in
  let m' := write_bytes (cut_of m t tok (d :: l)) last (le32 (next_of t tok (d :: l))) in
  strtok_pre m' (next_of t tok (d :: l)) l delim ds last /\ cstr_at m' t tok.
Proof.
  intros [Hs Hd Hlast [Hb Hb'] H1 H2 H3] t m'. rewrite !length_app in *. simpl length in *.
  assert (cstr_at (write_bytes m (t + Z.of_nat (length tok)) [0]) t tok /\
    cstr_at m (t + Z.of_nat (length tok) + 1) l) as [Htok Hl].
  { pose proof Hs as Hs1. apply (cstr_at_drop _ _ _ (length lead)) in Hs1;
      [|rewrite length_app; lia].
    rewrite drop_app_length in Hs1. fold t in Hs1. split.
    - destruct Hs1 as [Hc Hbytes]. apply Forall_app in Hc as [Hc _]. split; [done|].
      rewrite <- app_assoc in Hbytes. apply bytes_at_app in Hbytes as [Hbytes _].
      apply bytes_at_app. split; [apply bytes_at_write_out; [lia|done]|apply bytes_at_write].
    - apply (cstr_at_drop _ _ _ (length tok)) in Hs1; [|rewrite length_app; lia].
      rewrite drop_app_length in Hs1. by apply cstr_at_cons in Hs1 as (_ & _ & ?). }
  unfold m', cut_of, next_of. split; [constructor|]; simpl length; try lia.
  - apply cstr_at_write_out; [simpl; lia|]. apply (cstr_at_write_out _ _ [0]); [simpl; lia|done].
  - apply cstr_at_write_out; [simpl; lia|]. apply (cstr_at_write_out _ _ [0]); [simpl; lia|done].
  - by apply mapped_write, mapped_insert.
  - apply cstr_at_write_out; [simpl; lia|done].
Qed.

(** Where a call may write: the text and the variable [last]. *)
Definition strtok_frame (m m' : mem) (s : Z) (l : list Z) (last : Z) : Prop :=
  forall x, (x < s \/ s + Z.of_nat (length l) < x) -> (x < last \/ last + 4 <= x) ->
    m' !! x = m !! x.

Lemma strtok_all_null fuel delim last m :
  word_at m last 0 -> strtok_all (S fuel) 0 delim last m = Ret ([], m).
Proof.
  intros Hw. cbn [strtok_all]. unfold __strtok_r. cbn [Z.eqb]. prog_norm.
  by prog_step (load32_at _ _ _ Hw).
Qed.

Lemma strtok_all_spec fuel m s s0 l delim ds last :
  strtok_pre m s l delim ds last -> s0 = s \/ (s0 = 0 /\ word_at m last s) ->
  (length l < fuel)%nat ->
  exists ts m', strtok_all fuel s0 delim last m = Ret (ts, m') /\
    Forall2 (cstr_at m') ts (split_tokens ds l) /\ strtok_frame m m' s l last.
Proof.
  revert m s s0 l. induction fuel as [|fuel IH]; intros m s s0 l Hpre Hs0 Hf; [lia|].
  cbn [strtok_all].
  assert (__strtok_r s0 delim last m = __strtok_r s delim last m) as Hstart.
  { destruct Hs0 as [->|[-> Hw]]; [done|]. apply strtok_r_null; [done|].
    apply sp_bound in Hpre. lia. }
  pose proof (sp_bound _ _ _ _ _ _ Hpre) as [Hpos Hmax].
  destruct (split_cases ds l) as [Hno|(lead & c & tok & rest & -> & Hlead & Htok & Hrest)].
  - rewrite (strtok_r_none _ _ _ _ _ _ Hpre Hno) in Hstart. prog_step Hstart.
    do 2 eexists. split; [reflexivity|]. rewrite split_tokens_none by done.
    split; [constructor|]. intros x _ Hx. apply lookup_write_out. simpl. lia.
  - rewrite (strtok_r_found _ _ _ _ _ _ _ _ _ Hpre Hlead Htok Hrest) in Hstart. prog_step Hstart.
    rewrite split_tokens_found by done. rewrite !length_app in *.
    destruct (Z.eqb_spec (s + Z.of_nat (length lead)) 0); [lia|].
    destruct rest as [|d rest].
    + destruct fuel as [|fuel]; [simpl in Hf; lia|].
      erewrite bind_Ret by (apply strtok_all_null, word_at_store; done).
      do 2 eexists. split; [reflexivity|]. split.
      * constructor; [|constructor]. destruct Hpre as [Hs ? ? _ H1 _ _].
        rewrite !length_app in H1. simpl cut_of. apply cstr_at_write_out; [simpl in *; lia|].
        rewrite app_nil_r in Hs. apply (cstr_at_drop _ _ _ (length lead)) in Hs;
          [|rewrite length_app; lia]. by rewrite drop_app_length in Hs.
      * intros x Hx1 Hx2. apply lookup_write_out. simpl. lia.
    + destruct (strtok_pre_next _ _ _ _ _ _ _ _ _ Hpre) as [Hpre' Htok'].
      edestruct (IH _ _ 0 rest Hpre') as (ts & m' & Hrun & Hts & Hframe).
      { right. split; [done|]. apply word_at_store. unfold next_of, urange.
        simpl in *. lia. }
      { simpl in Hf. lia. }
      prog_step Hrun. do 2 eexists. split; [reflexivity|].
      pose proof (sp_text_last _ _ _ _ _ _ Hpre) as H1. rewrite !length_app in H1.
      simpl length in *. split.
      * constructor; [|done]. destruct Htok' as [Hch Hb]. split; [done|].
        apply bytes_at_lookup. intros i b Hi. rewrite bytes_at_lookup in Hb.
        rewrite <- (Hb i b Hi). apply lookup_lt_Some in Hi. rewrite length_app in Hi.
        simpl in Hi. apply Hframe; unfold next_of; simpl length; lia.
      * intros x Hx1 Hx2. rewrite !length_app in Hx1. simpl length in Hx1.
        rewrite Hframe; [|unfold next_of; simpl length; lia|lia].
        rewrite lookup_write_out by (simpl; lia). unfold cut_of. simpl length.
        apply lookup_insert_ne. lia.
Qed.

(** C39: the shell's loop over strtok lists exactly the maximal delimiter-free
    parts of the text, in order: each returned pointer is, in the final
    memory, a NUL-terminated string holding its token, and nothing outside
    the text and the variable [last] has changed. *)
Theorem strtok_all_correct m s l delim ds last :
  strtok_pre m s l delim ds last ->
  exists ts m', strtok_all (S (length l)) s delim last m = Ret (ts, m') /\
    Forall2 (cstr_at m') ts (split_tokens ds l) /\ strtok_frame m m' s l last.
Proof. intros Hpre. by apply (strtok_all_spec _ _ s); [|left|lia]. Qed.

Definition strtok_example : mem :=
  mem_of [(1000, chars " ls  -l x " ++ [0]); (2000, chars " " ++ [0]); (3000, [0; 0; 0; 0])].

Lemma strtok_all_correct_witness :
  exists ts m', strtok_all 11 1000 2000 3000 strtok_example = Ret (ts, m') /\
    Forall2 (cstr_at m') ts [chars "ls"; chars "-l"; chars "x"] /\
    strtok_frame strtok_example m' 1000 (chars " ls  -l x ") 3000.
Proof.
  refine (strtok_all_correct strtok_example 1000 (chars " ls  -l x ") 2000 (chars " ") 3000 _).
  split; try mem_compute; simpl; lia.
Defined.
