(* ===== verification/Heap.v ===== *)
(** * Heap: the allocator of src/src/heap.c

    A heap is an arena tiled by nodes; the free ones form a list in address
    order.  The operations are modelled on the byte memory (a node is a
    [size] word, a [free] word and, while it is free, a [next] word), the
    abstract state is the list of nodes with their sizes, and each operation
    refines its abstract counterpart: first fit with splitting, and release
    with coalescing. *)
From S2P Require Import Prelude Mem.

(** ** Definitions *)

(** [offsetof] of the fields of [HeapNode_t] and [HeapInfo_t]. *)
Definition node_size_ (node : Z) : Z := node.
Definition node_free_ (node : Z) : Z := node + 4.
Definition node_next_ (node : Z) : Z := node + 8.
Definition node_payload (node : Z) : Z := node + 8.
Definition info_heapSize (info : Z) : Z := info.
Definition info_firstAvail (info : Z) : Z := info + 4.
Definition sizeof_HeapNode : Z := 12.
Definition sizeof_HeapInfo : Z := 8.
Definition MIN_NODE_SIZE : Z := sizeof_HeapNode + 4.
Definition AVAIL_MAGIC : Z := 0xAA55AA55.

(** [((uintptr_t)(p) + (a) - 1) / (a) * (a)] *)
Definition ALIGN_CEIL (p a : Z) : Z := u32 (u32 (p + a - 1) / a * a).

Definition HeapInitialize (size heapMem : Z) : prog mem Z :=
  let info := heapMem in
  let first := ALIGN_CEIL (info + sizeof_HeapInfo) 8 in
  store32 (info_heapSize info) size;;
  store32 (info_firstAvail info) first;;
  store32 (node_size_ first) (heapMem + size - first);;
  store32 (node_free_ first) AVAIL_MAGIC;;
  store32 (node_next_ first) 0;;
  mret heapMem.

(** The body of the search once [now] is large enough: split it or take it
    whole, unlink it, and mark it with the heap it belongs to. *)
Definition heap_take (hHeap size now prev : Z) : prog mem Z :=
  nsize ← load32 (node_size_ now);
  next ←
    (if MIN_NODE_SIZE <=? u32 (nsize - size)
     then
       let newnode := now + size in
       store32 (node_size_ newnode) (nsize - size);;
       nnext ← load32 (node_next_ now);
       store32 (node_next_ newnode) nnext;;
       store32 (node_free_ newnode) AVAIL_MAGIC;;
       store32 (node_size_ now) size;;
       mret newnode
     else load32 (node_next_ now));
  (if negb (prev =? 0) then store32 (node_next_ prev) next
   else store32 (info_firstAvail hHeap) next);;
  store32 (node_free_ now) hHeap;;
  mret (node_payload now).

Fixpoint heap_search (fuel : nat) (hHeap size now prev : Z) : prog mem (option Z) :=
  match fuel with
  | O => pnofuel
  | S fuel' =>
      if now =? 0 then mret None
      else
        magic ← load32 (node_free_ now);
        if negb (magic =? AVAIL_MAGIC) then ppanic "Unexpected magic at heapalloc"
        else
          nsize ← load32 (node_size_ now);
          if size <=? nsize
          then p ← heap_take hHeap size now prev; mret (Some p)
          else next ← load32 (node_next_ now); heap_search fuel' hHeap size next now
  end.

Section HeapAlloc.
(** The global variable [hKernelHeap]. *)
Variable hKernelHeap : Z.

Definition HeapAlloc (hHeap size : Z) : prog mem Z :=
  let hHeap := if hHeap =? 0 then hKernelHeap else hHeap in
  let size := u32 (ALIGN_CEIL size 8 + 8) in
  now ← load32 (info_firstAvail hHeap);
  m ← pget;
  r ← heap_search (mem_fuel m) hHeap size now 0;
  match r with
  | Some p => mret p
  | None => if hHeap =? hKernelHeap then ppanic "Kernel ran out of heap memory" else mret 0
  end.
End HeapAlloc.

(** [if ((void * )prev + prev->size == node)]: merge [node] into [prev]; the
    result is the node that goes on. *)
Definition heap_merge_prev (node prev : Z) : prog mem Z :=
  psize ← load32 (node_size_ prev);
  if u32 (prev + psize) =? node
  then
    psize ← load32 (node_size_ prev);
    nsize ← load32 (node_size_ node);
    store32 (node_size_ prev) (psize + nsize);;
    nnext ← load32 (node_next_ node);
    store32 (node_next_ prev) nnext;;
    mret prev
  else mret node.

(** [if ((void * )node + node->size == now)]: merge [now] into [node]. *)
Definition heap_merge_next (node now : Z) : prog mem unit :=
  nsize ← load32 (node_size_ node);
  if u32 (node + nsize) =? now
  then
    nnext ← load32 (node_next_ now);
    store32 (node_next_ node) nnext;;
    nsize ← load32 (node_size_ node);
    nsize' ← load32 (node_size_ now);
    store32 (node_size_ node) (nsize + nsize')
  else mret tt.

(** [node->next = now; ...; return;]: link [node] in before [now] and merge
    it with its neighbours. *)
Definition heap_insert (heap node now prev : Z) : prog mem unit :=
  store32 (node_next_ node) now;;
  node ←
    (if negb (prev =? 0)
     then store32 (node_next_ prev) node;; heap_merge_prev node prev
     else store32 (info_firstAvail heap) node;; mret node);
  heap_merge_next node now.

Fixpoint heap_release (fuel : nat) (heap node now prev ppnow : Z) : prog mem unit :=
  match fuel with
  | O => pnofuel
  | S fuel' =>
      if negb (now =? 0) || negb (ppnow =? 0)
      then
        if (now =? 0) || (node <? now) then heap_insert heap node now prev
        else
          let ppnow' := if negb (now =? 0) then node_next_ now else 0 in
          next ← (if negb (now =? 0) then load32 (node_next_ now) else mret 0);
          heap_release fuel' heap node next now ppnow'
      else mret tt
  end.

Definition HeapFree (ptr : Z) : prog mem unit :=
  let node := ptr - 8 in
  tag ← load32 (node_free_ node);
  if tag =? AVAIL_MAGIC then ppanic "Double free"
  else
    let heap := tag in
    store32 (node_free_ node) AVAIL_MAGIC;;
    now ← load32 (info_firstAvail heap);
    m ← pget;
    heap_release (mem_fuel m) heap node now 0 (info_firstAvail heap).

(** The state is the global variable [hKernelHeap]. *)
Definition getKernelHeap : prog Z Z := pget.
Definition setKernelHeap (heap : Z) : prog Z Z := ret ← pget; pput heap;; mret ret.

(** ** The abstract heap *)

(** A node: whether it is free, and its size with the header. *)
Abbreviation node := (bool * Z)%type.

Definition total (bs : list node) : Z := foldr (fun b acc => b.2 + acc) 0 bs.

(** First fit: the blocks after an allocation of a node of [n] bytes, and the
    offset of the node taken. *)
Fixpoint alloc_first_fit (n : Z) (bs : list node) : option (list node * Z) :=
  match bs with
  | [] => None
  | (fr, s) :: bs' =>
      if (fr : bool) && (n <=? s)
      then Some (if MIN_NODE_SIZE <=? s - n then (false, n) :: (true, s - n) :: bs'
                 else (false, s) :: bs', 0)
      else '(bs'', off) ← alloc_first_fit n bs'; Some ((fr, s) :: bs'', s + off)
  end.

(** Put a free node of size [s] in front of [bs]. *)
Definition merge_next (s : Z) (bs : list node) : list node :=
  match bs with
  | (true, s') :: bs' => (true, s + s') :: bs'
  | _ => (true, s) :: bs
  end.

(** Release the used node at offset [off]; [None] when there is none. *)
Fixpoint release (off : Z) (bs : list node) : option (list node) :=
  match bs with
  | [] => None
  | (fr, s) :: bs' =>
      if off =? 0 then (if fr : bool then None else Some (merge_next s bs'))
      else
        bs'' ← release (off - s) bs';
        Some (if fr then merge_next s bs'' else (fr, s) :: bs'')
  end.

(** ** The representation *)

(** The first free node of [bs], which starts at [a]; [e] when there is none. *)
Fixpoint next_free (a : Z) (bs : list node) (e : Z) : Z :=
  match bs with
  | [] => e
  | (fr, s) :: bs' => if fr : bool then a else next_free (a + s) bs' e
  end.

(** The last free node, [d] when there is none. *)
Fixpoint last_free (d a : Z) (bs : list node) : Z :=
  match bs with
  | [] => d
  | (fr, s) :: bs' => last_free (if fr : bool then a else d) (a + s) bs'
  end.

(** The words of the nodes [bs] of the heap [h], from [a] on; the last free
    one is linked to [e]. *)
Fixpoint nodes_at (m : mem) (h a : Z) (bs : list node) (e : Z) : Prop :=
  match bs with
  | [] => True
  | (fr, s) :: bs' =>
      word_at m a s /\ word_at m (a + 4) (if fr : bool then AVAIL_MAGIC else h) /\
      (fr = true -> word_at m (a + 8) (next_free (a + s) bs' e)) /\
      nodes_at m h (a + s) bs' e
  end.

Definition heap_list (m : mem) (h a : Z) (bs : list node) (e : Z) : Prop :=
  word_at m (h + 4) (next_free a bs e) /\ nodes_at m h a bs e.

(** The cell that points to the free node after [bs]. *)
Definition link_cell (h a : Z) (bs : list node) : Z :=
  let p := last_free 0 a bs in if p =? 0 then h + 4 else p + 8.

(** No two free nodes are adjacent. *)
Fixpoint coalesced (bs : list node) : Prop :=
  match bs with
  | (fr, _) :: ((fr', _) :: _) as bs' => ~ (fr = true /\ fr' = true) /\ coalesced bs'
  | _ => True
  end.

Fixpoint starts_aligned (a : Z) (bs : list node) : Prop :=
  match bs with [] => True | (_, s) :: bs' => a mod 8 = 0 /\ starts_aligned (a + s) bs' end.

Record heap_wf (first : Z) (bs : list node) : Prop := {
  hw_sizes : Forall (fun b => MIN_NODE_SIZE <= b.2) bs;
  hw_coalesced : coalesced bs;
  hw_aligned : starts_aligned first bs
}.

Record heap_rep (m : mem) (h first : Z) (bs : list node) : Prop := {
  hr_list : heap_list m h first bs 0;
  hr_wf : heap_wf first bs;
  hr_bound : 0 < h /\ h + 8 <= first /\ first + total bs < 2 ^ 32;
  hr_handle : h <> AVAIL_MAGIC;
  hr_mapped : mapped m first (total bs)
}.

(** The bytes that belong to the users of the heap. *)
Fixpoint in_payload (a : Z) (bs : list node) (x : Z) : Prop :=
  match bs with
  | [] => False
  | (fr, s) :: bs' => (fr = false /\ a + 8 <= x < a + s) \/ in_payload (a + s) bs' x
  end.

(** What an operation on the heap leaves alone: the users' bytes and
    everything outside the heap. *)
Definition heap_frame (m m' : mem) (h first : Z) (bs : list node) : Prop :=
  forall x, in_payload first bs x \/ x < h \/ h + 8 <= x < first \/ first + total bs <= x ->
    m' !! x = m !! x.

(** ** Lists of nodes *)
Abbreviation sizes_ok := (Forall (fun b : node => MIN_NODE_SIZE <= b.2)).

Lemma total_app bs1 bs2 : total (bs1 ++ bs2) = total bs1 + total bs2.
Proof. induction bs1 as [|b bs1 IH]; simpl; [done|]. rewrite IH. lia. Qed.

Lemma total_nonneg bs : sizes_ok bs -> 0 <= total bs.
Proof. unfold MIN_NODE_SIZE, sizeof_HeapNode. induction 1; simpl; lia. Qed.

Lemma total_length bs : sizes_ok bs -> Z.of_nat (length bs) <= total bs.
Proof. unfold MIN_NODE_SIZE, sizeof_HeapNode. induction 1; simpl length; simpl total; lia. Qed.

Lemma next_free_app a bs1 bs2 e :
  next_free a (bs1 ++ bs2) e = next_free a bs1 (next_free (a + total bs1) bs2 e).
Proof.
  revert a. induction bs1 as [|[[] s] bs1 IH]; intros a; simpl; [by rewrite Z.add_0_r|done|].
  rewrite IH. by replace (a + s + total bs1) with (a + (s + total bs1)) by lia.
Qed.

Lemma last_free_app d a bs1 bs2 :
  last_free d a (bs1 ++ bs2) = last_free (last_free d a bs1) (a + total bs1) bs2.
Proof.
  revert d a. induction bs1 as [|[fr s] bs1 IH]; intros d a; simpl; [by rewrite Z.add_0_r|].
  rewrite IH. by replace (a + s + total bs1) with (a + (s + total bs1)) by lia.
Qed.

Lemma last_free_range d a bs :
  sizes_ok bs ->
  last_free d a bs = d \/ a <= last_free d a bs /\ last_free d a bs + MIN_NODE_SIZE <= a + total bs.
Proof.
  intros H. revert d a. induction H as [|[fr s] bs Hs H IH]; intros d a; simpl; [by left|].
  pose proof (total_nonneg _ H). simpl in Hs. destruct (IH (if fr then a else d) (a + s)) as [E|E].
  - rewrite E. destruct fr; [right; lia|by left].
  - right. unfold MIN_NODE_SIZE, sizeof_HeapNode in *. lia.
Qed.

Lemma next_free_range a bs e :
  sizes_ok bs -> next_free a bs e = e \/ a <= next_free a bs e < a + total bs.
Proof.
  intros H. revert a. induction H as [|[fr s] bs Hs H IH]; intros a; simpl; [by left|].
  pose proof (total_nonneg _ H). simpl in Hs. unfold MIN_NODE_SIZE, sizeof_HeapNode in *.
  destruct fr; [lia|]. destruct (IH (a + s)); lia.
Qed.

Lemma nodes_at_app m h a bs1 bs2 e :
  nodes_at m h a (bs1 ++ bs2) e <->
  nodes_at m h a bs1 (next_free (a + total bs1) bs2 e) /\ nodes_at m h (a + total bs1) bs2 e.
Proof.
  revert a. induction bs1 as [|[fr s] bs1 IH]; intros a; simpl; [rewrite Z.add_0_r; tauto|].
  rewrite IH, next_free_app.
  replace (a + s + total bs1) with (a + (s + total bs1)) by lia. tauto.
Qed.

Lemma heap_list_app m h a bs1 bs2 e :
  heap_list m h a (bs1 ++ bs2) e <->
  heap_list m h a bs1 (next_free (a + total bs1) bs2 e) /\ nodes_at m h (a + total bs1) bs2 e.
Proof. unfold heap_list. rewrite nodes_at_app, next_free_app. tauto. Qed.

Lemma sizes_ok_app bs1 bs2 : sizes_ok (bs1 ++ bs2) <-> sizes_ok bs1 /\ sizes_ok bs2.
Proof. apply Forall_app. Qed.

Lemma coalesced_app bs1 bs2 :
  coalesced (bs1 ++ bs2) <->
  coalesced bs1 /\ coalesced bs2 /\
  (forall s s', list.last bs1 = Some (true, s) -> list.head bs2 = Some (true, s') -> False).
Proof.
  induction bs1 as [|[fr s] bs1 IH]; simpl; [naive_solver|].
  destruct bs1 as [|[fr1 s1] bs1]; simpl.
  - destruct bs2 as [|[fr2 s2] bs2]; simpl; [naive_solver|]. destruct fr, fr2; naive_solver.
  - simpl in IH. rewrite IH. tauto.
Qed.

Lemma starts_aligned_app a bs1 bs2 :
  starts_aligned a (bs1 ++ bs2) <-> starts_aligned a bs1 /\ starts_aligned (a + total bs1) bs2.
Proof.
  revert a. induction bs1 as [|[fr s] bs1 IH]; intros a; simpl; [rewrite Z.add_0_r; tauto|].
  rewrite IH. replace (a + s + total bs1) with (a + (s + total bs1)) by lia. tauto.
Qed.

Lemma in_payload_app a bs1 bs2 x :
  in_payload a (bs1 ++ bs2) x <-> in_payload a bs1 x \/ in_payload (a + total bs1) bs2 x.
Proof.
  revert a. induction bs1 as [|[fr s] bs1 IH]; intros a; simpl; [rewrite Z.add_0_r; tauto|].
  rewrite IH. replace (a + s + total bs1) with (a + (s + total bs1)) by lia. tauto.
Qed.

Lemma in_payload_range a bs x : sizes_ok bs -> in_payload a bs x -> a + 8 <= x < a + total bs.
Proof.
  intros H. revert a. induction H as [|[fr s] bs Hs H IH]; intros a; simpl; [done|].
  pose proof (total_nonneg _ H). simpl in Hs. unfold MIN_NODE_SIZE, sizeof_HeapNode in *.
  intros [?|?%IH]; lia.
Qed.

(** ** Framing and relinking *)
Lemma nodes_at_agree m m' h a bs e :
  nodes_at m h a bs e -> sizes_ok bs ->
  (forall x, a <= x < a + total bs -> m' !! x = m !! x) -> nodes_at m' h a bs e.
Proof.
  intros H Hok. revert a H. induction Hok as [|[fr s] bs Hs Hok IH]; intros a; simpl; [done|].
  pose proof (total_nonneg _ Hok). simpl in Hs. unfold MIN_NODE_SIZE, sizeof_HeapNode in *.
  intros (H1 & H2 & H3 & H4) Heq. split_and!.
  - eapply word_at_frame; [done|]. intros; apply Heq; lia.
  - eapply word_at_frame; [done|]. intros; apply Heq; lia.
  - intros. eapply word_at_frame; [by apply H3|]. intros; apply Heq; lia.
  - apply IH; [done|]. intros; apply Heq; lia.
Qed.

Lemma link_cell_range h a bs :
  sizes_ok bs -> 0 < a ->
  link_cell h a bs = h + 4 \/
  a + 8 <= link_cell h a bs /\ link_cell h a bs + 4 <= a + total bs.
Proof.
  intros Hok Ha. unfold link_cell.
  pose proof (last_free_range 0 a bs Hok). unfold MIN_NODE_SIZE, sizeof_HeapNode in *.
  case_cmp; lia.
Qed.

Lemma write_agree m a l lo hi x :
  lo <= x < hi -> hi <= a \/ a + Z.of_nat (length l) <= lo -> write_bytes m a l !! x = m !! x.
Proof. intros. apply lookup_write_out. lia. Qed.

Lemma heap_list_relink m h a bs e e' :
  heap_list m h a bs e -> sizes_ok bs -> 0 < h -> h + 8 <= a -> urange 32 e' ->
  heap_list (write_bytes m (link_cell h a bs) (le32 e')) h a bs e'.
Proof.
  intros H Hok H0 Ha He'. revert e H.
  induction bs as [|[fr s] bs IH] using rev_ind; intros e H.
  - split; [by apply word_at_store|done].
  - apply sizes_ok_app in Hok as [Hok Hs]. inversion Hs as [|? ? Hs' _]; subst. simpl in Hs'.
    unfold MIN_NODE_SIZE, sizeof_HeapNode in *. pose proof (total_nonneg _ Hok).
    apply heap_list_app in H as [Hl (Hw1 & Hw2 & Hw3 & _)]. apply heap_list_app.
    unfold link_cell. rewrite last_free_app. cbn [last_free next_free nodes_at] in *.
    destruct fr.
    + destruct (Z.eqb_spec (a + total bs) 0); [lia|].
      destruct Hl as [Hl1 Hl2]. split; [split|split_and!; [| |intros _|done]].
      * rewrite word_at_write_out by (simpl; lia). done.
      * eapply nodes_at_agree; [done..|]. intros x Hx. eapply write_agree; [done|simpl; lia].
      * rewrite word_at_write_out by (simpl; lia). done.
      * rewrite word_at_write_out by (simpl; lia). done.
      * by apply word_at_store.
    + specialize (IH Hok e). fold (link_cell h a bs).
      pose proof (link_cell_range h a bs Hok ltac:(lia)).
      split; [by apply IH|]. split_and!; try done.
      * rewrite word_at_write_out by (simpl; lia). done.
      * rewrite word_at_write_out by (simpl; lia). done.
Qed.

Lemma in_payload_link h a bs x :
  sizes_ok bs -> 0 < h -> h + 8 <= a -> in_payload a bs x ->
  x < link_cell h a bs \/ link_cell h a bs + 4 <= x.
Proof.
  intros Hok H0 Ha. induction bs as [|[fr s] bs IH] using rev_ind; [done|].
  apply sizes_ok_app in Hok as [Hok Hs]. inversion Hs as [|? ? Hs' _]; subst. simpl in Hs'.
  unfold MIN_NODE_SIZE, sizeof_HeapNode in *.
  pose proof (total_nonneg _ Hok). pose proof (link_cell_range h a bs Hok ltac:(lia)).
  rewrite in_payload_app. unfold link_cell. rewrite last_free_app. simpl. destruct fr.
  - destruct (Z.eqb_spec (a + total bs) 0); [lia|].
    intros [Hx%in_payload_range|[[??]|[]]]; [lia|done..].
  - fold (link_cell h a bs). intros [Hx|[[? ?]|[]]]; [by apply IH|lia].
Qed.

(** The write of the link, in the two ways the code reaches it. *)
Lemma store_link m h a bs e v :
  heap_list m h a bs e -> sizes_ok bs -> 0 < h -> h + 8 <= a -> mapped m a (total bs) ->
  (if negb (last_free 0 a bs =? 0) then store32 (node_next_ (last_free 0 a bs)) v
   else store32 (info_firstAvail h) v) m =
  Ret (tt, write_bytes m (link_cell h a bs) (le32 v)).
Proof.
  intros [Hl _] Hok H0 Ha Hm. unfold link_cell, node_next_, info_firstAvail.
  pose proof (last_free_range 0 a bs Hok). unfold MIN_NODE_SIZE, sizeof_HeapNode in *.
  case_cmp; simpl; apply store32_at; [by eapply word_at_mapped|].
  eapply mapped_sub; [done|lia..].
Qed.

(** ** Taking a node *)

(** [heap_words] proves what a word holds after the writes of the goal. *)
Ltac word_after :=
  repeat (rewrite word_at_write_out by (simpl length; unfold link_cell in *; lia));
  first [apply word_at_store; first [assumption|unfold urange in *; lia] | eassumption].

Ltac heap_unfold :=
  unfold node_size_, node_free_, node_next_, node_payload, info_heapSize, info_firstAvail,
    MIN_NODE_SIZE, sizeof_HeapNode, sizeof_HeapInfo in *;
  change (12 + 4) with 16 in *.

Lemma AVAIL_MAGIC_range : 0 <= AVAIL_MAGIC < 2 ^ 32.
Proof. unfold AVAIL_MAGIC. lia. Qed.

(** [load_step v] and [store_step] run the next access of the goal. *)
Ltac load_step v :=
  prog_norm;
  match goal with
  | |- context [(load32 ?a ≫= _) ?m] =>
      let H := fresh in assert (word_at m a v) as H by word_after;
      prog_step (load32_at m a v H); clear H
  end.
Ltac store_step Hmap :=
  prog_norm;
  match goal with
  | |- context [(store32 ?a ?v ≫= _) ?m] =>
      let H := fresh in
      assert (mapped m a 4) as H
        by (first [eapply mapped_sub; [exact Hmap|lia|lia]
          |repeat apply mapped_write; eapply mapped_sub; [exact Hmap|lia|lia]]);
      prog_step (store32_at m a v H); clear H
  end.

(** The bytes that the frame protects are outside a free node and the cell
    that points to it. *)
Lemma heap_outside h first bs1 s bs2 x :
  sizes_ok bs1 -> sizes_ok bs2 -> 0 < h -> h + 8 <= first -> MIN_NODE_SIZE <= s ->
  in_payload first (bs1 ++ (true, s) :: bs2) x \/ x < h \/ h + 8 <= x < first \/
    first + total (bs1 ++ (true, s) :: bs2) <= x ->
  (x < link_cell h first bs1 \/ link_cell h first bs1 + 4 <= x) /\
  (x < first + total bs1 \/ first + total bs1 + s <= x).
Proof.
  intros Hok1 Hok2 H0 Hf Hs. rewrite total_app, in_payload_app. simpl. heap_unfold.
  pose proof (total_nonneg _ Hok1). pose proof (total_nonneg _ Hok2).
  pose proof (link_cell_range h first bs1 Hok1 ltac:(lia)).
  intros [[Hx|[[??]|Hx]]|Hx]; [|done| |lia].
  - pose proof (in_payload_range _ _ _ Hok1 Hx). split; [|lia].
    by eapply in_payload_link.
  - pose proof (in_payload_range _ _ _ Hok2 Hx). lia.
Qed.

Lemma heap_take_split m h first bs1 s bs2 n :
  heap_rep m h first (bs1 ++ (true, s) :: bs2) -> MIN_NODE_SIZE <= n -> MIN_NODE_SIZE <= s - n ->
  let now := first + total bs1 in
  exists m', heap_take h n now (last_free 0 first bs1) m = Ret (now + 8, m') /\
    heap_list m' h first (bs1 ++ (false, n) :: (true, s - n) :: bs2) 0 /\
    heap_frame m m' h first (bs1 ++ (true, s) :: bs2) /\
    mapped m' first (total (bs1 ++ (true, s) :: bs2)).
Proof.
  intros [Hl [Hok _ _] Hb _ Hmap] Hn Hrest now. unfold heap_take.
  apply heap_list_app in Hl as [Hl1 (Hw1 & Hw2 & Hw3 & Hl2)]. specialize (Hw3 eq_refl).
  apply sizes_ok_app in Hok as [Hok1 Hok2]. inversion Hok2 as [|? ? Hs Hok3]; subst. clear Hok2.
  rewrite total_app in *. simpl total in *. simpl in Hs. heap_unfold. fold now in Hw1, Hw2, Hw3, Hl1, Hl2.
  pose proof (total_nonneg _ Hok1). pose proof (total_nonneg _ Hok3).
  pose proof (link_cell_range h first bs1 Hok1 ltac:(lia)) as Hcell.
  pose proof AVAIL_MAGIC_range. pose proof (proj1 Hw3) as He.
  load_step s. rewrite (wrap_small 32 (s - n)) by (unfold urange; lia).
  destruct (Z.leb_spec 16 (s - n)); [|lia]. prog_norm.
  store_step Hmap. load_step (next_free (now + s) bs2 0). do 3 store_step Hmap. prog_norm.
  set (m1 := write_bytes (write_bytes (write_bytes (write_bytes m (now + n) _) _ _) _ _) _ _).
  assert (heap_list m1 h first bs1 now) as Hl1'.
  { destruct Hl1 as [Ha Hc]. split; [unfold m1; word_after|].
    eapply nodes_at_agree; [done..|]. intros x Hx. unfold m1.
    rewrite !lookup_write_out by (simpl; lia). done. }
  assert (mapped m1 first (total bs1 + (s + total bs2))) as Hmap1
    by (unfold m1; by repeat apply mapped_write).
  pose proof (store_link m1 h first bs1 now (now + n) Hl1' Hok1 ltac:(lia) ltac:(lia)
    ltac:(eapply mapped_le; [exact Hmap1|lia])) as Hlink.
  prog_step Hlink. pose proof (heap_list_relink m1 h first bs1 now (now + n) Hl1' Hok1 ltac:(lia)
    ltac:(lia) ltac:(unfold urange; lia)) as Hl1''.
  set (m2 := write_bytes m1 (link_cell h first bs1) _) in *.
  assert (mapped m2 first (total bs1 + (s + total bs2))) as Hmap2 by (by apply mapped_write).
  store_step Hmap2. eexists. split; [reflexivity|]. split_and!.
  - rewrite heap_list_app. cbn [next_free nodes_at].
    replace (now + n + (s - n)) with (now + s) by lia. fold now.
    replace (now + n + (s - n)) with (now + s) by lia.
    split; [destruct Hl1'' as [Ha Hc]; split|split_and!; try done].
    + word_after.
    + eapply nodes_at_agree; [exact Hc|done|]. intros x Hx. apply lookup_write_out. simpl. lia.
    + unfold m2, m1. word_after.
    + word_after.
    + unfold m2, m1. word_after.
    + unfold m2, m1. word_after.
    + intros _. unfold m2, m1. word_after.
    + eapply nodes_at_agree; [exact Hl2|done|]. intros x Hx. unfold m2, m1.
      rewrite !lookup_write_out by (simpl; lia). done.
  - intros x Hx. unfold m2, m1.
    destruct (heap_outside h first bs1 s bs2 x Hok1 Hok3 ltac:(lia) ltac:(lia) ltac:(heap_unfold; lia))
      as [Hxc Hxn]; [done|].
    fold now in Hxn.
    rewrite !lookup_write_out by (simpl; lia). done.
  - by apply mapped_write.
Qed.

Lemma heap_take_whole m h first bs1 s bs2 n :
  heap_rep m h first (bs1 ++ (true, s) :: bs2) -> n <= s -> s - n < MIN_NODE_SIZE ->
  let now := first + total bs1 in
  exists m', heap_take h n now (last_free 0 first bs1) m = Ret (now + 8, m') /\
    heap_list m' h first (bs1 ++ (false, s) :: bs2) 0 /\
    heap_frame m m' h first (bs1 ++ (true, s) :: bs2) /\
    mapped m' first (total (bs1 ++ (true, s) :: bs2)).
Proof.
  intros [Hl [Hok _ _] Hb _ Hmap] Hn Hrest now. unfold heap_take.
  apply heap_list_app in Hl as [Hl1 (Hw1 & Hw2 & Hw3 & Hl2)]. specialize (Hw3 eq_refl).
  apply sizes_ok_app in Hok as [Hok1 Hok2]. inversion Hok2 as [|? ? Hs Hok3]; subst. clear Hok2.
  rewrite total_app in *. simpl total in *. simpl in Hs. heap_unfold. fold now in Hw1, Hw2, Hw3, Hl1, Hl2.
  pose proof (total_nonneg _ Hok1). pose proof (total_nonneg _ Hok3).
  pose proof (link_cell_range h first bs1 Hok1 ltac:(lia)) as Hcell.
  pose proof (proj1 Hw3) as He. load_step s.
  rewrite (wrap_small 32 (s - n)) by (unfold urange; lia).
  destruct (Z.leb_spec 16 (s - n)); [lia|]. load_step (next_free (now + s) bs2 0).
  pose proof (store_link m h first bs1 now (next_free (now + s) bs2 0) Hl1 Hok1 ltac:(lia)
    ltac:(lia) ltac:(eapply mapped_le; [exact Hmap|lia])) as Hlink.
  prog_step Hlink. pose proof (heap_list_relink m h first bs1 now _ Hl1 Hok1 ltac:(lia)
    ltac:(lia) He) as Hl1'.
  set (m2 := write_bytes m (link_cell h first bs1) _) in *.
  assert (mapped m2 first (total bs1 + (s + total bs2))) as Hmap2 by (by apply mapped_write).
  store_step Hmap2. eexists. split; [reflexivity|]. split_and!.
  - rewrite heap_list_app. cbn [next_free nodes_at]. fold now.
    split; [destruct Hl1' as [Ha Hc]; split|split_and!; try done].
    + word_after.
    + eapply nodes_at_agree; [exact Hc|done|]. intros x Hx. apply lookup_write_out. simpl. lia.
    + unfold m2. word_after.
    + word_after.
    + eapply nodes_at_agree; [exact Hl2|done|]. intros x Hx. unfold m2.
      rewrite !lookup_write_out by (simpl; lia). done.
  - intros x Hx. unfold m2.
    destruct (heap_outside h first bs1 s bs2 x Hok1 Hok3 ltac:(lia) ltac:(lia)
      ltac:(heap_unfold; lia)) as [Hxc Hxn]; [done|].
    fold now in Hxn. rewrite !lookup_write_out by (simpl; lia). done.
  - by apply mapped_write.
Qed.

(** ** The search *)

(** The nodes after a node of [n] bytes was taken from the free node [s]. *)
Definition taken (n s : Z) : list node :=
  if MIN_NODE_SIZE <=? s - n then [(false, n); (true, s - n)] else [(false, s)].

(** First fit: the node that an allocation takes, and the nodes it passes. *)
Lemma alloc_first_fit_cases n bs :
  (Forall (fun b => b.1 = true -> b.2 < n) bs /\ alloc_first_fit n bs = None) \/
  exists bs1 s bs2, bs = bs1 ++ (true, s) :: bs2 /\
    Forall (fun b => b.1 = true -> b.2 < n) bs1 /\ n <= s /\
    alloc_first_fit n bs = Some (bs1 ++ taken n s ++ bs2, total bs1).
Proof.
  induction bs as [|[fr s] bs IH]; [by left|]. cbn [alloc_first_fit].
  destruct (fr && (n <=? s)) eqn:E.
  - right. exists [], s, bs. apply andb_true_iff in E as [-> ?]. split_and!; [done|done|lia|].
    unfold taken. by destruct (MIN_NODE_SIZE <=? s - n).
  - assert (fr = true -> s < n) by (intros ->; simpl in E; lia).
    destruct IH as [[H1 H2]|(bs1 & s' & bs2 & -> & H1 & H2 & H3)].
    + left. rewrite H2. split; [by constructor|done].
    + right. exists ((fr, s) :: bs1), s', bs2. rewrite H3. split_and!; try done. by constructor.
Qed.

(** The search passes the nodes [b1] that are used or too small. *)
Lemma heap_search_pass m h first bs1 b1 b2 n fuel :
  heap_list m h first (bs1 ++ b1 ++ b2) 0 -> sizes_ok (bs1 ++ b1 ++ b2) -> 0 < first ->
  Forall (fun b => b.1 = true -> b.2 < n) b1 ->
  exists fuel', (fuel <= fuel' + length b1)%nat /\ (fuel' <= fuel)%nat /\
    ((length b1 < fuel)%nat ->
     heap_search fuel h n (next_free (first + total bs1) (b1 ++ b2) 0) (last_free 0 first bs1) m =
     heap_search fuel' h n (next_free (first + total (bs1 ++ b1)) b2 0)
       (last_free 0 first (bs1 ++ b1)) m).
Proof.
  intros Hl Hok Hf Hsmall. revert bs1 fuel Hl Hok.
  induction Hsmall as [|[fr s] b1 Hs Hsmall IH]; intros bs1 fuel Hl Hok.
  - exists fuel. split_and!; [simpl; lia|lia|]. by rewrite app_nil_r.
  - assert (bs1 ++ ((fr, s) :: b1) ++ b2 = (bs1 ++ [(fr, s)]) ++ b1 ++ b2) as E
      by (by rewrite <- !app_assoc).
    assert (first + total (bs1 ++ [(fr, s)]) = first + total bs1 + s) as Et
      by (rewrite total_app; simpl; lia).
    rewrite E in Hl, Hok. destruct fr.
    + destruct fuel as [|fuel]; [exists 0%nat; split_and!; simpl; lia|].
      destruct (IH (bs1 ++ [(true, s)]) fuel) as (fuel' & H1 & H2 & H3); [done..|].
      exists fuel'. split_and!; [simpl; lia..|]. intros Hlen. simpl in Hlen.
      rewrite <- app_assoc in Hl.
      pose proof Hl as [_ (Hw1 & Hw2 & Hw3 & _)]%heap_list_app. specialize (Hw3 eq_refl).
      rewrite <- app_assoc in Hok. apply sizes_ok_app in Hok as [Hok1 Hok2].
      pose proof (total_nonneg _ Hok1).
      cbn [heap_search next_free app]. destruct (Z.eqb_spec (first + total bs1) 0); [lia|].
      unfold node_free_, node_size_, node_next_. mem_step. cbn [negb Z.eqb]. rewrite Z.eqb_refl.
      cbn [negb]. mem_step. destruct (Z.leb_spec n s); [specialize (Hs eq_refl); simpl in Hs; lia|].
      mem_step. rewrite Et, last_free_app in H3. cbn [last_free app] in H3.
      cbn [app]. rewrite H3 by lia. by rewrite <- app_assoc.
    + destruct (IH (bs1 ++ [(false, s)]) fuel) as (fuel' & H1 & H2 & H3); [done..|].
      exists fuel'. split_and!; [simpl; lia..|]. intros Hlen. simpl in Hlen.
      rewrite Et, last_free_app in H3. cbn [last_free app next_free] in *.
      rewrite H3 by lia. by rewrite <- app_assoc.
Qed.

Lemma heap_rep_fuel m h first bs : heap_rep m h first bs -> (length bs < mem_fuel m)%nat.
Proof.
  intros [_ [Hok _ _] _ _ Hmap]. pose proof (total_length _ Hok).
  pose proof (total_nonneg _ Hok).
  destruct (mapped_bytes m first (Z.to_nat (total bs))) as (l & Hl & Hb).
  { by rewrite Z2Nat.id. }
  apply bytes_at_size in Hb. unfold mem_fuel. lia.
Qed.

(** ** Allocation *)
Lemma request_size size :
  1 <= size -> size + 15 < 2 ^ 32 ->
  let n := u32 (ALIGN_CEIL size 8 + 8) in
  n = (size + 7) / 8 * 8 + 8 /\ MIN_NODE_SIZE <= n /\ n mod 8 = 0.
Proof.
  intros H1 H2 n. subst n. unfold ALIGN_CEIL. heap_unfold.
  pose proof (Z.div_mod (size + 7) 8 ltac:(lia)). pose proof (Z.mod_pos_bound (size + 7) 8 ltac:(lia)).
  replace (size + 8 - 1) with (size + 7) by lia.
  assert (1 <= (size + 7) / 8) by (apply Z.div_le_lower_bound; lia).
  rewrite (wrap_small 32 (size + 7)) by (unfold urange; lia).
  rewrite (wrap_small 32 ((size + 7) / 8 * 8)) by (unfold urange; lia).
  rewrite wrap_small by (unfold urange; lia).
  split_and!; [done|lia|]. rewrite Z.add_mod, Z.mod_mul by lia. done.
Qed.

Lemma total_taken n s : total (taken n s) = s.
Proof. unfold taken. case_cmp; simpl; lia. Qed.

Lemma heap_wf_taken first bs1 n s bs2 :
  heap_wf first (bs1 ++ (true, s) :: bs2) -> MIN_NODE_SIZE <= n -> n mod 8 = 0 -> n <= s ->
  heap_wf first (bs1 ++ taken n s ++ bs2).
Proof.
  intros [Hok Hco Hal] Hn Hn8 Hs. apply sizes_ok_app in Hok as [Hok1 Hok2].
  inversion Hok2 as [|? ? Hs0 Hok3]; subst.
  apply coalesced_app in Hco as (Hc1 & Hc2 & Hc3).
  change ((true, s) :: bs2) with ([(true, s)] ++ bs2) in Hc2.
  apply coalesced_app in Hc2 as (_ & Hc4 & Hc5).
  apply starts_aligned_app in Hal as [Ha1 Ha2]. simpl in Ha2. destruct Ha2 as [Ha2 Ha3].
  unfold taken. destruct (Z.leb_spec MIN_NODE_SIZE (s - n)); split.
  - apply sizes_ok_app. split; [done|]. by repeat constructor.
  - apply coalesced_app. split_and!; [done| |naive_solver].
    change ([(false, n); (true, s - n)] ++ bs2) with ([(false, n)] ++ ([(true, s - n)] ++ bs2)).
    apply coalesced_app. split_and!; [done| |naive_solver].
    apply coalesced_app. split_and!; [done|done|]. intros ? s' _ Hh. by eapply Hc5.
  - apply starts_aligned_app. split; [done|]. simpl. split_and!; [done| |].
    + rewrite Z.add_mod, Ha2, Hn8 by lia. done.
    + by replace (first + total bs1 + n + (s - n)) with (first + total bs1 + s) by lia.
  - apply sizes_ok_app. split; [done|]. by constructor.
  - apply coalesced_app. split_and!; [done| |naive_solver].
    apply (coalesced_app [(false, s)]). split_and!; [done|done|naive_solver].
  - by apply starts_aligned_app.
Qed.

Lemma heap_take_spec m h first bs1 s bs2 n :
  heap_rep m h first (bs1 ++ (true, s) :: bs2) -> MIN_NODE_SIZE <= n -> n mod 8 = 0 -> n <= s ->
  let now := first + total bs1 in
  exists m', heap_take h n now (last_free 0 first bs1) m = Ret (now + 8, m') /\
    heap_rep m' h first (bs1 ++ taken n s ++ bs2) /\
    heap_frame m m' h first (bs1 ++ (true, s) :: bs2).
Proof.
  intros Hrep Hn Hn8 Hs now.
  assert (exists m', heap_take h n now (last_free 0 first bs1) m = Ret (now + 8, m') /\
    heap_list m' h first (bs1 ++ taken n s ++ bs2) 0 /\
    heap_frame m m' h first (bs1 ++ (true, s) :: bs2) /\
    mapped m' first (total (bs1 ++ (true, s) :: bs2))) as (m' & H1 & H2 & H3 & H4).
  { unfold taken. destruct (Z.leb_spec MIN_NODE_SIZE (s - n)).
    - by apply heap_take_split.
    - apply heap_take_whole; [done..|lia]. }
  exists m'. split_and!; [done| |done]. destruct Hrep as [_ Hwf Hb Hh _].
  assert (total (bs1 ++ taken n s ++ bs2) = total (bs1 ++ (true, s) :: bs2)) as Et
    by (rewrite !total_app, total_taken; done).
  split; rewrite ?Et; try done. by apply heap_wf_taken.
Qed.

Lemma taken_payload a n s bs x : in_payload a (taken n s ++ bs) x <->
  a + 8 <= x < a + (if MIN_NODE_SIZE <=? s - n then n else s) \/ in_payload (a + s) bs x.
Proof.
  unfold taken. destruct (MIN_NODE_SIZE <=? s - n); simpl.
  - replace (a + n + (s - n)) with (a + s) by lia. naive_solver.
  - naive_solver.
Qed.

(** The contract of HeapAlloc, for its clients. *)
Definition HeapAlloc_contract (hKernelHeap hHeap h first : Z) (bs : list node) (size : Z)
    (m : mem) : Prop :=
  match alloc_first_fit ((size + 7) / 8 * 8 + 8) bs with
  | Some (bs', off) =>
      let p := first + off + 8 in
      exists m', HeapAlloc hKernelHeap hHeap size m = Ret (p, m') /\
        heap_rep m' h first bs' /\ heap_frame m m' h first bs /\ p mod 8 = 0 /\
        (forall x, p <= x < p + size -> in_payload first bs' x /\ ~ in_payload first bs x) /\
        (forall x, in_payload first bs x -> in_payload first bs' x)
  | None =>
      HeapAlloc hKernelHeap hHeap size m =
      if h =? hKernelHeap then Panic "Kernel ran out of heap memory" else Ret (0, m)
  end.

Lemma HeapAlloc_spec m hKernelHeap hHeap h first bs size :
  heap_rep m h first bs -> hHeap = h \/ (hHeap = 0 /\ hKernelHeap = h) ->
  1 <= size -> size + 15 < 2 ^ 32 ->
  HeapAlloc_contract hKernelHeap hHeap h first bs size m.
Proof.
  intros Hrep Hh H1 H2.
  assert ((if hHeap =? 0 then hKernelHeap else hHeap) = h) as Eh.
  { pose proof (hr_bound _ _ _ _ Hrep). case_cmp; lia. }
  unfold HeapAlloc_contract, HeapAlloc. rewrite Eh.
  destruct (request_size size H1 H2) as (En & Hmin & Hn8). rewrite En in *. clear En.
  set (n := (size + 7) / 8 * 8 + 8) in *.
  assert (size + 8 <= n) as Hns.
  { unfold n. pose proof (Z.div_mod (size + 7) 8 ltac:(lia)).
    pose proof (Z.mod_pos_bound (size + 7) 8 ltac:(lia)). lia. }
  pose proof (heap_rep_fuel _ _ _ _ Hrep) as Hfuel.
  pose proof (hr_list _ _ _ _ Hrep) as Hl. pose proof (hw_sizes _ _ (hr_wf _ _ _ _ Hrep)) as Hok.
  pose proof (hr_bound _ _ _ _ Hrep) as Hb. pose proof (proj1 Hl) as Hhead.
  unfold info_firstAvail. mem_step. prog_norm.
  destruct (alloc_first_fit_cases n bs) as [[Hall ->]|(bs1 & s & bs2 & -> & Hsmall & Hs & ->)].
  - destruct (heap_search_pass m h first [] bs [] n (mem_fuel m)) as (fuel' & Hf1 & _ & Hrun).
    { by rewrite app_nil_r. } { by rewrite app_nil_r. } { lia. } { done. }
    simpl in Hrun. rewrite Z.add_0_r, app_nil_r in Hrun. specialize (Hrun ltac:(lia)).
    destruct fuel' as [|fuel']; [lia|]. simpl in Hrun. prog_step Hrun. by case_cmp.
  - destruct (heap_search_pass m h first [] bs1 ((true, s) :: bs2) n (mem_fuel m))
      as (fuel' & Hf1 & _ & Hrun); [done|done|lia|done|].
    rewrite length_app in Hfuel. simpl in Hfuel.
    simpl in Hrun. rewrite Z.add_0_r in Hrun. specialize (Hrun ltac:(lia)).
    destruct fuel' as [|fuel']; [lia|].
    destruct (heap_take_spec m h first bs1 s bs2 n Hrep Hmin Hn8 Hs) as (m' & Htake & Hrep' & Hfr).
    apply heap_list_app in Hl as [_ (Hw1 & Hw2 & _)].
    apply sizes_ok_app in Hok as [Hok1 Hok2]. inversion Hok2 as [|? ? Hs0 Hok3]; subst.
    pose proof (total_nonneg _ Hok1).
    simpl in Hrun. destruct (Z.eqb_spec (first + total bs1) 0); [lia|].
    unfold node_free_, node_size_ in Hrun.
    rewrite (bind_Ret _ _ _ _ _ (load32_at _ _ _ Hw2)) in Hrun.
    rewrite Z.eqb_refl in Hrun. cbn [negb] in Hrun.
    rewrite (bind_Ret _ _ _ _ _ (load32_at _ _ _ Hw1)) in Hrun.
    destruct (Z.leb_spec n s); [|lia].
    rewrite (bind_Ret _ _ _ _ _ Htake) in Hrun.
    prog_step Hrun. exists m'. split_and!; [done|done|done| | |].
    + pose proof (hw_aligned _ _ (hr_wf _ _ _ _ Hrep)) as Hal.
      apply starts_aligned_app in Hal as [_ [Hal _]]. by rewrite Z.add_mod, Hal by lia.
    + intros x Hx. split.
      * rewrite in_payload_app, taken_payload. right. left. case_cmp; lia.
      * rewrite in_payload_app. simpl. intros [Hp%in_payload_range|[[??]|Hp%in_payload_range]]; done || lia.
    + intros x Hx. apply in_payload_app in Hx. apply in_payload_app.
      rewrite taken_payload. simpl in Hx. naive_solver.
Qed.

(** C17: HeapAlloc refines first fit: on a heap with the nodes [bs] it returns
    the payload of the first free node that is large enough (split when the
    rest can hold a node), an 8-byte aligned address whose [size] bytes were
    in no payload before and are in one now; the heap then represents the
    nodes of the abstract allocation, the other users' bytes and everything
    outside the heap are unchanged; when no node fits it panics for the
    kernel heap and returns NULL for another. *)
Theorem HeapAlloc_correct m hKernelHeap hHeap h first bs size :
  heap_rep m h first bs -> hHeap = h \/ (hHeap = 0 /\ hKernelHeap = h) ->
  1 <= size -> size + 15 < 2 ^ 32 ->
  match alloc_first_fit ((size + 7) / 8 * 8 + 8) bs with
  | Some (bs', off) =>
      let p := first + off + 8 in
      exists m', HeapAlloc hKernelHeap hHeap size m = Ret (p, m') /\
        heap_rep m' h first bs' /\ heap_frame m m' h first bs /\ p mod 8 = 0 /\
        (forall x, p <= x < p + size -> in_payload first bs' x /\ ~ in_payload first bs x) /\
        (forall x, in_payload first bs x -> in_payload first bs' x)
  | None =>
      HeapAlloc hKernelHeap hHeap size m =
      if h =? hKernelHeap then Panic "Kernel ran out of heap memory" else Ret (0, m)
  end.
Proof. apply HeapAlloc_spec. Qed.

(** ** Release *)

(** The nodes after the node [s] between [bs1] and [bs2] is released. *)
Fixpoint free_result (bs1 : list node) (s : Z) (bs2 : list node) : list node :=
  match bs1 with
  | [] => merge_next s bs2
  | [(true, p)] => merge_next (p + s) bs2
  | b :: bs1' => b :: free_result bs1' s bs2
  end.

Lemma free_result_free bs1 p s bs2 :
  free_result (bs1 ++ [(true, p)]) s bs2 = bs1 ++ merge_next (p + s) bs2.
Proof.
  induction bs1 as [|[fr q] bs1 IH]; [done|]. cbn [app free_result].
  rewrite <- IH. destruct bs1; [by destruct fr|by destruct fr].
Qed.

Lemma free_result_used bs1 s bs2 :
  (forall p, list.last bs1 <> Some (true, p)) -> free_result bs1 s bs2 = bs1 ++ merge_next s bs2.
Proof.
  induction bs1 as [|[fr q] bs1 IH]; intros Hlast; [done|]. destruct bs1 as [|b bs1].
  - destruct fr; [by destruct (Hlast q)|done].
  - rewrite <- app_comm_cons, <- IH; [by destruct fr|]. intros p Hp. by apply (Hlast p).
Qed.

(** The last free node of [bs] and the used nodes after it. *)
Lemma last_free_split a bs :
  (last_free 0 a bs = 0 /\ Forall (fun b => b.1 = false) bs) \/
  exists bs1 s us, bs = bs1 ++ (true, s) :: us /\ Forall (fun b => b.1 = false) us /\
    last_free 0 a bs = a + total bs1.
Proof.
  induction bs as [|[fr s] bs IH] using rev_ind; [by left|].
  rewrite last_free_app. cbn [last_free]. destruct fr.
  - right. exists bs, s, []. by split_and!.
  - destruct IH as [[E H]|(bs1 & s' & us & -> & H & E)].
    + left. split; [done|]. apply Forall_app. split; [done|]. by repeat constructor.
    + right. exists bs1, s', (us ++ [(false, s)]). split_and!; [by rewrite <- app_assoc| |done].
      apply Forall_app. split; [done|]. by repeat constructor.
Qed.

(** Linking the free node [s] in between [bs1] and [bs2]. *)
Lemma heap_link m h first bs1 s bs2 :
  let node := first + total bs1 in
  let e := next_free (node + s) bs2 0 in
  heap_list m h first bs1 e -> word_at m node s -> word_at m (node + 4) AVAIL_MAGIC ->
  nodes_at m h (node + s) bs2 0 -> sizes_ok (bs1 ++ (true, s) :: bs2) -> 0 < h ->
  h + 8 <= first -> first + total (bs1 ++ (true, s) :: bs2) < 2 ^ 32 -> urange 32 e ->
  let m' := write_bytes (write_bytes m (node + 8) (le32 e)) (link_cell h first bs1) (le32 node) in
  heap_list m' h first (bs1 ++ (true, s) :: bs2) 0 /\
  heap_frame m m' h first (bs1 ++ (true, s) :: bs2).
Proof.
  intros node e Hl Hw1 Hw2 Hn Hok H0 Hf Hb He m'. rewrite total_app in Hb. simpl in Hb.
  apply sizes_ok_app in Hok as [Hok1 Hok2]. inversion Hok2 as [|? ? Hs Hok3]; subst.
  simpl in Hs. heap_unfold. pose proof (total_nonneg _ Hok1). pose proof (total_nonneg _ Hok3).
  pose proof (link_cell_range h first bs1 Hok1 ltac:(lia)) as Hcell. split.
  - apply heap_list_app. cbn [next_free nodes_at]. fold node e. split; [|split_and!; try intros _].
    + apply heap_list_relink with e; try done; [|unfold urange, node; lia].
      destruct Hl as [Ha Hc]. split; [word_after|].
      eapply nodes_at_agree; [done..|]. intros x Hx. apply lookup_write_out. simpl. lia.
    + unfold m'. word_after.
    + unfold m'. word_after.
    + unfold m'. word_after.
    + eapply nodes_at_agree; [exact Hn|done|]. intros x Hx. unfold m'.
      rewrite !lookup_write_out by (simpl; lia). done.
  - intros x Hx. destruct (heap_outside h first bs1 s bs2 x Hok1 Hok3 ltac:(lia) ltac:(lia)
      ltac:(heap_unfold; lia)) as [Hxc Hxn]; [done|].
    unfold m'. rewrite !lookup_write_out by (simpl; lia). done.
Qed.

(** Two adjacent free nodes become one by writing the size and the link of
    the first. *)
Lemma heap_merge m m' h first bs1 p s bs2 :
  let a := first + total bs1 in
  heap_list m h first (bs1 ++ (true, p) :: (true, s) :: bs2) 0 ->
  sizes_ok (bs1 ++ (true, p) :: (true, s) :: bs2) -> 0 < h -> h + 8 <= first ->
  word_at m' a (p + s) -> word_at m' (a + 8) (next_free (a + p + s) bs2 0) ->
  (forall x, x < a \/ a + 4 <= x < a + 8 \/ a + 12 <= x -> m' !! x = m !! x) ->
  heap_list m' h first (bs1 ++ (true, p + s) :: bs2) 0.
Proof.
  intros a Hl Hok H0 Hf Hw1 Hw2 Hag.
  apply sizes_ok_app in Hok as [Hok1 Hok2]. inversion Hok2 as [|? ? Hp Hok3]; subst.
  inversion Hok3 as [|? ? Hs Hok4]; subst. simpl in Hs, Hp. heap_unfold.
  pose proof (total_nonneg _ Hok1). pose proof (total_nonneg _ Hok4).
  apply heap_list_app in Hl as [[Ha Hc] (_ & Hw3 & _ & (_ & _ & _ & Hn))].
  apply heap_list_app. cbn [next_free nodes_at] in *. fold a in Hw3, Hn, Ha, Hc |- *.
  rewrite Z.add_assoc. split; [split|split_and!; try done].
  - eapply word_at_frame; [done|]. intros x Hx. apply Hag. lia.
  - eapply nodes_at_agree; [done..|]. intros x Hx. apply Hag. lia.
  - eapply word_at_frame; [done|]. intros x Hx. apply Hag. lia.
  - eapply nodes_at_agree; [done..|]. intros x Hx. apply Hag. lia.
Qed.

Lemma heap_frame_agree m m1 m2 h first bs1 s bs2 :
  let a := first + total bs1 in
  heap_frame m m1 h first (bs1 ++ (true, s) :: bs2) ->
  sizes_ok (bs1 ++ (true, s) :: bs2) -> 0 < h -> h + 8 <= first ->
  (forall x, x < a \/ a + 4 <= x < a + 8 \/ a + 12 <= x -> m2 !! x = m1 !! x) ->
  heap_frame m m2 h first (bs1 ++ (true, s) :: bs2).
Proof.
  intros a Hfr Hok H0 Hf Hag x Hx. apply sizes_ok_app in Hok as [Hok1 Hok2].
  inversion Hok2 as [|? ? Hs Hok3]; subst. simpl in Hs. heap_unfold.
  destruct (heap_outside h first bs1 s bs2 x Hok1 Hok3 H0 Hf Hs Hx) as [_ Hxn].
  rewrite Hag by lia. by apply Hfr.
Qed.

Lemma heap_merge_next_spec m h first bs1 s bs2 :
  let a := first + total bs1 in
  heap_list m h first (bs1 ++ (true, s) :: bs2) 0 ->
  sizes_ok (bs1 ++ (true, s) :: bs2) -> 0 < h -> h + 8 <= first ->
  first + total (bs1 ++ (true, s) :: bs2) < 2 ^ 32 ->
  exists m', heap_merge_next a (next_free (a + s) bs2 0) m = Ret (tt, m') /\
    heap_list m' h first (bs1 ++ merge_next s bs2) 0 /\
    (forall x, x < a \/ a + 4 <= x < a + 8 \/ a + 12 <= x -> m' !! x = m !! x).
Proof.
  intros a Hl Hok H0 Hf Hb. pose proof Hl as [_ (Hw1 & Hw2 & Hw3 & Hn)]%heap_list_app.
  specialize (Hw3 eq_refl). fold a in Hw1, Hw2, Hw3, Hn.
  pose proof Hok as [Hok1 Hok2]%sizes_ok_app. inversion Hok2 as [|? ? Hs Hok3]; subst.
  pose proof (total_nonneg _ Hok1). pose proof (total_nonneg _ Hok3).
  rewrite total_app in Hb. simpl in Hb, Hs. unfold heap_merge_next. heap_unfold. mem_step.
  rewrite wrap_small by (unfold urange; lia).
  destruct bs2 as [|[[] s'] bs2]; cbn [next_free merge_next] in *.
  - destruct (Z.eqb_spec (a + s) 0); [lia|]. by exists m.
  - rewrite Z.eqb_refl. destruct Hn as (Hw4 & Hw5 & Hw6 & Hn). specialize (Hw6 eq_refl).
    inversion Hok3 as [|? ? Hs' Hok4]; subst. pose proof (total_nonneg _ Hok4).
    simpl in *. pose proof (proj1 Hw6). mem_step.
    assert (mapped m a 12) as Hmap.
    { apply word_at_mapped in Hw1, Hw2, Hw3. intros x Hx.
      destruct (decide (x < a + 4)); [apply Hw1; lia|].
      destruct (decide (x < a + 8)); [apply Hw2|apply Hw3]; lia. }
    store_step Hmap. load_step s. load_step s'.
    rewrite store32_at by (apply mapped_write; eapply mapped_sub; [exact Hmap|lia..]).
    eexists. split; [reflexivity|]. split.
    + eapply (heap_merge m); try done; fold a.
      * apply word_at_store. unfold urange. lia.
      * word_after.
      * intros x Hx. rewrite !lookup_write_out by (simpl; lia). done.
    + intros x Hx. rewrite !lookup_write_out by (simpl; lia). done.
  - inversion Hok3 as [|? ? Hs' Hok4]; subst. simpl in *.
    pose proof (next_free_range (a + s + s') bs2 0 Hok4).
    destruct (Z.eqb_spec (a + s) (next_free (a + s + s') bs2 0)); [lia|]. by exists m.
Qed.

(** Merging into the last free node before [a], which ends at [a] when no
    used node is between. *)
Lemma heap_merge_prev_none m h first bs1 p us s bs2 :
  let prev := first + total bs1 in
  let a := first + total (bs1 ++ (true, p) :: us) in
  heap_list m h first ((bs1 ++ (true, p) :: us) ++ (true, s) :: bs2) 0 ->
  sizes_ok (bs1 ++ (true, p) :: us) -> us <> [] -> 0 <= first ->
  a < 2 ^ 32 -> heap_merge_prev a prev m = Ret (a, m).
Proof.
  intros prev a Hl Hok Hus H0 Ha. rewrite <- app_assoc in Hl.
  apply heap_list_app in Hl as [_ (Hw1 & _)]. fold prev in Hw1.
  apply sizes_ok_app in Hok as [Hok1 Hok2]. inversion Hok2 as [|? ? Hs Hok3]; subst.
  unfold heap_merge_prev. heap_unfold. mem_step. unfold a in *. rewrite total_app in *. simpl in *.
  pose proof (total_nonneg _ Hok1). destruct us as [|[fr u] us]; [done|].
  inversion Hok3 as [|? ? Hu Hok4]; subst. pose proof (total_nonneg _ Hok4). simpl in *.
  rewrite wrap_small by (unfold urange, prev; lia). unfold prev in *.
  case_cmp; [lia|done].
Qed.

Lemma heap_merge_prev_some m h first bs1 p s bs2 :
  let prev := first + total bs1 in
  heap_list m h first (bs1 ++ (true, p) :: (true, s) :: bs2) 0 ->
  sizes_ok (bs1 ++ (true, p) :: (true, s) :: bs2) -> 0 < h -> h + 8 <= first ->
  first + total (bs1 ++ (true, p) :: (true, s) :: bs2) < 2 ^ 32 ->
  exists m', heap_merge_prev (prev + p) prev m = Ret (prev, m') /\
    heap_list m' h first (bs1 ++ (true, p + s) :: bs2) 0 /\
    (forall x, x < prev \/ prev + 4 <= x < prev + 8 \/ prev + 12 <= x -> m' !! x = m !! x).
Proof.
  intros prev Hl Hok H0 Hf Hb. pose proof Hl as [_ (Hw1 & Hw2 & Hw3 & Hn)]%heap_list_app.
  specialize (Hw3 eq_refl). fold prev in Hw1, Hw2, Hw3, Hn.
  destruct Hn as (Hw4 & Hw5 & Hw6 & Hn). specialize (Hw6 eq_refl).
  pose proof Hok as [Hok1 Hok2]%sizes_ok_app. inversion Hok2 as [|? ? Hp Hok3]; subst.
  inversion Hok3 as [|? ? Hs Hok4]; subst.
  pose proof (total_nonneg _ Hok1). pose proof (total_nonneg _ Hok4).
  rewrite total_app in Hb. simpl in Hb, Hs, Hp. unfold heap_merge_prev. heap_unfold. mem_step.
  rewrite wrap_small by (unfold urange; lia). rewrite Z.eqb_refl. do 2 mem_step.
  pose proof (proj1 Hw6).
  assert (mapped m prev 12) as Hmap.
  { apply word_at_mapped in Hw1, Hw2, Hw3. intros x Hx.
    destruct (decide (x < prev + 4)); [apply Hw1; lia|].
    destruct (decide (x < prev + 8)); [apply Hw2|apply Hw3]; lia. }
  store_step Hmap. load_step (next_free (prev + p + s) bs2 0). store_step Hmap.
  eexists. split; [reflexivity|]. split.
  - eapply (heap_merge m); try done; fold prev; [word_after|word_after|].
    intros x Hx. rewrite !lookup_write_out by (simpl; lia). done.
  - intros x Hx. rewrite !lookup_write_out by (simpl; lia). done.
Qed.

(** The insertion after the link is written: the two merges. *)
Lemma heap_insert_merges m0 m h first bs1 s bs2 :
  let node := first + total bs1 in
  let e := next_free (node + s) bs2 0 in
  let prev := last_free 0 first bs1 in
  heap_list m h first (bs1 ++ (true, s) :: bs2) 0 ->
  heap_frame m0 m h first (bs1 ++ (true, s) :: bs2) ->
  sizes_ok (bs1 ++ (true, s) :: bs2) -> 0 < h -> h + 8 <= first ->
  first + total (bs1 ++ (true, s) :: bs2) < 2 ^ 32 ->
  exists m',
    (node ← (if negb (prev =? 0) then heap_merge_prev node prev else mret node);
     heap_merge_next node e) m = Ret (tt, m') /\
    heap_list m' h first (free_result bs1 s bs2) 0 /\
    heap_frame m0 m' h first (bs1 ++ (true, s) :: bs2).
Proof.
  intros node e prev Hl Hfr Hok H0 Hf Hb.
  destruct (last_free_split first bs1) as [[E Hu]|(A & p & us & -> & Hu & E)];
    fold prev in E.
  - rewrite E. cbn [Z.eqb negb]. prog_norm.
    destruct (heap_merge_next_spec m h first bs1 s bs2 Hl Hok H0 Hf Hb) as (m' & H1 & H2 & H3).
    exists m'. split_and!; [done| |by eapply heap_frame_agree].
    rewrite free_result_used; [done|]. intros q Hq. apply list.last_Some in Hq as [l ->].
    apply Forall_app in Hu as [_ Hu]. by inversion Hu.
  - pose proof Hok as [Hok1 Hok2]%sizes_ok_app. pose proof Hok1 as [HokA Hokp]%sizes_ok_app.
    pose proof (total_nonneg _ HokA). destruct (Z.eqb_spec prev 0); [lia|]. cbn [negb].
    destruct us as [|u us].
    + rewrite <- app_assoc in Hl, Hfr, Hok, Hb. simpl in Hl, Hfr, Hok, Hb.
      destruct (heap_merge_prev_some m h first A p s bs2 Hl Hok H0 Hf Hb) as (m1 & H1 & H2 & H3).
      rewrite <- E in H1, H3. replace (prev + p) with node in H1
        by (unfold node; rewrite E, total_app; simpl; lia).
      prog_step H1. rewrite free_result_free.
      assert (sizes_ok (A ++ (true, p + s) :: bs2) /\
        total (A ++ (true, p + s) :: bs2) = total (A ++ (true, p) :: (true, s) :: bs2)) as [Hok' Et].
      { apply sizes_ok_app in Hok as [_ Hok]. inversion Hok as [|? ? Hp Hok'']; subst.
        inversion Hok'' as [|? ? Hs Hok4]; subst. simpl in Hp, Hs. heap_unfold. split.
        - apply Forall_app. split; [done|]. constructor; [simpl; lia|done].
        - rewrite !total_app. simpl. lia. }
      destruct (heap_merge_next_spec m1 h first A (p + s) bs2 H2 Hok' H0 Hf ltac:(by rewrite Et))
        as (m' & H4 & H5 & H6).
      rewrite <- E in H4, H6. replace (prev + (p + s)) with (node + s) in H4
        by (unfold node; rewrite E, total_app; simpl; lia).
      exists m'. split_and!; [done|done|]. rewrite <- app_assoc. simpl.
      eapply (heap_frame_agree m0 m); try done. rewrite <- E.
      intros x Hx. by rewrite H6, H3.
    + rewrite E. rewrite total_app in Hb.
      assert (Hne : heap_merge_prev node (first + total A) m = Ret (node, m)).
      { eapply heap_merge_prev_none; [exact Hl|done|done|lia|].
        pose proof (total_nonneg _ Hok2). lia. }
      prog_step Hne. rewrite <- total_app in Hb.
      destruct (heap_merge_next_spec m h first _ s bs2 Hl Hok H0 Hf Hb) as (m' & H1 & H2 & H3).
      exists m'. split_and!; [done| |by eapply heap_frame_agree].
      rewrite free_result_used; [done|]. intros q Hq.
      rewrite list.last_app_cons in Hq. change (list.last (u :: us) = Some (true, q)) in Hq.
      apply list.last_Some in Hq as [l El]. rewrite El in Hu. apply Forall_app in Hu as [_ Hu]. by inversion Hu.
Qed.

Lemma heap_insert_spec m h first bs1 s bs2 :
  let node := first + total bs1 in
  let e := next_free (node + s) bs2 0 in
  heap_list m h first bs1 e -> word_at m node s -> word_at m (node + 4) AVAIL_MAGIC ->
  nodes_at m h (node + s) bs2 0 -> sizes_ok (bs1 ++ (true, s) :: bs2) -> 0 < h ->
  h + 8 <= first -> first + total (bs1 ++ (true, s) :: bs2) < 2 ^ 32 -> urange 32 e ->
  mapped m first (total (bs1 ++ (true, s) :: bs2)) ->
  exists m', heap_insert h node e (last_free 0 first bs1) m = Ret (tt, m') /\
    heap_list m' h first (free_result bs1 s bs2) 0 /\
    heap_frame m m' h first (bs1 ++ (true, s) :: bs2).
Proof.
  intros node e Hl Hw1 Hw2 Hn Hok H0 Hf Hb He Hmap.
  destruct (heap_link m h first bs1 s bs2 Hl Hw1 Hw2 Hn Hok H0 Hf Hb He) as [Hl2 Hfr].
  pose proof Hok as [Hok1 Hok2]%sizes_ok_app. inversion Hok2 as [|? ? Hs Hok3]; subst.
  pose proof (total_nonneg _ Hok1). pose proof (total_nonneg _ Hok3).
  pose proof Hmap as Hmap'. rewrite total_app in Hmap'. simpl in Hs, Hmap'.
  unfold heap_insert. heap_unfold. store_step Hmap'. fold node e in Hl2, Hfr.
  set (m1 := write_bytes m (node + 8) (le32 e)) in *.
  assert (heap_list m1 h first bs1 e) as Hl1.
  { destruct Hl as [Ha Hc]. split; [unfold m1; word_after|].
    eapply nodes_at_agree; [done..|]. intros x Hx. apply lookup_write_out. simpl. lia. }
  pose proof (store_link m1 h first bs1 e node Hl1 Hok1 H0 Hf) as Hlink.
  specialize (Hlink ltac:(apply mapped_write; eapply mapped_le; [exact Hmap'|lia])).
  destruct (heap_insert_merges m _ h first bs1 s bs2 Hl2 Hfr Hok H0 Hf Hb) as (m' & Hm & ? & ?).
  exists m'. split_and!; [|done|done]. heap_unfold. fold node e in Hm.
  destruct (negb (last_free 0 first bs1 =? 0)); by prog_step Hlink.
Qed.

(** The release passes the nodes before the released one. *)
Lemma heap_release_pass m h first bs1 b1 e node ppnow fuel :
  heap_list m h first (bs1 ++ b1) e -> sizes_ok (bs1 ++ b1) -> 0 < first ->
  first + total (bs1 ++ b1) <= node -> ppnow <> 0 -> (length b1 < fuel)%nat ->
  exists fuel' ppnow', (fuel <= fuel' + length b1)%nat /\ ppnow' <> 0 /\
    heap_release fuel h node (next_free (first + total bs1) b1 e) (last_free 0 first bs1) ppnow m =
    heap_release fuel' h node e (last_free 0 first (bs1 ++ b1)) ppnow' m.
Proof.
  intros Hl Hok Hf Hnode. revert bs1 fuel ppnow Hl Hok Hnode.
  induction b1 as [|[fr s] b1 IH]; intros bs1 fuel ppnow Hl Hok Hnode Hpp Hfuel.
  - exists fuel, ppnow. split_and!; [simpl; lia|done|]. by rewrite app_nil_r.
  - assert (bs1 ++ (fr, s) :: b1 = (bs1 ++ [(fr, s)]) ++ b1) as E by (by rewrite <- app_assoc).
    assert (first + total (bs1 ++ [(fr, s)]) = first + total bs1 + s) as Et
      by (rewrite total_app; simpl; lia).
    pose proof Hok as [Hok1 Hok2]%sizes_ok_app. pose proof (total_nonneg _ Hok1).
    inversion Hok2 as [|? ? Hs Hok3]; subst. pose proof (total_nonneg _ Hok3). simpl in Hs.
    pose proof Hl as [_ (Hw1 & Hw2 & Hw3 & _)]%heap_list_app. simpl in Hfuel.
    rewrite total_app in Hnode. simpl in Hnode. heap_unfold.
    rewrite E in Hl, Hok. destruct fr; simpl in Hfuel.
    + specialize (Hw3 eq_refl). destruct fuel as [|fuel]; [lia|].
      destruct (IH (bs1 ++ [(true, s)]) fuel (first + total bs1 + 8))
        as (fuel' & ppnow' & H1 & H2 & H3); try done; try lia.
      { rewrite <- E, total_app. simpl. lia. }
      exists fuel', ppnow'. split_and!; [simpl; lia|done|].
      cbn [heap_release next_free]. destruct (Z.eqb_spec (first + total bs1) 0); [lia|].
      cbn [negb orb]. destruct (Z.ltb_spec node (first + total bs1)); [lia|].
      unfold node_next_. mem_step. rewrite Et, last_free_app in H3. cbn [last_free] in H3.
      rewrite H3. by rewrite <- E.
    + destruct (IH (bs1 ++ [(false, s)]) fuel ppnow)
        as (fuel' & ppnow' & H1 & H2 & H3); try done; try lia.
      { rewrite <- E, total_app. simpl. lia. }
      exists fuel', ppnow'. split_and!; [simpl; lia|done|].
      rewrite Et, last_free_app in H3. cbn [last_free next_free] in *. rewrite H3. by rewrite <- E.
Qed.

Lemma merge_next_payload a s bs x :
  in_payload a (merge_next s bs) x <-> in_payload (a + s) bs x.
Proof.
  destruct bs as [|[[] s'] bs]; simpl.
  - naive_solver.
  - rewrite Z.add_assoc. naive_solver.
  - naive_solver.
Qed.

Lemma free_result_payload a bs1 s bs2 x :
  in_payload a (free_result bs1 s bs2) x <-> in_payload a (bs1 ++ (true, s) :: bs2) x.
Proof.
  revert a. induction bs1 as [|[fr q] bs1 IH]; intros a; cbn [free_result].
  - rewrite merge_next_payload. simpl. naive_solver.
  - destruct fr; [destruct bs1 as [|b bs1]|].
    + rewrite merge_next_payload, Z.add_assoc. simpl. naive_solver.
    + cbn [app in_payload] in *. rewrite IH. done.
    + cbn [app in_payload] in *. rewrite IH. done.
Qed.

Lemma total_merge_next s bs : total (merge_next s bs) = s + total bs.
Proof. destruct bs as [|[[] s'] bs]; simpl; lia. Qed.

Lemma total_free_result bs1 s bs2 : total (free_result bs1 s bs2) = total bs1 + (s + total bs2).
Proof.
  induction bs1 as [|[fr q] bs1 IH]; cbn [free_result].
  - rewrite total_merge_next. simpl. lia.
  - destruct fr; [destruct bs1 as [|b bs1]|].
    + rewrite total_merge_next. simpl. lia.
    + simpl in *. rewrite IH. lia.
    + simpl in *. rewrite IH. lia.
Qed.

Lemma merge_next_wf a s bs :
  MIN_NODE_SIZE <= s -> a mod 8 = 0 -> sizes_ok bs -> coalesced bs -> starts_aligned (a + s) bs ->
  heap_wf a (merge_next s bs).
Proof.
  intros Hs Ha Hok Hc Hal. destruct bs as [|[[] s'] bs]; cbn [merge_next].
  - split; [by repeat constructor|done|done].
  - inversion Hok; subst. simpl in *. split.
    + constructor; [simpl; heap_unfold; lia|done].
    + destruct bs as [|[fr s''] bs]; [done|]. destruct Hc as [Hc1 Hc2]. by split.
    + simpl. rewrite Z.add_assoc. tauto.
  - split; [by constructor| |done]. split; [naive_solver|done].
Qed.

Lemma heap_wf_tail a b bs : heap_wf a (b :: bs) -> heap_wf (a + b.2) bs.
Proof.
  destruct b as [fr s]. intros [Hok Hc Hal]. split.
  - by inversion Hok.
  - destruct bs as [|[fr' s'] bs]; [done|]. by destruct Hc.
  - by destruct Hal.
Qed.

Lemma free_result_wf a bs1 s bs2 :
  heap_wf a (bs1 ++ (false, s) :: bs2) -> heap_wf a (free_result bs1 s bs2).
Proof.
  revert a. induction bs1 as [|[fr q] bs1 IH]; intros a Hwf.
  - pose proof (heap_wf_tail _ _ _ Hwf) as [Ho1 Ho2 Ho3]. destruct Hwf as [Hok Hc Hal].
    simpl in Hal. inversion Hok; subst. cbn [free_result]. apply merge_next_wf; naive_solver.
  - pose proof (IH _ (heap_wf_tail _ _ _ Hwf)) as Hwf'. destruct Hwf as [Hok Hc Hal].
    simpl in Hal. destruct Hal as [Ha Hal]. inversion Hok as [|? ? Hq Hok1]; subst.
    assert ((forall t, fr = true -> list.head (free_result bs1 s bs2) <> Some (true, t)) ->
      heap_wf a ((fr, q) :: free_result bs1 s bs2)) as Hcons.
    { intros Hh. destruct Hwf' as [Hk1 Hk2 Hk3]. split; [by constructor| |done].
      destruct (free_result bs1 s bs2) as [|[fr' t'] bs]; [done|]. split; [|done].
      intros [-> ->]. by apply (Hh t'). }
    cbn [free_result]. destruct fr; [|destruct bs1; by apply Hcons].
    destruct bs1 as [|[fr1 q1] bs1].
    + inversion Hok1 as [|? ? Hs Hok2]; subst. simpl in Hs, Hq, Hal. destruct Hal as [_ Hal].
      apply merge_next_wf; [heap_unfold; lia|done|done| |by rewrite Z.add_assoc].
      destruct Hc as [_ Hc]. destruct bs2 as [|[fr2 s2] bs2]; [done|]. by destruct Hc.
    + destruct Hc as [Hc _]. destruct fr1; [naive_solver|]. by apply Hcons.
Qed.

(** The abstract release, at the node it names. *)
Lemma release_spec off bs bs' :
  release off bs = Some bs' -> sizes_ok bs -> coalesced bs ->
  exists bs1 s bs2, bs = bs1 ++ (false, s) :: bs2 /\ off = total bs1 /\ bs' = free_result bs1 s bs2.
Proof.
  revert off bs'. induction bs as [|[fr q] bs IH]; intros off bs' Hr Hok Hc; [done|].
  cbn [release] in Hr. inversion Hok as [|? ? Hq Hok1]; subst. destruct (Z.eqb_spec off 0) as [->|].
  - destruct fr; [done|]. injection Hr as <-. by exists [], q, bs.
  - apply bind_Some in Hr as (bs'' & Hr & [= <-]).
    assert (coalesced bs) as Hc1 by (destruct bs as [|[fr1 q1] bs]; [done|]; by destruct Hc).
    destruct (IH _ _ Hr Hok1 Hc1) as (bs1 & s & bs2 & -> & Ho & ->).
    exists ((fr, q) :: bs1), s, bs2. split_and!; [done|simpl; lia|]. cbn [free_result].
    destruct fr; [|done]. destruct bs1 as [|[fr1 q1] bs1].
    + destruct bs2 as [|[[] s2] bs2]; simpl; [done| |done]. by rewrite Z.add_assoc.
    + destruct Hc as [Hc _]. destruct fr1; [naive_solver|done].
Qed.

Lemma keeps_heap_insert heap node now prev : keeps_mapped (heap_insert heap node now prev).
Proof. unfold heap_insert, heap_merge_prev, heap_merge_next. auto 20 with mapped. Qed.

Lemma HeapFree_spec m h first bs off bs' :
  heap_rep m h first bs -> release off bs = Some bs' ->
  exists m', HeapFree (first + off + 8) m = Ret (tt, m') /\
    heap_rep m' h first bs' /\ heap_frame m m' h first bs' /\ total bs' = total bs.
Proof.
  intros Hrep Hr. pose proof (heap_rep_fuel _ _ _ _ Hrep) as Hfuel.
  destruct Hrep as [Hl Hwf Hb Hh Hmap]. pose proof Hwf as [Hok Hc _].
  destruct (release_spec _ _ _ Hr Hok Hc) as (bs1 & s & bs2 & -> & -> & ->).
  apply heap_list_app in Hl as [Hl (Hw1 & Hw2 & _ & Hn)].
  apply sizes_ok_app in Hok as [Hok1 Hok2]. inversion Hok2 as [|? ? Hs Hok3]; subst.
  pose proof (total_nonneg _ Hok1). pose proof (total_nonneg _ Hok3).
  rewrite total_app in *. simpl in Hb, Hs, Hmap, Hl. heap_unfold. unfold HeapFree. heap_unfold.
  replace (first + total bs1 + 8 - 8) with (first + total bs1) by lia.
  mem_step. destruct (Z.eqb_spec h AVAIL_MAGIC); [done|]. store_step Hmap.
  set (node := first + total bs1) in *. set (m1 := write_bytes m (node + 4) _).
  set (e := next_free (node + s) bs2 0) in *.
  assert (heap_list m1 h first bs1 e) as Hl1.
  { destruct Hl as [Ha Hc']. split; [unfold m1; word_after|].
    eapply nodes_at_agree; [done..|]. intros x Hx. apply lookup_write_out. simpl. lia. }
  pose proof (proj1 Hl1) as Hhead. mem_step. prog_norm.
  assert (mem_fuel m1 = mem_fuel m) as Efuel.
  { unfold mem_fuel, m1. f_equal. apply size_write_mapped. eapply mapped_sub; [exact Hmap|simpl; lia..]. }
  rewrite length_app in Hfuel.
  destruct (heap_release_pass m1 h first [] bs1 e node (h + 4) (mem_fuel m1))
    as (fuel' & pp & Hf1 & Hpp & Hrun); [done|done|lia|simpl; lia|lia|simpl in Hfuel; lia|].
  change (total []) with 0 in Hrun. cbn [last_free app] in Hrun. rewrite Z.add_0_r in Hrun.
  unfold info_firstAvail. rewrite Hrun.
  destruct fuel' as [|fuel']; [simpl in Hfuel; lia|]. cbn [heap_release].
  replace (negb (e =? 0) || negb (pp =? 0)) with true by (symmetry; lia).
  pose proof (next_free_range (node + s) bs2 0 Hok3) as He. fold e in He.
  replace ((e =? 0) || (node <? e)) with true by (symmetry; lia).
  destruct (heap_insert_spec m1 h first bs1 s bs2) as (m' & Hm' & Hl' & Hfr'); fold node e; try done; try lia.
  - unfold m1. word_after.
  - unfold m1. apply word_at_store. pose proof AVAIL_MAGIC_range. unfold urange. lia.
  - eapply nodes_at_agree; [exact Hn|done|]. intros x Hx. apply lookup_write_out. simpl. lia.
  - apply sizes_ok_app. split; [done|]. by constructor.
  - rewrite total_app. simpl. lia.
  - unfold urange. lia.
  - rewrite total_app. by apply mapped_write.
  - assert (heap_frame m m' h first (free_result bs1 s bs2)) as Hfr.
    { intros x Hx. rewrite free_result_payload in Hx.
      rewrite total_free_result in Hx.
      assert (in_payload first (bs1 ++ (true, s) :: bs2) x \/ x < h \/ h + 8 <= x < first \/
        first + total (bs1 ++ (true, s) :: bs2) <= x) as Hx' by (rewrite total_app; done).
      rewrite Hfr' by done. apply lookup_write_out.
      destruct (heap_outside h first bs1 s bs2 x Hok1 Hok3 ltac:(lia) ltac:(lia)
        ltac:(heap_unfold; lia) Hx') as [_ Hxn]. fold node in Hxn. simpl. lia. }
    exists m'. split_and!; [done| |done|by rewrite total_free_result].
    split; rewrite ?total_free_result; try done.
    + by eapply free_result_wf.
    + eapply keeps_heap_insert; [exact Hm'|by apply mapped_write].
Qed.

(** C18: HeapFree refines the abstract release: freeing the payload of the
    used node at offset [off] returns, the heap then represents the nodes
    with that one free and merged with its free neighbours, and the other
    users' bytes and everything outside the heap are unchanged. *)
Theorem HeapFree_correct m h first bs off bs' :
  heap_rep m h first bs -> release off bs = Some bs' ->
  exists m', HeapFree (first + off + 8) m = Ret (tt, m') /\
    heap_rep m' h first bs' /\ heap_frame m m' h first bs' /\ total bs' = total bs.
Proof. apply HeapFree_spec. Qed.

(** Freeing the same pointer again is detected. *)
Lemma HeapFree_free_node m ptr :
  word_at m (ptr - 4) AVAIL_MAGIC -> HeapFree ptr m = Panic "Double free".
Proof.
  intros Hw. unfold HeapFree, node_free_. replace (ptr - 8 + 4) with (ptr - 4) by lia.
  mem_step. by rewrite Z.eqb_refl.
Qed.

(** ** Initialisation *)
Lemma ALIGN_CEIL_8 p :
  0 <= p -> p + 8 < 2 ^ 32 -> p <= ALIGN_CEIL p 8 < p + 8 /\ ALIGN_CEIL p 8 mod 8 = 0.
Proof.
  intros H1 H2. unfold ALIGN_CEIL.
  replace (p + 8 - 1) with (p + 7) by lia. rewrite (wrap_small 32 (p + 7)) by (unfold urange; lia).
  pose proof (Z.div_mod (p + 7) 8 ltac:(lia)). pose proof (Z.mod_pos_bound (p + 7) 8 ltac:(lia)).
  rewrite wrap_small by (unfold urange; lia). split; [lia|]. by apply Z.mod_mul.
Qed.

(** HeapInitialize builds a heap of one free node: on a mapped region
    of at least 32 bytes it returns the region's address, and the memory
    represents the heap whose single free node extends from the aligned end
    of the header to the end of the region; nothing outside is written. *)
Theorem HeapInitialize_correct m size heapMem :
  let first := ALIGN_CEIL (heapMem + 8) 8 in
  mapped m heapMem size -> 0 < heapMem -> 32 <= size -> heapMem + size < 2 ^ 32 ->
  heapMem <> AVAIL_MAGIC ->
  exists m', HeapInitialize size heapMem m = Ret (heapMem, m') /\
    heap_rep m' heapMem first [(true, heapMem + size - first)] /\
    heapMem + 8 <= first < heapMem + 16 /\
    (forall x, x < heapMem \/ heapMem + size <= x -> m' !! x = m !! x).
Proof.
  intros first Hmap H0 Hsize Hend Hmagic.
  destruct (ALIGN_CEIL_8 (heapMem + 8) ltac:(lia) ltac:(lia)) as [Hf Hf8].
  fold first in Hf, Hf8. pose proof AVAIL_MAGIC_range.
  unfold HeapInitialize. heap_unfold. fold first.
  store_step Hmap. store_step Hmap. store_step Hmap. store_step Hmap. store_step Hmap.
  eexists. split; [reflexivity|]. split_and!; [split| |lia|].
  - unfold heap_list. cbn [next_free nodes_at]. split_and!; try intros _; try done; word_after.
  - split.
    + constructor; [|constructor]. simpl. heap_unfold. lia.
    + done.
    + by split.
  - simpl. lia.
  - done.
  - repeat apply mapped_write. simpl. eapply mapped_sub; [exact Hmap|lia..].
  - lia.
  - intros x Hx. rewrite !lookup_write_out by (simpl; lia). done.
Qed.

(** ** Allocation and release *)
Lemma release_here bs1 s bs2 :
  sizes_ok bs1 -> coalesced (bs1 ++ (false, s) :: bs2) ->
  release (total bs1) (bs1 ++ (false, s) :: bs2) = Some (free_result bs1 s bs2).
Proof.
  intros Hok. induction Hok as [|[fr q] bs1 Hq Hok IH]; intros Hc; [done|].
  pose proof (total_nonneg _ Hok). simpl in Hq. cbn [app release total foldr].
  fold (total bs1). simpl. heap_unfold. destruct (Z.eqb_spec (q + total bs1) 0); [lia|].
  replace (q + total bs1 - q) with (total bs1) by lia.
  rewrite IH by (destruct bs1 as [|[fr1 q1] bs1]; [by destruct Hc|by destruct Hc]).
  simpl. destruct bs1 as [|[fr1 q1] bs1].
  - destruct fr; [|done]. destruct bs2 as [|[[] s2] bs2]; simpl; [done| |done].
    by rewrite Z.add_assoc.
  - destruct fr; [|done]. destruct Hc as [Hc _]. destruct fr1; [naive_solver|done].
Qed.

Lemma free_result_taken bs1 n s bs2 :
  coalesced (bs1 ++ (true, s) :: bs2) ->
  match taken n s ++ bs2 with
  | (_, s') :: bs2' => free_result bs1 s' bs2' = bs1 ++ (true, s) :: bs2
  | [] => False
  end.
Proof.
  intros (_ & Hc2 & Hc3)%coalesced_app.
  assert (forall p, list.last bs1 <> Some (true, p)) as Hu
    by (intros p Hp; by eapply Hc3).
  unfold taken. destruct (MIN_NODE_SIZE <=? s - n); cbn [app]; rewrite free_result_used by done.
  - simpl. do 3 f_equal. lia.
  - destruct bs2 as [|[[] s2] bs2]; [done| |done]. destruct Hc2 as [Hc2 _]. naive_solver.
Qed.

Lemma release_alloc n bs bs' off :
  alloc_first_fit n bs = Some (bs', off) -> MIN_NODE_SIZE <= n -> n mod 8 = 0 ->
  forall a, heap_wf a bs -> release off bs' = Some bs.
Proof.
  intros Ha Hn Hn8 a Hwf.
  destruct (alloc_first_fit_cases n bs) as [[_ E]|(bs1 & s & bs2 & -> & _ & Hs & E)];
    rewrite E in Ha; [done|]. injection Ha as <- <-.
  pose proof (heap_wf_taken a bs1 n s bs2 Hwf Hn Hn8 Hs) as Hwf'.
  pose proof (free_result_taken bs1 n s bs2 (hw_coalesced _ _ Hwf)) as Hres.
  pose proof (hw_sizes _ _ Hwf') as [Hok1 _]%sizes_ok_app. apply hw_coalesced in Hwf'.
  unfold taken in *. destruct (MIN_NODE_SIZE <=? s - n); cbn [app] in *;
    rewrite release_here by done; by rewrite Hres.
Qed.

(** freeing what was just allocated undoes the allocation: the heap
    represents the same nodes as before, for every request that succeeds. *)
Theorem alloc_free_roundtrip m hKernelHeap h first bs size :
  heap_rep m h first bs -> 1 <= size -> size + 15 < 2 ^ 32 ->
  alloc_first_fit ((size + 7) / 8 * 8 + 8) bs <> None ->
  exists p m1 m2, HeapAlloc hKernelHeap h size m = Ret (p, m1) /\
    HeapFree p m1 = Ret (tt, m2) /\ heap_rep m2 h first bs.
Proof.
  intros Hrep H1 H2 Hsome.
  destruct (request_size size H1 H2) as (En & Hmin & Hn8). rewrite En in Hmin, Hn8.
  pose proof (HeapAlloc_spec m hKernelHeap h h first bs size Hrep (or_introl eq_refl) H1 H2) as Ha.
  unfold HeapAlloc_contract in Ha.
  destruct (alloc_first_fit _ bs) as [[bs' off]|] eqn:E; [|done].
  destruct Ha as (m1 & Ha & Hrep1 & _).
  pose proof (release_alloc _ _ _ _ E Hmin Hn8 first (hr_wf _ _ _ _ Hrep)) as Hr.
  destruct (HeapFree_spec m1 h first bs' off bs Hrep1 Hr) as (m2 & Hf & Hrep2 & _).
  by exists (first + off + 8), m1, m2.
Qed.

(** ** Concrete heaps *)

(** A heap of 128 bytes at 1000 with one used node of 24 bytes. *)
Definition heap_example : mem :=
  mem_of [(1000, le32 128 ++ le32 1032);
          (1008, le32 24 ++ le32 1000 ++ replicate 16 7);
          (1032, le32 96 ++ le32 AVAIL_MAGIC ++ le32 0 ++ replicate 84 0)].

Lemma heap_example_rep : heap_rep heap_example 1000 1008 [(false, 24); (true, 96)].
Proof.
  split.
  - unfold heap_list. cbn [next_free nodes_at]. split_and!; try done; try intros _; try done; mem_compute.
  - split; [repeat constructor; done|cbn; naive_solver|by repeat split].
  - simpl. lia.
  - done.
  - mem_compute.
Qed.

Lemma HeapAlloc_correct_witness :
  exists m', HeapAlloc 1000 0 5 heap_example = Ret (1008 + 24 + 8, m') /\
    heap_rep m' 1000 1008 [(false, 24); (false, 16); (true, 80)] /\
    heap_frame heap_example m' 1000 1008 [(false, 24); (true, 96)] /\
    (1008 + 24 + 8) mod 8 = 0 /\
    (forall x, 1040 <= x < 1040 + 5 ->
      in_payload 1008 [(false, 24); (false, 16); (true, 80)] x /\
      ~ in_payload 1008 [(false, 24); (true, 96)] x) /\
    (forall x, in_payload 1008 [(false, 24); (true, 96)] x ->
      in_payload 1008 [(false, 24); (false, 16); (true, 80)] x).
Proof.
  refine (HeapAlloc_correct heap_example 1000 0 1000 1008 [(false, 24); (true, 96)] 5
    heap_example_rep _ _ _); lia.
Defined.

Lemma HeapFree_correct_witness :
  exists m', HeapFree (1008 + 0 + 8) heap_example = Ret (tt, m') /\
    heap_rep m' 1000 1008 [(true, 120)] /\
    heap_frame heap_example m' 1000 1008 [(true, 120)] /\ 120 + 0 = 24 + (96 + 0).
Proof.
  refine (HeapFree_correct heap_example 1000 1008 [(false, 24); (true, 96)] 0 [(true, 120)]
    heap_example_rep _). reflexivity.
Defined.

Lemma alloc_free_roundtrip_witness :
  exists p m1 m2, HeapAlloc 0 1000 40 heap_example = Ret (p, m1) /\
    HeapFree p m1 = Ret (tt, m2) /\ heap_rep m2 1000 1008 [(false, 24); (true, 96)].
Proof.
  refine (alloc_free_roundtrip heap_example 0 1000 1008 [(false, 24); (true, 96)] 40
    heap_example_rep _ _ _); [lia|lia|vm_compute; discriminate].
Defined.

Lemma HeapInitialize_correct_witness :
  exists m', HeapInitialize 128 1000 (mem_of [(1000, replicate 128 0)]) = Ret (1000, m') /\
    heap_rep m' 1000 1008 [(true, 120)] /\ 1008 <= 1008 < 1016 /\
    (forall x, x < 1000 \/ 1128 <= x -> m' !! x = mem_of [(1000, replicate 128 0)] !! x).
Proof.
  refine (HeapInitialize_correct (mem_of [(1000, replicate 128 0)]) 128 1000 _ _ _ _ _);
    [mem_compute|lia..|done].
Defined.

(** ** Requests of 0 bytes, and requests that wrap around *)








