(* ===== verification/Malloc.v ===== *)
(** * Malloc: src/src/stdlib.c and strdup of src/src/string.c

    The C library's allocation functions over the kernel heap.  Their clients
    (calloc, realloc, strdup) are proved against the interface [Allocator],
    which says what an allocator promises about the bytes its clients own;
    the heap of Heap.v implements it. *)
From S2P Require Import Prelude Mem CString Heap.

(** ** Definitions *)

Section stdlib.
(** The global variable [hKernelHeap] of heap.c. *)
Variable hKernelHeap : Z.

Definition malloc (size : Z) : prog mem Z := HeapAlloc hKernelHeap 0 size.
Definition free (ptr : Z) : prog mem unit := HeapFree ptr.
End stdlib.

Definition calloc (malloc : Z -> prog mem Z) (count size : Z) : prog mem Z :=
  let s := u32 (count * size) in
  ret ← malloc s; memset ret 0 s;; mret ret.

Definition realloc (malloc : Z -> prog mem Z) (free : Z -> prog mem unit)
    (ptr size : Z) : prog mem Z :=
  ret ← malloc size;
  (if negb (ptr =? 0) then memcpy ret ptr size;; free ptr else mret tt);;
  mret ret.

Definition strdup (malloc : Z -> prog mem Z) (s1 : Z) : prog mem Z :=
  l ← strlen s1;
  let len := u32 (l + 1) in
  ret ← malloc len;
  memcpy ret s1 len;;
  mret ret.

Definition abort {S} : prog S unit := ppanic "abort() called".

(** ** The interface of an allocator

    [A] is its abstract state, [client a] the bytes that belong to its
    users (or to nobody it knows), [live a p k] the blocks handed out. *)
Class Allocator (malloc : Z -> prog mem Z) (free : Z -> prog mem unit) := {
  astate : Type;
  arep : astate -> mem -> Prop;
  client : astate -> Z -> Prop;
  live : astate -> Z -> Z -> Prop;
  live_client a m p k : arep a m -> live a p k ->
    0 < p /\ p + k < 2 ^ 32 /\ mapped m p k /\ forall x, p <= x < p + k -> client a x;
  client_write a m p l : arep a m ->
    (forall x, p <= x < p + Z.of_nat (length l) -> client a x) -> arep a (write_bytes m p l);
  malloc_law a m n : arep a m -> 1 <= n -> n + 15 < 2 ^ 32 ->
    (exists p m' a' k, malloc n m = Ret (p, m') /\ arep a' m' /\ n <= k /\ live a' p k /\
       (forall x, client a x -> m' !! x = m !! x /\ client a' x) /\
       (forall x, p <= x < p + k -> ~ client a x) /\
       (forall q j, live a q j -> live a' q j) /\
       (forall m2, arep a' m2 -> exists m3, free p m2 = Ret (tt, m3) /\ arep a m3 /\
          forall x, client a x -> m3 !! x = m2 !! x)) \/
    (exists msg, malloc n m = Panic msg);
  free_law a m p k : arep a m -> live a p k ->
    exists m' a', free p m = Ret (tt, m') /\ arep a' m' /\
      (forall x, client a x -> ~ p <= x < p + k -> m' !! x = m !! x /\ client a' x)
}.

(** ** The heap is an allocator *)

(** The block at payload [p] with [k] bytes. *)
Fixpoint node_live (a : Z) (bs : list node) (p k : Z) : Prop :=
  match bs with
  | [] => False
  | (fr, s) :: bs' => (fr = false /\ p = a + 8 /\ k = s - 8) \/ node_live (a + s) bs' p k
  end.

Definition heap_client (h first : Z) (bs : list node) (x : Z) : Prop :=
  in_payload first bs x \/ x < h \/ h + 8 <= x < first \/ first + total bs <= x.

(** The heap does not depend on its clients' bytes. *)
Lemma nodes_at_client_frame m m' h first bs e :
  nodes_at m h first bs e -> sizes_ok bs ->
  (forall x, first <= x < first + total bs -> ~ in_payload first bs x -> m' !! x = m !! x) ->
  nodes_at m' h first bs e.
Proof.
  intros H Hok. revert first H. induction Hok as [|[fr s] bs Hs Hok IH]; intros a; simpl; [done|].
  pose proof (total_nonneg _ Hok). simpl in Hs. intros (H1 & H2 & H3 & H4) Hf. heap_unfold.
  assert (forall b v, a <= b -> b + 4 <= a + (if fr then 12 else 8) -> word_at m b v -> word_at m' b v) as Hw.
  { intros b v Hb1 Hb2 Hw. apply (word_at_frame m); [exact Hw|]. intros x Hx.
    apply Hf; [destruct fr; lia|]. intros [[-> ?]|Hp]; [lia|].
    apply in_payload_range in Hp; [destruct fr; lia|done]. }
  split_and!.
  - apply Hw; [lia|destruct fr; lia|done].
  - apply Hw; [lia|destruct fr; lia|done].
  - intros ->. apply Hw; [lia|lia|auto].
  - apply IH; [done|]. intros x Hx Hp. apply Hf; [lia|]. intros [?|?]; [lia|done].
Qed.

Lemma heap_client_frame m m' h first bs :
  heap_rep m h first bs -> mapped m' first (total bs) ->
  (forall x, ~ heap_client h first bs x -> m' !! x = m !! x) -> heap_rep m' h first bs.
Proof.
  intros [[Hh Hn] Hwf Hb Hm _] Hmap Hf. pose proof (hw_sizes _ _ Hwf) as Hok.
  pose proof (total_nonneg _ Hok). unfold heap_client in Hf. split; try done. split.
  - apply (word_at_frame m); [done|]. intros x Hx. apply Hf.
    intros [Hp%in_payload_range|?]; done || lia.
  - apply (nodes_at_client_frame m); [done..|]. intros x Hx Hp. apply Hf. intros [?|?]; [done|lia].
Qed.

Lemma heap_client_write m h first bs p l :
  heap_rep m h first bs ->
  (forall x, p <= x < p + Z.of_nat (length l) -> heap_client h first bs x) ->
  heap_rep (write_bytes m p l) h first bs.
Proof.
  intros Hrep Hx. apply (heap_client_frame m); [done|apply mapped_write, Hrep|].
  intros x Hc. apply lookup_write_out. destruct (decide (p <= x < p + Z.of_nat (length l))) as [Hin|]; [|lia].
  by destruct Hc; apply Hx.
Qed.

Lemma node_live_app a bs1 bs2 p k :
  node_live a (bs1 ++ bs2) p k <-> node_live a bs1 p k \/ node_live (a + total bs1) bs2 p k.
Proof.
  revert a. induction bs1 as [|[fr s] bs1 IH]; intros a; simpl; [rewrite Z.add_0_r; tauto|].
  rewrite IH. replace (a + s + total bs1) with (a + (s + total bs1)) by lia. tauto.
Qed.

Lemma node_live_split a bs p k :
  node_live a bs p k -> exists bs1 s bs2, bs = bs1 ++ (false, s) :: bs2 /\
    p = a + total bs1 + 8 /\ k = s - 8.
Proof.
  revert a. induction bs as [|[fr s] bs IH]; intros a; simpl; [done|].
  intros [(-> & -> & ->)|H].
  - exists [], s, bs. simpl. split_and!; [done|lia|done].
  - destruct (IH _ H) as (bs1 & s' & bs2 & -> & -> & ->).
    exists ((fr, s) :: bs1), s', bs2. simpl. split_and!; [done|lia|done].
Qed.

Lemma node_live_client a bs p k x : node_live a bs p k -> p <= x < p + k -> in_payload a bs x.
Proof.
  revert a. induction bs as [|[fr s] bs IH]; intros a; simpl; [done|].
  intros [(-> & -> & ->)|H] Hx; [left; split; [done|lia]|right; by apply IH].
Qed.

Section instance.
Variables h first : Z.

#[local] Lemma heap_live_client bs m p k :
  heap_rep m h first bs -> node_live first bs p k ->
  0 < p /\ p + k < 2 ^ 32 /\ mapped m p k /\ forall x, p <= x < p + k -> heap_client h first bs x.
Proof.
  intros [_ [Hok _ _] Hb _ Hmap] Hl.
  assert (forall x, p <= x < p + k -> in_payload first bs x) as Hpay
    by (intros; by eapply node_live_client).
  apply node_live_split in Hl as (bs1 & s & bs2 & -> & -> & ->).
  apply sizes_ok_app in Hok as [Hok1 Hok2]. inversion Hok2 as [|? ? Hs Hok3]; subst.
  pose proof (total_nonneg _ Hok1). pose proof (total_nonneg _ Hok3).
  rewrite total_app in *. simpl in *. split_and!; [lia|lia| |].
  - eapply mapped_sub; [exact Hmap|lia..].
  - intros x Hx. left. by apply Hpay.
Qed.

#[local] Lemma heap_malloc_law bs m n :
  heap_rep m h first bs -> 1 <= n -> n + 15 < 2 ^ 32 ->
  (exists p m' bs' k, malloc h n m = Ret (p, m') /\ heap_rep m' h first bs' /\ n <= k /\
     node_live first bs' p k /\
     (forall x, heap_client h first bs x -> m' !! x = m !! x /\ heap_client h first bs' x) /\
     (forall x, p <= x < p + k -> ~ heap_client h first bs x) /\
     (forall q j, node_live first bs q j -> node_live first bs' q j) /\
     (forall m2, heap_rep m2 h first bs' -> exists m3, free p m2 = Ret (tt, m3) /\ heap_rep m3 h first bs /\
        forall x, heap_client h first bs x -> m3 !! x = m2 !! x)) \/
  (exists msg, malloc h n m = Panic msg).
Proof.
  intros Hrep Hn Hn'. pose proof (HeapAlloc_spec m h 0 h first bs n Hrep ltac:(by right) Hn Hn') as Ha.
  unfold HeapAlloc_contract in Ha. unfold malloc.
  destruct (alloc_first_fit_cases ((n + 7) / 8 * 8 + 8) bs)
    as [[_ E]|(bs1 & s & bs2 & -> & _ & Hs & E)]; rewrite E in Ha.
  - right. rewrite Z.eqb_refl in Ha. eauto.
  - left. destruct Ha as (m' & Hrun & Hrep' & Hfr & _ & Hfresh & Hpay).
    set (N := (n + 7) / 8 * 8 + 8) in *.
    set (s' := if MIN_NODE_SIZE <=? s - N then N else s).
    assert (N <= s') as HN by (unfold s'; case_cmp; lia).
    assert (n + 8 <= N) as HnN.
    { unfold N. pose proof (Z.div_mod (n + 7) 8 ltac:(lia)).
      pose proof (Z.mod_pos_bound (n + 7) 8 ltac:(lia)). lia. }
    assert (total (bs1 ++ taken N s ++ bs2) = total (bs1 ++ (true, s) :: bs2)) as Et
      by (rewrite !total_app, total_taken; done).
    exists (first + total bs1 + 8), m', (bs1 ++ taken N s ++ bs2), (s' - 8).
    split_and!; [done|done|lia| | | | |].
    + rewrite node_live_app. right. unfold taken, s'.
      destruct (MIN_NODE_SIZE <=? s - N); simpl; auto.
    + intros x Hx. split; [by apply Hfr|]. unfold heap_client in *. rewrite Et.
      destruct Hx as [Hx|Hx]; [left; by apply Hpay|by right].
    + pose proof (hw_sizes _ _ (hr_wf _ _ _ _ Hrep)) as [Hok1 Hok2]%sizes_ok_app.
      inversion Hok2 as [|? ? Hs1 Hok3]; subst. pose proof (hr_bound _ _ _ _ Hrep) as Hb.
      pose proof (total_nonneg _ Hok1). pose proof (total_nonneg _ Hok3).
      assert (s' <= s) by (unfold s'; case_cmp; heap_unfold; lia).
      intros x Hx [Hin|Hout].
      * apply in_payload_app in Hin as [Hin%in_payload_range|[[??]|Hin%in_payload_range]];
          done || lia.
      * rewrite total_app in Hout, Hb. simpl in Hout, Hb. lia.
    + intros q j. rewrite !node_live_app. intros [?|Hq]; [by left|right]. simpl in Hq.
      destruct Hq as [[??]|Hq]; [done|]. right. by rewrite total_taken.
    + intros m2 Hrep2. destruct (request_size n Hn Hn') as (En & Hmin & Hn8). rewrite En in Hmin, Hn8.
      pose proof (release_alloc _ _ _ _ E Hmin Hn8 first (hr_wf _ _ _ _ Hrep)) as Hr.
      destruct (HeapFree_spec m2 h first _ _ _ Hrep2 Hr) as (m3 & Hf & Hrep3 & Hfr3 & _).
      exists m3. split_and!; [done|done|]. intros x Hx. by apply Hfr3.
Qed.

#[local] Lemma heap_free_law bs m p k :
  heap_rep m h first bs -> node_live first bs p k ->
  exists m' bs', free p m = Ret (tt, m') /\ heap_rep m' h first bs' /\
    (forall x, heap_client h first bs x -> ~ p <= x < p + k ->
       m' !! x = m !! x /\ heap_client h first bs' x).
Proof.
  intros Hrep Hl. apply node_live_split in Hl as (bs1 & s & bs2 & -> & -> & ->).
  pose proof (hr_wf _ _ _ _ Hrep) as [Hok Hc _]. apply sizes_ok_app in Hok as [Hok1 _].
  pose proof (release_here bs1 s bs2 Hok1 Hc) as Hr.
  destruct (HeapFree_spec m h first _ _ _ Hrep Hr) as (m' & Hf & Hrep' & Hfr & Et).
  exists m', (free_result bs1 s bs2). split_and!; [done|done|].
  intros x Hx Hout.
  assert (heap_client h first (free_result bs1 s bs2) x) as Hx'; [|split; [by apply Hfr|done]].
  unfold heap_client in *. rewrite Et. destruct Hx as [Hx|Hx]; [left|by right].
  apply free_result_payload. apply in_payload_app in Hx. apply in_payload_app.
  destruct Hx as [Hx|[[??]|Hx]]; [by left|lia|right; by right].
Qed.

#[export] Instance kernel_heap : Allocator (malloc h) free := {
  astate := list node;
  arep bs m := heap_rep m h first bs;
  client := heap_client h first;
  live := node_live first;
  live_client := heap_live_client;
  client_write bs m := heap_client_write m h first bs;
  malloc_law := heap_malloc_law;
  free_law := heap_free_law
}.
End instance.

(** ** The clients, against the interface *)
Section clients.
Context {malloc : Z -> prog mem Z} {free : Z -> prog mem unit} `{!Allocator malloc free}.

(** What a call that returns a fresh block [l] promises to its caller. *)
Definition fresh_block (a : astate) (m m' : mem) (p : Z) (l : list Z) : Prop :=
  exists a', arep a' m' /\ bytes_at m' p l /\
    (forall x, client a x -> m' !! x = m !! x /\ client a' x) /\
    (forall x, p <= x < p + Z.of_nat (length l) -> ~ client a x /\ client a' x).

(** Writing the contents [l] into a block that was just allocated. *)
Lemma fresh_write a m m1 a1 p k n l :
  arep a1 m1 -> live a1 p k -> n <= k -> n = Z.of_nat (length l) ->
  (forall x, client a x -> m1 !! x = m !! x /\ client a1 x) ->
  (forall x, p <= x < p + k -> ~ client a x) ->
  fresh_block a m (write_bytes m1 p l) p l.
Proof.
  intros Hrep Hlive Hnk -> Hfr Hfresh.
  destruct (live_client _ _ _ _ Hrep Hlive) as (_ & _ & _ & Hcl).
  exists a1. split_and!.
  - apply client_write; [done|]. intros x Hx. apply Hcl. lia.
  - apply bytes_at_write.
  - intros x Hx. destruct (Hfr x Hx) as [<- ?]. split; [|done]. apply lookup_write_out.
    destruct (decide (p <= x < p + k)) as [Hin|]; [by destruct (Hfresh x Hin)|lia].
  - intros x Hx. split; [apply Hfresh; lia|apply Hcl; lia].
Qed.

(** calloc returns a fresh block of [count * size] zero bytes and leaves
    its callers' bytes alone, or panics because the heap is exhausted,
    whenever the product fits its type. *)
Theorem calloc_correct a m count size :
  arep a m -> 1 <= count * size -> count * size + 15 < 2 ^ 32 ->
  (exists p m', calloc malloc count size m = Ret (p, m') /\
     fresh_block a m m' p (replicate (Z.to_nat (count * size)) 0)) \/
  (exists msg, calloc malloc count size m = Panic msg).
Proof.
  intros Hrep H1 H2. unfold calloc. rewrite wrap_small by (unfold urange; lia).
  destruct (malloc_law a m (count * size) Hrep H1 H2)
    as [(p & m1 & a1 & k & Hm & Hrep1 & Hk & Hlive & Hfr & Hfresh & _)|[msg Hm]].
  - left. prog_step Hm.
    destruct (live_client _ _ _ _ Hrep1 Hlive) as (_ & _ & Hmap & _).
    pose proof (memset_spec p 0 (count * size) m1 ltac:(lia) (mapped_le _ _ _ _ Hmap Hk)) as Hs.
    prog_step Hs. do 2 eexists. split; [reflexivity|]. change (u8 0) with 0.
    eapply fresh_write; try done. rewrite length_replicate. lia.
  - right. exists msg. unfold mbind, prog_bind. by rewrite Hm.
Qed.

Lemma memcpy_fresh a a1 m m1 p k src l :
  arep a1 m1 -> live a1 p k -> Z.of_nat (length l) <= k -> l <> [] -> Forall (urange 8) l ->
  bytes_at m src l -> (forall x, src <= x < src + Z.of_nat (length l) -> client a x) ->
  (forall x, client a x -> m1 !! x = m !! x /\ client a1 x) ->
  (forall x, p <= x < p + k -> ~ client a x) ->
  memcpy p src (Z.of_nat (length l)) m1 = Ret (p, write_bytes m1 p l).
Proof.
  intros Hrep Hlive Hk Hne Hl Hsrc Hcl Hfr Hfresh.
  destruct (live_client _ _ _ _ Hrep Hlive) as (_ & _ & Hmap & _).
  assert (length l <> 0%nat) by (by destruct l).
  apply memcpy_spec; [done| |eapply mapped_le; [exact Hmap|lia]|].
  - rewrite bytes_at_lookup in Hsrc |- *. intros i b Hi. pose proof (lookup_lt_Some _ _ _ Hi).
    rewrite (proj1 (Hfr _ (Hcl (src + Z.of_nat i) ltac:(lia)))). by apply Hsrc.
  - destruct (decide (p <= src)); [by left|]. right.
    destruct (decide (p < src + Z.of_nat (length l))); [|lia].
    destruct (Hfresh p ltac:(lia)). apply Hcl. lia.
Qed.

(** strdup returns a fresh block that holds a copy of its argument, a
    string in its callers' memory, which is left alone; or it panics because
    the heap is exhausted. *)
Theorem strdup_correct a m s1 l :
  arep a m -> cstr_at m s1 l -> Z.of_nat (length l) + 16 < 2 ^ 32 ->
  (forall x, s1 <= x <= s1 + Z.of_nat (length l) -> client a x) ->
  (exists p m', strdup malloc s1 m = Ret (p, m') /\ fresh_block a m m' p (l ++ [0]) /\
     cstr_at m' p l /\ cstr_at m' s1 l) \/
  (exists msg, strdup malloc s1 m = Panic msg).
Proof.
  intros Hrep Hs Hlen Hcl. unfold strdup.
  pose proof (strlen_spec s1 l m Hs ltac:(lia)) as Hstr.
  destruct (malloc_law a m (Z.of_nat (length l) + 1) Hrep ltac:(lia) ltac:(lia))
    as [(p & m1 & a1 & k & Hm & Hrep1 & Hk & Hlive & Hfr & Hfresh & _)|[msg Hm]].
  - left. prog_step Hstr. rewrite wrap_small by (unfold urange; lia). prog_step Hm.
    replace (Z.of_nat (length l) + 1) with (Z.of_nat (length (l ++ [0]))) in *
      by (rewrite length_app; simpl; lia).
    destruct Hs as [Hch Hb].
    assert (Forall (urange 8) (l ++ [0])) as H8.
    { apply Forall_app. split; [|by repeat constructor].
      eapply Forall_impl; [|exact Hch]. unfold is_char, urange. simpl. lia. }
    assert (forall x, s1 <= x < s1 + Z.of_nat (length (l ++ [0])) -> client a x) as Hcl'.
    { intros x Hx. apply Hcl. rewrite length_app in Hx. simpl in Hx. lia. }
    pose proof (memcpy_fresh a a1 m m1 p k s1 (l ++ [0]) Hrep1 Hlive Hk
      ltac:(by destruct l) H8 Hb Hcl' Hfr Hfresh) as Hcpy.
    prog_step Hcpy. do 2 eexists. split; [reflexivity|].
    assert (fresh_block a m (write_bytes m1 p (l ++ [0])) p (l ++ [0])) as Hfb
      by (eapply fresh_write; done).
    split_and!; [done|split; [done|apply bytes_at_write]|split; [done|]].
    destruct Hfb as (a2 & _ & _ & Hfb & _). rewrite bytes_at_lookup in Hb |- *.
    intros i b Hi. pose proof (lookup_lt_Some _ _ _ Hi).
    rewrite (proj1 (Hfb _ (Hcl' (s1 + Z.of_nat i) ltac:(lia)))). by apply Hb.
  - right. exists msg. prog_step Hstr. rewrite wrap_small by (unfold urange; lia).
    unfold mbind, prog_bind. by rewrite Hm.
Qed.

(** realloc to a size that the old block covers moves its contents: it
    returns a new block that holds the first [size] bytes of the old one,
    releases the old one, and leaves all other bytes of its callers alone;
    or it panics because the heap is exhausted. *)
Theorem realloc_correct a m ptr k size l :
  arep a m -> live a ptr k -> 1 <= size <= k -> size + 15 < 2 ^ 32 ->
  bytes_at m ptr l -> size = Z.of_nat (length l) -> Forall (urange 8) l ->
  (exists r m' a', realloc malloc free ptr size m = Ret (r, m') /\ arep a' m' /\
     bytes_at m' r l /\
     (forall x, client a x -> ~ ptr <= x < ptr + k -> m' !! x = m !! x /\ client a' x)) \/
  (exists msg, realloc malloc free ptr size m = Panic msg).
Proof.
  intros Hrep Hlive0 Hsz H2 Hb Hlen H8. unfold realloc.
  destruct (live_client _ _ _ _ Hrep Hlive0) as (H0 & _ & _ & Hcl0).
  destruct (malloc_law a m size Hrep ltac:(lia) H2)
    as [(p & m1 & a1 & k1 & Hm & Hrep1 & Hk & Hlive & Hfr & Hfresh & Hkeep & _)|[msg Hm]].
  - left. prog_step Hm. destruct (Z.eqb_spec ptr 0); [lia|]. cbn [negb]. rewrite Hlen in *.
    assert (l <> []) as Hne by (intros ->; simpl in Hsz; lia).
    pose proof (memcpy_fresh a a1 m m1 p k1 ptr l Hrep1 Hlive Hk Hne H8 Hb
      ltac:(intros x Hx; apply Hcl0; lia) Hfr Hfresh) as Hcpy.
    prog_step Hcpy.
    destruct (live_client _ _ _ _ Hrep1 Hlive) as (_ & _ & _ & Hcl1).
    assert (arep a1 (write_bytes m1 p l)) as Hrep2.
    { apply client_write; [done|]. intros x Hx. apply Hcl1. lia. }
    destruct (free_law a1 _ ptr k Hrep2 (Hkeep _ _ Hlive0)) as (m2 & a2 & Hf & Hrep3 & Hfr2).
    prog_step Hf. exists p, m2, a2. split_and!; [done|done| |].
    + pose proof (bytes_at_write m1 p l) as Hw. rewrite bytes_at_lookup in Hw |- *.
      intros i b Hi. pose proof (lookup_lt_Some _ _ _ Hi).
      rewrite (proj1 (Hfr2 (p + Z.of_nat i) (Hcl1 (p + Z.of_nat i) ltac:(lia))
        ltac:(intros Hin; apply (Hfresh (p + Z.of_nat i)); [lia|by apply Hcl0]))).
      by apply Hw.
    + intros x Hx Hout. destruct (Hfr x Hx) as [E Hx1].
      destruct (Hfr2 x Hx1 Hout) as [E2 Hx2]. split; [|done]. rewrite E2, lookup_write_out; [done|].
      destruct (decide (p <= x < p + k1)) as [Hin|]; [by destruct (Hfresh x Hin)|lia].
  - right. exists msg. unfold mbind, prog_bind. by rewrite Hm.
Qed.
End clients.

(** ** Concrete calls on the kernel heap *)
Lemma calloc_correct_witness :
  (exists p m', calloc (malloc 1000) 3 4 heap_example = Ret (p, m') /\
     fresh_block (Allocator0 := kernel_heap 1000 1008) [(false, 24); (true, 96)]
       heap_example m' p (replicate 12 0)) \/
  (exists msg, calloc (malloc 1000) 3 4 heap_example = Panic msg).
Proof.
  refine (calloc_correct (Allocator0 := kernel_heap 1000 1008) [(false, 24); (true, 96)]
    heap_example 3 4 heap_example_rep _ _); lia.
Defined.

(** The example with the string "hey" in its used node. *)
Definition strdup_example : mem := write_bytes heap_example 1016 (chars "hey" ++ [0]).

Lemma strdup_example_rep : heap_rep strdup_example 1000 1008 [(false, 24); (true, 96)].
Proof.
  apply (heap_client_write _ _ _ _ 1016 (chars "hey" ++ [0]) heap_example_rep).
  intros x Hx. left. left. simpl in Hx. split; [done|lia].
Qed.

Lemma strdup_correct_witness :
  (exists p m', strdup (malloc 1000) 1016 strdup_example = Ret (p, m') /\
     fresh_block (Allocator0 := kernel_heap 1000 1008) [(false, 24); (true, 96)]
       strdup_example m' p (chars "hey" ++ [0]) /\
     cstr_at m' p (chars "hey") /\ cstr_at m' 1016 (chars "hey")) \/
  (exists msg, strdup (malloc 1000) 1016 strdup_example = Panic msg).
Proof.
  refine (strdup_correct (Allocator0 := kernel_heap 1000 1008) [(false, 24); (true, 96)]
    strdup_example 1016 (chars "hey") strdup_example_rep _ _ _); [mem_compute|simpl; lia|].
  intros x Hx. left. left. simpl in Hx. split; [done|lia].
Defined.

Lemma realloc_correct_witness :
  (exists r m' a', realloc (malloc 1000) free 1016 4 strdup_example = Ret (r, m') /\
     arep (Allocator := kernel_heap 1000 1008) a' m' /\ bytes_at m' r (chars "hey" ++ [0]) /\
     (forall x, client (Allocator := kernel_heap 1000 1008) [(false, 24); (true, 96)] x ->
        ~ 1016 <= x < 1016 + 16 ->
        m' !! x = strdup_example !! x /\ client (Allocator := kernel_heap 1000 1008) a' x)) \/
  (exists msg, realloc (malloc 1000) free 1016 4 strdup_example = Panic msg).
Proof.
  refine (realloc_correct (Allocator0 := kernel_heap 1000 1008) [(false, 24); (true, 96)]
    strdup_example 1016 16 4 (chars "hey" ++ [0]) strdup_example_rep _ _ _ _ _ _).
  - left. by repeat split.
  - lia.
  - lia.
  - mem_compute.
  - done.
  - by repeat constructor.
Defined.
