(* ===== verification/Printf.v ===== *)
(** * Printf: src/src/printf.c

    [format_int] and [vsnprintf] over the byte memory.  The format string,
    the buffer and the string arguments lie in the memory; the variable
    arguments are the words of the stack (i386: every argument takes one
    word, a [long long] two).  The specification is the text a format denotes:
    [fmt_int] for an integer, [render] for a format, written as a grammar of
    conversion specifications instead of a character-driven state machine. *)
From S2P Require Import Prelude Mem Ctype CString.

(** ** Flags, ranks and states *)
Definition FL_ZERO : Z := 0x01.
Definition FL_MINUS : Z := 0x02.
Definition FL_PLUS : Z := 0x04.
Definition FL_TICK : Z := 0x08.
Definition FL_SPACE : Z := 0x10.
Definition FL_HASH : Z := 0x20.
Definition FL_SIGNED : Z := 0x40.
Definition FL_UPPER : Z := 0x80.

(** [flags & f], as a condition. *)
Definition has (flags f : Z) : bool := negb (Z.land flags f =? 0).

Definition rank_char : Z := -2.
Definition rank_short : Z := -1.
Definition rank_int : Z := 0.
Definition rank_long : Z := 1.
Definition rank_longlong : Z := 2.

Inductive pf_state := st_normal | st_flags | st_width | st_prec | st_modifiers.

(** ** Output

    [EMIT(x)] on the cursor [(q, o)] of a buffer with room for [n]. *)
Definition EMIT (n x : Z) (c : Z * Z) : prog mem (Z * Z) :=
  let '(q, o) := c in
  if o <? n then store8 q x;; mret (q + 1, u32 (o + 1)) else mret (q, u32 (o + 1)).

(** [while (width > nchars) { EMIT(x); width--; }] with [k] turns to go. *)
Fixpoint emit_pad (k : nat) (n x : Z) (c : Z * Z) : prog mem (Z * Z) :=
  match k with O => mret c | S k' => c ← EMIT n x c; emit_pad k' n x c end.

(** The cursor and the new value of [width] after the loop. *)
Definition pad_while (n x width nchars : Z) (c : Z * Z) : prog mem ((Z * Z) * Z) :=
  c ← emit_pad (Z.to_nat (width - nchars)) n x c; mret (c, Z.min width nchars).

(** ** format_int *)
Definition lcdigits : list Z := chars "0123456789abcdef".
Definition ucdigits : list Z := chars "0123456789ABCDEF".

(** [while (tmpval) { tmpval /= base; ndigits++; }]: a 64-bit value has at
    most 64 digits. *)
Fixpoint count_digits (fuel : nat) (tmpval base ndigits : Z) : Z :=
  match fuel with
  | O => ndigits
  | S fuel' => if tmpval =? 0 then ndigits else count_digits fuel' (tmpval / base) base (ndigits + 1)
  end.

Definition guarded_store (oo n qq x : Z) : prog mem unit :=
  if oo <? n then store8 qq x else mret tt.

(** [while (ndigits > 0)]: the number from right to left. *)
Fixpoint digits_loop (fuel : nat) (n base tickskip : Z) (digits : list Z)
    (qq oo ndigits b4tick val : Z) : prog mem unit :=
  match fuel with
  | O => pnofuel
  | S fuel' =>
      if 0 <? ndigits
      then
        '(qq, oo, ndigits, b4tick) ←
          (if b4tick =? 0
           then guarded_store (u32 (oo - 1)) n (qq - 1) 95;;
                mret (qq - 1, u32 (oo - 1), ndigits - 1, tickskip - 1)
           else mret (qq, oo, ndigits, b4tick - 1));
        let qq := qq - 1 in
        let oo := u32 (oo - 1) in
        let ndigits := ndigits - 1 in
        guarded_store oo n qq (default 0 (digits !! Z.to_nat (val mod base)));;
        digits_loop fuel' n base tickskip digits qq oo ndigits b4tick (val / base)
      else mret tt
  end.

(** The emission of everything before the digits: early padding, sign and
    prefix, zero padding. *)
Definition format_front (n flags base width ndigits nchars : Z) (minus : bool) (c : Z * Z) :
    prog mem ((Z * Z) * Z) :=
  '(c, width) ←
    (if negb (has flags (Z.lor FL_MINUS FL_ZERO)) && (nchars <? width)
     then pad_while n 32 width nchars c else mret (c, width));
  c ← (if minus then EMIT n 45 c
       else if has flags FL_PLUS then EMIT n 43 c
       else if has flags FL_SPACE then EMIT n 32 c else mret c);
  c ← (if has flags FL_HASH && (base =? 16)
       then c ← EMIT n 48 c; EMIT n (if has flags FL_UPPER then 88 else 120) c
       else mret c);
  (if (Z.land flags (Z.lor FL_MINUS FL_ZERO) =? FL_ZERO) && (ndigits <? width)
   then pad_while n 48 width nchars c else mret (c, width)).

(** The emission, once the layout is known. *)
Definition format_emit (q n flags base width ndigits nchars tickskip : Z) (minus : bool)
    (val : Z) : prog mem Z :=
  let digits := if has flags FL_UPPER then ucdigits else lcdigits in
  '((q, o), width) ← format_front n flags base width ndigits nchars minus (q, 0);
  let q := q + ndigits in
  let o := u32 (o + ndigits) in
  digits_loop (S (Z.to_nat ndigits)) n base tickskip digits q o ndigits tickskip val;;
  '((q, o), width) ←
    (if has flags FL_MINUS then pad_while n 32 width nchars (q, o) else mret ((q, o), width));
  mret o.

Definition format_int (q n val flags base width prec : Z) : prog mem Z :=
  let minus := has flags FL_SIGNED && (s64 val <? 0) in
  let val := if minus then u64 (- s64 val) else val in
  let ndigits := count_digits 64 val base 0 in
  let prec := if has flags FL_HASH && (base =? 8) then
                (if prec <? ndigits + 1 then ndigits + 1 else prec) else prec in
  let ndigits := if ndigits <? prec then prec else if val =? 0 then 1 else ndigits in
  let tickskip := if has flags FL_TICK then (if base =? 16 then 4 else 3) else ndigits in
  let ndigits := s32 (ndigits + (ndigits - 1) / tickskip) in
  let nchars := ndigits in
  let nchars := if minus || has flags (Z.lor FL_PLUS FL_SPACE) then s32 (nchars + 1) else nchars in
  let nchars := if has flags FL_HASH && (base =? 16) then s32 (nchars + 2) else nchars in
  format_emit q n flags base width ndigits nchars tickskip minus val.

(** ** vsnprintf *)

(** The local variables that live across characters. *)
Record pf := Pf {
  p_p : Z; p_q : Z; p_o : Z; p_state : pf_state; p_flags : Z; p_rank : Z;
  p_width : Z; p_prec : Z; p_ap : list Z
}.

Definition set_cursor (c : Z * Z) (v : pf) : pf :=
  Pf (p_p v) c.1 c.2 (p_state v) (p_flags v) (p_rank v) (p_width v) (p_prec v) (p_ap v).
Definition set_state (s : pf_state) (v : pf) : pf :=
  Pf (p_p v) (p_q v) (p_o v) s (p_flags v) (p_rank v) (p_width v) (p_prec v) (p_ap v).
Definition set_flags (f : Z) (v : pf) : pf :=
  Pf (p_p v) (p_q v) (p_o v) (p_state v) f (p_rank v) (p_width v) (p_prec v) (p_ap v).
Definition set_rank (r : Z) (v : pf) : pf :=
  Pf (p_p v) (p_q v) (p_o v) (p_state v) (p_flags v) r (p_width v) (p_prec v) (p_ap v).
Definition set_width (w : Z) (v : pf) : pf :=
  Pf (p_p v) (p_q v) (p_o v) (p_state v) (p_flags v) (p_rank v) w (p_prec v) (p_ap v).
Definition set_prec (pr : Z) (v : pf) : pf :=
  Pf (p_p v) (p_q v) (p_o v) (p_state v) (p_flags v) (p_rank v) (p_width v) pr (p_ap v).
Definition set_ap (ap : list Z) (v : pf) : pf :=
  Pf (p_p v) (p_q v) (p_o v) (p_state v) (p_flags v) (p_rank v) (p_width v) (p_prec v) ap.
(** [p--]: process this character again. *)
Definition unread (v : pf) : pf :=
  Pf (p_p v - 1) (p_q v) (p_o v) (p_state v) (p_flags v) (p_rank v) (p_width v) (p_prec v) (p_ap v).
Definition cursor (v : pf) : Z * Z := (p_q v, p_o v).

(** [va_arg(ap, int)] *)
Definition va_word (ap : list Z) : prog mem (Z * list Z) :=
  match ap with w :: ap' => mret (u32 w, ap') | [] => pfault end.
Definition va_dword (ap : list Z) : prog mem (Z * list Z) :=
  '(lo, ap) ← va_word ap; '(hi, ap) ← va_word ap; mret (lo + 2 ^ 32 * hi, ap).

(** The argument of a signed and of an unsigned conversion, as [uintmax_t]. *)
Definition va_signed (rank : Z) (ap : list Z) : prog mem (Z * list Z) :=
  if rank =? rank_longlong then va_dword ap
  else '(w, ap) ← va_word ap;
       mret (u64 (if rank =? rank_char then s8 w
                  else if rank =? rank_short then s16 w else s32 w), ap).
Definition va_unsigned (rank : Z) (ap : list Z) : prog mem (Z * list Z) :=
  if rank =? rank_longlong then va_dword ap
  else '(w, ap) ← va_word ap;
       mret (if rank =? rank_char then u8 w else if rank =? rank_short then u16 w else w, ap).

(** [case st_flags] *)
Definition flag_of (ch : Z) : option Z :=
  if ch =? 45 then Some FL_MINUS else if ch =? 43 then Some FL_PLUS
  else if ch =? 39 then Some FL_TICK else if ch =? 32 then Some FL_SPACE
  else if ch =? 35 then Some FL_HASH else if ch =? 48 then Some FL_ZERO else None.

Definition step_flags (ch : Z) (v : pf) : pf :=
  match flag_of ch with
  | Some f => set_flags (Z.lor (p_flags v) f) v
  | None => unread (set_state st_width v)
  end.

(** [case st_width] *)
Definition step_width (ch : Z) (v : pf) : prog mem pf :=
  if (48 <=? ch) && (ch <=? 57) then mret (set_width (s32 (p_width v * 10 + (ch - 48))) v)
  else if ch =? 42 then
    '(w, ap) ← va_word (p_ap v);
    let w := s32 w in
    mret (set_ap ap (if w <? 0 then set_flags (Z.lor (p_flags v) FL_MINUS) (set_width (s32 (- w)) v)
                     else set_width w v))
  else if ch =? 46 then mret (set_state st_prec (set_prec 0 v))
  else mret (unread (set_state st_modifiers v)).

(** [case st_prec] *)
Definition step_prec (ch : Z) (v : pf) : prog mem pf :=
  if (48 <=? ch) && (ch <=? 57) then mret (set_prec (s32 (p_prec v * 10 + (ch - 48))) v)
  else if ch =? 42 then
    '(pr, ap) ← va_word (p_ap v);
    let pr := s32 pr in mret (set_ap ap (set_prec (if pr <? 0 then -1 else pr) v))
  else mret (unread (set_state st_modifiers v)).

(** [is_integer:] *)
Definition conv_integer (n val base : Z) (v : pf) : prog mem pf :=
  sz ← format_int (p_q v) (if p_o v <? n then n - p_o v else 0) val (p_flags v) base
         (p_width v) (p_prec v);
  mret (set_cursor (p_q v + sz, u32 (p_o v + sz)) v).

(** The characters of [sarg]: in the memory, or of an object of the function. *)
Inductive str_src := SPtr (a : Z) | SLit (l : list Z).

Definition src_next (s : str_src) : prog mem (Z * str_src) :=
  match s with
  | SPtr a => c ← load8 a; mret (c, SPtr (a + 1))
  | SLit (c :: l) => mret (c, SLit l)
  | SLit [] => pfault
  end.

(** [for (i = slen; i; i--)] *)
Fixpoint emit_string (i : nat) (n : Z) (s : str_src) (c : Z * Z) : prog mem (Z * Z) :=
  match i with
  | O => mret c
  | S i' => '(sch, s) ← src_next s; c ← EMIT n sch c; emit_string i' n s c
  end.

(** [is_string:] *)
Definition conv_string (n : Z) (sarg : str_src) (slen : Z) (v : pf) : prog mem pf :=
  let slen := if negb (p_prec v =? -1) && (p_prec v <? slen) then p_prec v else slen in
  if slen <? 0 then pnofuel
  else
    '(c, width) ←
      (if (slen <? p_width v) && negb (has (p_flags v) FL_MINUS)
       then pad_while n (if has (p_flags v) FL_ZERO then 48 else 32) (p_width v) slen (cursor v)
       else mret (cursor v, p_width v));
    c ← emit_string (Z.to_nat slen) n sarg c;
    '(c, width) ←
      (if (slen <? width) && has (p_flags v) FL_MINUS
       then pad_while n 32 width slen c else mret (c, width));
    mret (set_cursor c (set_width width v)).

(** [case 'n'] *)
Definition store16 (a v : Z) : prog mem unit := store8 a v;; store8 (a + 1) (Z.shiftr v 8).

Definition conv_n (v : pf) : prog mem pf :=
  '(a, ap) ← va_word (p_ap v);
  (if p_rank v =? rank_char then store8 a (p_o v)
   else if p_rank v =? rank_short then store16 a (p_o v)
   else if p_rank v =? rank_longlong then store32 a (p_o v);; store32 (a + 4) 0
   else store32 a (p_o v));;
  mret (set_ap ap v).

(** The output conversions, [v] with the state and the rank already set. *)
Definition conv (n ch : Z) (v : pf) : prog mem pf :=
  if (ch =? 80) || (ch =? 112) then
    let flags := if ch =? 80 then Z.lor (p_flags v) FL_UPPER else p_flags v in
    '(val, ap) ← va_word (p_ap v);
    conv_integer n val 16 (set_ap ap (set_prec ((8 * 4 + 3) / 4)
      (set_flags (Z.lor flags FL_HASH) v)))
  else if (ch =? 100) || (ch =? 105) then
    '(val, ap) ← va_signed (p_rank v) (p_ap v);
    conv_integer n val 10 (set_ap ap (set_flags (Z.lor (p_flags v) FL_SIGNED) v))
  else if ch =? 111 then
    '(val, ap) ← va_unsigned (p_rank v) (p_ap v); conv_integer n val 8 (set_ap ap v)
  else if ch =? 117 then
    '(val, ap) ← va_unsigned (p_rank v) (p_ap v); conv_integer n val 10 (set_ap ap v)
  else if (ch =? 88) || (ch =? 120) then
    let flags := if ch =? 88 then Z.lor (p_flags v) FL_UPPER else p_flags v in
    '(val, ap) ← va_unsigned (p_rank v) (p_ap v);
    conv_integer n val 16 (set_ap ap (set_flags flags v))
  else if ch =? 99 then
    '(carg, ap) ← va_word (p_ap v); conv_string n (SLit [u8 carg]) 1 (set_ap ap v)
  else if ch =? 115 then
    '(sarg, ap) ← va_word (p_ap v);
    if sarg =? 0 then conv_string n (SLit (chars "(null)")) 6 (set_ap ap v)
    else slen ← strlen sarg; conv_string n (SPtr sarg) (s32 slen) (set_ap ap v)
  else if ch =? 110 then conv_n v
  else c ← EMIT n ch (cursor v); mret (set_cursor c v).

(** [case st_modifiers] *)
Definition rank_of (ch rank : Z) : option Z :=
  if ch =? 104 then Some (rank - 1) else if ch =? 108 then Some (rank + 1)
  else if ch =? 106 then Some rank_longlong else if ch =? 122 then Some rank_long
  else if ch =? 116 then Some rank_long
  else if (ch =? 76) || (ch =? 113) then Some (rank + 2) else None.

Definition canonical_rank (rank : Z) : Z :=
  if rank <? rank_char then rank_char else if rank_longlong <? rank then rank_longlong else rank.

Definition step_modifiers (n ch : Z) (v : pf) : prog mem pf :=
  match rank_of ch (p_rank v) with
  | Some r => mret (set_rank r v)
  | None => conv n ch (set_rank (canonical_rank (p_rank v)) (set_state st_normal v))
  end.

(** [case st_normal] *)
Definition step_normal (n ch : Z) (v : pf) : prog mem pf :=
  if ch =? 37
  then mret (Pf (p_p v) (p_q v) (p_o v) st_flags 0 rank_int 0 (-1) (p_ap v))
  else c ← EMIT n ch (cursor v); mret (set_cursor c v).

Definition vsn_step (n ch : Z) (v : pf) : prog mem pf :=
  match p_state v with
  | st_normal => step_normal n ch v
  | st_flags => mret (step_flags ch v)
  | st_width => step_width ch v
  | st_prec => step_prec ch v
  | st_modifiers => step_modifiers n ch v
  end.

(** [while ((ch = *p++))] *)
Fixpoint vsn_loop (fuel : nat) (n : Z) (v : pf) : prog mem pf :=
  match fuel with
  | O => pnofuel
  | S fuel' =>
      ch ← load8 (p_p v);
      if ch =? 0 then mret v
      else v ← vsn_step n ch
             (Pf (p_p v + 1) (p_q v) (p_o v) (p_state v) (p_flags v) (p_rank v) (p_width v)
                 (p_prec v) (p_ap v));
           vsn_loop fuel' n v
  end.

(** A character is processed at most three times (as a flag, in the width and
    as a modifier), hence the bound. *)
Definition vsnprintf (buffer n format : Z) (ap : list Z) : prog mem Z :=
  m ← pget;
  v ← vsn_loop (4 * mem_fuel m) n (Pf format buffer 0 st_normal 0 rank_int 0 (-1) ap);
  (if p_o v <? n then store8 (p_q v) 0
   else if 0 <? n then store8 (buffer + n - 1) 0 else mret tt);;
  mret (s32 (p_o v)).

Definition snprintf (buffer n format : Z) (ap : list Z) : prog mem Z :=
  vsnprintf buffer n format ap.

Definition asprintf (malloc : Z -> prog mem Z) (bufp format : Z) (ap : list Z) : prog mem Z :=
  r ← vsnprintf 0 0 format ap;
  let bytes := s32 (r + 1) in
  p ← malloc (u32 bytes);
  store32 bufp p;;
  if p =? 0 then mret (-1) else vsnprintf p (u32 bytes) format ap.

(** ** The text of an integer *)

Definition digit_table (flags : Z) : list Z := if has flags FL_UPPER then ucdigits else lcdigits.
Definition digit_char (tbl : list Z) (d : Z) : Z := default 0 (tbl !! Z.to_nat d).

(** The [k] low digits of [v], least significant first. *)
Fixpoint digits_rev (tbl : list Z) (base : Z) (k : nat) (v : Z) : list Z :=
  match k with
  | O => []
  | S k' => digit_char tbl (v mod base) :: digits_rev tbl base k' (v / base)
  end.

(** [b] digits up to the next separator, then one every [skip] digits. *)
Fixpoint ticks_rev (skip b : nat) (l : list Z) : list Z :=
  match l with
  | [] => []
  | d :: l' =>
      match b with
      | O => 95 :: d :: ticks_rev skip (skip - 1) l'
      | S b' => d :: ticks_rev skip b' l'
      end
  end.

(** The number of digits of [v], 0 for 0. *)
Definition ndigits_of (base v : Z) : Z := count_digits 64 v base 0.

Record int_layout := {
  il_minus : bool;    (* the value is negative *)
  il_abs : Z;         (* its absolute value *)
  il_count : Z        (* the digits printed, with leading zeros *)
}.

Definition int_layout_of (val flags base prec : Z) : int_layout :=
  let minus := has flags FL_SIGNED && (s64 val <? 0) in
  let v := if minus then u64 (- s64 val) else val in
  let nd := ndigits_of base v in
  let prec := if has flags FL_HASH && (base =? 8) then Z.max prec (nd + 1) else prec in
  {| il_minus := minus; il_abs := v;
     il_count := if nd <? prec then prec else if v =? 0 then 1 else nd |}.

(** The digits with their separators. *)
Definition int_body (val flags base prec : Z) : list Z :=
  let l := int_layout_of val flags base prec in
  let skip := if has flags FL_TICK then (if base =? 16 then 4 else 3) else il_count l in
  rev (ticks_rev (Z.to_nat skip) (Z.to_nat skip)
         (digits_rev (digit_table flags) base (Z.to_nat (il_count l)) (il_abs l))).

Definition int_sign (val flags base prec : Z) : list Z :=
  if il_minus (int_layout_of val flags base prec) then [45]
  else if has flags FL_PLUS then [43] else if has flags FL_SPACE then [32] else [].

Definition int_prefix (flags base : Z) : list Z :=
  if has flags FL_HASH && (base =? 16)
  then [48; if has flags FL_UPPER then 88 else 120] else [].

Definition pad (width : Z) (c : Z) (l : list Z) : list Z :=
  replicate (Z.to_nat (width - Z.of_nat (length l))) c.

(** The text that an integer conversion writes: padded on the left with
    spaces, or with zeros after the sign, or on the right. *)
Definition fmt_int (val flags base width prec : Z) : list Z :=
  let head := int_sign val flags base prec ++ int_prefix flags base in
  let body := int_body val flags base prec in
  let fill c := pad width c (head ++ body) in
  if has flags FL_MINUS then head ++ body ++ fill 32
  else if has flags FL_ZERO then head ++ fill 48 ++ body
  else fill 32 ++ head ++ body.

(** ** Output through the cursor

    After the text [out] was emitted into the buffer [buf] with room for [n]
    characters, the memory is the initial one with the first [n] characters
    of [out] written at [buf]. *)
Definition emitted (m0 : mem) (buf n : Z) (out : list Z) (c : Z * Z) (m : mem) : Prop :=
  c.2 = Z.of_nat (length out) /\
  (c.2 <= n -> c.1 = buf + c.2) /\
  m = write_bytes m0 buf (take (Z.to_nat n) out).

Lemma emitted_start m buf n : 0 <= n -> emitted m buf n [] (buf, 0) m.
Proof. intros. split_and!; simpl; [done|lia|by rewrite take_nil]. Qed.

Lemma write_take_app m buf (k : nat) l1 l2 :
  write_bytes m buf (take k (l1 ++ l2)) =
  write_bytes (write_bytes m buf (take k l1)) (buf + Z.of_nat (length l1))
    (take (k - length l1) l2).
Proof.
  rewrite take_app, write_bytes_app. destruct (decide (length l1 <= k)%nat).
  - by rewrite (take_ge l1) by lia.
  - by replace (k - length l1)%nat with 0%nat by lia.
Qed.

(** The room for the output: [n] mapped bytes, and a length that fits. *)
Lemma EMIT_spec m0 buf n out x c m :
  emitted m0 buf n out c m -> mapped m0 buf n -> Z.of_nat (length out) + 1 < 2 ^ 32 ->
  urange 8 x ->
  exists c' m', EMIT n x c m = Ret (c', m') /\ emitted m0 buf n (out ++ [x]) c' m'.
Proof.
  destruct c as [q o]. intros (Ho & Hq & ->) Hm Hlen Hx. simpl in Ho, Hq. unfold EMIT.
  rewrite (wrap_small 32 (o + 1)) by (unfold urange; lia).
  destruct (Z.ltb_spec o n).
  - specialize (Hq ltac:(lia)). subst q.
    erewrite bind_Ret by (apply store8_at, (mapped_write m0 buf _ buf n Hm); lia).
    do 2 eexists. split; [reflexivity|]. rewrite (wrap_small 8 x) by done. split_and!; simpl.
    + rewrite length_app. simpl. lia.
    + lia.
    + rewrite write_take_app, (take_ge [x]) by (simpl; lia). simpl. by rewrite Ho.
  - do 2 eexists. split; [reflexivity|]. split_and!; simpl.
    + rewrite length_app. simpl. lia.
    + lia.
    + rewrite take_app_le by lia. done.
Qed.

Lemma emit_pad_spec m0 buf n x k out c m :
  emitted m0 buf n out c m -> mapped m0 buf n -> Z.of_nat (length out + k) < 2 ^ 32 ->
  urange 8 x ->
  exists c' m', emit_pad k n x c m = Ret (c', m') /\
    emitted m0 buf n (out ++ replicate k x) c' m'.
Proof.
  intros He Hm Hlen Hx. revert out c m He Hlen.
  induction k as [|k IH]; intros out c m He Hlen; cbn [emit_pad replicate].
  - rewrite app_nil_r. by exists c, m.
  - destruct (EMIT_spec _ _ _ _ x _ _ He Hm ltac:(lia) Hx) as (c1 & m1 & H1 & He1).
    prog_step H1. destruct (IH _ _ _ He1) as (c2 & m2 & H2 & He2).
    { rewrite length_app. simpl. lia. }
    exists c2, m2. split; [done|]. by rewrite <- app_assoc in He2.
Qed.

Lemma pad_while_spec m0 buf n x width nchars out c m :
  emitted m0 buf n out c m -> mapped m0 buf n ->
  Z.of_nat (length out) + Z.max 0 (width - nchars) < 2 ^ 32 -> urange 8 x ->
  exists c' m', pad_while n x width nchars c m = Ret ((c', Z.min width nchars), m') /\
    emitted m0 buf n (out ++ replicate (Z.to_nat (width - nchars)) x) c' m'.
Proof.
  intros He Hm Hlen Hx.
  destruct (emit_pad_spec _ _ _ x (Z.to_nat (width - nchars)) _ _ _ He Hm ltac:(lia) Hx)
    as (c' & m' & H1 & H2).
  exists c', m'. unfold pad_while. by prog_step H1.
Qed.

(** ** The digits *)
Lemma guarded_store_spec m1 n qq oo x done :
  1 <= oo < 2 ^ 32 -> urange 8 x -> (oo - 1 < n -> is_Some (m1 !! (qq - 1))) ->
  guarded_store (u32 (oo - 1)) n (qq - 1) x (write_bytes m1 qq (take (Z.to_nat (n - oo)) done)) =
  Ret (tt, write_bytes m1 (qq - 1) (take (Z.to_nat (n - (oo - 1))) (x :: done))).
Proof.
  intros Hoo Hx Hm. unfold guarded_store. rewrite wrap_small by (unfold urange; lia).
  destruct (Z.ltb_spec (oo - 1) n).
  - rewrite store8_at by (rewrite lookup_write_out by lia; auto).
    rewrite wrap_small by done. replace (Z.to_nat (n - (oo - 1))) with (S (Z.to_nat (n - oo))) by lia.
    cbn [take write_bytes]. replace (qq - 1 + 1) with qq by lia.
    by rewrite <- (write_bytes_comm m1 qq _ (qq - 1) [x]) by (simpl; lia).
  - replace (Z.to_nat (n - (oo - 1))) with 0%nat by lia.
    by replace (Z.to_nat (n - oo)) with 0%nat by lia.
Qed.

Lemma digit_tables tbl i : tbl = ucdigits \/ tbl = lcdigits -> urange 8 (default 0 (tbl !! i)).
Proof.
  intros Htbl. destruct (tbl !! i) as [c|] eqn:E; [|by split]. simpl.
  assert (forallb (fun c => (0 <=? c) && (c <? 256)) tbl = true) as Ht by (by destruct Htbl as [->| ->]).
  rewrite forallb_forall in Ht.
  assert (In c tbl) as Hc by (apply list_elem_of_In; by eapply list_elem_of_lookup_2).
  specialize (Ht c Hc). unfold urange. change (2 ^ 8) with 256. lia.
Qed.

Lemma digits_loop_spec tbl n base skip k b val qq oo done fuel m1 :
  let r := ticks_rev skip b (digits_rev tbl base k val) in
  tbl = ucdigits \/ tbl = lcdigits -> (1 <= skip)%nat -> (k < fuel)%nat ->
  Z.of_nat (length r) <= oo < 2 ^ 32 ->
  (forall i, oo - Z.of_nat (length r) <= i < oo -> i < n -> is_Some (m1 !! (qq - oo + i))) ->
  digits_loop fuel n base (Z.of_nat skip) tbl qq oo (Z.of_nat (length r)) (Z.of_nat b) val
    (write_bytes m1 qq (take (Z.to_nat (n - oo)) done)) =
  Ret (tt, write_bytes m1 (qq - Z.of_nat (length r))
             (take (Z.to_nat (n - (oo - Z.of_nat (length r)))) (rev r ++ done))).
Proof.
  intros r Htbl Hskip. subst r. revert b val qq oo done fuel.
  induction k as [|k IH]; intros b val qq oo done [|fuel] Hf Hoo Hm; try lia.
  { simpl. by rewrite !Z.sub_0_r. }
  cbn [digits_rev ticks_rev digits_loop] in *.
  set (d := digit_char tbl (val mod base)) in *.
  assert (urange 8 d) as Hd by (by apply digit_tables).
  destruct b as [|b].
  - set (r := ticks_rev skip (skip - 1) (digits_rev tbl base k (val / base))) in *.
    change (length (95 :: d :: r)) with (S (S (length r))) in *.
    destruct (Z.ltb_spec 0 (Z.of_nat (S (S (length r))))); [|lia].
    change (Z.of_nat 0 =? 0) with true. cbv iota.
    pose proof (guarded_store_spec m1 n qq oo 95 done ltac:(lia) ltac:(by split)
      ltac:(intros; replace (qq - 1) with (qq - oo + (oo - 1)) by lia; apply Hm; lia)) as H1.
    prog_step H1. prog_norm. rewrite (wrap_small 32 (oo - 1)) by (unfold urange; lia).
    pose proof (guarded_store_spec m1 n (qq - 1) (oo - 1) d (95 :: done) ltac:(lia) Hd
      ltac:(intros; replace (qq - 1 - 1) with (qq - oo + (oo - 1 - 1)) by lia; apply Hm; lia)) as H2.
    fold (digit_char tbl (val mod base)). fold d. prog_step H2.
    rewrite (wrap_small 32 (oo - 1 - 1)) by (unfold urange; lia).
    replace (Z.of_nat (S (S (length r))) - 1 - 1) with (Z.of_nat (length r)) by lia.
    replace (Z.of_nat skip - 1) with (Z.of_nat (skip - 1)) by lia.
    unfold r. rewrite IH; fold r; [|lia|lia|].
    + simpl rev. rewrite <- !app_assoc. cbn [app].
      replace (qq - 1 - 1 - Z.of_nat (length r)) with (qq - Z.of_nat (S (S (length r)))) by lia.
      by replace (oo - 1 - 1 - Z.of_nat (length r)) with (oo - Z.of_nat (S (S (length r)))) by lia.
    + intros i Hi Hin. replace (qq - 1 - 1 - (oo - 1 - 1) + i) with (qq - oo + i) by lia.
      apply Hm; lia.
  - set (r := ticks_rev skip b (digits_rev tbl base k (val / base))) in *.
    change (length (d :: r)) with (S (length r)) in *.
    destruct (Z.ltb_spec 0 (Z.of_nat (S (length r)))); [|lia].
    destruct (Z.eqb_spec (Z.of_nat (S b)) 0); [lia|]. prog_norm.
    pose proof (guarded_store_spec m1 n qq oo d done ltac:(lia) Hd
      ltac:(intros; replace (qq - 1) with (qq - oo + (oo - 1)) by lia; apply Hm; lia)) as H2.
    fold (digit_char tbl (val mod base)). fold d. prog_step H2.
    rewrite (wrap_small 32 (oo - 1)) by (unfold urange; lia).
    replace (Z.of_nat (S (length r)) - 1) with (Z.of_nat (length r)) by lia.
    replace (Z.of_nat (S b) - 1) with (Z.of_nat b) by lia.
    unfold r. rewrite IH; fold r; [|lia|lia|].
    + simpl rev. rewrite <- app_assoc. cbn [app].
      replace (qq - 1 - Z.of_nat (length r)) with (qq - Z.of_nat (S (length r))) by lia.
      by replace (oo - 1 - Z.of_nat (length r)) with (oo - Z.of_nat (S (length r))) by lia.
    + intros i Hi Hin. replace (qq - 1 - (oo - 1) + i) with (qq - oo + i) by lia.
      apply Hm; lia.
Qed.

(** The code's count of the separators. *)
Lemma ticks_length skip b l :
  (1 <= skip)%nat ->
  Z.of_nat (length (ticks_rev skip b l)) =
  Z.of_nat (length l) + (if (length l <=? b)%nat then 0
                         else (Z.of_nat (length l) - Z.of_nat b - 1) / Z.of_nat skip + 1).
Proof.
  intros Hs. revert b. induction l as [|d l IH]; intros b; [done|]. cbn [ticks_rev].
  destruct b as [|b]; simpl length.
  - cbn [Nat.leb]. rewrite !Nat2Z.inj_succ, IH.
    destruct (Nat.leb_spec (length l) (skip - 1)).
    + rewrite Z.div_small by lia. lia.
    + replace (Z.succ (Z.of_nat (length l)) - Z.of_nat 0 - 1) with
        (Z.of_nat (length l) - Z.of_nat (skip - 1) - 1 + 1 * Z.of_nat skip) by lia.
      rewrite Z.div_add by lia. lia.
  - rewrite !Nat2Z.inj_succ, IH. cbn [Nat.leb].
    destruct (Nat.leb_spec (length l) b); [lia|].
    replace (Z.succ (Z.of_nat (length l)) - Z.succ (Z.of_nat b) - 1)
      with (Z.of_nat (length l) - Z.of_nat b - 1) by lia. lia.
Qed.

Lemma digits_rev_length tbl base k v : length (digits_rev tbl base k v) = k.
Proof. revert v. induction k; intros v; simpl; [done|]. by rewrite IHk. Qed.

(** ** Flags *)
Lemma land_pow2 f k : 0 <= k -> Z.land f (2 ^ k) = if Z.testbit f k then 2 ^ k else 0.
Proof.
  intros Hk. destruct (Z.testbit f k) eqn:E; apply Z.bits_inj'; intros i Hi;
    rewrite Z.land_spec, ?Z.bits_0; rewrite Z.pow2_bits_eqb by lia;
    destruct (Z.eqb_spec k i) as [->|]; rewrite ?E, ?andb_false_r; done.
Qed.

Lemma has_pow2 f k : 0 <= k -> has f (2 ^ k) = Z.testbit f k.
Proof.
  intros Hk. unfold has. rewrite land_pow2 by done. pose proof (Z.pow_pos_nonneg 2 k).
  destruct (Z.testbit f k); [destruct (Z.eqb_spec (2 ^ k) 0); [lia|done]|done].
Qed.

Lemma has_lor f a b : has f (Z.lor a b) = has f a || has f b.
Proof.
  unfold has. rewrite Z.land_lor_distr_r.
  destruct (Z.eqb_spec (Z.land f a) 0) as [->|Ha]; [done|].
  destruct (Z.eqb_spec (Z.lor (Z.land f a) (Z.land f b)) 0) as [H|]; [|done].
  apply Z.lor_eq_0_iff in H. tauto.
Qed.

Lemma zero_pad_flags f :
  (Z.land f (Z.lor FL_MINUS FL_ZERO) =? FL_ZERO) = has f FL_ZERO && negb (has f FL_MINUS).
Proof.
  rewrite Z.land_lor_distr_r. change FL_MINUS with (2 ^ 1). change FL_ZERO with (2 ^ 0).
  rewrite !has_pow2, !land_pow2 by lia. by destruct (Z.testbit f 1), (Z.testbit f 0).
Qed.

(** ** The layout *)
Lemma count_digits_range fuel v base nd :
  nd <= count_digits fuel v base nd <= nd + Z.of_nat fuel.
Proof.
  revert v nd. induction fuel as [|fuel IH]; intros v nd; cbn [count_digits]; [lia|].
  case_cmp; [lia|]. specialize (IH (v / base) (nd + 1)). lia.
Qed.

Lemma ndigits_of_range base v : 0 <= ndigits_of base v <= 64 /\ (v <> 0 -> 1 <= ndigits_of base v).
Proof.
  unfold ndigits_of. pose proof (count_digits_range 64 v base 0). split; [lia|].
  intros Hv.
  change (count_digits 64 v base 0) with
    (if v =? 0 then 0 else count_digits 63 (v / base) base (0 + 1)).
  destruct (Z.eqb_spec v 0); [done|].
  pose proof (count_digits_range 63 (v / base) base (0 + 1)). lia.
Qed.

Lemma il_count_range val flags base prec :
  let l := int_layout_of val flags base prec in
  1 <= il_count l <= Z.max prec 65.
Proof.
  unfold int_layout_of. cbn [il_count].
  set (v := if has flags FL_SIGNED && (s64 val <? 0) then u64 (- s64 val) else val).
  pose proof (ndigits_of_range base v).
  destruct (has flags FL_HASH && (base =? 8)); repeat case_cmp; lia.
Qed.

Definition tickskip_of (flags base cnt : Z) : Z :=
  if has flags FL_TICK then (if base =? 16 then 4 else 3) else cnt.

Lemma int_body_length val flags base prec :
  let cnt := il_count (int_layout_of val flags base prec) in
  Z.of_nat (length (int_body val flags base prec)) =
  cnt + (cnt - 1) / tickskip_of flags base cnt.
Proof.
  cbv zeta. set (cnt := il_count (int_layout_of val flags base prec)).
  pose proof (il_count_range val flags base prec) as Hc. simpl in Hc. fold cnt in Hc.
  unfold int_body. fold cnt (tickskip_of flags base cnt).
  assert (1 <= tickskip_of flags base cnt) as Hs.
  { unfold tickskip_of. destruct (has flags FL_TICK); [case_cmp; lia|].
    unfold cnt. pose proof (il_count_range val flags base prec). simpl in *. lia. }
  rewrite length_rev, ticks_length by lia. rewrite digits_rev_length.
  assert (1 <= cnt) as Hc1.
  { pose proof (il_count_range val flags base prec). unfold cnt. simpl in *. lia. }
  rewrite !Z2Nat.id by lia.
  destruct (Nat.leb_spec (Z.to_nat cnt) (Z.to_nat (tickskip_of flags base cnt))).
  - rewrite Z.div_small by lia. lia.
  - replace (cnt - 1) with (cnt - tickskip_of flags base cnt - 1 + 1 * tickskip_of flags base cnt) by lia.
    rewrite Z.div_add by lia. lia.
Qed.

(** ** The emission of each part *)
Lemma cond_pad_spec m0 buf n x (b : bool) lim width nchars out c m :
  emitted m0 buf n out c m -> mapped m0 buf n -> lim <= nchars ->
  Z.of_nat (length out) + Z.max 0 (width - nchars) < 2 ^ 32 -> urange 8 x ->
  exists c' m',
    (if b && (lim <? width) then pad_while n x width nchars c else mret (c, width)) m =
      Ret ((c', if b then Z.min width nchars else width), m') /\
    emitted m0 buf n (out ++ if b then replicate (Z.to_nat (width - nchars)) x else []) c' m'.
Proof.
  intros He Hm Hlim Hlen Hx. destruct b; cbn [andb].
  - destruct (Z.ltb_spec lim width).
    + by apply pad_while_spec.
    + rewrite Z.min_l by lia. replace (Z.to_nat (width - nchars)) with 0%nat by lia.
      cbn [replicate]. rewrite app_nil_r. by exists c, m.
  - rewrite app_nil_r. by exists c, m.
Qed.

Lemma sign_spec m0 buf n val flags base prec out c m :
  emitted m0 buf n out c m -> mapped m0 buf n -> Z.of_nat (length out) + 1 < 2 ^ 32 ->
  exists c' m',
    (if il_minus (int_layout_of val flags base prec) then EMIT n 45 c
     else if has flags FL_PLUS then EMIT n 43 c
     else if has flags FL_SPACE then EMIT n 32 c else mret c) m = Ret (c', m') /\
    emitted m0 buf n (out ++ int_sign val flags base prec) c' m'.
Proof.
  intros He Hm Hlen. unfold int_sign.
  destruct (il_minus _); [by eapply EMIT_spec; [..|split]|].
  destruct (has flags FL_PLUS); [by eapply EMIT_spec; [..|split]|].
  destruct (has flags FL_SPACE); [by eapply EMIT_spec; [..|split]|].
  rewrite app_nil_r. by exists c, m.
Qed.

Lemma prefix_spec m0 buf n flags base out c m :
  emitted m0 buf n out c m -> mapped m0 buf n -> Z.of_nat (length out) + 2 < 2 ^ 32 ->
  exists c' m',
    (if has flags FL_HASH && (base =? 16)
     then c ← EMIT n 48 c; EMIT n (if has flags FL_UPPER then 88 else 120) c
     else mret c) m = Ret (c', m') /\
    emitted m0 buf n (out ++ int_prefix flags base) c' m'.
Proof.
  intros He Hm Hlen. unfold int_prefix. destruct (has flags FL_HASH && (base =? 16)).
  - destruct (EMIT_spec m0 buf n out 48 c m He Hm ltac:(lia) ltac:(by split)) as (c1 & m1 & H1 & He1).
    prog_step H1.
    destruct (EMIT_spec m0 buf n (out ++ [48]) (if has flags FL_UPPER then 88 else 120) c1 m1 He1 Hm)
      as (c2 & m2 & H2 & He2).
    { rewrite length_app. simpl. lia. }
    { by destruct (has flags FL_UPPER). }
    exists c2, m2. split; [done|]. by rewrite <- app_assoc in He2.
  - rewrite app_nil_r. by exists c, m.
Qed.

Lemma body_spec m0 buf n val flags base prec out q o m :
  let l := int_layout_of val flags base prec in
  let skip := tickskip_of flags base (il_count l) in
  let nd := Z.of_nat (length (int_body val flags base prec)) in
  emitted m0 buf n out (q, o) m -> mapped m0 buf n ->
  Z.of_nat (length out) + nd < 2 ^ 32 ->
  digits_loop (S (Z.to_nat nd)) n base skip (digit_table flags) (q + nd) (u32 (o + nd)) nd skip
    (il_abs l) m =
    Ret (tt, write_bytes m0 buf (take (Z.to_nat n) (out ++ int_body val flags base prec))) /\
  emitted m0 buf n (out ++ int_body val flags base prec) (q + nd, u32 (o + nd))
    (write_bytes m0 buf (take (Z.to_nat n) (out ++ int_body val flags base prec))).
Proof.
  intros l skip nd (Ho & Hq & ->) Hm Hlen. simpl in Ho, Hq.
  pose proof (il_count_range val flags base prec) as Hc. cbv zeta in Hc. fold l in Hc.
  pose proof (int_body_length val flags base prec) as Hbl. cbv zeta in Hbl. fold l skip nd in Hbl.
  assert (1 <= skip) as Hs by (unfold skip, tickskip_of; destruct (has flags FL_TICK); [case_cmp|]; lia).
  rewrite (wrap_small 32 (o + nd)) by (unfold urange; lia).
  split.
  2: { split_and!; simpl; [rewrite length_app; lia|intros; lia|done]. }
  pose proof (digits_loop_spec (digit_table flags) n base (Z.to_nat skip) (Z.to_nat (il_count l))
    (Z.to_nat skip) (il_abs l) (q + nd) (o + nd) [] (S (Z.to_nat nd))
    (write_bytes m0 buf (take (Z.to_nat n) out))) as Hrun.
  cbv zeta in Hrun. rewrite <- length_rev in Hrun.
  change (rev (ticks_rev (Z.to_nat skip) (Z.to_nat skip) (digits_rev (digit_table flags) base
    (Z.to_nat (il_count l)) (il_abs l)))) with (int_body val flags base prec) in Hrun.
  fold nd in Hrun. rewrite !Z2Nat.id in Hrun by lia. rewrite take_nil in Hrun.
  cbn [write_bytes] in Hrun. rewrite app_nil_r in Hrun. rewrite Hrun.
  - do 2 f_equal. replace (q + nd - nd) with q by lia. replace (o + nd - nd) with o by lia.
    rewrite write_take_app. destruct (decide (o <= n)) as [Hon|Hon].
    + rewrite (Hq Hon), Ho. do 2 f_equal. lia.
    + replace (Z.to_nat (n - o)) with 0%nat by lia.
      by replace (Z.to_nat n - length out)%nat with 0%nat by lia.
  - unfold digit_table. destruct (has flags FL_UPPER); auto.
  - lia.
  - assert (0 <= (il_count l - 1) / skip) by (apply Z.div_pos; lia). lia.
  - lia.
  - intros i Hi Hin. apply (mapped_write _ _ _ buf n Hm).
    rewrite (Hq ltac:(lia)). lia.
Qed.

(** The code's width of everything but the padding. *)
Lemma head_length val flags base prec :
  Z.of_nat (length (int_sign val flags base prec)) =
    (if il_minus (int_layout_of val flags base prec) || has flags (Z.lor FL_PLUS FL_SPACE)
     then 1 else 0) /\
  Z.of_nat (length (int_prefix flags base)) = (if has flags FL_HASH && (base =? 16) then 2 else 0).
Proof.
  rewrite has_lor. unfold int_sign, int_prefix.
  destruct (il_minus _), (has flags FL_PLUS), (has flags FL_SPACE), (has flags FL_HASH && _);
    by split.
Qed.

Lemma fmt_int_length val flags base width prec :
  Z.of_nat (length (fmt_int val flags base width prec)) =
  Z.max width (Z.of_nat (length ((int_sign val flags base prec ++ int_prefix flags base) ++
    int_body val flags base prec))).
Proof.
  unfold fmt_int, pad. destruct (has flags FL_MINUS); [|destruct (has flags FL_ZERO)];
    rewrite !length_app, !length_replicate; lia.
Qed.

Lemma int_body_small val flags base prec :
  prec < 2 ^ 28 -> 1 <= Z.of_nat (length (int_body val flags base prec)) < 2 ^ 30.
Proof.
  intros Hp. rewrite int_body_length. pose proof (il_count_range val flags base prec) as Hc.
  cbv zeta in Hc. set (cnt := il_count _) in *. set (skip := tickskip_of _ _ _).
  assert (1 <= skip) by (unfold skip, tickskip_of; destruct (has flags FL_TICK); [case_cmp|]; lia).
  assert (0 <= (cnt - 1) / skip <= cnt - 1).
  { split; [apply Z.div_pos; lia|]. apply Z.div_le_upper_bound; nia. }
  lia.
Qed.

Lemma head_small val flags base prec :
  Z.of_nat (length (int_sign val flags base prec ++ int_prefix flags base)) <= 3 /\
  Z.of_nat (length (int_sign val flags base prec)) <= 1.
Proof.
  destruct (head_length val flags base prec) as [H1 H2]. rewrite length_app, Nat2Z.inj_add, H1, H2.
  destruct (_ || _), (_ && _); lia.
Qed.

(** What is written before the digits. *)
Definition int_front (flags width nchars : Z) (head : list Z) : list Z :=
  let fill c := replicate (Z.to_nat (width - nchars)) c in
  if has flags FL_MINUS then head
  else if has flags FL_ZERO then head ++ fill 48 else fill 32 ++ head.

Lemma format_front_spec m q n val flags base width prec nd :
  mapped m q n -> 0 <= n -> width < 2 ^ 28 -> 1 <= nd < 2 ^ 30 ->
  let head := int_sign val flags base prec ++ int_prefix flags base in
  let nchars := Z.of_nat (length head) + nd in
  exists c' w' m',
    format_front n flags base width nd nchars (il_minus (int_layout_of val flags base prec))
      (q, 0) m = Ret ((c', w'), m') /\
    emitted m q n (int_front flags width nchars head) c' m' /\
    (has flags FL_MINUS = true -> w' = width).
Proof.
  intros Hm Hn Hw Hnd head nchars. destruct (head_small val flags base prec) as [Hhead Hsign].
  fold head in Hhead. unfold format_front, int_front. rewrite has_lor, zero_pad_flags.
  set (b1 := negb (has flags FL_MINUS || has flags FL_ZERO)).
  destruct (cond_pad_spec m q n 32 b1 nchars width nchars [] (q, 0) m (emitted_start m q n Hn) Hm
    ltac:(lia) ltac:(simpl; lia) ltac:(by split)) as (c1 & m1 & H1 & He1).
  prog_step H1. cbn [app] in He1.
  set (sp := if b1 then replicate (Z.to_nat (width - nchars)) 32 else []) in He1.
  assert (length sp <= Z.to_nat (width - nchars))%nat as Hsp
    by (unfold sp; destruct b1; rewrite ?length_replicate; simpl; lia).
  destruct (sign_spec m q n val flags base prec _ _ _ He1 Hm ltac:(lia)) as (c2 & m2 & H2 & He2).
  prog_step H2.
  destruct (prefix_spec m q n flags base _ _ _ He2 Hm) as (c3 & m3 & H3 & He3).
  { rewrite length_app. lia. }
  prog_step H3. rewrite <- app_assoc in He3. fold head in He3.
  set (w1 := if b1 then _ else width). set (b2 := has flags FL_ZERO && negb (has flags FL_MINUS)).
  assert (w1 <= width) by (unfold w1; destruct b1; lia).
  destruct (cond_pad_spec m q n 48 b2 nd w1 nchars _ _ _ He3 Hm ltac:(lia)) as (c4 & m4 & H4 & He4).
  { rewrite length_app. lia. }
  { by split. }
  exists c4, (if b2 then Z.min w1 nchars else w1), m4. split; [exact H4|].
  revert He4. unfold b2, sp, w1, b1. cbn [fst snd].
  destruct (has flags FL_MINUS), (has flags FL_ZERO); cbn [negb orb andb app];
    rewrite ?app_nil_r; by split.
Qed.

(** The emission writes the text of the integer. *)
Lemma format_emit_spec q n val flags base width prec m :
  mapped m q n -> 0 <= n -> width < 2 ^ 28 -> prec < 2 ^ 28 ->
  let s := fmt_int val flags base width prec in
  let l := int_layout_of val flags base prec in
  let nd := Z.of_nat (length (int_body val flags base prec)) in
  format_emit q n flags base width nd
    (Z.of_nat (length (int_sign val flags base prec ++ int_prefix flags base)) + nd)
    (tickskip_of flags base (il_count l)) (il_minus l) (il_abs l) m =
  Ret (Z.of_nat (length s), write_bytes m q (take (Z.to_nat n) s)).
Proof.
  intros Hm Hn Hw Hp s l nd. pose proof (int_body_small val flags base prec Hp) as Hbody.
  fold nd in Hbody. destruct (head_small val flags base prec) as [Hhead _].
  destruct (format_front_spec m q n val flags base width prec nd Hm Hn Hw Hbody)
    as ([q1 o1] & w1 & m1 & H1 & He1 & Hw1).
  set (head := int_sign val flags base prec ++ int_prefix flags base) in *.
  set (nchars := Z.of_nat (length head) + nd) in *.
  assert (Z.of_nat (length (int_front flags width nchars head)) <= Z.max 0 (width - nchars) + 3)
    as Hfront.
  { unfold int_front. destruct (has flags FL_MINUS), (has flags FL_ZERO);
      rewrite ?length_app, ?length_replicate; lia. }
  unfold format_emit. fold l in H1. prog_step H1.
  change (if has flags FL_UPPER then ucdigits else lcdigits) with (digit_table flags).
  destruct (body_spec m q n val flags base prec _ q1 o1 m1 He1 Hm) as [Hb He2]; [fold nd; lia|].
  fold l nd in Hb, He2. prog_step Hb.
  set (m2 := write_bytes m q _) in *. set (body := int_body val flags base prec) in *.
  assert (int_front flags width nchars head ++ body ++
    (if has flags FL_MINUS then replicate (Z.to_nat (width - nchars)) 32 else []) = s) as Es.
  { unfold s, fmt_int, int_front, pad. fold head body.
    replace (Z.of_nat (length (head ++ body))) with nchars
      by (unfold nchars, nd; rewrite length_app; fold body; lia).
    destruct (has flags FL_MINUS); [done|]. rewrite !app_nil_r.
    destruct (has flags FL_ZERO); by rewrite <- app_assoc. }
  assert (forall c m', emitted m q n s c m' ->
    Ret (c.2, m') = Ret (Z.of_nat (length s), write_bytes m q (take (Z.to_nat n) s))) as Hdone
    by (by intros c m' (-> & _ & ->)).
  rewrite app_assoc in Es. destruct (has flags FL_MINUS).
  - rewrite (Hw1 eq_refl).
    destruct (pad_while_spec m q n 32 width nchars _ _ _ He2 Hm) as ([q3 o3] & m3 & H3 & He3).
    { rewrite length_app. fold body nd. lia. }
    { by split. }
    prog_step H3. rewrite Es in He3. by apply Hdone in He3.
  - rewrite app_nil_r in Es. rewrite Es in He2. prog_norm. by apply Hdone in He2.
Qed.

(** [format_int] writes the text of the integer: the first [n] characters of
    it lie in the buffer, nothing else is written, and its length is
    returned. *)
Lemma format_int_spec q n val flags base width prec m :
  mapped m q n -> 0 <= n -> width < 2 ^ 28 -> prec < 2 ^ 28 ->
  let s := fmt_int val flags base width prec in
  format_int q n val flags base width prec m =
  Ret (Z.of_nat (length s), write_bytes m q (take (Z.to_nat n) s)).
Proof.
  intros Hm Hn Hw Hp s. pose proof (int_body_small val flags base prec Hp) as Hbody.
  destruct (head_length val flags base prec) as [Hsign Hpre].
  destruct (head_small val flags base prec) as [Hhead Hs1].
  rewrite length_app, Nat2Z.inj_add in Hhead.
  unfold s. rewrite <- format_emit_spec by done. unfold format_int. cbv zeta.
  set (minus := has flags FL_SIGNED && (s64 val <? 0)).
  set (v := if minus then u64 (- s64 val) else val).
  fold (ndigits_of base v).
  set (cnt := if ndigits_of base v <? _ then _ else _).
  assert (cnt = il_count (int_layout_of val flags base prec)) as Ecnt.
  { unfold cnt, int_layout_of. cbn [il_count]. fold minus v.
    destruct (has flags FL_HASH && (base =? 8)); [|done].
    destruct (Z.ltb_spec prec (ndigits_of base v + 1)).
    - by rewrite Z.max_r by lia.
    - by rewrite Z.max_l by lia. }
  clearbody cnt. subst cnt. fold (tickskip_of flags base (il_count (int_layout_of val flags base prec))).
  rewrite <- int_body_length. set (nd := Z.of_nat (length (int_body val flags base prec))) in *.
  rewrite (sgn_small 32 nd) by (unfold srange; lia).
  change (il_minus (int_layout_of val flags base prec)) with minus in *.
  change (il_abs (int_layout_of val flags base prec)) with v.
  assert ((if has flags FL_HASH && (base =? 16)
     then s32 ((if minus || has flags (Z.lor FL_PLUS FL_SPACE) then s32 (nd + 1) else nd) + 2)
     else if minus || has flags (Z.lor FL_PLUS FL_SPACE) then s32 (nd + 1) else nd) =
     Z.of_nat (length (int_sign val flags base prec ++ int_prefix flags base)) + nd) as ->; [|done].
  rewrite length_app, Nat2Z.inj_add, Hsign, Hpre.
  destruct (has flags FL_HASH && (base =? 16)), (minus || has flags (Z.lor FL_PLUS FL_SPACE));
    rewrite ?sgn_small by (rewrite ?sgn_small; unfold srange; lia); lia.
Qed.

(** the text that format_int writes (padding, sign, prefix, digits with
    their separators, from right to left) is the one [fmt_int] specifies: it
    returns its whole length, the first [n] characters of it lie in the
    buffer, and no other byte is written, for every value, base, width and
    precision. *)
Theorem format_int_correct q n val flags base width prec m :
  mapped m q n -> 0 <= n -> width < 2 ^ 28 -> prec < 2 ^ 28 ->
  let s := fmt_int val flags base width prec in
  format_int q n val flags base width prec m =
  Ret (Z.of_nat (length s), write_bytes m q (take (Z.to_nat n) s)) /\
  (forall x, x < q \/ q + n <= x -> write_bytes m q (take (Z.to_nat n) s) !! x = m !! x).
Proof.
  intros Hm Hn Hw Hp s. split; [by apply format_int_spec|].
  intros x Hx. apply lookup_write_out. rewrite length_take. lia.
Qed.

(** ** The text of a format

    The grammar [%], flags, width, precision, length modifiers, conversion,
    as functions that consume a prefix of the format and of the arguments. *)
Fixpoint parse_flags (fl : Z) (l : list Z) : Z * list Z :=
  match l with
  | [] => (fl, [])
  | c :: l' => match flag_of c with Some f => parse_flags (Z.lor fl f) l' | None => (fl, l) end
  end.

Definition is_dec (c : Z) : bool := (48 <=? c) && (c <=? 57).

Fixpoint parse_prec (pr : Z) (l args : list Z) : option (Z * list Z * list Z) :=
  match l with
  | [] => Some (pr, [], args)
  | c :: l' =>
      if is_dec c then parse_prec (s32 (pr * 10 + (c - 48))) l' args
      else if c =? 42 then
        match args with
        | [] => None
        | a :: args' => parse_prec (if s32 a <? 0 then -1 else s32 a) l' args'
        end
      else Some (pr, l, args)
  end.

(** The flags, the width and the precision (-1 when there is none). *)
Fixpoint parse_width (fl w : Z) (l args : list Z) : option (Z * Z * Z * list Z * list Z) :=
  match l with
  | [] => Some (fl, w, -1, [], args)
  | c :: l' =>
      if is_dec c then parse_width fl (s32 (w * 10 + (c - 48))) l' args
      else if c =? 42 then
        match args with
        | [] => None
        | a :: args' =>
            if s32 a <? 0 then parse_width (Z.lor fl FL_MINUS) (s32 (- s32 a)) l' args'
            else parse_width fl (s32 a) l' args'
        end
      else if c =? 46 then
        '(pr, l'', args') ← parse_prec 0 l' args; Some (fl, w, pr, l'', args')
      else Some (fl, w, -1, l, args)
  end.

Fixpoint parse_rank (rank : Z) (l : list Z) : Z * list Z :=
  match l with
  | [] => (rank, [])
  | c :: l' => match rank_of c rank with Some r => parse_rank r l' | None => (rank, l) end
  end.

(** The argument of an integer conversion, and the remaining arguments. *)
Definition arg_word (args : list Z) : option (Z * list Z) :=
  match args with a :: args' => Some (u32 a, args') | [] => None end.
Definition arg_dword (args : list Z) : option (Z * list Z) :=
  match args with lo :: hi :: args' => Some (u32 lo + 2 ^ 32 * u32 hi, args') | _ => None end.
Definition arg_signed (rank : Z) (args : list Z) : option (Z * list Z) :=
  if rank =? rank_longlong then arg_dword args
  else '(a, args) ← arg_word args;
       Some (u64 (if rank =? rank_char then s8 a else if rank =? rank_short then s16 a else s32 a),
             args).
Definition arg_unsigned (rank : Z) (args : list Z) : option (Z * list Z) :=
  if rank =? rank_longlong then arg_dword args
  else '(a, args) ← arg_word args;
       Some (if rank =? rank_char then u8 a else if rank =? rank_short then u16 a else a, args).

(** A string cut to the precision and padded to the width. *)
Definition fmt_str (fl w pr : Z) (s : list Z) : list Z :=
  let s := if negb (pr =? -1) && (pr <? Z.of_nat (length s)) then take (Z.to_nat pr) s else s in
  if has fl FL_MINUS then s ++ pad w 32 s
  else pad w (if has fl FL_ZERO then 48 else 32) s ++ s.

Section render.
(** The strings that pointer arguments denote. *)
Variable str : Z -> option (list Z).

Definition conv_text (ch fl w pr rank : Z) (args : list Z) : option (list Z * list Z) :=
  let int val args fl base pr := Some (fmt_int val fl base w pr, args) in
  if (ch =? 80) || (ch =? 112) then
    '(val, args) ← arg_word args;
    int val args (Z.lor (if ch =? 80 then Z.lor fl FL_UPPER else fl) FL_HASH) 16 8
  else if (ch =? 100) || (ch =? 105) then
    '(val, args) ← arg_signed rank args; int val args (Z.lor fl FL_SIGNED) 10 pr
  else if ch =? 111 then '(val, args) ← arg_unsigned rank args; int val args fl 8 pr
  else if ch =? 117 then '(val, args) ← arg_unsigned rank args; int val args fl 10 pr
  else if (ch =? 88) || (ch =? 120) then
    '(val, args) ← arg_unsigned rank args;
    int val args (if ch =? 88 then Z.lor fl FL_UPPER else fl) 16 pr
  else if ch =? 99 then '(c, args) ← arg_word args; Some (fmt_str fl w pr [u8 c], args)
  else if ch =? 115 then
    '(p, args) ← arg_word args;
    s ← (if p =? 0 then Some (chars "(null)") else str p);
    Some (fmt_str fl w pr s, args)
  else if ch =? 110 then None
  else Some ([ch], args).

(** The text of the format [l] with the arguments [args]; [None] for a
    format that lacks an argument, uses [%n], or has a width or a precision
    of [2^28] or more.  [fuel] bounds the number of items of the format. *)
Fixpoint render (fuel : nat) (l args : list Z) : option (list Z) :=
  match fuel with
  | O => None
  | S fuel' =>
      match l with
      | [] => Some []
      | c :: l =>
          if c =? 37 then
            let '(fl, l) := parse_flags 0 l in
            '(fl, w, pr, l, args) ← parse_width fl 0 l args;
            let '(rank, l) := parse_rank rank_int l in
            match l with
            | [] => Some []
            | ch :: l =>
                if (w <? 2 ^ 28) && (-1 <=? pr) && (pr <? 2 ^ 28) then
                  '(text, args) ← conv_text ch fl w pr (canonical_rank rank) args;
                  rest ← render fuel' l args; Some (text ++ rest)
                else None
            end
          else rest ← render fuel' l args; Some (c :: rest)
      end
  end.
End render.

Definition render_format (str : Z -> option (list Z)) (l args : list Z) : option (list Z) :=
  render str (S (length l)) l args.

(** ** Rendering, item by item *)
Lemma fmt_str_plain s : fmt_str 0 0 (-1) s = s.
Proof.
  unfold fmt_str. cbn [Z.eqb Pos.eqb negb andb]. change (has 0 FL_MINUS) with false. change (has 0 FL_ZERO) with false.
  cbv beta iota zeta. unfold pad. by replace (Z.to_nat (0 - _)) with 0%nat by lia.
Qed.

Section items.
Variable str : Z -> option (list Z).

Lemma item_lit l fuel l2 args out : Forall (fun c => c <> 37) l -> (length l <= fuel)%nat ->
  render str (fuel - length l) l2 args = Some out -> render str fuel (l ++ l2) args = Some (l ++ out).
Proof.
  intros Hl. revert fuel. induction Hl as [|c l Hc Hl IH]; intros fuel Hf Hr; [by rewrite Nat.sub_0_r in Hr|].
  destruct fuel as [|fuel]; cbn [length] in Hf; [lia|]. cbn [app render].
  destruct (Z.eqb_spec c 37); [done|]. by rewrite (IH fuel ltac:(lia) Hr).
Qed.

Lemma item_s fuel l p s args out : urange 32 p -> p <> 0 -> str p = Some s ->
  render str fuel l args = Some out ->
  render str (S fuel) (37 :: 115 :: l) (p :: args) = Some (s ++ out).
Proof.
  intros Hp Hne Hs Hr.
  transitivity (s ← (if u32 p =? 0 then Some (chars "(null)") else str (u32 p));
    rest ← render str fuel l args; Some (fmt_str 0 0 (-1) s ++ rest)).
  - cbn -[fmt_str wrap]. destruct (u32 p =? 0); [done|]. by destruct (str (u32 p)).
  - rewrite wrap_small by done. destruct (Z.eqb_spec p 0); [done|]. rewrite Hs. cbn [mbind option_bind].
    by rewrite Hr, fmt_str_plain.
Qed.

End items.

(** ** The state machine follows the grammar *)

(** One turn of the loop of vsnprintf. *)
Definition advance (v : pf) : pf :=
  Pf (p_p v + 1) (p_q v) (p_o v) (p_state v) (p_flags v) (p_rank v) (p_width v) (p_prec v) (p_ap v).

Definition vsn_turn (n : Z) (x y : pf * mem) : Prop :=
  exists ch, x.2 !! p_p x.1 = Some ch /\ ch <> 0 /\ vsn_step n ch (advance x.1) x.2 = Ret y.

Lemma vsn_loop_turns n k fuel x y :
  nsteps (vsn_turn n) k x y ->
  vsn_loop (k + fuel) n x.1 x.2 = vsn_loop fuel n y.1 y.2.
Proof.
  intros H. revert fuel. induction H as [x|k x y z (ch & Hch & Hne & Hstep) H IH]; intros fuel; [done|].
  cbn [Nat.add vsn_loop]. rewrite (bind_Ret _ _ _ _ _ (load8_at _ _ _ Hch)).
  destruct (Z.eqb_spec ch 0); [done|]. fold (advance x.1). destruct y as [v m].
  rewrite (bind_Ret _ _ _ _ _ Hstep). apply IH.
Qed.

Lemma turn_1 n ch v m y :
  m !! p_p v = Some ch -> ch <> 0 -> vsn_step n ch (advance v) m = Ret y ->
  nsteps (vsn_turn n) 1 (v, m) y.
Proof. intros. apply nsteps_once. by exists ch. Qed.

(** [l'] is what is left of the string [l] when its pointer is [p']. *)
Definition at_rest (m : mem) (p : Z) (l : list Z) (p' : Z) (l' : list Z) : Prop :=
  cstr_at m p' l' /\ p' + Z.of_nat (length l') = p + Z.of_nat (length l).

Lemma at_rest_cons m p c l p' l' : at_rest m (p + 1) l p' l' -> at_rest m p (c :: l) p' l'.
Proof. intros [H1 H2]. split; [done|]. simpl. lia. Qed.

(** [turn_unfold] exposes the branch of the state. *)
Ltac turn_unfold :=
  unfold vsn_step, advance;
  cbn [fst snd p_p p_q p_o p_state p_flags p_rank p_width p_prec p_ap];
  unfold step_flags, step_width, step_prec, step_modifiers, set_flags, set_width, set_prec,
    set_rank, set_state, set_ap, unread, va_word;
  cbn [fst snd p_p p_q p_o p_state p_flags p_rank p_width p_prec p_ap].

(** [take_char H] takes the next character from the string [H]. *)
Ltac take_char H :=
  let Hch := fresh "Hch" in let Hm := fresh "Hm" in
  apply cstr_at_cons in H as (Hch & Hm & H); unfold is_char in Hch.

Lemma flags_phase n m l fl p q o rk w pr ap fl' l' :
  cstr_at m p l -> parse_flags fl l = (fl', l') ->
  exists k st p', nsteps (vsn_turn n) k (Pf p q o st_flags fl rk w pr ap, m)
      (Pf p' q o st fl' rk w pr ap, m) /\
    at_rest m p l p' l' /\ (k + length l' <= length l + 1)%nat /\ (length l' <= length l)%nat /\
    (l' <> [] -> st = st_width).
Proof.
  revert fl p. induction l as [|c l IH]; intros fl p Hs; cbn [parse_flags].
  - intros [= <- <-]. exists 0%nat, st_flags, p. by split_and!; [constructor|split|simpl; lia|..].
  - pose proof Hs as Hs'. take_char Hs'. destruct (flag_of c) as [f|] eqn:Ef.
    + intros Hp. destruct (IH _ (p + 1) Hs' Hp) as (k & st & p' & H1 & H2 & H3 & H4 & H5).
      exists (S k), st, p'. split_and!; [|by apply at_rest_cons|simpl; lia|simpl; lia|done].
      econstructor; [|exact H1]. exists c. split_and!; [done|lia|].
      turn_unfold. by rewrite Ef.
    + intros [= <- <-]. exists 1%nat, st_width, p. split_and!; [|by split|lia|lia|done].
      eapply turn_1; [done|lia|]. turn_unfold. rewrite Ef.
      by replace (p + 1 - 1) with p by lia.
Qed.

Lemma prec_phase n m l pr args p q o fl rk w pr' l' args' :
  cstr_at m p l -> Forall (urange 32) args -> parse_prec pr l args = Some (pr', l', args') ->
  exists k st p', nsteps (vsn_turn n) k (Pf p q o st_prec fl rk w pr args, m)
      (Pf p' q o st fl rk w pr' args', m) /\
    at_rest m p l p' l' /\ (k + length l' <= length l + 1)%nat /\ (length l' <= length l)%nat /\
    (l' <> [] -> st = st_modifiers) /\ Forall (urange 32) args'.
Proof.
  revert pr args p. induction l as [|c l IH]; intros pr args p Hs Ha; cbn [parse_prec].
  - intros [= <- <- <-]. exists 0%nat, st_prec, p. by split_and!; [constructor|split|simpl; lia|..].
  - pose proof Hs as Hs'. take_char Hs'. unfold is_dec. destruct ((48 <=? c) && (c <=? 57)) eqn:Ed.
    + intros Hp. destruct (IH _ _ (p + 1) Hs' Ha Hp) as (k & st & p' & H1 & H2 & H3 & H4 & H5 & H6).
      exists (S k), st, p'. split_and!; [|by apply at_rest_cons|simpl; lia|simpl; lia|done|done].
      econstructor; [|exact H1]. exists c. split_and!; [done|lia|].
      turn_unfold. by rewrite Ed.
    + destruct (Z.eqb_spec c 42) as [->|].
      * destruct args as [|a args]; [done|]. inversion Ha as [|? ? Ha1 Ha2]; subst. intros Hp.
        destruct (IH _ _ (p + 1) Hs' Ha2 Hp) as (k & st & p' & H1 & H2 & H3 & H4 & H5 & H6).
        exists (S k), st, p'. split_and!; [|by apply at_rest_cons|simpl; lia|simpl; lia|done|done].
        econstructor; [|exact H1]. exists 42. split_and!; [done|lia|].
        turn_unfold. rewrite Ed.
        rewrite (wrap_small 32 a) by done. done.
      * intros [= <- <- <-]. exists 1%nat, st_modifiers, p. split_and!; [|by split|lia|lia|done|done].
        eapply turn_1; [done|lia|]. turn_unfold. rewrite Ed.
        destruct (Z.eqb_spec c 42); [done|].
        by replace (p + 1 - 1) with p by lia.
Qed.

Lemma width_phase n m l fl w args p q o rk fl' w' pr' l' args' :
  cstr_at m p l -> Forall (urange 32) args ->
  parse_width fl w l args = Some (fl', w', pr', l', args') ->
  exists k st p', nsteps (vsn_turn n) k (Pf p q o st_width fl rk w (-1) args, m)
      (Pf p' q o st fl' rk w' pr' args', m) /\
    at_rest m p l p' l' /\ (k + length l' <= length l + 1)%nat /\ (length l' <= length l)%nat /\
    (l' <> [] -> st = st_modifiers) /\ Forall (urange 32) args'.
Proof.
  revert fl w args p. induction l as [|c l IH]; intros fl w args p Hs Ha; cbn [parse_width].
  - intros [= <- <- <- <- <-]. exists 0%nat, st_width, p.
    by split_and!; [constructor|split|simpl; lia|..].
  - pose proof Hs as Hs'. take_char Hs'. unfold is_dec. destruct ((48 <=? c) && (c <=? 57)) eqn:Ed.
    + intros Hp. destruct (IH _ _ _ (p + 1) Hs' Ha Hp) as (k & st & p' & H1 & H2 & H3 & H4 & H5 & H6).
      exists (S k), st, p'. split_and!; [|by apply at_rest_cons|simpl; lia|simpl; lia|done|done].
      econstructor; [|exact H1]. exists c. split_and!; [done|lia|].
      turn_unfold. by rewrite Ed.
    + destruct (Z.eqb_spec c 42) as [->|].
      * destruct args as [|a args]; [done|]. inversion Ha as [|? ? Ha1 Ha2]; subst. intros Hp.
        assert (exists fl1 w1, parse_width fl1 w1 l args = Some (fl', w', pr', l', args') /\
          vsn_turn n (Pf p q o st_width fl rk w (-1) (a :: args), m)
            (Pf (p + 1) q o st_width fl1 rk w1 (-1) args, m)) as (fl1 & w1 & Hp1 & Hturn).
        { destruct (s32 a <? 0) eqn:Es; do 2 eexists; (split; [exact Hp|]);
            exists 42; (split_and!; [done|lia|]); turn_unfold; rewrite Ed; rewrite (wrap_small 32 a) by done;
            change (42 =? 42) with true; cbv iota; prog_norm; rewrite Es; done. }
        destruct (IH _ _ _ (p + 1) Hs' Ha2 Hp1) as (k & st & p' & H1 & H2 & H3 & H4 & H5 & H6).
        exists (S k), st, p'. split_and!; [by econstructor|by apply at_rest_cons|simpl; lia|simpl; lia|done|done].
      * destruct (Z.eqb_spec c 46) as [->|].
        -- intros ([[pr1 l1] args1] & Hp & [= <- <- -> <- <-])%bind_Some.
           destruct (prec_phase n m l 0 args (p + 1) q o fl rk w pr' l1 args1 Hs' Ha Hp)
             as (k & st & p' & H1 & H2 & H3 & H4 & H5 & H6).
           exists (S k), st, p'. split_and!; [|by apply at_rest_cons|simpl; lia|simpl; lia|done|done].
           econstructor; [|exact H1]. exists 46. split_and!; [done|lia|].
           turn_unfold. by rewrite Ed.
        -- intros [= <- <- <- <- <-]. exists 1%nat, st_modifiers, p.
           split_and!; [|by split|lia|lia|done|done].
           eapply turn_1; [done|lia|]. turn_unfold.
           rewrite Ed. destruct (Z.eqb_spec c 42); [done|]. destruct (Z.eqb_spec c 46); [done|].
           by replace (p + 1 - 1) with p by lia.
Qed.

Lemma rank_phase n m l rk p q o fl w pr ap rk' l' :
  cstr_at m p l -> parse_rank rk l = (rk', l') ->
  exists k p', nsteps (vsn_turn n) k (Pf p q o st_modifiers fl rk w pr ap, m)
      (Pf p' q o st_modifiers fl rk' w pr ap, m) /\
    at_rest m p l p' l' /\ (k + length l' <= length l)%nat.
Proof.
  revert rk p. induction l as [|c l IH]; intros rk p Hs; cbn [parse_rank].
  - intros [= <- <-]. exists 0%nat, p. by split_and!; [constructor|split|simpl; lia].
  - pose proof Hs as Hs'. take_char Hs'. destruct (rank_of c rk) as [r|] eqn:Er.
    + intros Hp. destruct (IH _ (p + 1) Hs' Hp) as (k & p' & H1 & H2 & H3).
      exists (S k), p'. split_and!; [|by apply at_rest_cons|simpl; lia].
      econstructor; [|exact H1]. exists c. split_and!; [done|lia|].
      turn_unfold. by rewrite Er.
    + intros [= <- <-]. exists 0%nat, p. split_and!; [constructor|by split|lia].
Qed.

(** ** The conversions write their texts *)

(** The string arguments lie in the memory, away from the buffer. *)
Definition strings_ok (str : Z -> option (list Z)) (m : mem) (buf n : Z) : Prop :=
  forall p s, str p = Some s ->
    cstr_at m p s /\ Z.of_nat (length s) < 2 ^ 31 /\
    (p + Z.of_nat (length s) < buf \/ buf + n <= p).

Lemma emitted_app m0 buf n out s q o :
  emitted m0 buf n out (q, o) (write_bytes m0 buf (take (Z.to_nat n) out)) -> 0 <= n ->
  Z.of_nat (length out) + Z.of_nat (length s) < 2 ^ 32 ->
  let n' := if o <? n then n - o else 0 in
  let m' := write_bytes (write_bytes m0 buf (take (Z.to_nat n) out)) q (take (Z.to_nat n') s) in
  emitted m0 buf n (out ++ s) (q + Z.of_nat (length s), u32 (o + Z.of_nat (length s))) m'.
Proof.
  intros (Ho & Hq & _) Hn Hlen n' m'. simpl in Ho, Hq.
  rewrite wrap_small by (unfold urange; lia). split_and!; simpl.
  - rewrite length_app. lia.
  - intros. rewrite Hq by lia. lia.
  - unfold m', n'. rewrite write_take_app. destruct (Z.ltb_spec o n).
    + rewrite Hq, Ho by lia. do 2 f_equal. lia.
    + replace (Z.to_nat n - length out)%nat with 0%nat by lia. done.
Qed.

(** What a conversion does to the variables and the memory. *)
Definition conv_result (m0 : mem) (buf n : Z) (out : list Z) (p : Z) (st : pf_state)
    (ap : list Z) (v : pf) (m : mem) : Prop :=
  p_p v = p /\ p_state v = st /\ p_ap v = ap /\ emitted m0 buf n out (cursor v) m.

Lemma conv_integer_spec m0 buf n out val base v m :
  emitted m0 buf n out (cursor v) m -> mapped m0 buf n -> 0 <= n ->
  p_width v < 2 ^ 28 -> p_prec v < 2 ^ 28 ->
  let s := fmt_int val (p_flags v) base (p_width v) (p_prec v) in
  Z.of_nat (length out) + Z.of_nat (length s) < 2 ^ 32 ->
  exists v' m', conv_integer n val base v m = Ret (v', m') /\
    conv_result m0 buf n (out ++ s) (p_p v) (p_state v) (p_ap v) v' m'.
Proof.
  intros He Hm Hn Hw Hp s Hlen. destruct v as [p q o st fl rk w pr ap]. unfold cursor in He.
  simpl in *. pose proof He as (Ho & Hq & ->). simpl in Ho, Hq. unfold conv_integer.
  cbn [p_p p_q p_o p_state p_flags p_rank p_width p_prec p_ap].
  assert (mapped (write_bytes m0 buf (take (Z.to_nat n) out)) q (if o <? n then n - o else 0)) as Hm'.
  { destruct (Z.ltb_spec o n); [|intros x Hx; lia]. rewrite (Hq ltac:(lia)).
    eapply mapped_sub; [apply mapped_write; exact Hm|lia..]. }
  pose proof (format_int_spec q (if o <? n then n - o else 0) val fl base w pr _ Hm'
    ltac:(case_cmp; lia) Hw Hp) as Hf. fold s in Hf. prog_step Hf.
  do 2 eexists. split; [reflexivity|]. split_and!; [done..|].
  apply emitted_app; [done|lia|done].
Qed.

Definition src_at (m0 : mem) (buf n : Z) (src : str_src) (s : list Z) : Prop :=
  match src with
  | SPtr a => bytes_at m0 a s /\ (a + Z.of_nat (length s) <= buf \/ buf + n <= a)
  | SLit l => exists tl, l = s ++ tl
  end.

Lemma emit_string_spec m0 buf n s src out c m :
  emitted m0 buf n out c m -> mapped m0 buf n -> src_at m0 buf n src s ->
  Forall (urange 8) s -> Z.of_nat (length out) + Z.of_nat (length s) < 2 ^ 32 ->
  exists c' m', emit_string (length s) n src c m = Ret (c', m') /\
    emitted m0 buf n (out ++ s) c' m'.
Proof.
  intros He Hm Hsrc H8. revert src out c m He Hsrc.
  induction H8 as [|x s Hx H8 IH]; intros src out c m He Hsrc Hlen; cbn [emit_string length].
  - rewrite app_nil_r. by exists c, m.
  - assert (exists src', src_next src m = Ret ((x, src'), m) /\ src_at m0 buf n src' s)
      as (src' & Hnext & Hsrc').
    { destruct src as [a|l]; simpl in Hsrc.
      - destruct Hsrc as [[Hx0 Hb] Hd]. exists (SPtr (a + 1)). split; [|split; [done|lia]].
        simpl. erewrite bind_Ret; [reflexivity|]. apply load8_at. destruct He as (_ & _ & ->).
        rewrite lookup_write_out; [done|]. rewrite length_take. lia.
      - destruct Hsrc as [tl ->]. exists (SLit (s ++ tl)). split; [done|]. by exists tl. }
    prog_step Hnext. simpl in Hlen.
    destruct (EMIT_spec _ _ _ _ x _ _ He Hm ltac:(lia) Hx) as (c1 & m1 & H1 & He1).
    prog_step H1. destruct (IH src' _ _ _ He1 Hsrc') as (c2 & m2 & H2 & He2).
    { rewrite length_app. simpl. lia. }
    exists c2, m2. split; [done|]. by rewrite <- app_assoc in He2.
Qed.

Lemma conv_string_spec m0 buf n out src s v m :
  emitted m0 buf n out (cursor v) m -> mapped m0 buf n -> src_at m0 buf n src s ->
  Forall (urange 8) s -> -1 <= p_prec v ->
  let t := fmt_str (p_flags v) (p_width v) (p_prec v) s in
  Z.of_nat (length out) + Z.of_nat (length t) < 2 ^ 32 ->
  exists v' m', conv_string n src (Z.of_nat (length s)) v m = Ret (v', m') /\
    conv_result m0 buf n (out ++ t) (p_p v) (p_state v) (p_ap v) v' m'.
Proof.
  intros He Hm Hsrc H8 Hpr. unfold conv_string, fmt_str. cbv zeta.
  set (cut := negb (p_prec v =? -1) && (p_prec v <? Z.of_nat (length s))).
  set (s' := if cut then take (Z.to_nat (p_prec v)) s else s).
  assert ((if cut then p_prec v else Z.of_nat (length s)) = Z.of_nat (length s')) as ->.
  { unfold s'. destruct cut eqn:Ec; [|done]. unfold cut in Ec. rewrite length_take. lia. }
  assert (src_at m0 buf n src s' /\ Forall (urange 8) s') as [Hsrc' H8'].
  { unfold s'. destruct cut; [|done]. split; [|by apply Forall_take]. destruct src as [a|l]; simpl in *.
    - destruct Hsrc as [Hb Hd]. rewrite <- (take_drop (Z.to_nat (p_prec v)) s) in Hb.
      apply bytes_at_app in Hb as [Hb _]. split; [done|]. rewrite length_take. lia.
    - destruct Hsrc as [tl ->]. exists (drop (Z.to_nat (p_prec v)) s ++ tl).
      by rewrite app_assoc, take_drop. }
  clearbody s'. intros Hlen. destruct (Z.ltb_spec (Z.of_nat (length s')) 0); [lia|].
  set (w := p_width v) in *. set (fl := p_flags v) in *.
  set (slen := Z.of_nat (length s')) in *.
  destruct (has fl FL_MINUS) eqn:Eminus; cbn [negb]; rewrite ?andb_false_r, ?andb_true_r.
  - prog_norm. rewrite length_app in Hlen. unfold pad in Hlen. rewrite length_replicate in Hlen.
    fold slen in Hlen.
    destruct (emit_string_spec m0 buf n s' src out _ m He Hm Hsrc' H8' ltac:(lia))
      as (c1 & m1 & H1 & He1). assert (Z.to_nat slen = length s') as -> by lia. prog_step H1.
    destruct (cond_pad_spec m0 buf n 32 true slen w slen _ c1 m1 He1 Hm ltac:(lia))
      as (c2 & m2 & H2 & He2); [rewrite length_app; lia|by split|].
    cbn [andb] in H2. rewrite andb_true_r. prog_step H2. do 2 eexists. split; [reflexivity|]. split_and!; [done..|].
    rewrite <- app_assoc in He2. by destruct c2.
  - rewrite length_app in Hlen. unfold pad in Hlen. rewrite length_replicate in Hlen. fold slen in Hlen.
    set (x := if has fl FL_ZERO then 48 else 32) in *.
    assert (urange 8 x) as Hx by (unfold x; by destruct (has fl FL_ZERO)).
    destruct (cond_pad_spec m0 buf n x true slen w slen _ (cursor v) m He Hm ltac:(lia))
      as (c1 & m1 & H1 & He1); [lia|done|]. cbn [andb] in H1. prog_step H1.
    destruct (emit_string_spec m0 buf n s' src _ c1 m1 He1 Hm Hsrc' H8')
      as (c2 & m2 & H2 & He2); [rewrite length_app, length_replicate; lia|].
    assert (Z.to_nat slen = length s') as -> by lia. prog_step H2.
    rewrite andb_false_r. prog_norm.
    do 2 eexists. split; [reflexivity|]. split_and!; [done..|].
    rewrite <- app_assoc in He2. by destruct c2.
Qed.

Lemma va_word_arg ap w ap' m : arg_word ap = Some (w, ap') -> va_word ap m = Ret ((w, ap'), m).
Proof. destruct ap as [|a ap]; [done|]. by intros [= <- <-]. Qed.

Lemma va_dword_arg ap w ap' m : arg_dword ap = Some (w, ap') -> va_dword ap m = Ret ((w, ap'), m).
Proof. destruct ap as [|a [|b ap]]; [done..|]. by intros [= <- <-]. Qed.

Lemma va_signed_arg rk ap w ap' m :
  arg_signed rk ap = Some (w, ap') -> va_signed rk ap m = Ret ((w, ap'), m).
Proof.
  unfold arg_signed, va_signed. case_cmp; [apply va_dword_arg|].
  intros ([a ap1] & Ha & [= <- <-])%bind_Some. by prog_step (va_word_arg _ _ _ m Ha).
Qed.

Lemma va_unsigned_arg rk ap w ap' m :
  arg_unsigned rk ap = Some (w, ap') -> va_unsigned rk ap m = Ret ((w, ap'), m).
Proof.
  unfold arg_unsigned, va_unsigned. case_cmp; [apply va_dword_arg|].
  intros ([a ap1] & Ha & [= <- <-])%bind_Some. by prog_step (va_word_arg _ _ _ m Ha).
Qed.

Lemma Forall_char_8 l : Forall is_char l -> Forall (urange 8) l.
Proof.
  intros H. eapply Forall_impl; [|exact H]. unfold is_char, urange.
  intros c Hc. change (2 ^ 8) with 256. lia.
Qed.

(** [conv_args H lem] reads the argument of an integer conversion and leaves
    the integer. *)
Ltac conv_args H lem val :=
  let ap1 := fresh "ap1" in let Ha := fresh "Ha" in
  apply bind_Some in H as ([val ap1] & Ha & H); injection H as <- <-;
  prog_norm; erewrite bind_Ret by (eapply lem; exact Ha).

Lemma conv_spec str m0 buf n out p q o st fl rk w pr ap ch text ap' m :
  emitted m0 buf n out (q, o) m -> mapped m0 buf n -> 0 <= n < 2 ^ 32 ->
  strings_ok str m0 buf n -> w < 2 ^ 28 -> -1 <= pr < 2 ^ 28 -> is_char ch ->
  conv_text str ch fl w pr rk ap = Some (text, ap') ->
  Z.of_nat (length out) + Z.of_nat (length text) < 2 ^ 32 ->
  exists v' m', conv n ch (Pf p q o st fl rk w pr ap) m = Ret (v', m') /\
    conv_result m0 buf n (out ++ text) p st ap' v' m'.
Proof.
  intros He Hm Hn Hstr Hw Hpr Hch Ht Hlen. unfold conv_text in Ht. unfold conv.
  cbn [p_p p_q p_o p_state p_flags p_rank p_width p_prec p_ap].
  assert (forall val base fl' pr' ap', pr' < 2 ^ 28 ->
    Z.of_nat (length out) + Z.of_nat (length (fmt_int val fl' base w pr')) < 2 ^ 32 ->
    exists v' m', conv_integer n val base (Pf p q o st fl' rk w pr' ap') m = Ret (v', m') /\
      conv_result m0 buf n (out ++ fmt_int val fl' base w pr') p st ap' v' m') as Hint.
  { intros val base fl' pr' ap1 Hp1 Hl1.
    apply (conv_integer_spec m0 buf n out val base (Pf p q o st fl' rk w pr' ap1) m); done || lia. }
  assert (forall src s ap', src_at m0 buf n src s -> Forall (urange 8) s ->
    Z.of_nat (length out) + Z.of_nat (length (fmt_str fl w pr s)) < 2 ^ 32 ->
    exists v' m', conv_string n src (Z.of_nat (length s)) (Pf p q o st fl rk w pr ap') m =
      Ret (v', m') /\ conv_result m0 buf n (out ++ fmt_str fl w pr s) p st ap' v' m') as Hstring.
  { intros src s ap1 Hsrc H8 Hl1.
    apply (conv_string_spec m0 buf n out src s (Pf p q o st fl rk w pr ap1) m); done || (simpl; lia). }
  destruct ((ch =? 80) || (ch =? 112)).
  { conv_args Ht va_word_arg val. apply Hint; [lia|done]. }
  destruct ((ch =? 100) || (ch =? 105)).
  { conv_args Ht va_signed_arg val. apply Hint; [lia|done]. }
  destruct (ch =? 111).
  { conv_args Ht va_unsigned_arg val. apply Hint; [lia|done]. }
  destruct (ch =? 117).
  { conv_args Ht va_unsigned_arg val. apply Hint; [lia|done]. }
  destruct ((ch =? 88) || (ch =? 120)).
  { conv_args Ht va_unsigned_arg val. apply Hint; [lia|done]. }
  destruct (ch =? 99).
  { conv_args Ht va_word_arg c. apply (Hstring (SLit [u8 c]) [u8 c]); [by exists []| |done].
    constructor; [by apply wrap_range|constructor]. }
  destruct (ch =? 115).
  { apply bind_Some in Ht as ([ptr ap1] & Ha & Ht). apply bind_Some in Ht as (s & Hs & Ht).
    injection Ht as <- <-. prog_step (va_word_arg _ _ _ m Ha). destruct (ptr =? 0).
    - injection Hs as <-. apply (Hstring (SLit (chars "(null)")) (chars "(null)"));
        [by exists []|by repeat constructor|done].
    - destruct (Hstr _ _ Hs) as (Hcs & Hls & Hd).
      assert (cstr_at m ptr s) as Hcs'.
      { destruct He as (_ & _ & ->). apply cstr_at_write_out; [|done]. rewrite length_take. lia. }
      pose proof (strlen_spec ptr s m Hcs' ltac:(lia)) as Hl. prog_step Hl.
      rewrite sgn_small by (unfold srange; lia). apply Hstring; [|by apply Forall_char_8, Hcs|done].
      destruct Hcs as [_ Hb]. apply bytes_at_app in Hb as [Hb _]. split; [done|lia]. }
  destruct (ch =? 110); [done|]. injection Ht as <- <-. simpl in Hlen.
  destruct (EMIT_spec m0 buf n out ch (q, o) m He Hm ltac:(lia)) as (c1 & m1 & H1 & He1).
  { unfold is_char in Hch. unfold urange. change (2 ^ 8) with 256. lia. }
  unfold cursor. cbn [p_q p_o]. prog_step H1. do 2 eexists. split; [reflexivity|].
  split_and!; [done..|]. by destruct c1.
Qed.

(** A string away from the buffer is not changed by output. *)
Lemma emitted_cstr m0 buf n out c m p l :
  emitted m0 buf n out c m -> 0 <= n -> p + Z.of_nat (length l) < buf \/ buf + n <= p ->
  cstr_at m p l <-> cstr_at m0 p l.
Proof.
  intros (_ & _ & ->) Hn Hd. apply cstr_at_write_out. rewrite length_take. lia.
Qed.

Lemma args_tail ap ch fl w pr rk str text ap' :
  conv_text str ch fl w pr rk ap = Some (text, ap') -> Forall (urange 32) ap ->
  Forall (urange 32) ap'.
Proof.
  intros Ht Ha.
  assert (forall w ap1, arg_word ap = Some (w, ap1) -> Forall (urange 32) ap1) as H1.
  { intros w1 ap1. destruct Ha; [done|]. by intros [= <- <-]. }
  assert (forall w ap1, arg_dword ap = Some (w, ap1) -> Forall (urange 32) ap1) as H2.
  { intros w1 ap1. destruct Ha as [|? ? ? [|? ? ? ?]]; [done..|]. by intros [= <- <-]. }
  assert (forall w ap1, arg_signed rk ap = Some (w, ap1) -> Forall (urange 32) ap1) as H3.
  { intros w1 ap1. unfold arg_signed. case_cmp; [apply H2|].
    intros ([? ?] & ? & [= <- <-])%bind_Some. eauto. }
  assert (forall w ap1, arg_unsigned rk ap = Some (w, ap1) -> Forall (urange 32) ap1) as H4.
  { intros w1 ap1. unfold arg_unsigned. case_cmp; [apply H2|].
    intros ([? ?] & ? & [= <- <-])%bind_Some. eauto. }
  unfold conv_text in Ht.
  repeat match type of Ht with
  | (if ?b then _ else _) = _ => destruct b
  end; try done;
  try (apply bind_Some in Ht as ([? ?] & ? & Ht);
       try (apply bind_Some in Ht as (? & ? & Ht)); injection Ht as <- <-; eauto).
  by injection Ht as <- <-.
Qed.

Section run.
Variables (str : Z -> option (list Z)) (m0 : mem) (buf n : Z).
Hypothesis Hbuf : mapped m0 buf n.
Hypothesis Hn : 0 <= n < 2 ^ 32.
Hypothesis Hstr : strings_ok str m0 buf n.

(** The specification of a directive up to its conversion is read. *)
Lemma directive_run l ap out0 p q o m fl1 l1 fl2 w pr l2 ap2 rk l3 :
  parse_flags 0 l = (fl1, l1) -> parse_width fl1 0 l1 ap = Some (fl2, w, pr, l2, ap2) ->
  parse_rank rank_int l2 = (rk, l3) ->
  Forall (urange 32) ap -> emitted m0 buf n out0 (q, o) m -> cstr_at m p l ->
  exists k st p', nsteps (vsn_turn n) k (Pf p q o st_flags 0 rank_int 0 (-1) ap, m)
      (Pf p' q o st fl2 rk w pr ap2, m) /\
    at_rest m p l p' l3 /\ (k + length l3 <= length l + 2)%nat /\ (length l3 <= length l)%nat /\
    (l3 <> [] -> st = st_modifiers) /\ Forall (urange 32) ap2.
Proof.
  intros Hf Hw Hr Ha He Hs.
  destruct (flags_phase n m l 0 p q o rank_int 0 (-1) ap _ _ Hs Hf)
    as (k1 & st1 & p1 & H1 & [Hs1 Ep1] & Hk1 & Hk1' & Hst1).
  destruct l1 as [|c1 l1].
  { simpl in Hw. injection Hw as <- <- <- <- <-. simpl in Hr. injection Hr as <- <-.
    exists k1, st1, p1. split_and!; try done; simpl in *; lia. }
  rewrite (Hst1 ltac:(done)) in H1.
  destruct (width_phase n m _ fl1 0 ap p1 q o rank_int _ _ _ _ _ Hs1 Ha Hw)
    as (k2 & st2 & p2 & H2 & [Hs2 Ep2] & Hk2 & Hk2' & Hst2 & Ha2).
  destruct l2 as [|c2 l2].
  { simpl in Hr. injection Hr as <- <-. exists (k1 + k2)%nat, st2, p2.
    split_and!; try done; [by eapply nsteps_trans|split; [done|lia]|simpl in *; lia..]. }
  rewrite (Hst2 ltac:(done)) in H2.
  destruct (rank_phase n m _ rank_int p2 q o fl2 w pr ap2 _ _ Hs2 Hr)
    as (k3 & p3 & H3 & [Hs3 Ep3] & Hk3).
  exists (k1 + (k2 + k3))%nat, st_modifiers, p3.
  split_and!; try done; [by eapply nsteps_trans; [|eapply nsteps_trans]|split; [done|lia]|lia|lia].
Qed.

Lemma parse_rank_stop rk l rk' ch l' : parse_rank rk l = (rk', ch :: l') -> rank_of ch rk' = None.
Proof.
  revert rk. induction l as [|d l IH]; intros rk; simpl; [done|].
  destruct (rank_of d rk) eqn:E; [apply IH|]. by intros [= -> -> ->].
Qed.

(** The format [l] at [p] is read, and its text emitted, in [k] turns. *)
Lemma render_run fuel l ap text out0 p q o fl rk w pr m :
  render str fuel l ap = Some text -> Forall (urange 32) ap ->
  emitted m0 buf n out0 (q, o) m -> cstr_at m0 p l ->
  p + Z.of_nat (length l) < buf \/ buf + n <= p ->
  Z.of_nat (length out0) + Z.of_nat (length text) < 2 ^ 32 ->
  exists k v' m', nsteps (vsn_turn n) k (Pf p q o st_normal fl rk w pr ap, m) (v', m') /\
    (k <= 3 * length l)%nat /\ m' !! p_p v' = Some 0 /\
    emitted m0 buf n (out0 ++ text) (cursor v') m'.
Proof.
  revert l ap text out0 p q o fl rk w pr m.
  induction fuel as [|fuel IH]; intros l ap text out0 p q o fl rk w pr m Hr Ha He Hs Hd Hlen; [done|].
  pose proof Hs as Hsm. rewrite <- emitted_cstr in Hsm by (done || lia).
  cbn [render] in Hr. destruct l as [|c l].
  { injection Hr as <-. exists 0%nat. do 2 eexists. rewrite app_nil_r.
    split_and!; [constructor|lia|by apply cstr_at_nil in Hsm|done]. }
  pose proof Hsm as (Hc & Hcm & Hsm')%cstr_at_cons. pose proof Hs as (_ & _ & Hs')%cstr_at_cons.
  simpl length in Hd. destruct (Z.eqb_spec c 37) as [->|Hc37].
  - assert (vsn_turn n (Pf p q o st_normal fl rk w pr ap, m)
      (Pf (p + 1) q o st_flags 0 rank_int 0 (-1) ap, m)) as Hturn by (by exists 37).
    destruct (parse_flags 0 l) as [fl1 l1] eqn:Ef.
    apply bind_Some in Hr as ([[[[fl2 w2] pr2] l2] ap2] & Ew & Hr).
    destruct (parse_rank rank_int l2) as [rk3 l3] eqn:Er.
    destruct (directive_run l ap out0 (p + 1) q o m _ _ _ _ _ _ _ _ _ Ef Ew Er Ha He Hsm')
      as (k & st & p3 & H1 & [Hs3 Ep3] & Hk & Hk' & Hst & Ha2).
    destruct l3 as [|ch l3].
    + injection Hr as <-. exists (S k). do 2 eexists. rewrite app_nil_r.
      split_and!; [econstructor; [exact Hturn|exact H1]|simpl in *; lia|by apply cstr_at_nil in Hs3|done].
    + rewrite (Hst ltac:(done)) in H1.
      destruct ((w2 <? 2 ^ 28) && (-1 <=? pr2) && (pr2 <? 2 ^ 28)) eqn:Eg; [|done].
      apply bind_Some in Hr as ([text1 ap3] & Ht & Hr). apply bind_Some in Hr as (rest & Hr & [= <-]).
      rewrite length_app in Hlen. pose proof Hs3 as (Hch & Hchm & Hs4)%cstr_at_cons.
      destruct (conv_spec str m0 buf n out0 (p3 + 1) q o st_normal fl2 (canonical_rank rk3) w2 pr2
        ap2 ch text1 ap3 m He Hbuf Hn Hstr ltac:(lia) ltac:(lia) Hch Ht ltac:(lia))
        as ([p4 q4 o4 st4 fl4 rk4 w4 pr4 ap4] & m4 & Hconv & Hp4 & Hst4 & Hap4 & He4).
      simpl in Hp4, Hst4, Hap4. subst.
      assert (nsteps (vsn_turn n) 1 (Pf p3 q o st_modifiers fl2 rk3 w2 pr2 ap2, m)
        (Pf (p3 + 1) q4 o4 st_normal fl4 rk4 w4 pr4 ap3, m4)) as H2.
      { eapply turn_1; [exact Hchm|unfold is_char in Hch; lia|]. turn_unfold.
        by rewrite (parse_rank_stop _ _ _ _ _ Er). }
      simpl length in Hk, Hk', Ep3.
      destruct (IH l3 ap3 rest (out0 ++ text1) (p3 + 1) q4 o4 fl4 rk4 w4 pr4 m4)
        as (k5 & v5 & m5 & H5 & Hk5 & Hend & He5); try done.
      { by eapply args_tail. }
      { apply (emitted_cstr m0 buf n out0 (q, o) m _ _ He); [lia|lia|done]. }
      { lia. }
      { rewrite length_app. lia. }
      exists (S (k + (1 + k5)))%nat, v5, m5. rewrite <- app_assoc in He5. split_and!; [|simpl; lia|done|done].
      econstructor; [exact Hturn|]. eapply nsteps_trans; [exact H1|]. by eapply nsteps_trans.
  - apply bind_Some in Hr as (rest & Hr & [= <-]). simpl in Hlen.
    unfold is_char in Hc.
    destruct (EMIT_spec m0 buf n out0 c (q, o) m He Hbuf ltac:(lia)) as ([q1 o1] & m1 & H1 & He1).
    { unfold urange. change (2 ^ 8) with 256. lia. }
    assert (vsn_turn n (Pf p q o st_normal fl rk w pr ap, m)
      (Pf (p + 1) q1 o1 st_normal fl rk w pr ap, m1)) as Hturn.
    { exists c. split_and!; [done|lia|]. turn_unfold. unfold step_normal.
      destruct (Z.eqb_spec c 37); [done|]. unfold cursor. cbn [p_q p_o]. by prog_step H1. }
    destruct (IH l ap rest (out0 ++ [c]) (p + 1) q1 o1 fl rk w pr m1)
      as (k5 & v5 & m5 & H5 & Hk5 & Hend & He5); try done.
    { lia. }
    { rewrite length_app. simpl. lia. }
    exists (S k5), v5, m5. rewrite <- app_assoc in He5.
    split_and!; [by econstructor|simpl; lia|done|done].
Qed.
End run.

(** ** vsnprintf *)
Lemma terminate_spec m0 buf n out q o m :
  emitted m0 buf n out (q, o) m -> mapped m0 buf n -> 0 <= n ->
  (if o <? n then store8 q 0 else if 0 <? n then store8 (buf + n - 1) 0 else mret tt) m =
  Ret (tt, if n =? 0 then m0 else write_bytes m0 buf (take (Z.to_nat (n - 1)) out ++ [0])).
Proof.
  intros (Ho & Hq & ->) Hm Hn. simpl in Ho, Hq. destruct (Z.eqb_spec n 0) as [->|].
  { destruct (Z.ltb_spec o 0); [lia|]. by destruct out. }
  assert (forall a, buf <= a < buf + n -> is_Some (write_bytes m0 buf (take (Z.to_nat n) out) !! a))
    as Hin by (intros a Ha; by apply (mapped_write _ _ _ _ _ Hm)).
  destruct (Z.ltb_spec o n).
  - rewrite store8_at by (apply Hin; rewrite Hq by lia; lia). change (u8 0) with 0.
    rewrite !take_ge by lia. rewrite write_bytes_app. simpl. by rewrite Hq, Ho by lia.
  - destruct (Z.ltb_spec 0 n); [|lia]. rewrite store8_at by (apply Hin; lia). change (u8 0) with 0.
    destruct (lookup_lt_is_Some_2 out (Z.to_nat (n - 1))) as [x Hx]; [lia|].
    replace (Z.to_nat n) with (S (Z.to_nat (n - 1))) by lia.
    rewrite (take_S_r _ _ _ Hx), !write_bytes_app, length_take_le by lia. simpl.
    replace (buf + Z.of_nat (Z.to_nat (n - 1))) with (buf + n - 1) by lia.
    by rewrite insert_insert_eq.
Qed.

Lemma vsnprintf_spec str m buf n format fmt args out :
  cstr_at m format fmt -> mapped m buf n -> 0 <= n < 2 ^ 32 -> strings_ok str m buf n ->
  format + Z.of_nat (length fmt) < buf \/ buf + n <= format ->
  Forall (urange 32) args -> render_format str fmt args = Some out ->
  Z.of_nat (length out) < 2 ^ 31 ->
  vsnprintf buf n format args m =
  Ret (Z.of_nat (length out),
       if n =? 0 then m else write_bytes m buf (take (Z.to_nat (n - 1)) out ++ [0])).
Proof.
  intros Hs Hm Hn Hstr Hd Ha Hr Hlen. unfold vsnprintf. prog_norm.
  destruct (render_run str m buf n Hm Hn Hstr _ _ _ _ [] format buf 0 0 rank_int 0 (-1) m Hr Ha
    (emitted_start m buf n ltac:(lia)) Hs Hd ltac:(simpl; lia))
    as (k & v' & m' & Hrun & Hk & Hend & He).
  pose proof (cstr_at_fuel _ _ _ Hs) as Hfuel.
  assert (exists r, 4 * mem_fuel m = k + S r)%nat as [r ->]
    by (exists (4 * mem_fuel m - k - 1)%nat; lia).
  assert (vsn_loop (k + S r) n (Pf format buf 0 st_normal 0 rank_int 0 (-1) args) m = Ret (v', m'))
    as Hloop.
  { pose proof (vsn_loop_turns n k (S r) _ _ Hrun) as Hl. simpl fst in Hl. simpl snd in Hl. rewrite Hl.
    cbn [vsn_loop]. by rewrite (bind_Ret _ _ _ _ _ (load8_at _ _ _ Hend)). }
  prog_step Hloop. cbn [app] in He. destruct v' as [p q o st fl rk w pr ap].
  unfold cursor in He. cbn [p_q p_o] in *.
  prog_step (terminate_spec m buf n out q o m' He Hm ltac:(lia)).
  destruct He as (Ho & _). simpl in Ho. rewrite Ho.
  rewrite sgn_small by (unfold srange; lia). done.
Qed.

(** C19: vsnprintf on a format of the grammar (flags, widths and precisions,
    also from the arguments, length modifiers, all conversions but [%n])
    always returns the length of the text that the format denotes, and the
    buffer then holds the first [n - 1] characters of it and a NUL (nothing
    when [n] is 0); no byte outside the buffer is written. *)
Theorem vsnprintf_correct str m buf n format fmt args out :
  cstr_at m format fmt -> mapped m buf n -> 0 <= n < 2 ^ 32 -> strings_ok str m buf n ->
  format + Z.of_nat (length fmt) < buf \/ buf + n <= format ->
  Forall (urange 32) args -> render_format str fmt args = Some out ->
  Z.of_nat (length out) < 2 ^ 31 ->
  exists m', vsnprintf buf n format args m = Ret (Z.of_nat (length out), m') /\
    (0 < n -> bytes_at m' buf (take (Z.to_nat (n - 1)) out ++ [0])) /\
    (forall x, x < buf \/ buf + n <= x -> m' !! x = m !! x).
Proof.
  intros Hs Hm Hn Hstr Hd Ha Hr Hlen. eexists.
  split; [by apply (vsnprintf_spec str m buf n format fmt args out)|]. split.
  - intros Hpos. destruct (Z.eqb_spec n 0); [lia|]. apply bytes_at_write.
  - intros x Hx. case_cmp; [done|]. apply lookup_write_out.
    rewrite length_app, length_take. simpl. lia.
Qed.

Definition printf_example : mem :=
  mem_of [(1000, chars "%s=%-5d|%#06x" ++ [0]); (2000, replicate 16 1); (3000, chars "hi" ++ [0])].

Definition printf_strings (p : Z) : option (list Z) :=
  if p =? 3000 then Some (chars "hi") else None.

Lemma printf_strings_ok : strings_ok printf_strings printf_example 2000 16.
Proof.
  intros p s. unfold printf_strings. destruct (Z.eqb_spec p 3000) as [->|]; [|done].
  intros [= <-]. split_and!; [mem_compute|simpl; lia|lia].
Qed.

Lemma vsnprintf_correct_witness :
  exists m', vsnprintf 2000 16 1000 [3000; 2 ^ 32 - 42; 255] printf_example = Ret (15, m') /\
    (0 < 16 -> bytes_at m' 2000 (chars "hi=-42  |0x00ff" ++ [0])) /\
    (forall x, x < 2000 \/ 2016 <= x -> m' !! x = printf_example !! x).
Proof.
  refine (vsnprintf_correct printf_strings printf_example 2000 16 1000 (chars "%s=%-5d|%#06x")
    [3000; 2 ^ 32 - 42; 255] (chars "hi=-42  |0x00ff") _ _ _ printf_strings_ok _ _ _ _).
  - mem_compute.
  - mem_compute.
  - lia.
  - left. by vm_compute.
  - by repeat constructor.
  - by vm_compute.
  - by vm_compute.
Defined.

Lemma format_int_correct_witness :
  format_int 2000 4 255 FL_HASH 16 8 (-1) printf_example =
    Ret (8, write_bytes printf_example 2000 (chars "    ")) /\
  (forall x, x < 2000 \/ 2000 + 4 <= x ->
     write_bytes printf_example 2000 (chars "    ") !! x = printf_example !! x).
Proof.
  refine (format_int_correct 2000 4 255 FL_HASH 16 8 (-1) printf_example _ _ _ _);
    [mem_compute|lia..].
Defined.
