(* ===== verification/RoundTrip.v ===== *)
(** * RoundTrip: what printf writes, strtol reads

    The decimal text of an integer denotes the integer: the digits of
    [format_int] have the value of its argument, and [strtol] on the output
    of [snprintf] with [%d] returns the number printed. *)
From S2P Require Import Prelude Mem Ctype CString Strtol Printf.

(** ** The value of the digits *)
Fixpoint digit_vals (base : Z) (k : nat) (v : Z) : list Z :=
  match k with O => [] | S k' => v mod base :: digit_vals base k' (v / base) end.

Lemma digits_rev_map tbl base k v :
  digits_rev tbl base k v = map (digit_char tbl) (digit_vals base k v).
Proof. revert v. induction k as [|k IH]; intros v; simpl; [done|]. by rewrite IH. Qed.

Lemma digit_vals_value base k v :
  1 < base -> 0 <= v -> digits_value base (rev (digit_vals base k v)) = v mod base ^ Z.of_nat k.
Proof.
  intros Hb. revert v. induction k as [|k IH]; intros v Hv; cbn [digit_vals rev].
  - simpl. by rewrite Z.mod_1_r.
  - rewrite digits_value_app, IH by (apply Z.div_pos; lia).
    rewrite Nat2Z.inj_succ, Z.pow_succ_r by lia.
    rewrite Z.mul_comm, (Z.rem_mul_r v base) by (try apply Z.pow_pos_nonneg; lia). lia.
Qed.

Lemma count_digits_spec fuel v base nd :
  1 < base -> 0 <= v < base ^ Z.of_nat fuel ->
  v < base ^ (count_digits fuel v base nd - nd).
Proof.
  intros Hb. revert v nd. induction fuel as [|fuel IH]; intros v nd Hv; cbn [count_digits].
  - rewrite Z.sub_diag. simpl in *. lia.
  - destruct (Z.eqb_spec v 0) as [->|Hne]; [rewrite Z.sub_diag; simpl; lia|].
    rewrite Nat2Z.inj_succ, Z.pow_succ_r in Hv by lia.
    assert (0 <= v / base < base ^ Z.of_nat fuel) as Hd.
    { split; [apply Z.div_pos; lia|apply Z.div_lt_upper_bound; lia]. }
    specialize (IH (v / base) (nd + 1) Hd).
    pose proof (count_digits_range fuel (v / base) base (nd + 1)).
    replace (count_digits fuel (v / base) base (nd + 1) - nd)
      with (Z.succ (count_digits fuel (v / base) base (nd + 1) - (nd + 1))) by lia.
    rewrite Z.pow_succ_r by lia. pose proof (Z.div_mod v base ltac:(lia)).
    pose proof (Z.mod_pos_bound v base ltac:(lia)). nia.
Qed.

Lemma ndigits_of_spec base v : 2 <= base -> 0 <= v < 2 ^ 64 -> v < base ^ ndigits_of base v.
Proof.
  intros Hb Hv. unfold ndigits_of.
  pose proof (count_digits_spec 64 v base 0 ltac:(lia)) as H. rewrite Z.sub_0_r in H.
  apply H. split; [lia|]. assert (2 ^ 64 <= base ^ 64) by (apply Z.pow_le_mono_l; lia).
  change (Z.of_nat 64) with 64. lia.
Qed.

Lemma count_digits_upper fuel v base nd j :
  1 < base -> 0 <= v < base ^ j -> 0 <= j -> count_digits fuel v base nd <= nd + j.
Proof.
  intros Hb. revert v nd j. induction fuel as [|fuel IH]; intros v nd j Hv Hj; cbn [count_digits];
    [lia|].
  destruct (Z.eqb_spec v 0); [lia|]. destruct (decide (j = 0)) as [->|]; [simpl in Hv; lia|].
  specialize (IH (v / base) (nd + 1) (j - 1)). replace j with (Z.succ (j - 1)) in Hv by lia.
  rewrite Z.pow_succ_r in Hv by lia.
  enough (0 <= v / base < base ^ (j - 1)) by (specialize (IH ltac:(done) ltac:(lia)); lia).
  split; [apply Z.div_pos; lia|apply Z.div_lt_upper_bound; lia].
Qed.

Lemma digit_vals_range base k v : 1 < base -> Forall (fun d => 0 <= d < base) (digit_vals base k v).
Proof.
  intros Hb. revert v. induction k as [|k IH]; intros v; simpl; constructor; [|apply IH].
  apply Z.mod_pos_bound. lia.
Qed.

Lemma digit_val_char d : 0 <= d < 16 -> digit_val (digit_char lcdigits d) = Some d.
Proof.
  intros Hd.
  assert (forallb (fun i => bool_decide (digit_val (digit_char lcdigits (Z.of_nat i)) =
    Some (Z.of_nat i))) (seq 0 16) = true) as H by (by vm_compute).
  rewrite forallb_forall in H. specialize (H (Z.to_nat d)).
  rewrite bool_decide_eq_true, Z2Nat.id in H by lia. apply H. apply in_seq. lia.
Qed.

Lemma digits_of_chars base l :
  base <= 16 -> Forall (fun d => 0 <= d < base) l -> digits_of base (map (digit_char lcdigits) l) l.
Proof.
  intros Hb H. induction H as [|d l Hd H IH]; constructor; [|done].
  split; [apply digit_val_char|]; lia.
Qed.

Lemma ticks_rev_none skip b l : (length l <= b)%nat -> ticks_rev skip b l = l.
Proof.
  revert b. induction l as [|d l IH]; intros b Hb; [done|]. simpl in Hb.
  destruct b as [|b]; [lia|]. simpl. f_equal. apply IH. lia.
Qed.

(** The plain text of an integer: a minus sign for a negative value, and
    digits whose value is the absolute value. *)
Lemma fmt_int_plain val base :
  2 <= base <= 16 -> base <> 8 -> 0 <= val < 2 ^ 64 ->
  exists ds, fmt_int val FL_SIGNED base 0 (-1) =
      (if s64 val <? 0 then [45] else []) ++ map (digit_char lcdigits) ds /\
    ds <> [] /\ Forall (fun d => 0 <= d < base) ds /\
    digits_value base ds = Z.abs (s64 val) /\
    (forall j, 1 <= j -> Z.abs (s64 val) < base ^ j -> Z.of_nat (length ds) <= j).
Proof.
  intros Hb Hb8 Hv. unfold fmt_int, pad, int_sign, int_prefix, int_body.
  set (l := int_layout_of val FL_SIGNED base (-1)).
  change (has FL_SIGNED FL_TICK) with false. change (has FL_SIGNED FL_HASH) with false.
  change (has FL_SIGNED FL_MINUS) with false. change (has FL_SIGNED FL_ZERO) with false.
  change (has FL_SIGNED FL_PLUS) with false. change (has FL_SIGNED FL_SPACE) with false.
  change (digit_table FL_SIGNED) with lcdigits. change (il_minus l) with (s64 val <? 0).
  cbn [andb]. rewrite ticks_rev_none by (rewrite digits_rev_length; lia).
  rewrite digits_rev_map, <- map_rev.
  set (ds := rev (digit_vals base (Z.to_nat (il_count l)) (il_abs l))).
  assert (il_abs l = Z.abs (s64 val)) as Habs.
  { unfold l, int_layout_of. cbn [il_abs]. change (has FL_SIGNED FL_SIGNED) with true. cbn [andb].
    pose proof (sgn_range 64 val ltac:(lia)) as Hr. unfold srange in Hr.
    destruct (Z.ltb_spec (s64 val) 0).
    - rewrite wrap_small; unfold urange; lia.
    - destruct (sgn_congr 64 val ltac:(lia)) as [k Hk]. lia. }
  pose proof (sgn_range 64 val ltac:(lia)) as Hr. unfold srange in Hr.
  pose proof (il_count_range val FL_SIGNED base (-1)) as Hc. cbv zeta in Hc. fold l in Hc.
  assert (ndigits_of base (il_abs l) <= il_count l) as Hcnt.
  { pose proof (ndigits_of_range base (il_abs l)).
    unfold l, int_layout_of in *. cbn [il_abs il_count] in *.
    change (has FL_SIGNED FL_HASH) with false. cbn [andb]. repeat case_cmp; try lia.
    by rewrite e. }
  assert (length ds = Z.to_nat (il_count l)) as Hl.
  { unfold ds. rewrite length_rev. pose proof (digits_rev_length lcdigits base
      (Z.to_nat (il_count l)) (il_abs l)) as H1. by rewrite digits_rev_map, length_map in H1. }
  exists ds. split_and!.
  - rewrite app_nil_r. replace (Z.to_nat (0 - _)) with 0%nat; [done|].
    destruct (s64 val <? 0); rewrite ?length_app; simpl; lia.
  - intros E. rewrite E in Hl. change (length []) with 0%nat in Hl. lia.
  - apply Forall_rev, digit_vals_range. lia.
  - unfold ds. rewrite digit_vals_value by lia. rewrite <- Habs. apply Z.mod_small. split; [lia|].
    rewrite Z2Nat.id by lia.
    pose proof (ndigits_of_spec base (il_abs l) ltac:(lia) ltac:(lia)).
    assert (base ^ ndigits_of base (il_abs l) <= base ^ il_count l)
      by (apply Z.pow_le_mono_r; lia). lia.
  - intros j Hj Hlt. rewrite Hl, Z2Nat.id by lia. rewrite <- Habs in Hlt.
    pose proof (count_digits_upper 64 (il_abs l) base 0 j ltac:(lia) ltac:(lia) ltac:(lia)) as Hup.
    fold (ndigits_of base (il_abs l)) in Hup. pose proof (ndigits_of_range base (il_abs l)).
    unfold l, int_layout_of in *. cbn [il_abs il_count] in *.
    change (has FL_SIGNED FL_HASH) with false. cbn [andb]. repeat case_cmp; lia.
Qed.

(** ** snprintf with [%d] *)

Lemma render_d a :
  render_format (fun _ => None) (chars "%d") [a] =
  Some (fmt_int (u64 (s32 (u32 a))) FL_SIGNED 10 0 (-1) ++ []).
Proof. reflexivity. Qed.

(** A decimal digit is a character that neither a sign nor white space is. *)
Lemma digit_char_dec d :
  0 <= d < 10 ->
  let c := digit_char lcdigits d in is_char c /\ isspace c = false /\ c <> 45 /\ c <> 43.
Proof.
  intros Hd.
  assert (forallb (fun i => let c := digit_char lcdigits (Z.of_nat i) in
    (0 <? c) && (c <? 256) && negb (isspace c) && negb (c =? 45) && negb (c =? 43)) (seq 0 10) = true)
    as H by (by vm_compute).
  rewrite forallb_forall in H. specialize (H (Z.to_nat d)).
  rewrite Z2Nat.id in H by lia. specialize (H ltac:(apply in_seq; lia)). cbv zeta in *.
  unfold is_char. repeat rewrite andb_true_iff in H. rewrite !negb_true_iff in H.
  destruct H as [[[[? ?] ?] ?] ?]. split_and!; [lia|lia|done|lia|lia].
Qed.

(** The text of a number, and strtol on it. *)
Lemma strtol_plain m a endptr (neg : bool) ds :
  cstr_at m a ((if neg then [45] else []) ++ map (digit_char lcdigits) ds) ->
  ds <> [] -> Forall (fun d => 0 <= d < 10) ds -> endptr = 0 \/ mapped m endptr 4 ->
  strtol a endptr 10 m =
  Ret (clamp_long neg (digits_value 10 ds),
       if endptr =? 0 then m
       else write_bytes m endptr (le32 (a + Z.of_nat (length ((if neg then [45] else []) ++
              map (digit_char lcdigits) ds))))).
Proof.
  intros Hs Hne Hds Hend. set (sg := if neg then [45] else []) in *.
  set (cs := map (digit_char lcdigits) ds) in *.
  assert (exists c cs', cs = c :: cs' /\ isspace c = false /\ c <> 45 /\ c <> 43)
    as (c & cs' & Ecs & Hsp & H45 & H43).
  { destruct Hds as [|d ds' Hd Hds']; [done|]. destruct (digit_char_dec d Hd) as (_ & ? & ? & ?).
    do 2 eexists. split; [reflexivity|]. by split_and!. }
  pose proof (strtol_spec a endptr 10 [] sg neg [] 10 cs ds [] m) as Hspec.
  cbn [app] in Hspec. rewrite app_nil_r in Hspec. rewrite Hspec; clear Hspec; try done.
  - by rewrite bool_decide_eq_false_2.
  - unfold sg. rewrite Ecs. by destruct neg.
  - unfold sg. destruct neg; constructor.
  - by rewrite Ecs.
  - constructor; [lia|done].
  - apply digits_of_chars; [lia|done].
Qed.

(** C35: printing an [int] with [%d] and parsing the text gives the number
    back: for every 32-bit argument and a buffer of 12 bytes or more,
    snprintf writes a string of which strtol, in base 10, returns the signed
    argument and consumes every character. *)
Theorem printf_strtol_roundtrip m buf n format a endptr :
  cstr_at m format (chars "%d") -> mapped m buf n -> 12 <= n < 2 ^ 31 ->
  format + 2 < buf \/ buf + n <= format -> urange 32 a ->
  endptr = 0 \/ mapped m endptr 4 ->
  exists len m', snprintf buf n format [a] m = Ret (len, m') /\
    strtol buf endptr 10 m' =
    Ret (s32 a, if endptr =? 0 then m' else write_bytes m' endptr (le32 (buf + len))).
Proof.
  intros Hs Hm Hn Hd Ha Hend.
  set (val := u64 (s32 a)).
  assert (s64 val = s32 a) as Hval.
  { unfold val. rewrite sgn_wrap. pose proof (sgn_range 32 a ltac:(lia)) as Hr.
    apply sgn_small; [lia|]. unfold srange in *. lia. }
  pose proof (wrap_range 64 (s32 a) ltac:(lia)) as Hv. fold val in Hv. unfold urange in Hv.
  destruct (fmt_int_plain val 10 ltac:(lia) ltac:(lia) ltac:(lia)) as (ds & Et & Hne & Hds & Hvalue & Hlen).
  rewrite Hval in Et, Hvalue, Hlen. pose proof (sgn_range 32 a ltac:(lia)) as Hr. unfold srange in Hr.
  specialize (Hlen 10 ltac:(lia) ltac:(lia)).
  set (text := fmt_int val FL_SIGNED 10 0 (-1)) in *.
  assert (Z.of_nat (length text) <= 11) as Hlt.
  { rewrite Et, length_app, length_map. destruct (s32 a <? 0); simpl; lia. }
  pose proof (render_d a) as Hrender. rewrite app_nil_r, (wrap_small 32 a) in Hrender by done.
  fold val text in Hrender.
  pose proof (vsnprintf_spec (fun _ => None) m buf n format _ [a] text Hs Hm ltac:(lia)
    ltac:(done) Hd ltac:(by constructor) Hrender ltac:(lia)) as Hprint.
  destruct (Z.eqb_spec n 0); [lia|]. rewrite take_ge in Hprint by lia.
  set (m' := write_bytes m buf (text ++ [0])) in *.
  exists (Z.of_nat (length text)), m'. split; [exact Hprint|].
  assert (cstr_at m' buf text) as Hcs.
  { split; [|apply bytes_at_write]. rewrite Et. apply Forall_app. split.
    - destruct (s32 a <? 0); by repeat constructor.
    - apply Forall_map. eapply Forall_impl; [|exact Hds]. intros d Hd'. by apply digit_char_dec. }
  rewrite Et in Hcs |- *.
  rewrite (strtol_plain m' buf endptr (s32 a <? 0) ds Hcs Hne Hds)
    by (destruct Hend; [by left|right; by apply mapped_write]).
  do 2 f_equal. rewrite Hvalue. unfold clamp_long.
  destruct (Z.ltb_spec (s32 a) 0); lia.
Qed.

Lemma printf_strtol_roundtrip_witness :
  exists len m', snprintf 2000 16 1000 [2 ^ 32 - 42]
      (mem_of [(1000, chars "%d" ++ [0]); (2000, replicate 16 1)]) = Ret (len, m') /\
    strtol 2000 0 10 m' = Ret (-42, m').
Proof.
  refine (printf_strtol_roundtrip (mem_of [(1000, chars "%d" ++ [0]); (2000, replicate 16 1)])
    2000 16 1000 (2 ^ 32 - 42) 0 _ _ _ _ _ _).
  - mem_compute.
  - mem_compute.
  - lia.
  - left. lia.
  - unfold urange. lia.
  - by left.
Defined.
