(* ===== verification/Keyboard.v ===== *)
(** * Keyboard: src/src/keyboard.c

    [kbd_raw_getc] reads a scan code from the controller and turns it into a
    character, tracking the modifier keys in a static word.  The controller
    is reached through the port instructions of [PortIO]; the decoding of one
    scan code, [kbd_decode], is a function of the modifier word and the code.
    The modifier word has 7 bits and a scan code 8, so the properties of the
    decoder are proved by evaluating it on all of its inputs. *)
From S2P Require Import Prelude.

(** ** Port instructions

    [inb], [outb] and the others of inc/io_port.h are single machine
    instructions: the device behind a port is a parameter of the model. *)
Class PortIO (S : Type) := {
  inb : Z -> prog S Z;
  outb : Z -> Z -> prog S unit
}.

Definition io_wait {S} `{PortIO S} : prog S unit := outb 0x80 0.

(** ** Tables *)
Definition KBSTATP : Z := 0x64.
Definition KBS_DIB : Z := 0x01.
Definition KBDATAP : Z := 0x60.
Definition NO : Z := 0.
Definition SHIFT : Z := 1.
Definition CTL : Z := 2.
Definition ALT : Z := 4.
Definition CAPSLOCK : Z := 8.
Definition NUMLOCK : Z := 16.
Definition SCROLLLOCK : Z := 32.
Definition E0ESC : Z := 64.
Definition KEY_HOME : Z := 0xE0.
Definition KEY_END : Z := 0xE1.
Definition KEY_UP : Z := 0xE2.
Definition KEY_DN : Z := 0xE3.
Definition KEY_LF : Z := 0xE4.
Definition KEY_RT : Z := 0xE5.
Definition KEY_PGUP : Z := 0xE6.
Definition KEY_PGDN : Z := 0xE7.
Definition KEY_INS : Z := 0xE8.
Definition KEY_DEL : Z := 0xE9.

(** A [uint8_t [256]] with an initializer: the leading elements, then
    designated ones; the rest is 0. *)
Definition table256 (l : list Z) (des : list (nat * Z)) : list Z :=
  foldl (fun t '(i, v) => <[i := u8 v]> t) (map u8 l ++ replicate (256 - length l) 0) des.
Definition at_ (t : list Z) (i : Z) : Z := default 0 (t !! Z.to_nat i).

(** [C(x)], the control character of a letter. *)
Definition C (c : Z) : Z := c - 64.

Definition shiftcode : list Z :=
  table256 [] [(0x1D, CTL); (0x2A, SHIFT); (0x36, SHIFT); (0x38, ALT); (0x9D, CTL); (0xB8, ALT)]%nat.
Definition togglecode : list Z :=
  table256 [] [(0x3A, CAPSLOCK); (0x45, NUMLOCK); (0x46, SCROLLLOCK)]%nat.

(** The keys of the E0 block, with the control versions of Enter and slash. *)
Definition e0_keys (enter slash : Z) : list (nat * Z) :=
  [(0x9C, enter); (0xB5, slash); (0xC8, KEY_UP); (0xD0, KEY_DN); (0xC9, KEY_PGUP);
   (0xD1, KEY_PGDN); (0xCB, KEY_LF); (0xCD, KEY_RT); (0x97, KEY_HOME); (0xCF, KEY_END);
   (0xD2, KEY_INS); (0xD3, KEY_DEL)]%nat.

Definition normalmap : list Z :=
  table256
    ([NO; 0x1B] ++ chars "123456" ++ chars "7890-=" ++ [8; 9] ++
     chars "qwertyui" ++ chars "op[]" ++ [10; NO] ++ chars "as" ++
     chars "dfghjkl;" ++ chars "'`" ++ [NO; 92] ++ chars "zxcv" ++
     chars "bnm,./" ++ [NO; 42] ++ [NO; 32; NO; NO; NO; NO; NO; NO] ++
     [NO; NO; NO; NO; NO; NO; NO] ++ chars "7" ++ chars "89-456+1" ++
     chars "230." ++ [NO; NO; NO; NO])
    (e0_keys 10 47).

Definition shiftmap : list Z :=
  table256
    ([NO; 27] ++ chars "!@#$%^" ++ chars "&*()_+" ++ [8; 9] ++
     chars "QWERTYUI" ++ chars "OP{}" ++ [10; NO] ++ chars "AS" ++
     chars "DFGHJKL:" ++ [34] ++ chars "~" ++ [NO] ++ chars "|" ++ chars "ZXCV" ++
     chars "BNM<>?" ++ [NO; 42] ++ [NO; 32; NO; NO; NO; NO; NO; NO] ++
     [NO; NO; NO; NO; NO; NO; NO] ++ chars "7" ++ chars "89-456+1" ++
     chars "230." ++ [NO; NO; NO; NO])
    (e0_keys 10 47).

Definition ctlmap : list Z :=
  table256
    (replicate 16 NO ++ map C (chars "QWERTYUI") ++ map C (chars "OP") ++ [NO; NO; 13; NO] ++
     map C (chars "AS") ++ map C (chars "DFGHJKL") ++ [NO] ++
     [NO; NO; NO] ++ [C 92] ++ map C (chars "ZXCV") ++
     map C (chars "BNM") ++ [NO; NO] ++ [C 47] ++ [NO; NO])
    (e0_keys 13 (C 47)).

(** ** Decoding *)

(** Everything after the read of [data]: the result and the new [shift]. *)
Definition kbd_decode (shift data : Z) : Z * Z :=
  if data =? 0xE0 then (0, Z.lor shift E0ESC)
  else if negb (Z.land data 0x80 =? 0) then
    let data := if negb (Z.land shift E0ESC =? 0) then data else Z.land data 0x7F in
    (0, Z.land shift (u32 (Z.lnot (Z.lor (at_ shiftcode data) E0ESC))))
  else
    let '(data, shift) :=
      if negb (Z.land shift E0ESC =? 0)
      then (Z.lor data 0x80, Z.land shift (u32 (Z.lnot E0ESC))) else (data, shift) in
    let shift := Z.lor shift (at_ shiftcode data) in
    let shift := Z.lxor shift (at_ togglecode data) in
    let charcode := [normalmap; shiftmap; ctlmap; ctlmap] in
    let c := at_ (default [] (charcode !! Z.to_nat (Z.land shift (Z.lor CTL SHIFT)))) data in
    let c :=
      if negb (Z.land shift CAPSLOCK =? 0) then
        if (97 <=? c) && (c <=? 122) then u32 (c + (65 - 97))
        else if (65 <=? c) && (c <=? 90) then u32 (c + (97 - 65)) else c
      else c in
    (c, shift).

Section kbd.
Context {S : Type} `{PortIO S}.

(** The static [shift] beside the state of the devices. *)
Definition kbd_raw_getc : prog (Z * S) Z :=
  st ← zoom snd (fun s '(shift, _) => (shift, s)) (inb KBSTATP);
  if Z.land st KBS_DIB =? 0 then mret (-1)
  else
    data ← zoom snd (fun s '(shift, _) => (shift, s)) (inb KBDATAP);
    s ← pget;
    let '(c, shift) := kbd_decode (fst s) data in
    pput (shift, snd s);; mret c.
End kbd.

(** ** Evaluation on all inputs *)

(** A statement about every modifier word and scan code, by evaluation. *)
Lemma all_inputs (P : Z -> Z -> bool) :
  forallb (fun s => forallb (P s) (seqZ 0 256)) (seqZ 0 128) = true ->
  forall shift data, urange 7 shift -> urange 8 data -> P shift data = true.
Proof.
  intros H shift data Hs Hd. rewrite forallb_forall in H.
  specialize (H shift). rewrite forallb_forall in H. unfold urange in *.
  apply H; apply list_elem_of_In, elem_of_seqZ; pow2_literals; lia.
Qed.

(** The scan code makes a letter when no control key is down. *)
Definition is_letter_key (data : Z) : bool :=
  let c := at_ normalmap data in (97 <=? c) && (c <=? 122).

(** the decoder keeps the modifier word in its 7 bits and returns a
    character code; while no control key or E0 prefix is active a letter key
    gives its upper-case letter exactly when one of shift and caps lock is
    on, and its lower-case letter otherwise. *)
Theorem kbd_decode_letters shift data :
  urange 7 shift -> urange 8 data ->
  let '(c, shift') := kbd_decode shift data in
  urange 7 shift' /\ urange 8 c /\
  (data < 0x80 -> Z.land shift (Z.lor CTL E0ESC) = 0 -> is_letter_key data = true ->
   shift' = shift /\
   c = at_ normalmap data -
       (if xorb (Z.testbit shift 0) (Z.testbit shift 3) then 97 - 65 else 0)).
Proof.
  intros Hs Hd.
  pose proof (all_inputs (fun shift data => let '(c, shift') := kbd_decode shift data in
    (0 <=? shift') && (shift' <? 128) && (0 <=? c) && (c <? 256) &&
    implb ((data <? 0x80) && (Z.land shift (Z.lor CTL E0ESC) =? 0) && is_letter_key data)
      ((shift' =? shift) && (c =? at_ normalmap data -
         (if xorb (Z.testbit shift 0) (Z.testbit shift 3) then 97 - 65 else 0))))
    ltac:(by vm_compute) shift data Hs Hd) as H.
  cbv beta in H. destruct (kbd_decode shift data) as [c shift'].
  set (k := at_ normalmap data - _) in *. clearbody k.
  rewrite !andb_true_iff in H. destruct H as [[[[H1 H2] H3] H4] Himp].
  unfold urange. pow2_literals. split_and!; [lia..|].
  intros Hlt Hctl Hletter.
  rewrite Hletter, Hctl, (proj2 (Z.ltb_lt _ _) Hlt) in Himp. simpl in Himp.
  rewrite andb_true_iff in Himp. lia.
Qed.

(** releasing a modifier key undoes its press and a second press of a
    toggle key the first: the modifier word after make and break code of
    shift, control or alt (left or right, with the E0 prefix for the right
    ones) has that bit cleared and the others unchanged, and two presses of
    caps, num or scroll lock restore it. *)
Theorem kbd_modifiers shift data bit :
  urange 6 shift ->
  In (data, bit) [(0x2A, SHIFT); (0x36, SHIFT); (0x1D, CTL); (0x38, ALT)] ->
  let press s := snd (kbd_decode s data) in
  let release s := snd (kbd_decode s (Z.lor data 0x80)) in
  let e0 s := snd (kbd_decode s 0xE0) in
  press shift = Z.lor shift bit /\
  release (press shift) = Z.ldiff shift bit /\
  (data = 0x1D \/ data = 0x38 ->
   press (e0 shift) = Z.lor shift bit /\ release (e0 (press (e0 shift))) = Z.ldiff shift bit) /\
  (forall lock, In lock [0x3A; 0x45; 0x46] ->
   snd (kbd_decode (snd (kbd_decode shift lock)) lock) = shift).
Proof.
  intros Hs Hin.
  set (P := fun shift (k : Z * Z) => let '(data, bit) := k in
    let press s := snd (kbd_decode s data) in
    let release s := snd (kbd_decode s (Z.lor data 0x80)) in
    let e0 s := snd (kbd_decode s 0xE0) in
    (press shift =? Z.lor shift bit) && (release (press shift) =? Z.ldiff shift bit) &&
    implb ((data =? 0x1D) || (data =? 0x38))
      ((press (e0 shift) =? Z.lor shift bit) &&
       (release (e0 (press (e0 shift))) =? Z.ldiff shift bit)) &&
    forallb (fun lock => snd (kbd_decode (snd (kbd_decode shift lock)) lock) =? shift)
      [0x3A; 0x45; 0x46]).
  assert (forallb (fun s => forallb (P s) [(0x2A, SHIFT); (0x36, SHIFT); (0x1D, CTL); (0x38, ALT)])
    (seqZ 0 64) = true) as H by (by vm_compute).
  rewrite forallb_forall in H. specialize (H shift). rewrite forallb_forall in H.
  assert (In shift (seqZ 0 64)) as Hs' by (apply list_elem_of_In, elem_of_seqZ; exact Hs).
  specialize (H Hs' _ Hin). unfold P in H. rewrite !andb_true_iff in H.
  destruct H as [[[H1 H2] H3] H4].
  split_and!; [by apply Z.eqb_eq|by apply Z.eqb_eq| |].
  - intros He. replace ((data =? 0x1D) || (data =? 0x38)) with true in H3 by (symmetry; lia).
    cbn [implb] in H3. rewrite andb_true_iff in H3. destruct H3. by split; apply Z.eqb_eq.
  - intros lock Hl. rewrite forallb_forall in H4. by apply Z.eqb_eq, (H4 lock Hl).
Qed.

(** The other keys of the E0 block with their codes. *)
Definition e0_block : list (Z * Z) :=
  [(0x4F, KEY_END); (0x48, KEY_UP); (0x50, KEY_DN); (0x4B, KEY_LF); (0x4D, KEY_RT);
   (0x49, KEY_PGUP); (0x51, KEY_PGDN); (0x52, KEY_INS); (0x53, KEY_DEL)].

(** the Home key does not produce [KEY_HOME]: the tables give it to
    0x97, which only the scan code 0x17 after an E0 prefix reaches, instead of
    0xC7, so that E0 0x47 gives 0, while every other key of the E0 block gives
    its code. *)
Theorem kbd_home_misplaced shift data :
  urange 7 shift -> urange 8 data ->
  (fst (kbd_decode shift data) = KEY_HOME -> data = 0x17 /\ Z.testbit shift 6 = true) /\
  fst (kbd_decode (snd (kbd_decode shift 0xE0)) 0x47) = 0 /\
  (forall d k, In (d, k) e0_block -> fst (kbd_decode (snd (kbd_decode shift 0xE0)) d) = k).
Proof.
  intros Hs Hd.
  pose proof (all_inputs (fun s d =>
    implb (fst (kbd_decode s d) =? KEY_HOME) ((d =? 0x17) && Z.testbit s 6))
    ltac:(by vm_compute) shift data Hs Hd) as H1. cbv beta in H1.
  assert (forallb (fun s => (fst (kbd_decode (snd (kbd_decode s 0xE0)) 0x47) =? 0) &&
     forallb (fun '(d, k) => fst (kbd_decode (snd (kbd_decode s 0xE0)) d) =? k) e0_block)
    (seqZ 0 128) = true) as H2 by (by vm_compute).
  rewrite forallb_forall in H2. specialize (H2 shift ltac:(apply list_elem_of_In, elem_of_seqZ; exact Hs)).
  rewrite andb_true_iff, forallb_forall in H2. destruct H2 as [H2 H3].
  split_and!.
  - intros Hhome. rewrite Hhome, Z.eqb_refl in H1. cbn [implb] in H1.
    apply andb_true_iff in H1. split; [lia|tauto].
  - by apply Z.eqb_eq.
  - intros d k Hin. by apply Z.eqb_eq, (H3 (d, k)).
Qed.

Lemma kbd_decode_letters_witness :
  let '(c, shift') := kbd_decode CAPSLOCK 0x1E in
  urange 7 shift' /\ urange 8 c /\
  (0x1E < 0x80 -> Z.land CAPSLOCK (Z.lor CTL E0ESC) = 0 -> is_letter_key 0x1E = true ->
   shift' = CAPSLOCK /\
   c = at_ normalmap 0x1E -
       (if xorb (Z.testbit CAPSLOCK 0) (Z.testbit CAPSLOCK 3) then 97 - 65 else 0)).
Proof. refine (kbd_decode_letters CAPSLOCK 0x1E _ _); unfold urange, CAPSLOCK; lia. Defined.

Lemma kbd_modifiers_witness :
  let press s := snd (kbd_decode s 0x1D) in
  let release s := snd (kbd_decode s (Z.lor 0x1D 0x80)) in
  let e0 s := snd (kbd_decode s 0xE0) in
  press CAPSLOCK = Z.lor CAPSLOCK CTL /\
  release (press CAPSLOCK) = Z.ldiff CAPSLOCK CTL /\
  (0x1D = 0x1D \/ 0x1D = 0x38 ->
   press (e0 CAPSLOCK) = Z.lor CAPSLOCK CTL /\
   release (e0 (press (e0 CAPSLOCK))) = Z.ldiff CAPSLOCK CTL) /\
  (forall lock, In lock [0x3A; 0x45; 0x46] ->
   snd (kbd_decode (snd (kbd_decode CAPSLOCK lock)) lock) = CAPSLOCK).
Proof.
  refine (kbd_modifiers CAPSLOCK 0x1D CTL _ _); [unfold urange, CAPSLOCK; lia|simpl; tauto].
Defined.

Lemma kbd_home_misplaced_witness :
  (fst (kbd_decode 0 0x47) = KEY_HOME -> 0x47 = 0x17 /\ Z.testbit 0 6 = true) /\
  fst (kbd_decode (snd (kbd_decode 0 0xE0)) 0x47) = 0 /\
  (forall d k, In (d, k) e0_block -> fst (kbd_decode (snd (kbd_decode 0 0xE0)) d) = k).
Proof. refine (kbd_home_misplaced 0 0x47 _ _); unfold urange; lia. Defined.
