(* ===== verification/Pic.v ===== *)
(** * Pic: the interrupt controllers, src/src/8259.c and src/src/apic.c

    The functions program the two 8259 controllers through their ports and
    switch the local APIC off through a model-specific register.  What the
    hardware does with a port write is its documented behaviour, stated as
    the law of the interface [Pic8259]: the controllers' registers, as far as
    software sees them, change by [pic_out]. *)
From S2P Require Import Prelude Keyboard.

(** ** Definitions *)
Definition PIC1 : Z := 0x20.
Definition PIC2 : Z := 0xA0.
Definition PIC1_COMMAND : Z := PIC1.
Definition PIC1_DATA : Z := PIC1 + 1.
Definition PIC2_COMMAND : Z := PIC2.
Definition PIC2_DATA : Z := PIC2 + 1.
Definition PIC_EOI : Z := 0x20.
Definition ICW1_ICW4 : Z := 0x01.
Definition ICW1_INIT : Z := 0x10.
Definition ICW4_8086 : Z := 0x01.

Section pic.
Context {S : Type} `{PortIO S}.

Definition PIC_remap (offset1 offset2 : Z) : prog S unit :=
  let a1 := 0xFF in let a2 := 0xFF in
  outb PIC1_COMMAND (Z.lor ICW1_INIT ICW1_ICW4);; io_wait;;
  outb PIC2_COMMAND (Z.lor ICW1_INIT ICW1_ICW4);; io_wait;;
  outb PIC1_DATA (u8 offset1);; io_wait;;
  outb PIC2_DATA (u8 offset2);; io_wait;;
  outb PIC1_DATA 4;; io_wait;;
  outb PIC2_DATA 2;; io_wait;;
  outb PIC1_DATA ICW4_8086;; io_wait;;
  outb PIC2_DATA ICW4_8086;; io_wait;;
  outb PIC1_DATA a1;;
  outb PIC2_DATA a2.

Definition PIC_sendEOI (irq : Z) : prog S unit :=
  (if 8 <=? irq then outb PIC2_COMMAND PIC_EOI else mret tt);;
  outb PIC1_COMMAND PIC_EOI.

Definition IRQ_set_mask (IRQline : Z) : prog S unit :=
  let '(port, IRQline) :=
    if IRQline <? 8 then (PIC1_DATA, IRQline) else (PIC2_DATA, u8 (IRQline - 8)) in
  v ← inb port;
  let value := u8 (Z.lor v (Z.shiftl 1 IRQline)) in
  outb port value.

Definition IRQ_clear_mask (IRQline : Z) : prog S unit :=
  let '(port, IRQline) :=
    if IRQline <? 8 then (PIC1_DATA, IRQline) else (PIC2_DATA, u8 (IRQline - 8)) in
  v ← inb port;
  let value := u8 (Z.land v (Z.lnot (Z.shiftl 1 IRQline))) in
  outb port value.
End pic.

(** The processor's identification and model-specific registers. *)
Class Cpu (S : Type) := {
  cpuid_edx : Z -> prog S Z;
  rdmsr : Z -> prog S Z;
  wrmsr : Z -> Z -> prog S unit
}.

Definition CPUID_FEAT_EDX_APIC : Z := Z.shiftl 1 9.
Definition IA32_APIC_BASE_MSR : Z := 0x1B.
Definition IA32_APIC_BASE_MSR_ENABLE : Z := 0x800.

(** [log] is the printf of the message. *)
Definition check_disable_apic {S} `{Cpu S} (log : prog S unit) : prog S unit :=
  edx ← cpuid_edx 1;
  if negb (Z.land edx CPUID_FEAT_EDX_APIC =? 0)
  then v ← rdmsr IA32_APIC_BASE_MSR;
       wrmsr IA32_APIC_BASE_MSR (Z.land v (u64 (Z.lnot IA32_APIC_BASE_MSR_ENABLE)));;
       log
  else mret tt.

(** ** The controllers as documented *)

(** A controller: the vector of its line 0, its mask register, the
    initialisation words it still expects (0 when it is ready, 3 after ICW1),
    whether ICW4 is one of them, and the lines in service, the highest
    priority first. *)
Record pic := Pic {
  pic_base : Z; pic_mask : Z; pic_expect : nat; pic_icw4 : bool; pic_isr : list Z
}.

Definition pic_command (v : Z) (p : pic) : pic :=
  if Z.testbit v 4 then Pic (pic_base p) 0 3 (Z.testbit v 0) []
  else if Z.land v 0xE0 =? PIC_EOI
  then Pic (pic_base p) (pic_mask p) (pic_expect p) (pic_icw4 p) (tail (pic_isr p))
  else p.

Definition pic_data (v : Z) (p : pic) : pic :=
  match pic_expect p with
  | 3%nat => Pic (Z.land v 0xF8) (pic_mask p) 2 (pic_icw4 p) (pic_isr p)
  | 2%nat => Pic (pic_base p) (pic_mask p) (if pic_icw4 p then 1 else 0) (pic_icw4 p) (pic_isr p)
  | 1%nat => Pic (pic_base p) (pic_mask p) 0 (pic_icw4 p) (pic_isr p)
  | _ => Pic (pic_base p) v 0 (pic_icw4 p) (pic_isr p)
  end.

(** The effect of a port write on master and slave. *)
Definition pic_out (port v : Z) (ps : pic * pic) : pic * pic :=
  let '(m, s) := ps in
  if port =? PIC1_COMMAND then (pic_command v m, s)
  else if port =? PIC1_DATA then (pic_data v m, s)
  else if port =? PIC2_COMMAND then (m, pic_command v s)
  else if port =? PIC2_DATA then (m, pic_data v s)
  else (m, s).

Class Pic8259 (S : Type) `{PortIO S} := {
  pics : S -> pic * pic;
  outb_law port v s : exists s', outb port v s = Ret (tt, s') /\ pics s' = pic_out port v (pics s);
  inb_law1 s : pic_expect (fst (pics s)) = 0%nat ->
    exists s', inb PIC1_DATA s = Ret (pic_mask (fst (pics s)), s') /\ pics s' = pics s;
  inb_law2 s : pic_expect (snd (pics s)) = 0%nat ->
    exists s', inb PIC2_DATA s = Ret (pic_mask (snd (pics s)), s') /\ pics s' = pics s
}.

Section laws.
Context {S : Type} `{Pic8259 S}.

(** Run the next write of the program. *)
Lemma outb_bind {B} port v (f : unit -> prog S B) s :
  exists s', pics s' = pic_out port v (pics s) /\ (outb port v ≫= f) s = f tt s'.
Proof. destruct (outb_law port v s) as (s' & H1 & H2). exists s'. by rewrite (bind_Ret _ _ _ _ _ H1). Qed.

Ltac out_step :=
  prog_norm;
  match goal with
  | |- context [(outb ?p ?v ≫= ?f) ?s] =>
      let s' := fresh "s" in let H1 := fresh "Hp" in let H2 := fresh in
      destruct (outb_bind p v f s) as (s' & H1 & H2); rewrite H2; clear H2
  end.

Ltac last_out :=
  prog_norm;
  match goal with
  | |- context [outb ?p ?v ?s = Ret _] =>
      let s' := fresh "s" in let H1 := fresh "Hr" in let H2 := fresh "Hp" in
      destruct (outb_law p v s) as (s' & H1 & H2); exists s'; split; [exact H1|]
  end.
Ltac pics_back :=
  repeat match goal with
  | Hp : pics ?a = _ |- context [pics ?a] => rewrite Hp; clear Hp
  end.

(** PIC_remap leaves both controllers, whatever their state was, fully
    initialised with the given vector bases (rounded down to a multiple of
    8), no line in service, and every line masked. *)
Theorem PIC_remap_correct offset1 offset2 s :
  exists s', PIC_remap offset1 offset2 s = Ret (tt, s') /\
    pics s' = (Pic (Z.land (u8 offset1) 0xF8) 0xFF 0 true [],
               Pic (Z.land (u8 offset2) 0xF8) 0xFF 0 true []).
Proof.
  unfold PIC_remap, io_wait. repeat out_step. last_out.
  pics_back. by destruct (pics s) as [m sl].
Qed.

(** the end-of-interrupt of a line acknowledges the highest in-service
    line of the master, and of the slave first when the line is one of its
    lines; masks and vectors are not touched. *)
Theorem PIC_sendEOI_correct irq s :
  let pop p := Pic (pic_base p) (pic_mask p) (pic_expect p) (pic_icw4 p) (tail (pic_isr p)) in
  exists s', PIC_sendEOI irq s = Ret (tt, s') /\
    pics s' = (pop (fst (pics s)), if 8 <=? irq then pop (snd (pics s)) else snd (pics s)).
Proof.
  intros pop. unfold PIC_sendEOI. destruct (8 <=? irq); [out_step|]; last_out;
    pics_back; by destruct (pics s).
Qed.

(** The mask registers as one 16-bit word, line 0 in bit 0. *)
Definition irq_masks (ps : pic * pic) : Z :=
  Z.lor (pic_mask (fst ps)) (Z.shiftl (pic_mask (snd ps)) 8).

Definition set_mask (v : Z) (p : pic) : pic :=
  Pic (pic_base p) v (pic_expect p) (pic_icw4 p) (pic_isr p).
Definition set_irq_masks (w : Z) (ps : pic * pic) : pic * pic :=
  (set_mask (u8 w) (fst ps), set_mask (u8 (Z.shiftr w 8)) (snd ps)).

(** Both controllers are initialised and their masks are bytes. *)
Definition pics_ready (ps : pic * pic) : Prop :=
  (pic_expect (fst ps) = 0%nat /\ urange 8 (pic_mask (fst ps))) /\
  (pic_expect (snd ps) = 0%nat /\ urange 8 (pic_mask (snd ps))).

Lemma pic_data_ready v p : pic_expect p = 0%nat -> pic_data v p = set_mask v p.
Proof. unfold pic_data, set_mask. by intros ->. Qed.

(** The bytes of the mask word after bit [i] of it is set or cleared. *)
Ltac mask_bits := 
  intros ? Ha Hb; rewrite <- (wrap_small 8 _ Ha), <- (wrap_small 8 _ Hb);
  case_cmp; f_equal; apply Z.bits_inj'; intros n Hn;
  repeat (rewrite ?Z.setbit_eqb, ?Z.clearbit_eqb, ?Z.shiftl_1_l, ?Z.pow2_bits_eqb by lia;
          autorewrite with bits);
  repeat match goal with
  | |- context [?x <? ?y] => destruct (Z.ltb_spec x y); try lia
  | |- context [?x =? ?y] => destruct (Z.eqb_spec x y); try lia
  | |- context [Z.testbit ?x ?y] => rewrite (Z.testbit_neg_r x y) by lia
  end; simpl; rewrite ?orb_true_r, ?orb_false_r, ?andb_true_r, ?andb_false_r; try reflexivity;
  repeat f_equal; lia.

Lemma mask_setbit a b i :
  0 <= i < 16 -> urange 8 a -> urange 8 b ->
  let w := Z.setbit (Z.lor a (Z.shiftl b 8)) i in
  (u8 w, u8 (Z.shiftr w 8)) =
  if i <? 8 then (u8 (Z.lor a (Z.shiftl 1 i)), b) else (a, u8 (Z.lor b (Z.shiftl 1 (i - 8)))).
Proof. mask_bits. Qed.

Lemma mask_clearbit a b i :
  0 <= i < 16 -> urange 8 a -> urange 8 b ->
  let w := Z.clearbit (Z.lor a (Z.shiftl b 8)) i in
  (u8 w, u8 (Z.shiftr w 8)) =
  if i <? 8 then (u8 (Z.land a (Z.lnot (Z.shiftl 1 i))), b)
  else (a, u8 (Z.land b (Z.lnot (Z.shiftl 1 (i - 8))))).
Proof. mask_bits. Qed.

Lemma set_mask_id p : set_mask (pic_mask p) p = p.
Proof. by destruct p. Qed.

Ltac mask_op law Hm s :=
  let s1 := fresh "s" in let Hr := fresh in let Hp := fresh "Hp" in
  edestruct law as (s1 & Hr & Hp); [done|]; prog_step Hr; last_out;
  pics_back; unfold set_irq_masks, irq_masks; simpl;
  unfold pic_out, PIC1_COMMAND, PIC2_COMMAND, PIC1_DATA, PIC2_DATA, PIC1, PIC2; simpl;
  let Hlo := fresh "Hlo" in let Hhi := fresh "Hhi" in
  cbv zeta in Hm; injection Hm as Hlo Hhi; rewrite Hlo, Hhi;
  destruct (pics s) as [m sl]; simpl in *; rewrite pic_data_ready by done;
  by rewrite set_mask_id.

(** on initialised controllers IRQ_set_mask sets exactly the bit of its
    line in the 16-bit word of the two mask registers, and IRQ_clear_mask
    clears exactly that bit; nothing else of the controllers changes. *)
Theorem IRQ_mask_correct i s :
  0 <= i < 16 -> pics_ready (pics s) ->
  (exists s', IRQ_set_mask i s = Ret (tt, s') /\
     pics s' = set_irq_masks (Z.setbit (irq_masks (pics s)) i) (pics s)) /\
  (exists s', IRQ_clear_mask i s = Ret (tt, s') /\
     pics s' = set_irq_masks (Z.clearbit (irq_masks (pics s)) i) (pics s)).
Proof.
  intros Hi [[Hm1 Hm2] [Hs1 Hs2]].
  pose proof (mask_setbit _ _ i Hi Hm2 Hs2) as Hset.
  pose proof (mask_clearbit _ _ i Hi Hm2 Hs2) as Hclr.
  assert (u8 (i - 8) = i - 8 \/ i < 8) as Hi8
    by (destruct (Z.lt_ge_cases i 8); [by right|left; apply wrap_small; unfold urange; lia]).
  unfold IRQ_set_mask, IRQ_clear_mask.
  destruct (Z.ltb_spec i 8); [|destruct Hi8 as [->|]; [|lia]].
  - split; [mask_op (inb_law1 s) Hset s | mask_op (inb_law1 s) Hclr s].
  - split; [mask_op (inb_law2 s) Hset s | mask_op (inb_law2 s) Hclr s].
Qed.
End laws.

(** ** A concrete machine

    The documented controllers alone, as an instance of the interface: the
    other ports read 0 and ignore writes. *)
Definition pic_in (port : Z) (ps : pic * pic) : Z :=
  if port =? PIC1_DATA then pic_mask (fst ps)
  else if port =? PIC2_DATA then pic_mask (snd ps) else 0.

Section machine.
#[local] Instance pic_ports : PortIO (pic * pic) := {
  inb port := fun ps => Ret (pic_in port ps, ps);
  outb port v := fun ps => Ret (tt, pic_out port v ps)
}.
#[local] Program Instance pic_machine : Pic8259 (pic * pic) := { pics ps := ps }.
Solve Obligations with by intros; eexists.

(** The controllers after PIC_remap, with the timer and the keyboard line open. *)
Definition pics_boot : pic * pic := (Pic 0x20 0xFC 0 true [1], Pic 0x28 0xFF 0 true []).

Lemma IRQ_mask_correct_witness :
  irq_masks pics_boot = 0xFFFC /\
  exists ps, IRQ_clear_mask 14 pics_boot = Ret (tt, ps) /\ irq_masks ps = 0xBFFC.
Proof.
  split; [reflexivity|].
  assert (0 <= 14 < 16) as Hi by lia.
  assert (pics_ready pics_boot) as Hready by (repeat split; simpl; (reflexivity || lia)).
  destruct (proj2 (@IRQ_mask_correct _ pic_ports pic_machine 14 pics_boot Hi Hready))
    as (ps & Hr & Hps).
  exists ps. split; [exact Hr|]. change (pics ps) with ps in Hps. by rewrite Hps.
Defined.
End machine.

(** ** The local APIC *)

(** What check_disable_apic relies on: cpuid does not touch the state, and
    a model-specific register reads back what was written to it. *)
Class MsrCpu (S : Type) `{Cpu S} := {
  features : S -> Z;
  msr : S -> Z -> Z;
  cpuid_law s : cpuid_edx 1 s = Ret (features s, s);
  rdmsr_law i s : rdmsr i s = Ret (msr s i, s);
  wrmsr_law i v s : exists s', wrmsr i v s = Ret (tt, s') /\
    forall j, msr s' j = if j =? i then v else msr s j
}.

(** check_disable_apic clears the enable bit (bit 11) of the APIC base
    register, and no other bit of it or of another register, exactly when
    the processor reports an APIC; without one it does nothing. *)
Theorem check_disable_apic_correct {S} `{MsrCpu S} (log : prog S unit) s :
  (forall t, exists t', log t = Ret (tt, t') /\ forall i, msr t' i = msr t i) ->
  urange 64 (msr s IA32_APIC_BASE_MSR) ->
  exists s', check_disable_apic log s = Ret (tt, s') /\
    (Z.testbit (features s) 9 = false -> s' = s) /\
    (Z.testbit (features s) 9 = true ->
     forall i, msr s' i = if i =? IA32_APIC_BASE_MSR then Z.clearbit (msr s i) 11 else msr s i).
Proof.
  intros Hlog Hr. unfold check_disable_apic. prog_step (cpuid_law s).
  assert (Z.land (features s) CPUID_FEAT_EDX_APIC =? 0 = negb (Z.testbit (features s) 9)) as ->.
  { unfold CPUID_FEAT_EDX_APIC. destruct (Z.testbit (features s) 9) eqn:Hb; simpl.
    - apply Z.eqb_neq. intros Hz. apply (f_equal (fun z => Z.testbit z 9)) in Hz.
      rewrite Z.land_spec, Hb in Hz. done.
    - apply Z.eqb_eq. apply Z.bits_inj'. intros n Hn.
      rewrite Z.land_spec, Z.shiftl_1_l, Z.pow2_bits_eqb, Z.testbit_0_l by lia.
      destruct (Z.eqb_spec 9 n) as [<-|]; [by rewrite Hb|apply andb_false_r]. }
  destruct (Z.testbit (features s) 9); simpl; [|by eexists].
  prog_step (rdmsr_law IA32_APIC_BASE_MSR s).
  destruct (wrmsr_law IA32_APIC_BASE_MSR
    (Z.land (msr s IA32_APIC_BASE_MSR) (u64 (Z.lnot IA32_APIC_BASE_MSR_ENABLE))) s)
    as (s1 & Hw & Hs1).
  prog_step Hw. destruct (Hlog s1) as (s2 & -> & Hs2). exists s2. split; [done|].
  split; [done|]. intros _ i. rewrite Hs2, Hs1. case_cmp; [|done]. subst.
  rewrite <- (wrap_small 64 _ Hr). unfold IA32_APIC_BASE_MSR_ENABLE.
  change 0x800 with (2 ^ 11). apply Z.bits_inj'. intros n Hn.
  rewrite Z.clearbit_eqb. autorewrite with bits. rewrite Z.pow2_bits_eqb by lia.
  destruct (Z.ltb_spec n 64), (Z.eqb_spec 11 n); simpl; rewrite ?andb_true_r, ?andb_false_r; done || lia.
Qed.

Section apic_machine.
(** A processor with an APIC: its state is its registers, base register first. *)
#[local] Instance msr_cpu : Cpu (Z -> Z) := {
  cpuid_edx _ := fun s => Ret (0x200, s);
  rdmsr i := fun s => Ret (s i, s);
  wrmsr i v := fun s => Ret (tt, fun j => if j =? i then v else s j)
}.
#[local] Program Instance msr_machine : MsrCpu (Z -> Z) := { features _ := 0x200; msr s := s }.
Solve Obligations with try (by intros; eexists); done.

Lemma check_disable_apic_correct_witness :
  exists s', check_disable_apic (S := Z -> Z) (mret tt) (fun _ => 0xFEE00900) = Ret (tt, s') /\
    s' 0x1B = 0xFEE00100 /\ s' 0 = 0xFEE00900.
Proof.
  assert (forall t : Z -> Z, exists t', (mret tt : prog (Z -> Z) unit) t = Ret (tt, t') /\ forall i, msr t' i = msr t i)
    as Hlog by (intros t; by exists t).
  assert (urange 64 0xFEE00900) as Hr by (unfold urange; lia).
  destruct (@check_disable_apic_correct _ msr_cpu msr_machine (mret tt) (fun _ => 0xFEE00900) Hlog Hr)
    as (s' & Hrun & _ & Hs').
  exists s'. split; [exact Hrun|]. split; apply (Hs' eq_refl).
Defined.
End apic_machine.
