(* ===== verification/Stdio.v ===== *)
(** * Stdio: src/src/stdio.c, src/src/stdio_cpp.cpp and src/src/panic.c

    The kernel's output functions: formatting into a buffer of 128 bytes on
    the stack, and the virtual call that hands the text to the device.  The
    state is the memory and [W], what the devices keep; the devices behind a
    pointer are a parameter, what a console promises is [console]. *)
From S2P Require Import Prelude Mem CString Printf.

(** ** Definitions *)

(** A program on the memory, run on the memory and the devices. *)
Definition on_mem {W A} (p : prog mem A) : prog (mem * W) A :=
  zoom fst (fun m s => (m, snd s)) p.

(** The body that the kernel's and the user library's vfprintf share: the
    text goes through [buffer], the local array, to [fputs]. *)
Definition vfprintf_with {W} (fputs : Z -> Z -> prog (mem * W) Z) (buffer : Z)
    (device format : Z) (ap : list Z) : prog (mem * W) Z :=
  rv ← on_mem (vsnprintf buffer 128 format ap);
  if rv <? 0 then mret rv
  else
    let rv := if 128 - 1 <? rv then 128 - 1 else rv in
    fputs buffer device.

Section stdio.
Context {W : Type}.
(** [dynamic_cast<OutputDevice *>] of a pointer to an Object: the virtual
    method [write] of the device, or nothing when it is no output device. *)
Variable as_output : Z -> option (Z -> Z -> prog (mem * W) Z).
(** The values of the variables stdout and stderr. *)
Variables (stdout stderr : Z).
(** The addresses of string literals and of the type's name; those of the
    local variables: the array of the vfprintf at a nesting depth, and the
    argument of fputc. *)
Variable lit : string -> Z.
Variable typeid_name : Z.
Variable buffer : nat -> Z.
Variable c_addr : Z.

Definition EOF : Z := -1.

(** A failed cast prints a message through fprintf, which calls fputs on
    stderr: [fuel] bounds the nesting, 2 is enough when stderr is a device. *)
Fixpoint fputs (fuel : nat) (s device : Z) : prog (mem * W) Z :=
  match fuel with
  | O => pnofuel
  | S fuel' =>
      size ← on_mem (strlen s);
      match as_output device with
      | Some write => r ← write s size; mret (s32 r)
      | None =>
          vfprintf_with (fputs fuel') (buffer fuel') stderr
            (lit "fputs: expected OutputDevice, got %s
") [typeid_name];;
          mret EOF
      end
  end.

Definition vfprintf (device format : Z) (ap : list Z) : prog (mem * W) Z :=
  vfprintf_with (fputs 2) (buffer 2) device format ap.

Definition fprintf (device format : Z) (ap : list Z) : prog (mem * W) Z :=
  vfprintf device format ap.

Definition printf (format : Z) (ap : list Z) : prog (mem * W) Z := vfprintf stdout format ap.

(** [&c] is the address of an [int]: the device reads its lowest byte. *)
Definition fputc (c device : Z) : prog (mem * W) Z :=
  on_mem (store32 c_addr c);;
  match as_output device with
  | Some write => r ← write c_addr 1; mret (s32 r)
  | None =>
      fprintf stderr (lit "fputc: expected OutputDevice, got %s
") [typeid_name];;
      mret EOF
  end.

Definition putchar (c : Z) : prog (mem * W) Z := fputc c stdout.

Definition puts (str : Z) : prog (mem * W) Z :=
  ret ← fputs 2 str stdout;
  if 0 <=? ret then putchar 10;; mret (s32 (ret + 1)) else mret ret.

(** The message, then the loop around the instruction hlt.  [halt] is the
    processor that stays in it: what there is to see is the state it stops in,
    so the theorems hold for every [halt], and [ppanic] forgets the state. *)
Definition panic_message (msg : Z) : prog (mem * W) Z :=
  fprintf stderr (lit "Kernel panic: %s

System halted
") [msg].
Definition panic {A} (halt : prog (mem * W) A) (msg : Z) : prog (mem * W) A :=
  panic_message msg;; halt.
End stdio.

(** ** Lemmas *)
Lemma on_mem_Ret {W A} (p : prog mem A) m (x : W) a m' :
  p m = Ret (a, m') -> on_mem p (m, x) = Ret (a, (m', x)).
Proof. unfold on_mem, zoom. simpl. by intros ->. Qed.

(** A console takes the bytes it is given, in order, and touches nothing else. *)
Definition console {W} (emit : W -> list Z -> W) (write : Z -> Z -> prog (mem * W) Z) : Prop :=
  forall a l m x, bytes_at m a l ->
    write a (Z.of_nat (length l)) (m, x) = Ret (Z.of_nat (length l), (m, emit x l)).

(** What formatting needs: the format and the arguments lie in the memory
    away from the buffer, and denote the text [out]. *)
Definition printable (m : mem) (buffer format : Z) (args out : list Z) : Prop :=
  exists str fmt,
    cstr_at m format fmt /\ mapped m buffer 128 /\ strings_ok str m buffer 128 /\
    (format + Z.of_nat (length fmt) < buffer \/ buffer + 128 <= format) /\
    Forall (urange 32) args /\ render_format str fmt args = Some out /\
    Z.of_nat (length out) < 2 ^ 31 /\ Forall is_char out.

(** The memory after formatting, and what is left of the text. *)
Definition formatted (m : mem) (buffer : Z) (out : list Z) : mem :=
  write_bytes m buffer (take 127 out ++ [0]).

Lemma formatted_outside m buffer out x :
  x < buffer \/ buffer + 128 <= x -> formatted m buffer out !! x = m !! x.
Proof.
  intros Hx. apply lookup_write_out. rewrite length_app, length_take. change (length [0]) with 1%nat. lia.
Qed.

Lemma formatted_cstr m buffer out :
  Forall is_char out -> cstr_at (formatted m buffer out) buffer (take 127 out).
Proof. intros H. split; [by apply Forall_take|apply bytes_at_write]. Qed.

(** vfprintf is fputs on the formatted text. *)
Lemma vfprintf_with_spec {W} (fputs : Z -> Z -> prog (mem * W) Z) buffer device format ap m x out :
  printable m buffer format ap out ->
  vfprintf_with fputs buffer device format ap (m, x) =
  fputs buffer device (formatted m buffer out, x).
Proof.
  intros (str & fmt & Hf & Hb & Hs & Ha & Hargs & Hr & Hlen & _).
  unfold vfprintf_with.
  pose proof (vsnprintf_spec str m buffer 128 format fmt ap out Hf Hb ltac:(lia) Hs Ha Hargs Hr Hlen)
    as Hv. cbn [Z.eqb] in Hv.
  rewrite (bind_Ret _ _ _ _ _ (on_mem_Ret _ _ x _ _ Hv)).
  by replace (Z.of_nat (length out) <? 0) with false by lia.
Qed.

(** The length that the 128 bytes of the buffer leave. *)
Lemma take_127 (out : list Z) :
  Z.of_nat (length (take 127 out)) = Z.min 127 (Z.of_nat (length out)).
Proof. rewrite length_take. lia. Qed.

Section console.
Context {W : Type} (as_output : Z -> option (Z -> Z -> prog (mem * W) Z)).
Context (stdout stderr : Z) (lit : string -> Z) (typeid_name : Z) (buffer : nat -> Z) (c_addr : Z).
Context (emit : W -> list Z -> W).

Lemma fputs_console fuel s l device write m x :
  as_output device = Some write -> console emit write ->
  cstr_at m s l -> Z.of_nat (length l) < 2 ^ 31 ->
  fputs as_output stderr lit typeid_name buffer (S fuel) s device (m, x) =
  Ret (Z.of_nat (length l), (m, emit x l)).
Proof.
  intros Hdev Hcon Hs Hlen. cbn [fputs].
  rewrite (bind_Ret _ _ _ _ _ (on_mem_Ret _ _ x _ _ (strlen_spec s l m Hs ltac:(lia)))), Hdev.
  assert (bytes_at m s l) as Hb by (destruct Hs as [_ Hs]; apply bytes_at_app in Hs; tauto).
  rewrite (bind_Ret _ _ _ _ _ (Hcon s l m x Hb)).
  unfold mret, prog_ret. rewrite sgn_small by (unfold srange; lia). done.
Qed.

(** Formatted output to a console, at any nesting depth. *)
Lemma vfprintf_console fuel depth device write format ap m x out :
  as_output device = Some write -> console emit write ->
  printable m (buffer depth) format ap out ->
  vfprintf_with (fputs as_output stderr lit typeid_name buffer (S fuel)) (buffer depth)
    device format ap (m, x) =
  Ret (Z.min 127 (Z.of_nat (length out)),
       (formatted m (buffer depth) out, emit x (take 127 out))).
Proof.
  intros Hdev Hcon Hpr. rewrite (vfprintf_with_spec _ _ _ _ _ _ _ _ Hpr), <- take_127.
  destruct Hpr as (_ & _ & _ & _ & _ & _ & _ & _ & _ & Hch).
  apply fputs_console with write; [done..|by apply formatted_cstr|]. rewrite take_127. lia.
Qed.

(** printf sends exactly the text its format denotes to the device of
    stdout, cut to the 127 characters that the buffer on its stack holds, and
    returns the number of characters sent. *)
Theorem printf_correct write format ap m x out :
  as_output stdout = Some write -> console emit write ->
  printable m (buffer 2) format ap out ->
  exists m', printf as_output stdout stderr lit typeid_name buffer format ap (m, x) =
    Ret (Z.min 127 (Z.of_nat (length out)), (m', emit x (take 127 out))) /\
  forall a, a < buffer 2 \/ buffer 2 + 128 <= a -> m' !! a = m !! a.
Proof.
  intros. eexists. split; [by apply vfprintf_console with write|]. apply formatted_outside.
Qed.

(** puts sends the string and a newline, and returns the number of
    characters sent. *)
Theorem puts_correct write s l m x :
  as_output stdout = Some write -> console emit write ->
  cstr_at m s l -> Z.of_nat (length l) + 1 < 2 ^ 31 -> mapped m c_addr 4 ->
  exists m', puts as_output stdout stderr lit typeid_name buffer c_addr s (m, x) =
    Ret (Z.of_nat (length l) + 1, (m', emit (emit x l) [10])) /\
  forall a, a < c_addr \/ c_addr + 4 <= a -> m' !! a = m !! a.
Proof.
  intros Hdev Hcon Hs Hlen Hc. unfold puts.
  rewrite (bind_Ret _ _ _ _ _ (fputs_console 1 _ _ _ _ _ x Hdev Hcon Hs ltac:(lia))).
  replace (0 <=? Z.of_nat (length l)) with true by lia. unfold putchar, fputc. prog_norm.
  rewrite (bind_Ret _ _ _ _ _ (on_mem_Ret _ _ _ _ _ (store32_at m c_addr 10 Hc))), Hdev. prog_norm.
  assert (bytes_at (write_bytes m c_addr (le32 10)) c_addr [10]) as Hb
    by (split; [|done]; pose proof (bytes_at_write m c_addr (le32 10)) as [H _]; exact H).
  rewrite (bind_Ret _ _ _ _ _ (Hcon c_addr [10] _ _ Hb)). prog_norm. unfold mret, prog_ret.
  rewrite sgn_small by (unfold srange; lia). eexists. split; [done|].
  intros a Ha. by apply lookup_write_out.
Qed.

(** output to an object that is no output device prints a message with
    the type's name on stderr and returns EOF; nothing reaches the object. *)
Theorem fputs_not_device write s l device m x out :
  as_output device = None -> as_output stderr = Some write -> console emit write ->
  cstr_at m s l -> Z.of_nat (length l) < 2 ^ 31 ->
  printable m (buffer 1) (lit "fputs: expected OutputDevice, got %s
") [typeid_name] out ->
  exists m', fputs as_output stderr lit typeid_name buffer 2 s device (m, x) =
    Ret (EOF, (m', emit x (take 127 out))).
Proof.
  intros Hdev Herr Hcon Hs Hlen Hpr. remember 1%nat as k. cbn [fputs].
  rewrite (bind_Ret _ _ _ _ _ (on_mem_Ret _ _ x _ _ (strlen_spec s l m Hs ltac:(lia)))), Hdev.
  subst k. rewrite (bind_Ret _ _ _ _ _ (vfprintf_console 0 1 _ _ _ _ _ x _ Herr Hcon Hpr)).
  by eexists.
Qed.
End console.

(** ** A concrete console: the list of the characters it was sent *)
Fixpoint read_bytes (n : nat) (a : Z) : prog mem (list Z) :=
  match n with
  | O => mret []
  | S n' => b ← load8 a; l ← read_bytes n' (a + 1); mret (b :: l)
  end.

Lemma read_bytes_at a l m : bytes_at m a l -> read_bytes (length l) a m = Ret (l, m).
Proof.
  revert a. induction l as [|b l IH]; intros a; [done|]. intros [Hb Hl]. cbn [length read_bytes].
  prog_step (load8_at _ _ _ Hb). by prog_step (IH _ Hl).
Qed.

Definition log_write (a size : Z) : prog (mem * list Z) Z :=
  l ← on_mem (read_bytes (Z.to_nat size) a);
  s ← pget; pput (s.1, s.2 ++ l);; mret size.
Definition log_output (device : Z) : option (Z -> Z -> prog (mem * list Z) Z) :=
  if device =? 1 then Some log_write else None.

Lemma log_console : console app log_write.
Proof.
  intros a l m x Hb. unfold log_write. rewrite Nat2Z.id.
  by rewrite (bind_Ret _ _ _ _ _ (on_mem_Ret _ _ x _ _ (read_bytes_at a l m Hb))).
Qed.

Definition stdio_example : mem :=
  mem_of [(1000, chars "n=%d" ++ [0]); (2000, replicate 128 1); (3000, [0; 0; 0; 0]);
          (4000, chars "hi" ++ [0]); (5000, chars "got %s" ++ [0]); (6000, chars "T" ++ [0])].
Definition stdio_strings (p : Z) : option (list Z) := if p =? 6000 then Some (chars "T") else None.

Lemma stdio_example_printable format fmt args out :
  cstr_at stdio_example format fmt -> (format + Z.of_nat (length fmt) <? 2000) || (2128 <=? format) = true ->
  Forall (urange 32) args -> render_format stdio_strings fmt args = Some out ->
  Z.of_nat (length out) <? 2 ^ 31 = true -> Forall is_char out ->
  printable stdio_example 2000 format args out.
Proof.
  intros Hf Ha Hargs Hr Hl Hch. exists stdio_strings, fmt. split_and!; [done| | |lia|done..|lia|done].
  - mem_compute.
  - intros p s. unfold stdio_strings. destruct (Z.eqb_spec p 6000) as [->|]; [|done].
    intros [= <-]. split_and!; [mem_compute|simpl; lia|lia].
Qed.

Lemma printf_correct_witness :
  exists m', printf log_output 1 1 (fun _ => 5000) 6000 (fun _ => 2000) 1000 [42] (stdio_example, []) =
    Ret (4, (m', chars "n=42")).
Proof.
  assert (printable stdio_example 2000 1000 [42] (chars "n=42")) as Hpr.
  { apply stdio_example_printable with (chars "n=%d"); 
      [mem_compute|reflexivity|by repeat constructor|by vm_compute|reflexivity|mem_compute]. }
  destruct (printf_correct log_output 1 1 (fun _ => 5000) 6000 (fun _ => 2000) app log_write 1000 [42]
    stdio_example [] (chars "n=42") eq_refl log_console Hpr) as (m' & Hrun & _).
  exists m'. rewrite Hrun. reflexivity.
Defined.

Lemma puts_correct_witness :
  exists m', puts log_output 1 1 (fun _ => 5000) 6000 (fun _ => 2000) 3000 4000 (stdio_example, []) =
    Ret (3, (m', chars "hi" ++ [10])).
Proof.
  assert (cstr_at stdio_example 4000 (chars "hi")) as Hs by mem_compute.
  assert (mapped stdio_example 3000 4) as Hm by mem_compute.
  destruct (puts_correct log_output 1 1 (fun _ => 5000) 6000 (fun _ => 2000) 3000 app log_write 4000
    (chars "hi") stdio_example [] eq_refl log_console Hs eq_refl Hm) as (m' & Hrun & _).
  exists m'. rewrite Hrun. reflexivity.
Defined.

Lemma fputs_not_device_witness :
  exists m', fputs log_output 1 (fun _ => 5000) 6000 (fun _ => 2000) 2 4000 7 (stdio_example, []) =
    Ret (-1, (m', chars "got T")).
Proof.
  assert (cstr_at stdio_example 4000 (chars "hi")) as Hs by mem_compute.
  assert (printable stdio_example 2000 5000 [6000] (chars "got T")) as Hpr.
  { apply stdio_example_printable with (chars "got %s"); 
      [mem_compute|reflexivity|by repeat constructor|by vm_compute|reflexivity|mem_compute]. }
  destruct (fputs_not_device log_output 1 (fun _ => 5000) 6000 (fun _ => 2000) app log_write 4000
    (chars "hi") 7 stdio_example [] (chars "got T") eq_refl eq_refl log_console Hs eq_refl Hpr)
    as (m' & Hrun).
  exists m'. rewrite Hrun. reflexivity.
Defined.
