(* ===== verification/UserCopies.v ===== *)
(** * UserCopies: the C library of the user programs

    src/user/lib/ holds a second copy of the kernel's string.c (without
    strdup) and ctype.c, and its stdio.c starts with the text of the kernel's
    printf.c: the same functions, compiled for the programs.  Their models are
    those of the kernel's copy, under the user library's names; the theorems
    about the former are theorems about these.  Only programs in user mode
    refer to this file, always by qualified names. *)
From S2P Require Prelude Mem Ctype CString Strtol Printf.

(** ** user/lib/ctype.c *)
Definition isascii := Ctype.isascii.
Definition isupper := Ctype.isupper.
Definition islower := Ctype.islower.
Definition isspace := Ctype.isspace.
Definition isdigit := Ctype.isdigit.
Definition isxdigit := Ctype.isxdigit.
Definition isalpha := Ctype.isalpha.
Definition isalnum := Ctype.isalnum.
Definition iscntrl := Ctype.iscntrl.
Definition isgraph := Ctype.isgraph.
Definition ispunct := Ctype.ispunct.
Definition toupper := Ctype.toupper.
Definition tolower := Ctype.tolower.
Definition isprint := Ctype.isprint.

(** ** user/lib/string.c *)
Definition memset := CString.memset.
Definition memcmp := CString.memcmp.
Definition memcpy := CString.memcpy.
Definition strlen := CString.strlen.
Definition strcmp := CString.strcmp.
Definition strncmp := CString.strncmp.
Definition strcasecmp := CString.strcasecmp.
Definition strncasecmp := CString.strncasecmp.
Definition strstr := CString.strstr.
Definition strcpy := CString.strcpy.
Definition strlcpy := CString.strlcpy.
Definition strcat := CString.strcat.
Definition strtol := Strtol.strtol.

(** ** user/lib/stdio.c: the formatting functions *)
Definition FL_ZERO := Printf.FL_ZERO.
Definition FL_MINUS := Printf.FL_MINUS.
Definition FL_PLUS := Printf.FL_PLUS.
Definition FL_TICK := Printf.FL_TICK.
Definition FL_SPACE := Printf.FL_SPACE.
Definition FL_HASH := Printf.FL_HASH.
Definition FL_SIGNED := Printf.FL_SIGNED.
Definition FL_UPPER := Printf.FL_UPPER.
Definition rank_char := Printf.rank_char.
Definition rank_short := Printf.rank_short.
Definition rank_int := Printf.rank_int.
Definition rank_long := Printf.rank_long.
Definition rank_longlong := Printf.rank_longlong.
Definition EMIT := Printf.EMIT.
Definition format_front := Printf.format_front.
Definition format_emit := Printf.format_emit.
Definition format_int := Printf.format_int.
Definition va_signed := Printf.va_signed.
Definition va_unsigned := Printf.va_unsigned.
Definition step_flags := Printf.step_flags.
Definition step_width := Printf.step_width.
Definition step_prec := Printf.step_prec.
Definition conv_integer := Printf.conv_integer.
Definition conv_string := Printf.conv_string.
Definition conv_n := Printf.conv_n.
Definition conv := Printf.conv.
Definition step_modifiers := Printf.step_modifiers.
Definition step_normal := Printf.step_normal.
Definition vsn_step := Printf.vsn_step.
Definition vsn_loop := Printf.vsn_loop.
Definition vsnprintf := Printf.vsnprintf.
Definition snprintf := Printf.snprintf.
