(* ===== verification/UserLib.v ===== *)
(** * UserLib: the system interface of the user programs

    src/user/lib/syscall.c, user_call_main.c and the output functions of
    stdio.c.  A program runs on the memory and on [W], all that lies behind
    the trap instruction [int $0x80]; the kernel that answers it is a
    parameter ([Trap]), so that each function is shown to issue the right
    calls whatever the kernel does. *)
From S2P Require Import Prelude Mem CString Printf Stdio.
From S2P Require UserCopies.

(** ** Definitions *)

(** [int $0x80] with the call number in eax and the arguments in ebx, ecx,
    edx, esi and edi; the result is edx:eax. *)
Class Trap (W : Type) := int80 : Z -> Z -> Z -> Z -> Z -> Z -> prog (mem * W) Z.

Definition SYSCALL_EXIT : Z := 1.
Definition SYSCALL_FORK : Z := 2.
Definition SYSCALL_READ : Z := 3.
Definition SYSCALL_WRITE : Z := 4.
Definition SYSCALL_OPEN : Z := 5.
Definition SYSCALL_CLOSE : Z := 6.
Definition SYSCALL_EXEC : Z := 11.
Definition SYSCALL_DUP2 : Z := 63.
Definition SYSCALL_SCHED_YIELD : Z := 158.
Definition SYSCALL_SEM_CREATE : Z := 200.
Definition SYSCALL_READDIR : Z := 201.
Definition SYSCALL_THREAD : Z := 202.
Definition SYSCALL_HIDDEN_HLT : Z := 254.

Definition load16 (a : Z) : prog mem Z := b0 ← load8 a; b1 ← load8 (a + 1); mret (b0 + 2 ^ 8 * b1).

(** [1 << n] of an [int]: undefined outside the width. *)
Definition shl1 {S} (n : Z) : prog S Z :=
  if (0 <=? n) && (n <? 32) then mret (u32 (Z.shiftl 1 n)) else pfault.

Section userlib.
Context {W : Type} `{Trap W}.
Abbreviation io := (prog (mem * W)).

Definition syscall (callsys arg1 arg2 arg3 arg4 arg5 : Z) : io Z :=
  int80 (u32 callsys) (u32 arg1) (u32 arg2) (u32 arg3) (u32 arg4) (u32 arg5).

Definition exit (status : Z) : io unit := syscall SYSCALL_EXIT status 0 0 0 0;; mret tt.
Definition read (fd buffer size : Z) : io Z :=
  r ← syscall SYSCALL_READ fd buffer size 0 0; mret (s32 r).
Definition write (fd buffer size : Z) : io Z :=
  r ← syscall SYSCALL_WRITE fd buffer size 0 0; mret (s32 r).
Definition open (filename : Z) : io Z :=
  r ← syscall SYSCALL_OPEN filename 0 0 0 0; mret (s32 r).
Definition close (fd : Z) : io Z := r ← syscall SYSCALL_CLOSE fd 0 0 0 0; mret (s32 r).
Definition fork : io Z := r ← syscall SYSCALL_FORK 0 0 0 0 0; mret (s32 r).
Definition thread (addr data : Z) : io Z :=
  r ← syscall SYSCALL_THREAD addr data 0 0 0; mret (s32 r).
Definition exec_ex (exec args fd_keep_low fd_keep_high : Z) : io Z :=
  r ← syscall SYSCALL_EXEC exec args fd_keep_low fd_keep_high 0; mret (s32 r).
Definition exec (exec args : Z) : io Z := exec_ex exec args 7 0.

(** The loop over the descriptors to keep, up to the -1 that ends the array. *)
Fixpoint fd_bitmap (fuel : nat) (fd_keep fd_keep_low fd_keep_high : Z) : io (Z * Z) :=
  match fuel with
  | O => pnofuel
  | S fuel' =>
      v ← on_mem (load32 fd_keep);
      let fd := s32 v in
      if fd =? -1 then mret (fd_keep_low, fd_keep_high)
      else if fd <? 32
      then b ← shl1 fd; fd_bitmap fuel' (fd_keep + 4) (Z.lor fd_keep_low b) fd_keep_high
      else b ← shl1 (fd - 32); fd_bitmap fuel' (fd_keep + 4) fd_keep_low (Z.lor fd_keep_high b)
  end.

Definition exec_exv (exec args fd_keep : Z) : io Z :=
  s ← pget;
  '(fd_keep_low, fd_keep_high) ← fd_bitmap (mem_fuel (fst s)) fd_keep 0 0;
  exec_ex exec args fd_keep_low fd_keep_high.

(** The variable arguments follow the parameter [args] on the stack. *)
Definition exec_exl (exec args args_address : Z) : io Z := exec_exv exec args (args_address + 4).

Definition dup2 (oldfd newfd : Z) : io Z := r ← syscall SYSCALL_DUP2 oldfd newfd 0 0 0; mret (s32 r).
Definition sched_yield : io unit := syscall SYSCALL_SCHED_YIELD 0 0 0 0 0;; mret tt.
Definition sem_create (cnt : Z) : io Z := r ← syscall SYSCALL_SEM_CREATE cnt 0 0 0 0; mret (s32 r).
Definition readdir (fd info n : Z) : io Z :=
  r ← syscall SYSCALL_READDIR fd info n 0 0; mret (s32 r).

(** *** stdio.c *)
Variable lit : string -> Z.
Variable buffer : Z.

Definition fputs (str fd : Z) : io Z :=
  size ← on_mem (UserCopies.strlen str); write fd str size.
Definition puts (str : Z) : io Z := ret ← fputs str 1; fputs (lit "
") 1;; mret ret.
Definition vfprintf (fd format : Z) (ap : list Z) : io Z :=
  vfprintf_with fputs buffer fd format ap.
Definition printf (format : Z) (ap : list Z) : io Z := vfprintf 1 format ap.
Definition fprintf (fd format : Z) (ap : list Z) : io Z := vfprintf fd format ap.

(** *** user_call_main.c *)
Definition PROCESS_MAX_ARGUMENTS : Z := 16.
Definition info_args (runtime_info : Z) : Z := runtime_info + 4.
Definition info_buffer (runtime_info : Z) : Z := runtime_info + 4 + 2 * PROCESS_MAX_ARGUMENTS.

(** Fill [argv] from index [argc] on; [n] is [PROCESS_MAX_ARGUMENTS - argc]. *)
Fixpoint start_args (n : nat) (runtime_info argv argc : Z) : prog mem Z :=
  match n with
  | O => mret argc
  | S n' =>
      off ← load16 (info_args runtime_info + 2 * argc);
      if negb (off =? 0xFFFF)
      then store32 (argv + 4 * argc) (info_buffer runtime_info + off);;
           start_args n' runtime_info argv (argc + 1)
      else mret argc
  end.

Definition start (main : Z -> Z -> io Z) (argv runtime_info : Z) : io unit :=
  argc ← on_mem (start_args (Z.to_nat PROCESS_MAX_ARGUMENTS) runtime_info argv 0);
  on_mem (store32 (argv + 4 * argc) 0);;
  r ← main argc argv; exit r.
End userlib.

(** ** The descriptors kept by exec_exv *)

(** The [int] array [l] lies at [a]. *)
Definition words_at (m : mem) (a : Z) (l : list Z) : Prop :=
  forall i v, l !! i = Some v -> word_at m (a + 4 * Z.of_nat i) v.

Lemma words_at_cons m a v l :
  words_at m a (v :: l) -> word_at m a v /\ words_at m (a + 4) l.
Proof.
  intros H. split; [specialize (H 0%nat v eq_refl); by rewrite Z.mul_0_r, Z.add_0_r in H|].
  intros i w Hi. specialize (H (S i) w Hi).
  by replace (a + 4 + 4 * Z.of_nat i) with (a + 4 * Z.of_nat (S i)) by lia.
Qed.

Lemma words_at_cons_2 m a v l :
  word_at m a v -> words_at m (a + 4) l -> words_at m a (v :: l).
Proof.
  intros Hv Hl [|i] w Hi; [injection Hi as <-; by rewrite Z.mul_0_r, Z.add_0_r|].
  replace (a + 4 * Z.of_nat (S i)) with (a + 4 + 4 * Z.of_nat i) by lia. by apply Hl.
Qed.

Lemma words_at_bytes m a l : words_at m a l -> exists b, bytes_at m a b /\ length b = (4 * length l)%nat.
Proof.
  revert a. induction l as [|v l IH]; intros a; [by exists []|].
  intros [[_ Hv] Hl]%words_at_cons. destruct (IH _ Hl) as (b & Hb & Hlen).
  exists (le32 v ++ b). split; [|simpl; lia]. apply bytes_at_app. split; [done|]. exact Hb.
Qed.

(** Bit [i] of the two words, the low one first. *)
Definition kept (low high i : Z) : bool :=
  if i <? 32 then Z.testbit low i else Z.testbit high (i - 32).

Section bitmap.
Context {W : Type} `{Trap W}.

Lemma shl1_Ret {S} n (s : S) : 0 <= n < 32 -> shl1 n s = Ret (2 ^ n, s).
Proof.
  intros Hn. unfold shl1. replace ((0 <=? n) && (n <? 32)) with true by lia.
  unfold mret, prog_ret. rewrite Z.shiftl_1_l, wrap_small; [done|].
  split; [apply Z.pow_nonneg; lia|apply Z.pow_lt_mono_r; lia].
Qed.

Lemma fd_bitmap_spec fds fuel a low high m (x : W) :
  words_at m a (map u32 fds ++ [2 ^ 32 - 1]) -> Forall (fun fd => 0 <= fd < 64) fds ->
  (length fds < fuel)%nat ->
  exists low' high', fd_bitmap fuel a low high (m, x) = Ret ((low', high'), (m, x)) /\
    forall i, 0 <= i < 64 -> kept low' high' i = kept low high i || bool_decide (i ∈ fds).
Proof.
  revert fuel a low high. induction fds as [|fd fds IH]; intros fuel a low high Hw Hr Hf;
    (destruct fuel as [|fuel]; [simpl in Hf; lia|]); cbn [fd_bitmap];
    apply words_at_cons in Hw as [Hv Hw];
    rewrite (bind_Ret _ _ _ _ _ (on_mem_Ret _ _ x _ _ (load32_at _ _ _ Hv))).
  - do 2 eexists. split; [reflexivity|]. intros i Hi.
    rewrite bool_decide_eq_false_2 by apply not_elem_of_nil. by rewrite orb_false_r.
  - inversion Hr as [|? ? Hfd Hr']; subst. rewrite sgn_wrap, sgn_small by (unfold srange; lia).
    replace (fd =? -1) with false by lia.
    assert (forall i, bool_decide (i ∈ fd :: fds) = (fd =? i) || bool_decide (i ∈ fds)) as Hmem.
    { intros i. destruct (Z.eqb_spec fd i) as [->|Hne]; simpl.
      - apply bool_decide_eq_true. left.
      - apply bool_decide_ext. rewrite elem_of_cons. naive_solver. }
    destruct (Z.ltb_spec fd 32).
    + rewrite (bind_Ret _ _ _ _ _ (shl1_Ret fd _ ltac:(lia))).
      destruct (IH fuel (a + 4) (Z.lor low (2 ^ fd)) high Hw Hr' ltac:(simpl in Hf; lia))
        as (l' & h' & Hrun & Hk).
      rewrite Hrun. do 2 eexists. split; [reflexivity|]. intros i Hi. rewrite Hk, Hmem by done.
      unfold kept. destruct (Z.ltb_spec i 32).
      * rewrite Z.lor_spec, Z.pow2_bits_eqb by lia. by rewrite orb_assoc.
      * by replace (fd =? i) with false by lia.
    + rewrite (bind_Ret _ _ _ _ _ (shl1_Ret (fd - 32) _ ltac:(lia))).
      destruct (IH fuel (a + 4) low (Z.lor high (2 ^ (fd - 32))) Hw Hr' ltac:(simpl in Hf; lia))
        as (l' & h' & Hrun & Hk).
      rewrite Hrun. do 2 eexists. split; [reflexivity|]. intros i Hi. rewrite Hk, Hmem by done.
      unfold kept. destruct (Z.ltb_spec i 32).
      * by replace (fd =? i) with false by lia.
      * rewrite Z.lor_spec, Z.pow2_bits_eqb by lia. rewrite <- orb_assoc. do 2 f_equal.
        destruct (Z.eqb_spec fd i), (Z.eqb_spec (fd - 32) (i - 32)); lia || done.
Qed.

(** exec_exv passes exec the two words whose bit [i] is set exactly for
    the descriptors [i] of the array that ends with -1. *)
Theorem exec_exv_correct exec args fd_keep fds m (x : W) :
  words_at m fd_keep (map u32 fds ++ [2 ^ 32 - 1]) -> Forall (fun fd => 0 <= fd < 64) fds ->
  exists low high,
    exec_exv exec args fd_keep (m, x) = exec_ex exec args low high (m, x) /\
    forall i, 0 <= i < 64 -> kept low high i = bool_decide (i ∈ fds).
Proof.
  intros Hw Hr. unfold exec_exv. prog_norm.
  destruct (words_at_bytes _ _ _ Hw) as (b & Hb & Hlen).
  apply bytes_at_size in Hb. rewrite length_app, length_map in Hlen. simpl in Hlen.
  destruct (fd_bitmap_spec fds (mem_fuel m) fd_keep 0 0 m x Hw Hr ltac:(unfold mem_fuel; lia))
    as (low & high & Hrun & Hk).
  exists low, high. simpl fst. rewrite (bind_Ret _ _ _ _ _ Hrun). split; [done|].
  intros i Hi. rewrite Hk by done. unfold kept. by rewrite !Z.testbit_0_l; destruct (i <? 32).
Qed.
End bitmap.

(** ** Formatted output on a descriptor *)
Section output.
Context {W : Type} `{Trap W} (lit : string -> Z) (buffer : Z) (emit : W -> list Z -> W).

(** The kernel writes what descriptor [fd] is given to a console. *)
Definition fd_console (fd : Z) : Prop :=
  urange 32 fd /\ forall a l m x, bytes_at m a l -> urange 32 a -> Z.of_nat (length l) < 2 ^ 31 ->
    int80 SYSCALL_WRITE fd a (Z.of_nat (length l)) 0 0 (m, x) =
    Ret (Z.of_nat (length l), (m, emit x l)).

Lemma fputs_fd_console s l fd m x :
  fd_console fd -> cstr_at m s l -> urange 32 s -> Z.of_nat (length l) < 2 ^ 31 ->
  fputs s fd (m, x) = Ret (Z.of_nat (length l), (m, emit x l)).
Proof.
  intros [Hfd Hcon] Hs Ha Hlen. unfold fputs, UserCopies.strlen.
  rewrite (bind_Ret _ _ _ _ _ (on_mem_Ret _ _ x _ _ (strlen_spec s l m Hs ltac:(lia)))).
  unfold write, syscall. assert (bytes_at m s l) as Hb by (destruct Hs as [_ Hs]; apply bytes_at_app in Hs; tauto).
  rewrite (wrap_small 32 fd), (wrap_small 32 s), (wrap_small 32 (Z.of_nat _)) by (done || unfold urange; lia).
  change (u32 SYSCALL_WRITE) with SYSCALL_WRITE. change (u32 0) with 0.
  rewrite (bind_Ret _ _ _ _ _ (Hcon s l m x Hb Ha Hlen)). unfold mret, prog_ret.
  by rewrite sgn_small by (unfold srange; lia).
Qed.

(** a user program's fprintf issues write calls that send exactly the
    text of the format to the descriptor, cut to 127 characters. *)
Theorem user_fprintf_correct fd format ap m x out :
  fd_console fd -> urange 32 buffer -> printable m buffer format ap out ->
  exists m', fprintf buffer fd format ap (m, x) =
    Ret (Z.min 127 (Z.of_nat (length out)), (m', emit x (take 127 out))) /\
  forall a, a < buffer \/ buffer + 128 <= a -> m' !! a = m !! a.
Proof.
  intros Hfd Hbuf Hpr. unfold fprintf, vfprintf. rewrite (vfprintf_with_spec _ _ _ _ _ _ _ _ Hpr).
  pose proof Hpr as (_ & _ & _ & _ & _ & _ & _ & _ & _ & Hch).
  pose proof (take_127 out). eexists. split; [|apply formatted_outside].
  rewrite <- take_127. apply fputs_fd_console; [done|by apply formatted_cstr|done|lia].
Qed.
End output.

(** ** The entry of a program *)

(** The block that the kernel leaves for a new program: the offsets [offs] of
    its arguments, ended by 0xFFFF when there are less than 16. *)
Definition half_at (m : mem) (a v : Z) : Prop :=
  urange 16 v /\ bytes_at m a [u8 v; u8 (Z.shiftr v 8)].
Definition runtime_info_at (m : mem) (info : Z) (offs : list Z) : Prop :=
  (length offs <= 16)%nat /\ Forall (fun off => 0 <= off < 0xFFFF) offs /\
  (forall i off, offs !! i = Some off -> half_at m (info_args info + 2 * Z.of_nat i) off) /\
  ((length offs < 16)%nat -> half_at m (info_args info + 2 * Z.of_nat (length offs)) 0xFFFF).

Lemma load16_at m a v : half_at m a v -> load16 a m = Ret (v, m).
Proof.
  intros [Hv (H0 & H1 & _)]. unfold load16. prog_step (load8_at _ _ _ H0).
  prog_step (load8_at _ _ _ H1). unfold mret, prog_ret. do 2 f_equal.
  rewrite Z.shiftr_div_pow2 by lia. unfold wrap.
  rewrite (Z.mod_small (v / 2 ^ 8)) by
    (unfold urange in Hv; split; [apply Z.div_pos; lia|apply Z.div_lt_upper_bound; lia]).
  pose proof (Z.div_mod v (2 ^ 8)). lia.
Qed.

Lemma half_at_write m a v b l :
  half_at m a v -> b + Z.of_nat (length l) <= a \/ a + 2 <= b -> half_at (write_bytes m b l) a v.
Proof. intros [Hv Hb] Hd. split; [done|]. rewrite bytes_at_write_out; [done|simpl; lia]. Qed.

(** The bytes of an array of words. *)
Definition le32s (l : list Z) : list Z := concat (map le32 l).

Lemma length_le32s l : length (le32s l) = (4 * length l)%nat.
Proof. induction l as [|v l IH]; [done|]. unfold le32s in *. simpl. lia. Qed.

Lemma start_args_spec n offs info argv m k :
  (length offs <= n)%nat -> Forall (fun off => 0 <= off < 0xFFFF) offs -> 0 <= k ->
  k + Z.of_nat n = 16 ->
  (forall i off, offs !! i = Some off -> half_at m (info_args info + 2 * (k + Z.of_nat i)) off) ->
  ((length offs < n)%nat -> half_at m (info_args info + 2 * (k + Z.of_nat (length offs))) 0xFFFF) ->
  mapped m argv 68 -> argv + 68 <= info \/ info + 36 <= argv ->
  start_args n info argv k m =
  Ret (k + Z.of_nat (length offs),
       write_bytes m (argv + 4 * k) (le32s (map (Z.add (info_buffer info)) offs))).
Proof.
  revert offs m k. induction n as [|n IH]; intros offs m k Hlen Hr Hk Hkn Ho He Hm Hd.
  - destruct offs; [|simpl in Hlen; lia]. cbn. by rewrite Z.add_0_r.
  - cbn [start_args]. destruct offs as [|off offs].
    + specialize (He ltac:(simpl; lia)). rewrite Z.add_0_r in He.
      prog_step (load16_at _ _ _ He). cbn. by rewrite Z.add_0_r.
    + pose proof (Ho 0%nat off eq_refl) as H0. rewrite Z.add_0_r in H0.
      prog_step (load16_at _ _ _ H0). inversion Hr; subst.
      replace (off =? 0xFFFF) with false by lia. cbn [negb].
      assert (mapped m (argv + 4 * k) 4) as Hm4 by (apply (mapped_sub m argv 68); [done|lia|lia]).
      prog_step (store32_at m _ (info_buffer info + off) Hm4).
      rewrite (IH offs _ (k + 1)); try done; try lia.
      * cbn [length map]. unfold le32s. cbn [map concat]. rewrite write_bytes_app.
        do 2 f_equal; [lia|]. f_equal. cbn [length le32]. lia.
      * simpl in Hlen. lia.
      * intros i o Hi. apply half_at_write; [|cbn [length le32]; apply lookup_lt_Some in Hi; simpl in Hlen; unfold info_args; lia].
        replace (k + 1 + Z.of_nat i) with (k + Z.of_nat (S i)) by lia. by apply Ho.
      * intros Hl. apply half_at_write; [|cbn [length le32]; simpl in Hlen; unfold info_args; lia].
        replace (k + 1 + Z.of_nat (length offs)) with (k + Z.of_nat (length (off :: offs))) by (simpl; lia).
        apply He. simpl. lia.
      * by apply mapped_write.
Qed.

Lemma words_at_write m a l : Forall (urange 32) l -> words_at (write_bytes m a (le32s l)) a l.
Proof.
  revert m a. induction l as [|v l IH]; intros m a Hr i w Hi; [done|].
  inversion Hr; subst. unfold le32s. cbn [map concat]. rewrite write_bytes_app.
  cbn [length le32]. destruct i as [|i]; simpl in Hi.
  - injection Hi as ->. rewrite Z.mul_0_r, Z.add_0_r. apply word_at_write_out; [lia|by apply word_at_store].
  - specialize (IH (write_bytes m a (le32 v)) (a + 4) ltac:(done) i w Hi).
    replace (a + 4 * Z.of_nat (S i)) with (a + 4 + 4 * Z.of_nat i) by lia. exact IH.
Qed.

(** the entry code of a program calls main with the number of arguments
    in the kernel's block and an [argv] that points to each of them in order
    and ends with NULL, and exits with main's result; beyond [argv] the
    memory that main sees is the one the kernel left. *)
Theorem start_correct {W} `{Trap W} (main : Z -> Z -> prog (mem * W) Z) argv info offs m x :
  runtime_info_at m info offs -> mapped m argv 68 ->
  argv + 68 <= info \/ info + 36 <= argv -> 0 <= info -> info + 2 ^ 17 < 2 ^ 32 ->
  exists m',
    start main argv info (m, x) = (main (Z.of_nat (length offs)) argv ≫= exit) (m', x) /\
    words_at m' argv (map (Z.add (info_buffer info)) offs ++ [0]) /\
    forall a, a < argv \/ argv + 68 <= a -> m' !! a = m !! a.
Proof.
  intros (Hlen & Hr & Ho & He) Hm Hd H0 Hmax.
  pose proof (start_args_spec 16 offs info argv m 0 Hlen Hr ltac:(lia) ltac:(lia) Ho He Hm Hd) as Hrun.
  rewrite Z.mul_0_r, Z.add_0_r, Z.add_0_l in Hrun.
  set (l := map (Z.add (info_buffer info)) offs) in *.
  assert (length l = length offs) as Hl by (unfold l; apply length_map).
  exists (write_bytes m argv (le32s (l ++ [0]))). split_and!.
  - unfold start, PROCESS_MAX_ARGUMENTS. change (Z.to_nat 16) with 16%nat.
    rewrite (bind_Ret _ _ _ _ _ (on_mem_Ret _ _ x _ _ Hrun)).
    assert (mapped (write_bytes m argv (le32s l)) (argv + 4 * Z.of_nat (length offs)) 4) as Hm4
      by (apply mapped_write, (mapped_sub m argv 68); [done|lia|lia]).
    rewrite (bind_Ret _ _ _ _ _ (on_mem_Ret _ _ x _ _ (store32_at _ _ 0 Hm4))).
    unfold le32s. rewrite map_app, concat_app, write_bytes_app.
    pose proof (length_le32s l) as Hll. unfold le32s in Hll. rewrite Hll, Hl.
    replace (Z.of_nat (4 * length offs)) with (4 * Z.of_nat (length offs)) by lia.
    reflexivity.
  - apply words_at_write, Forall_app. split; [|by repeat constructor].
    apply Forall_map. eapply Forall_impl; [|exact Hr]. unfold urange, info_buffer, PROCESS_MAX_ARGUMENTS.
    simpl. lia.
  - intros a Ha. apply lookup_write_out. rewrite length_le32s, length_app, Hl. simpl. lia.
Qed.

(** ** A concrete kernel: it records the calls and answers a write with its size *)
Section log.
#[local] Instance log_trap : Trap (list (list Z)) := fun n a b c d e =>
  s ← pget; pput (s.1, s.2 ++ [[n; a; b; c; d; e]]);;
  mret (if n =? SYSCALL_WRITE then c else 0).

Definition userlib_example : mem :=
  mem_of [(1000, le32s [0; 33; 5; 2 ^ 32 - 1]);
          (2000, [0; 0; 0; 0] ++ [0; 0; 5; 0; 0xFF; 0xFF] ++ replicate 26 0xFF ++ chars "echo" ++ [0] ++ chars "x" ++ [0]);
          (3000, replicate 68 1)].

Lemma exec_exv_correct_witness :
  exists low high, exec_exv 7000 8000 1000 (userlib_example, []) =
    exec_ex 7000 8000 low high (userlib_example, []) /\ kept low high 33 = true /\ kept low high 1 = false.
Proof.
  assert (words_at userlib_example 1000 (map u32 [0; 33; 5] ++ [2 ^ 32 - 1])) as Hw.
  { intros i v Hi. do 4 (destruct i as [|i]; [injection Hi as <-; split;
      [split; [by vm_compute|reflexivity]|apply bytes_at_compute; vm_compute; reflexivity]|]). done. }
  assert (Forall (fun fd => 0 <= fd < 64) [0; 33; 5]) as Hr by (repeat constructor; lia).
  destruct (exec_exv_correct 7000 8000 1000 [0; 33; 5] userlib_example [] Hw Hr)
    as (low & high & Hrun & Hk).
  exists low, high. split; [exact Hrun|]. rewrite !Hk by lia. split; reflexivity.
Defined.

Lemma start_correct_witness :
  exists m', start (fun argc argv => mret argc) 3000 2000 (userlib_example, []) =
    exit 2 (m', []) /\ words_at m' 3000 [2036; 2041; 0].
Proof.
  assert (runtime_info_at userlib_example 2000 [0; 5]) as Hi.
  { split_and!; [simpl; lia|repeat constructor; lia| |].
    - intros i v Hi. do 2 (destruct i as [|i];
        [injection Hi as <-; split; [unfold urange; lia|mem_compute]|]). done.
    - intros _. split; [unfold urange; lia|mem_compute]. }
  assert (mapped userlib_example 3000 68) as Hm by mem_compute.
  destruct (start_correct (fun argc argv => mret argc) 3000 2000 [0; 5] userlib_example [] Hi Hm
    ltac:(lia) ltac:(lia) ltac:(lia)) as (m' & Hrun & Hw & _).
  exists m'. split; [exact Hrun|exact Hw].
Defined.

(** The bytes are looked up in the memory at each write. *)
Definition text_trap : Trap (list Z) := fun n a b c d e =>
  if n =? SYSCALL_WRITE then log_write b c else mret 0.

Lemma user_fprintf_correct_witness :
  exists m', @fprintf _ text_trap 2000 2 1000 [42] (stdio_example, []) = Ret (4, (m', chars "n=42")).
Proof.
  assert (printable stdio_example 2000 1000 [42] (chars "n=42")) as Hpr.
  { apply stdio_example_printable with (chars "n=%d");
      [mem_compute|reflexivity|by repeat constructor|by vm_compute|reflexivity|mem_compute]. }
  assert (@fd_console _ text_trap app 2) as Hcon.
  { split; [unfold urange; lia|]. intros a l m x Hb _ _. exact (log_console a l m x Hb). }
  assert (urange 32 2000) as Hbuf by (unfold urange; lia).
  destruct (@user_fprintf_correct _ text_trap 2000 app 2 1000 [42] stdio_example [] (chars "n=42")
    Hcon Hbuf Hpr) as (m' & Hrun & _).
  exists m'. rewrite Hrun. reflexivity.
Defined.
End log.
