(* ===== verification/Sh.v ===== *)
(** * Sh: the shell, src/user/sh/sh.c

    The shell reads a line, cuts it into words with strtok, and either lists
    a directory or forks and runs the command with the arguments and
    redirections it found.  The theorem on the parser says which words become
    arguments, which ones redirections, and when the shell waits. *)
From S2P Require Import Prelude Mem CString Strtok Printf Stdio UserLib.
From S2P Require UserCopies.

(** ** Definitions *)
Section sh.
Context {W : Type} `{Trap W}.
Variable lit : string -> Z.
(** The static variable of strtok and the local variables of main whose
    address is taken; [fbuf] is the array in vfprintf's frame. *)
Variables (strtok_last fbuf : Z).
Variables (buffer prompt args n_addr infos pid_addr ret_addr : Z).
Abbreviation io := (prog (mem * W)).

Definition delims : Z := lit " 
".
Definition next_word (s : Z) : io Z := on_mem (strtok strtok_last s delims).

(** The loop over the words after the command; the result is
    [(i, stdin_file, stdout_file)]. *)
Fixpoint sh_args (fuel : nat) (i stdin_file stdout_file : Z) : io (Z * Z * Z) :=
  match fuel with
  | O => pnofuel
  | S fuel' =>
      now ← next_word 0;
      if now =? 0 then mret (i, stdin_file, stdout_file)
      else
        c ← on_mem (load8 now);
        if c =? 62 then sh_args fuel' i stdin_file (now + 1)
        else if c =? 60 then sh_args fuel' i (now + 1) stdout_file
        else if i <? PROCESS_MAX_ARGUMENTS then
          on_mem (store32 (args + 4 * i) now);; sh_args fuel' (i + 1) stdin_file stdout_file
        else sh_args fuel' i stdin_file stdout_file
  end.

(** The command line after its first word [cmd]: fills [args] and returns
    [(wait, stdin_file, stdout_file)]. *)
Definition sh_parse (cmd : Z) : io (bool * Z * Z) :=
  on_mem (store32 args cmd);;
  s ← pget;
  '(i, stdin_file, stdout_file) ← sh_args (mem_fuel (fst s)) 1 0 0;
  a ← on_mem (load32 (args + 4 * (i - 1)));
  d ← on_mem (UserCopies.strcmp a (lit "&"));
  let '(i, wait) := if d =? 0 then (i - 1, false) else (i, true) in
  on_mem (store32 (args + 4 * i) 0);;
  mret (wait, stdin_file, stdout_file).

(** The child: redirect, then become the command. *)
Definition sh_child (cmd stdin_file stdout_file : Z) : io unit :=
  (if negb (stdin_file =? 0) then
     stdin_fd ← open stdin_file; dup2 stdin_fd 0;; close stdin_fd;; mret tt
   else mret tt);;
  (if negb (stdout_file =? 0) then
     stdout_fd ← open stdout_file; dup2 stdout_fd 1;; dup2 stdout_fd 2;; close stdout_fd;; mret tt
   else mret tt);;
  exec cmd args;;
  fprintf fbuf 2 (lit "exec failed
") [];;
  exit 0.

Definition sh_run (waitfd cmd : Z) : io unit :=
  '(wait, stdin_file, stdout_file) ← sh_parse cmd;
  pid ← fork;
  on_mem (store32 pid_addr pid);;
  on_mem (store32 ret_addr 1919810);;
  if pid =? 0 then sh_child cmd stdin_file stdout_file
  else if wait : bool then
    write waitfd pid_addr 4;;
    read waitfd ret_addr 4;;
    ret ← on_mem (load32 ret_addr);
    fprintf fbuf 1 (lit "process exited with code: %d
") [ret];; mret tt
  else mret tt.

Definition sizeof_file_info : Z := 24.

(** [k] entries of the listing, from the one at [info]. *)
Fixpoint sh_list (k : nat) (info : Z) : io unit :=
  match k with
  | O => mret tt
  | S k' =>
      directory ← on_mem (load32 (info + 20));
      size ← on_mem (load32 (info + 16));
      fprintf fbuf 1 (lit "%c %15s %10d
") [if negb (directory =? 0) then 100 else 45; info; size];;
      sh_list k' (info + sizeof_file_info)
  end.

Definition sh_dir : io unit :=
  path ← next_word 0;
  if path =? 0 then fprintf fbuf 2 (lit "Syntax error: dir <path>
") [];; mret tt
  else
    fd ← open path;
    on_mem (store32 n_addr 0);;
    if fd <? 0 then fprintf fbuf 2 (lit "dir %s not found
") [path];; mret tt
    else
      ret ← readdir fd 0 n_addr;
      if ret <? 0 then fprintf fbuf 2 (lit "%s is not a directory
") [path];; mret tt
      else
        readdir fd infos n_addr;;
        fprintf fbuf 1 (lit "* %15s %10s
") [lit "name"; lit "size"];;
        n ← on_mem (load32 n_addr);
        sh_list (Z.to_nat (s32 n)) infos.

(** One line of input, of which [siz] bytes were read. *)
Definition sh_line (waitfd siz : Z) : io unit :=
  on_mem (store8 (buffer + siz) 0);;
  cmd ← next_word buffer;
  if cmd =? 0 then mret tt
  else
    d ← on_mem (UserCopies.strcmp cmd (lit "dir"));
    if d =? 0 then sh_dir else sh_run waitfd cmd.

(** [for (; fputs(prompt, 1), siz = read(0, buffer, 255);)]: at most [fuel]
    lines. *)
Fixpoint sh_loop (fuel : nat) (waitfd : Z) : io Z :=
  match fuel with
  | O => pnofuel
  | S fuel' =>
      fputs prompt 1;;
      siz ← read 0 buffer 255;
      if siz =? 0 then mret 0 else sh_line waitfd siz;; sh_loop fuel' waitfd
  end.

Definition sh_main (fuel : nat) : io Z :=
  waitfd ← open (lit ":WAITPID"); sh_loop fuel waitfd.
End sh.

(** ** A sequence of strtok calls with other writes in between *)

(** The text [l] that strtok has still to scan lies between [lo] and [hi]. *)
Definition scan (m : mem) (delim : Z) (ds : list Z) (last lo hi : Z) (l : list Z) : Prop :=
  (l = [] /\ word_at m last 0) \/
  exists s, strtok_pre m s l delim ds last /\ word_at m last s /\ lo <= s /\
    s + Z.of_nat (length l) <= hi.

Lemma strtok_pre_write m s l delim ds last a b :
  strtok_pre m s l delim ds last ->
  a + Z.of_nat (length b) <= s \/ s + Z.of_nat (length l) < a ->
  a + Z.of_nat (length b) <= delim \/ delim + Z.of_nat (length ds) < a ->
  strtok_pre (write_bytes m a b) s l delim ds last.
Proof.
  intros [] ? ?. split; try done.
  - apply cstr_at_write_out; [lia|done].
  - apply cstr_at_write_out; [lia|done].
  - by apply mapped_write.
Qed.

Lemma scan_write m delim ds last lo hi l a b :
  scan m delim ds last lo hi l ->
  a + Z.of_nat (length b) <= lo \/ hi < a ->
  a + Z.of_nat (length b) <= delim \/ delim + Z.of_nat (length ds) < a ->
  a + Z.of_nat (length b) <= last \/ last + 4 <= a ->
  scan (write_bytes m a b) delim ds last lo hi l.
Proof.
  intros [[-> Hw]|(s & Hpre & Hw & Hlo & Hhi)] H1 H2 H3.
  - left. split; [done|]. apply word_at_write_out; [lia|done].
  - right. exists s. split_and!; [|apply word_at_write_out; [lia|done]|done..].
    apply strtok_pre_write; [done|lia|done].
Qed.

(** A text has no more words than characters. *)
Lemma split_go_length ds l cur :
  (length (split_go ds l cur) <= length l + match cur with [] => 0 | _ => 1 end)%nat.
Proof.
  revert cur. induction l as [|c l IH]; intros cur; cbn [split_go]; [by destruct cur|].
  destruct (decide (c ∈ ds)); [destruct cur|]; cbn [length].
  - specialize (IH []). cbn in IH. lia.
  - specialize (IH []). cbn in IH. lia.
  - specialize (IH (cur ++ [c])). destruct cur; cbn [app length] in *; lia.
Qed.

Lemma scan_fuel m delim ds last lo hi l :
  scan m delim ds last lo hi l -> (length (split_tokens ds l) < mem_fuel m)%nat.
Proof.
  pose proof (split_go_length ds l []) as Hl. fold (split_tokens ds l) in Hl. cbn in Hl.
  intros [[-> _]|(s & [Hs] & _)]; [unfold mem_fuel; cbn in *; lia|].
  apply cstr_at_fuel in Hs. lia.
Qed.

(** Where the memory may change during a scan. *)
Definition scan_frame (m m' : mem) (last lo hi : Z) : Prop :=
  forall x, x < lo \/ hi < x -> x < last \/ last + 4 <= x -> m' !! x = m !! x.

(** One call: the next word, or NULL when there is none. *)
Lemma strtok_word m s0 s l delim ds last lo hi :
  strtok_pre m s l delim ds last -> s0 = s \/ (s0 = 0 /\ word_at m last s) ->
  lo <= s -> s + Z.of_nat (length l) <= hi -> last + 4 <= lo \/ hi < last ->
  match split_tokens ds l with
  | [] => exists m', strtok last s0 delim m = Ret (0, m') /\ scan_frame m m' last lo hi
  | tok :: toks => exists p m' l' lo', strtok last s0 delim m = Ret (p, m') /\
      p <> 0 /\ tok <> [] /\ cstr_at m' p tok /\ urange 32 p /\
      lo <= p /\ p + Z.of_nat (length tok) < lo' /\ p + Z.of_nat (length tok) <= hi /\
      split_tokens ds l' = toks /\ scan m' delim ds last lo' hi l' /\ scan_frame m m' last lo hi
  end.
Proof.
  intros Hpre Hs0 Hlo Hhi Hlast. unfold strtok.
  assert (__strtok_r s0 delim last m = __strtok_r s delim last m) as ->.
  { destruct Hs0 as [->|[-> Hw]]; [done|]. apply strtok_r_null; [done|].
    apply sp_bound in Hpre. lia. }
  pose proof (sp_bound _ _ _ _ _ _ Hpre) as [Hpos Hmax].
  destruct (split_cases ds l) as [Hno|(lead & c & tok & rest & -> & Hlead & Htok & Hrest)].
  - rewrite split_tokens_none, (strtok_r_none _ _ _ _ _ _ Hpre Hno) by done.
    eexists. split; [reflexivity|]. intros x _ Hx. apply lookup_write_out. cbn [length le32]. lia.
  - rewrite split_tokens_found, (strtok_r_found _ _ _ _ _ _ _ _ _ Hpre Hlead Htok Hrest) by done.
    set (t := s + Z.of_nat (length lead)).
    rewrite !length_app in Hhi, Hmax. change (length (c :: tok)) with (S (length tok)) in *.
    exists t. eexists. destruct rest as [|d rest].
    + exists [], (hi + 1). split; [reflexivity|]. split; [lia|]. split; [done|]. destruct Hpre as [Hs ? ? _ H1 _ _].
      rewrite !length_app in H1. cbn [length] in *. split_and!; try (unfold urange; lia).
      * cbn [cut_of]. apply cstr_at_write_out; [cbn [length le32]; lia|].
        rewrite app_nil_r in Hs. apply (cstr_at_drop _ _ _ (length lead)) in Hs;
          [|rewrite length_app; simpl; lia]. by rewrite drop_app_length in Hs.
      * reflexivity.
      * left. split; [done|]. by apply word_at_store.
      * intros x _ Hx. apply lookup_write_out. cbn [length le32]. lia.
    + destruct (strtok_pre_next _ _ _ _ _ _ _ _ _ Hpre) as [Hpre' Htok'].
      exists rest, (t + Z.of_nat (S (length tok)) + 1). split; [reflexivity|].
      split; [lia|]. split; [done|]. cbn [length tail] in *.
      split_and!; try done; try (unfold urange; lia).
      * right. eexists. split; [exact Hpre'|]. unfold next_of. cbn [length].
        split; [apply word_at_store; unfold urange; lia|]. lia.
      * intros x Hx1 Hx2. rewrite lookup_write_out by (cbn [length le32]; lia).
        unfold cut_of. cbn [length]. apply lookup_insert_ne. lia.
Qed.

Lemma strtok_next m l delim ds last lo hi :
  scan m delim ds last lo hi l -> last + 4 <= lo \/ hi < last ->
  match split_tokens ds l with
  | [] => exists m', strtok last 0 delim m = Ret (0, m') /\ scan_frame m m' last lo hi
  | tok :: toks => exists p m' l' lo', strtok last 0 delim m = Ret (p, m') /\
      p <> 0 /\ tok <> [] /\ cstr_at m' p tok /\ urange 32 p /\
      lo <= p /\ p + Z.of_nat (length tok) < lo' /\ p + Z.of_nat (length tok) <= hi /\
      split_tokens ds l' = toks /\ scan m' delim ds last lo' hi l' /\ scan_frame m m' last lo hi
  end.
Proof.
  intros [[-> Hw]|(s & Hpre & Hw & Hlo & Hhi)] Hlast.
  - cbn. exists m. split; [|by intros x]. unfold strtok, __strtok_r. cbn [Z.eqb].
    by prog_step (load32_at _ _ _ Hw).
  - apply strtok_word with s; auto.
Qed.

(** ** The words of a command line *)

Definition is_out (t : list Z) : Prop := t !! 0%nat = Some 62.
Definition is_in (t : list Z) : Prop := t !! 0%nat = Some 60.
Definition plain (t : list Z) : Prop := ~ is_out t /\ ~ is_in t.
#[export] Instance is_out_dec t : Decision (is_out t) := decide (t !! 0%nat = Some 62).
#[export] Instance is_in_dec t : Decision (is_in t) := decide (t !! 0%nat = Some 60).
#[export] Instance plain_dec t : Decision (plain t) := and_dec _ _.

(** The word [t] lies at [p], inside the line. *)
Definition word_in (m : mem) (lo hi p : Z) (t : list Z) : Prop :=
  cstr_at m p t /\ lo <= p /\ p + Z.of_nat (length t) <= hi.

(** The file name of the last redirection of [ts]; [p0] when there is none. *)
Definition file_at (m : mem) (lo hi p0 p : Z) (ts : list (list Z)) : Prop :=
  match list.last ts with Some t => word_in m lo hi p (tail t) | None => p = p0 end.

Lemma file_at_cons m lo hi lo' p0 p1 p t ts :
  lo <= lo' -> file_at m lo' hi p1 p ts -> word_in m lo hi p1 (tail t) ->
  file_at m lo hi p0 p (t :: ts).
Proof.
  unfold file_at. intros Hlo Hf Hw. rewrite last_cons. destruct (list.last ts) as [t'|]; [|by subst].
  destruct Hf as (? & ? & ?). split_and!; [done|lia|done].
Qed.

Lemma file_at_le m lo hi lo' p0 p ts :
  lo <= lo' -> file_at m lo' hi p0 p ts -> file_at m lo hi p0 p ts.
Proof.
  unfold file_at. intros Hlo. destruct (list.last ts) as [t'|]; [|done].
  intros (? & ? & ?). split_and!; [done|lia|done].
Qed.

Section parse.
Context {W : Type} `{Trap W} (lit : string -> Z) (strtok_last args lo hi : Z) (ds : list Z).
Abbreviation delim := (delims lit).

(** The line, the literals, the variable of strtok and the array of
    arguments do not overlap. *)
Record sh_layout : Prop := {
  sl_args_line : args + 68 <= lo \/ hi < args;
  sl_args_delim : args + 68 <= delim \/ delim + Z.of_nat (length ds) < args;
  sl_args_last : args + 68 <= strtok_last \/ strtok_last + 4 <= args;
  sl_line_last : strtok_last + 4 <= lo \/ hi < strtok_last;
  sl_args : 0 <= args
}.

(** The words found so far stay where they are. *)
Definition args_frame (m m' : mem) (lo' i : Z) : Prop :=
  forall x, x < lo' \/ hi < x -> x < strtok_last \/ strtok_last + 4 <= x ->
    x < args + 4 * i \/ args + 68 <= x -> m' !! x = m !! x.

Lemma args_frame_scan m m1 m' lo' lo2 i j :
  scan_frame m m1 strtok_last lo' hi -> args_frame m1 m' lo2 j -> lo' <= lo2 -> i <= j ->
  args_frame m m' lo' i.
Proof. intros H1 H2 ? ? x ? ? ?. rewrite H2 by lia. apply H1; lia. Qed.

Definition words_after (m m' : mem) (lo' i inf outf i' inf' outf' : Z) (toks : list (list Z)) : Prop :=
  exists pts, Forall2 (word_in m' lo' hi) pts (take (Z.to_nat (16 - i)) (filter plain toks)) /\
    words_at m' (args + 4 * i) pts /\ i' = i + Z.of_nat (length pts) /\
    file_at m' lo' hi inf inf' (filter is_in toks) /\
    file_at m' lo' hi outf outf' (filter is_out toks) /\
    args_frame m m' lo' i /\ mapped m' args 68.

Lemma word_in_frame m m' lo1 lo2 i p t :
  sh_layout -> lo <= lo1 -> word_in m lo1 hi p t -> p + Z.of_nat (length t) < lo2 -> args_frame m m' lo2 i ->
  0 <= i -> word_in m' lo1 hi p t.
Proof.
  intros [] Hlo (Hs & H1 & H2) Hlt Hf Hi. split_and!; [|done..].
  eapply cstr_at_frame; [done|]. intros x Hx. apply Hf; lia.
Qed.

Lemma words_at_frame m m' a l :
  words_at m a l -> (forall x, a <= x < a + 4 * Z.of_nat (length l) -> m' !! x = m !! x) ->
  words_at m' a l.
Proof.
  intros Hw Hf i v Hi. destruct (Hw i v Hi) as [Hv Hb]. split; [done|].
  rewrite bytes_at_lookup in Hb |- *. intros j b Hj. rewrite <- (Hb j b Hj).
  apply lookup_lt_Some in Hi, Hj. cbn [length le32] in Hj. apply Hf. lia.
Qed.

(** A word that goes to a redirection, or beyond the sixteenth argument. *)
Lemma words_after_skip m m1 m' lo1 lo2 i inf outf inf1 outf1 i' inf' outf' t toks p :
  sh_layout -> lo <= lo1 <= lo2 -> 0 <= i ->
  scan_frame m m1 strtok_last lo1 hi -> word_in m1 lo1 hi p t -> t <> [] ->
  p + Z.of_nat (length t) < lo2 ->
  words_after m1 m' lo2 i inf1 outf1 i' inf' outf' toks ->
  (plain t -> 16 <= i) ->
  inf1 = (if decide (is_in t) then p + 1 else inf) ->
  outf1 = (if decide (is_out t) then p + 1 else outf) ->
  words_after m m' lo1 i inf outf i' inf' outf' (t :: toks).
Proof.
  intros Hl Hlo Hi Hf1 Hw Ht Hp (pts & Hpts & Hws & Hlen & Hin & Hout & Hf & Hmp) Hpl -> ->.
  assert (word_in m' lo1 hi (p + 1) (tail t)) as Htl.
  { pose proof (word_in_frame m1 m' lo1 lo2 i p t Hl ltac:(lia) Hw Hp Hf Hi) as (Hs & H1 & H2).
    destruct t as [|c t]; [done|]. apply cstr_at_cons in Hs as (_ & _ & Hs). cbn [tail length] in *.
    split_and!; [done|lia..]. }
  exists pts. split_and!; [|done|done| | | |done].
  - replace (take (Z.to_nat (16 - i)) (filter plain (t :: toks)))
      with (take (Z.to_nat (16 - i)) (filter plain toks)).
    + eapply Forall2_impl; [|exact Hpts]. intros q u (? & ? & ?). split_and!; [done|lia|done].
    + destruct (decide (plain t)) as [Hyes|Hno]; [|by rewrite filter_cons_False].
      specialize (Hpl Hyes). by replace (Z.to_nat (16 - i)) with 0%nat by lia.
  - destruct (decide (is_in t)); [rewrite filter_cons_True|rewrite filter_cons_False]; try done.
    + by apply (file_at_cons m' lo1 hi lo2 inf (p + 1)); [lia| |].
    + by apply (file_at_le _ _ _ lo2); [lia|].
  - destruct (decide (is_out t)); [rewrite filter_cons_True|rewrite filter_cons_False]; try done.
    + by apply (file_at_cons m' lo1 hi lo2 outf (p + 1)); [lia| |].
    + by apply (file_at_le _ _ _ lo2); [lia|].
  - eapply args_frame_scan; [done..|lia|lia].
Qed.

(** A word that becomes argument number [i]. *)
Lemma words_after_arg m m1 m' lo1 lo2 i inf outf i' inf' outf' t toks p :
  sh_layout -> lo <= lo1 <= lo2 -> 0 <= i < 16 -> urange 32 p ->
  scan_frame m m1 strtok_last lo1 hi -> word_in m1 lo1 hi p t -> plain t ->
  p + Z.of_nat (length t) < lo2 ->
  words_after (write_bytes m1 (args + 4 * i) (le32 p)) m' lo2 (i + 1) inf outf i' inf' outf' toks ->
  words_after m m' lo1 i inf outf i' inf' outf' (t :: toks).
Proof.
  intros Hl Hlo Hi Hpr Hf1 Hw [Ho Hn] Hp (pts & Hpts & Hws & Hlen & Hin & Hout & Hf & Hmp).
  pose proof Hl as [Ha1 Ha2 Ha3 Ha4 _].
  exists (p :: pts). split_and!; [..|done].
  - rewrite filter_cons_True by done.
    replace (Z.to_nat (16 - i)) with (S (Z.to_nat (16 - (i + 1)))) by lia. cbn [take]. constructor.
    + apply (word_in_frame (write_bytes m1 (args + 4 * i) (le32 p)) m' lo1 lo2 (i + 1));
        [done|lia| |done..|lia].
      destruct Hw as (? & ? & ?). split_and!; [|done..]. apply cstr_at_write_out; [|done].
      cbn [length le32]. lia.
    + eapply Forall2_impl; [|exact Hpts]. intros q u (? & ? & ?). split_and!; [done|lia|done].
  - intros k v Hk. destruct k as [|k].
    + injection Hk as <-. rewrite Z.mul_0_r, Z.add_0_r. split; [done|].
      apply bytes_at_lookup. intros j b Hj. pose proof (lookup_lt_Some _ _ _ Hj) as Hj'.
      cbn [length le32] in Hj'. rewrite Hf by lia. revert j b Hj Hj'.
      pose proof (bytes_at_write m1 (args + 4 * i) (le32 p)) as Hb. rewrite bytes_at_lookup in Hb.
      intros j b Hj _. by apply Hb.
    + specialize (Hws k v Hk).
      by replace (args + 4 * i + 4 * Z.of_nat (S k)) with (args + 4 * (i + 1) + 4 * Z.of_nat k) by lia.
  - cbn [length]. lia.
  - rewrite filter_cons_False by done. by apply (file_at_le _ _ _ lo2); [lia|].
  - rewrite filter_cons_False by done. by apply (file_at_le _ _ _ lo2); [lia|].
  - intros x H1 H2 H3. rewrite Hf by lia. rewrite lookup_write_out by (cbn [length le32]; lia).
    apply Hf1; lia.
Qed.

Lemma sh_args_spec toks fuel m (x : W) l lo1 i inf outf :
  sh_layout -> split_tokens ds l = toks -> scan m delim ds strtok_last lo1 hi l -> lo <= lo1 ->
  0 <= i <= 16 -> (length toks < fuel)%nat -> mapped m args 68 ->
  exists m' i' inf' outf',
    sh_args lit strtok_last args fuel i inf outf (m, x) = Ret ((i', inf', outf'), (m', x)) /\
    words_after m m' lo1 i inf outf i' inf' outf' toks.
Proof.
  intros Hl. pose proof Hl as [Ha1 Ha2 Ha3 Ha4 Ha5]. revert fuel m l lo1 i inf outf.
  induction toks as [|t toks IH]; intros fuel m l lo1 i inf outf Hsp Hsc Hlo Hi Hfuel Hm;
    (destruct fuel as [|fuel]; [simpl in Hfuel; lia|]); cbn [sh_args];
    pose proof (strtok_next m l delim ds strtok_last lo1 hi Hsc ltac:(lia)) as Hnext;
    rewrite Hsp in Hnext.
  - destruct Hnext as (m1 & Hrun & Hf). unfold next_word.
    rewrite (bind_Ret _ _ _ _ _ (on_mem_Ret _ _ x _ _ Hrun)). cbn [Z.eqb].
    exists m1, i, inf, outf. split; [done|]. exists []. split_and!; cbn; try done; try lia.
    + by rewrite take_nil.
    + intros a ? ? ?. apply Hf; lia.
    + intros a Ha. rewrite Hf by lia. by apply Hm.
  - destruct Hnext as (p & m1 & l' & lo2 & Hrun & Hp0 & Ht & Hs & Hpr & Hp1 & Hp2 & Hp3 & Hsp' & Hsc' & Hf).
    unfold next_word. rewrite (bind_Ret _ _ _ _ _ (on_mem_Ret _ _ x _ _ Hrun)).
    replace (p =? 0) with false by lia.
    assert (word_in m1 lo1 hi p t) as Hw by (split_and!; done || lia).
    assert (mapped m1 args 68) as Hm1.
    { intros a Ha. rewrite Hf by lia. by apply Hm. }
    destruct t as [|c t]; [done|]. pose proof Hs as (_ & Hc & _)%cstr_at_cons.
    rewrite (bind_Ret _ _ _ _ _ (on_mem_Ret _ _ x _ _ (load8_at _ _ _ Hc))).
    cbn [length] in Hfuel.
    assert (is_out (c :: t) <-> c = 62) as Hout by (unfold is_out; simpl; naive_solver).
    assert (is_in (c :: t) <-> c = 60) as Hin by (unfold is_in; simpl; naive_solver).
    destruct (Z.eqb_spec c 62) as [E|E]; [|destruct (Z.eqb_spec c 60) as [E'|E']].
    + destruct (IH fuel m1 l' lo2 i inf (p + 1) Hsp' Hsc' ltac:(lia) Hi ltac:(lia) Hm1)
        as (m' & i' & inf' & outf' & Hrec & Hwa).
      do 4 eexists. split; [exact Hrec|].
      eapply (words_after_skip m m1 m' lo1 lo2 _ _ _ _ _ _ _ _ _ _ p);
        [done|lia|lia|exact Hf|exact Hw|done|lia|exact Hwa|..].
      * intros [Hn ?]. tauto.
      * rewrite decide_False by (rewrite Hin; lia). done.
      * by rewrite decide_True by tauto.
    + destruct (IH fuel m1 l' lo2 i (p + 1) outf Hsp' Hsc' ltac:(lia) Hi ltac:(lia) Hm1)
        as (m' & i' & inf' & outf' & Hrec & Hwa).
      do 4 eexists. split; [exact Hrec|].
      eapply (words_after_skip m m1 m' lo1 lo2 _ _ _ _ _ _ _ _ _ _ p);
        [done|lia|lia|exact Hf|exact Hw|done|lia|exact Hwa|..].
      * intros [? Hn]. tauto.
      * by rewrite decide_True by tauto.
      * rewrite decide_False by (rewrite Hout; lia). done.
    + unfold PROCESS_MAX_ARGUMENTS. destruct (Z.ltb_spec i 16).
      * assert (mapped m1 (args + 4 * i) 4) as Hm4 by (apply (mapped_sub m1 args 68); [done|lia|lia]).
        rewrite (bind_Ret _ _ _ _ _ (on_mem_Ret _ _ x _ _ (store32_at _ _ p Hm4))).
        edestruct (IH fuel (write_bytes m1 (args + 4 * i) (le32 p)) l' lo2 (i + 1) inf outf Hsp')
          as (m' & i' & inf' & outf' & Hrec & Hwa); try lia.
        { apply scan_write; [done|cbn [length le32]; lia..]. }
        { by apply mapped_write. }
        do 4 eexists. split; [exact Hrec|].
        eapply (words_after_arg m m1 m' lo1 lo2 _ _ _ _ _ _ _ _ p);
          [done|lia|lia|done|exact Hf|exact Hw| |lia|exact Hwa].
        split; [rewrite Hout|rewrite Hin]; done.
      * destruct (IH fuel m1 l' lo2 i inf outf Hsp' Hsc' ltac:(lia) Hi ltac:(lia) Hm1)
          as (m' & i' & inf' & outf' & Hrec & Hwa).
        do 4 eexists. split; [exact Hrec|].
        eapply (words_after_skip m m1 m' lo1 lo2 _ _ _ _ _ _ _ _ _ _ p);
        [done|lia|lia|exact Hf|exact Hw|done|lia|exact Hwa|..].
        -- lia.
        -- rewrite decide_False by (rewrite Hin; lia). done.
        -- rewrite decide_False by (rewrite Hout; lia). done.
Qed.

Lemma words_at_snoc m a l v :
  words_at m a l -> urange 32 v ->
  words_at (write_bytes m (a + 4 * Z.of_nat (length l)) (le32 v)) a (l ++ [v]).
Proof.
  intros Hw Hv i u Hi. destruct (decide (i < length l)%nat).
  - rewrite lookup_app_l in Hi by done. apply word_at_write_out; [cbn [length le32]; lia|by apply Hw].
  - pose proof (lookup_lt_Some _ _ _ Hi) as Hlt. rewrite length_app in Hlt. cbn [length] in Hlt.
    replace i with (length l) in * by lia. rewrite lookup_app_r, Nat.sub_diag in Hi by lia.
    injection Hi as <-. by apply word_at_store.
Qed.

Lemma words_at_take m a l n : words_at m a l -> words_at m a (take n l).
Proof. intros Hw i v Hi. apply Hw. by apply lookup_take_Some in Hi as [Hi _]. Qed.

Lemma word_in_store m a v lo1 p t :
  sh_layout -> lo <= lo1 -> 0 <= a <= 16 -> word_in m lo1 hi p t ->
  word_in (write_bytes m (args + 4 * a) (le32 v)) lo1 hi p t.
Proof.
  intros [] ? ? (? & ? & ?). split_and!; [|done..]. apply cstr_at_write_out; [cbn [length le32]; lia|done].
Qed.

Lemma file_at_store m a v p0 p ts :
  sh_layout -> 0 <= a <= 16 -> file_at m lo hi p0 p ts ->
  file_at (write_bytes m (args + 4 * a) (le32 v)) lo hi p0 p ts.
Proof.
  unfold file_at. intros Hl Ha. destruct (list.last ts); [|done]. by apply word_in_store.
Qed.

Lemma strcmp_amp m a t :
  cstr_at m a t -> cstr_at m (lit "&") [38] ->
  exists d, UserCopies.strcmp a (lit "&") m = Ret (d, m) /\ (d =? 0) = bool_decide (t = [38]).
Proof.
  intros Ht Ha. exists (first_diff cid (t ++ [0]) ([38] ++ [0])).
  split; [by apply strcmp_loop_spec; [..|eapply cstr_at_fuel]|].
  pose proof (first_diff_strings t [38] (proj1 Ht) (proj1 Ha)) as Hiff.
  case_cmp; case_bool_decide; tauto.
Qed.

(** The arguments are ended with NULL, without a final "&". *)
Lemma sh_finish m (x : W) all av :
  sh_layout -> Forall2 (word_in m lo hi) all av -> words_at m args all -> mapped m args 68 ->
  (0 < length all <= 16)%nat -> cstr_at m (lit "&") [38] ->
  let bg := bool_decide (list.last av = Some [38]) in
  let n := if bg then Z.of_nat (length all) - 1 else Z.of_nat (length all) in
  let ptrs := take (Z.to_nat n) all in
  let m' := write_bytes m (args + 4 * n) (le32 0) in
  forall B (k : bool * Z -> prog (mem * W) B),
  (a ← on_mem (load32 (args + 4 * (Z.of_nat (length all) - 1)));
   d ← on_mem (UserCopies.strcmp a (lit "&"));
   let '(i, wait) := if d =? 0 then (Z.of_nat (length all) - 1, false) else (Z.of_nat (length all), true) in
   on_mem (store32 (args + 4 * i) 0);; k (wait, i)) (m, x) = k (negb bg, n) (m', x) /\
  Forall2 (word_in m' lo hi) ptrs (take (Z.to_nat n) av) /\ words_at m' args (ptrs ++ [0]).
Proof.
  intros Hl Hall Hw Hm Hlen Hamp bg n ptrs m' B k.
  assert (exists a t, list.last all = Some a /\ list.last av = Some t /\ word_in m lo hi a t)
    as (a & t & Hla & Hlt & Hword).
  { pose proof (Forall2_length Hall). rewrite !last_lookup.
    destruct (lookup_lt_is_Some_2 all (pred (length all))) as [a Ha]; [lia|].
    destruct (lookup_lt_is_Some_2 av (pred (length av))) as [t Ht]; [lia|].
    exists a, t. split_and!; [done|done|]. replace (pred (length av)) with (pred (length all)) in Ht by lia.
    eapply (Forall2_lookup_lr _ _ _ _ _ _ Hall); eauto. }
  assert (0 <= n <= 16) as Hn by (unfold n; destruct bg; lia).
  assert (length ptrs = Z.to_nat n) as Hlp by (unfold ptrs; rewrite length_take; unfold n; destruct bg; lia).
  split_and!.
  - rewrite last_lookup in Hla. specialize (Hw _ _ Hla).
    replace (Z.of_nat (pred (length all))) with (Z.of_nat (length all) - 1) in Hw by lia.
    rewrite (bind_Ret _ _ _ _ _ (on_mem_Ret _ _ x _ _ (load32_at _ _ _ Hw))).
    destruct (strcmp_amp m a t (proj1 Hword) Hamp) as (d & Hd & Heq).
    rewrite (bind_Ret _ _ _ _ _ (on_mem_Ret _ _ x _ _ Hd)), Heq.
    assert (bool_decide (t = [38]) = bg) as ->.
    { unfold bg. rewrite Hlt. apply bool_decide_ext. split; [by intros ->|by intros [= ->]]. }
    assert (mapped m (args + 4 * n) 4) as Hm4 by (apply (mapped_sub m args 68); [done|lia|lia]).
    pose proof (on_mem_Ret _ _ x _ _ (store32_at _ _ 0 Hm4)) as Hst. fold m' in Hst.
    unfold n in Hst |- *. destruct bg; by rewrite (bind_Ret _ _ _ _ _ Hst).
  - apply Forall2_take. eapply Forall2_impl; [|exact Hall]. intros p u Hpu.
    apply word_in_store; [done|lia|done|done].
  - unfold m'. replace n with (Z.of_nat (length ptrs)) by lia.
    apply words_at_snoc; [by apply words_at_take|unfold urange; lia].
Qed.
End parse.

Section command.
Context {W : Type} `{Trap W} (lit : string -> Z) (strtok_last buffer args : Z) (ds : list Z).

(** The first word of the line is the command; it becomes the first argument. *)
Lemma sh_first m (x : W) l cmd toks :
  let hi := buffer + Z.of_nat (length l) in
  sh_layout lit strtok_last args buffer hi ds ->
  strtok_pre m buffer l (delims lit) ds strtok_last -> split_tokens ds l = cmd :: toks ->
  mapped m args 68 ->
  exists p m1 m2 l' lo2,
    next_word lit strtok_last buffer (m, x) = Ret (p, (m1, x)) /\
    on_mem (store32 args p) (m1, x) = Ret (tt, (m2, x)) /\
    p <> 0 /\ word_in m2 buffer hi p cmd /\ word_at m2 args p /\ mapped m2 args 68 /\
    p + Z.of_nat (length cmd) < lo2 /\ split_tokens ds l' = toks /\
    scan m2 (delims lit) ds strtok_last lo2 hi l' /\
    (forall y, ~ (args <= y < args + 4) -> ~ (buffer <= y <= hi) ->
       ~ (strtok_last <= y < strtok_last + 4) -> m2 !! y = m !! y).
Proof.
  intros hi [Hl1 Hl2 Hl3 Hl4 Hl5] Hpre Hsp Hm.
  pose proof (strtok_word m buffer buffer l (delims lit) ds strtok_last buffer hi Hpre
    ltac:(by left) ltac:(lia) ltac:(lia) ltac:(lia)) as Hnext. rewrite Hsp in Hnext.
  destruct Hnext as (p & m1 & l' & lo2 & Hrun & Hp0 & Ht & Hs & Hpr & Hp1 & Hp2 & Hp3 & Hsp' & Hsc & Hf).
  assert (mapped m1 args 68) as Hm1 by (intros a Ha; rewrite Hf by lia; by apply Hm).
  assert (mapped m1 args 4) as Hm4 by (apply (mapped_le _ _ _ _ Hm1); lia).
  exists p, m1, (write_bytes m1 args (le32 p)), l', lo2. split_and!.
  - exact (on_mem_Ret _ _ x _ _ Hrun).
  - exact (on_mem_Ret _ _ x _ _ (store32_at _ _ p Hm4)).
  - done.
  - split_and!; [apply cstr_at_write_out; [cbn [length le32]; lia|done]|lia|lia].
  - split; [done|apply bytes_at_write].
  - by apply mapped_write.
  - lia.
  - done.
  - apply scan_write; [done|cbn [length le32]; lia..].
  - intros y H1 H2 H3. rewrite lookup_write_out by (cbn [length le32]; lia). apply Hf; lia.
Qed.

(** C28: on a line whose words are [cmd :: toks] the shell's parser returns
    the command and fills [args], up to its 16 entries, with exactly the
    words that are not redirections, in order, then NULL; a final "&" is
    dropped and says not to wait; the input and the output file are the names
    after the last "<" and the last ">" word. *)
Theorem sh_parse_correct m (x : W) l cmd toks :
  let hi := buffer + Z.of_nat (length l) in
  sh_layout lit strtok_last args buffer hi ds ->
  strtok_pre m buffer l (delims lit) ds strtok_last -> split_tokens ds l = cmd :: toks ->
  mapped m args 68 -> cstr_at m (lit "&") [38] ->
  lit "&" + 1 < buffer \/ hi < lit "&" -> lit "&" + 1 < args \/ args + 68 <= lit "&" ->
  lit "&" + 1 < strtok_last \/ strtok_last + 4 <= lit "&" ->
  let av := take 16 (cmd :: filter plain toks) in
  let bg := bool_decide (list.last av = Some [38]) in
  exists p ptrs inf outf m',
    (c ← next_word lit strtok_last buffer; r ← sh_parse lit strtok_last args c; mret (c, r)) (m, x) =
      Ret ((p, (negb bg, inf, outf)), (m', x)) /\
    p <> 0 /\ cstr_at m' p cmd /\
    Forall2 (cstr_at m') ptrs (if bg then take (length av - 1) av else av) /\
    words_at m' args (ptrs ++ [0]) /\
    file_at m' buffer hi 0 inf (filter is_in toks) /\
    file_at m' buffer hi 0 outf (filter is_out toks).
Proof.
  intros hi Hl Hpre Hsp Hm Hamp Ha1 Ha2 Ha3 av bg. pose proof Hl as [Hl1 Hl2 Hl3 Hl4 Hl5].
  destruct (sh_first m x l cmd toks Hl Hpre Hsp Hm) as (p & m1 & m2 & l' & lo2 & Hrun & Hst & Hp0 &
    Hcmd2 & Hw0 & Hm2 & Hp3 & Hsp' & Hsc2 & Hf). fold hi in Hcmd2, Hsc2, Hf.
  pose proof Hcmd2 as (_ & Hp1 & Hp2).
  rewrite (bind_Ret _ _ _ _ _ Hrun). unfold sh_parse. prog_norm. rewrite (bind_Ret _ _ _ _ _ Hst). prog_norm.
  assert (length toks < mem_fuel m2)%nat as Hfuel by (rewrite <- Hsp'; by eapply scan_fuel).
  destruct (sh_args_spec lit strtok_last args buffer hi ds toks (mem_fuel m2) m2 x l' lo2 1 0 0 Hl Hsp' Hsc2
    ltac:(lia) ltac:(lia) Hfuel Hm2) as (m3 & i & inf & outf & Hargs & pts & Hpts & Hws & -> & Hin & Hout & Hfr & Hm3).
  rewrite (bind_Ret _ _ _ _ _ Hargs).
  change (Z.to_nat (16 - 1)) with 15%nat in Hpts.
  assert (words_at m3 args (p :: pts)) as Hwords.
  { apply words_at_cons_2; [|by rewrite <- (Z.mul_1_r 4) at 1].
    apply (word_at_frame m2); [done|]. intros; apply Hfr; lia. }
  assert (word_in m3 buffer hi p cmd) as Hcmd3
    by (apply (word_in_frame lit strtok_last args buffer hi ds m2 m3 buffer lo2 1); done || lia).
  assert (Forall2 (word_in m3 buffer hi) (p :: pts) av) as Hall.
  { unfold av. cbn [take]. constructor; [done|]. eapply Forall2_impl; [|exact Hpts].
    intros q u (? & ? & ?). split_and!; [done|lia|done]. }
  pose proof (Forall2_length Hall) as Hlen.
  assert (length av <= 16)%nat as Hav by (unfold av; rewrite length_take; lia).
  assert (cstr_at m3 (lit "&") [38]) as Hamp3.
  { eapply cstr_at_frame; [exact Hamp|]. cbn [length]. intros y Hy. rewrite Hfr, Hf by lia. done. }
  destruct (sh_finish lit strtok_last args buffer hi ds m3 x (p :: pts) av Hl Hall Hwords Hm3
    ltac:(cbn [length]; cbn [length] in Hlen; lia) Hamp3 _ (fun '(wait, i) => mret (wait, inf, outf)))
    as (Hfin & Hptrs & Hnull).
  fold bg in Hfin, Hptrs, Hnull.
  replace (1 + Z.of_nat (length pts)) with (Z.of_nat (length (p :: pts))) by (cbn [length]; lia).
  set (n := if bg then Z.of_nat (length (p :: pts)) - 1 else Z.of_nat (length (p :: pts))) in *.
  assert (0 <= n <= 16) as Hn by (unfold n; cbn [length]; cbn [length] in Hlen; destruct bg; lia).
  exists p, (take (Z.to_nat n) (p :: pts)), inf, outf. eexists.
  split; [by rewrite (bind_Ret _ _ _ _ _ Hfin)|]. split_and!; [done| | |exact Hnull| |].
  - by apply (word_in_store lit strtok_last args buffer hi ds m3 n 0 buffer p cmd).
  - replace (if bg then take (length av - 1) av else av) with (take (Z.to_nat n) av).
    + eapply Forall2_impl; [|exact Hptrs]. by intros q u (? & _).
    + unfold n. rewrite Hlen. destruct bg; [f_equal; lia|by rewrite Nat2Z.id, firstn_all].
  - apply (file_at_store lit strtok_last args buffer hi ds); [done|lia|].
    by apply (file_at_le _ _ _ lo2); [lia|].
  - apply (file_at_store lit strtok_last args buffer hi ds); [done|lia|].
    by apply (file_at_le _ _ _ lo2); [lia|].
Qed.
End command.

(** ** A concrete command line *)
Definition sh_text : list Z := chars "ls -l >out x &
".
Definition sh_lit (s : string) : Z := if String.eqb s "&" then 3100 else 3000.
Definition sh_example : mem :=
  mem_of [(1000, sh_text ++ [0]); (2000, replicate 68 1); (3000, [32; 10; 0]); (3100, [38; 0]);
          (4000, [0; 0; 0; 0])].

Lemma sh_parse_correct_witness :
  exists p ptrs outf m',
    (c ← next_word sh_lit 4000 1000; r ← sh_parse sh_lit 4000 2000 c; mret (c, r)) (sh_example, tt) =
      Ret ((p, (false, 0, outf)), (m', tt)) /\
    Forall2 (cstr_at m') ptrs [chars "ls"; chars "-l"; chars "x"] /\
    words_at m' 2000 (ptrs ++ [0]) /\ cstr_at m' outf (chars "out").
Proof.
  assert (length sh_text = 15%nat) as Hlen by reflexivity.
  assert (delims sh_lit = 3000) as Hd by reflexivity.
  assert (sh_layout sh_lit 4000 2000 1000 (1000 + Z.of_nat (length sh_text)) [32; 10]) as Hl
    by (rewrite Hlen; split; rewrite ?Hd; cbn [length]; lia).
  assert (strtok_pre sh_example 1000 sh_text (delims sh_lit) [32; 10] 4000) as Hpre
    by (rewrite Hd; split; rewrite ?Hlen; cbn [length]; try lia; mem_compute).
  assert (split_tokens [32; 10] sh_text =
    chars "ls" :: [chars "-l"; chars ">out"; chars "x"; chars "&"]) as Hsp by (vm_compute; reflexivity).
  assert (mapped sh_example 2000 68) as Hm by mem_compute.
  assert (cstr_at sh_example (sh_lit "&") [38]) as Hamp by mem_compute.
  destruct (sh_parse_correct sh_lit 4000 1000 2000 [32; 10] sh_example tt sh_text _ _ Hl Hpre Hsp Hm Hamp)
    as (p & ptrs & inf & outf & m' & Hrun & _ & _ & Hp & Hw & Hin & Hout);
    [change (sh_lit "&") with 3100; rewrite ?Hlen; lia..|].
  assert (inf = 0) as -> by exact Hin.
  exists p, ptrs, outf, m'. split; [exact Hrun|]. split; [exact Hp|]. split; [exact Hw|].
  exact (proj1 Hout).
Defined.
