(* ===== verification/Thread.v ===== *)
(** * Thread: src/user/thread/thread.c, two threads that take turns

    The program starts two threads that share [counter] and [running] and
    pass a token through two semaphores.  The threads are a step relation:
    one step is one access to a shared variable or one call of the kernel, so
    every preemption between them is covered.  A semaphore is what the kernel
    implements: a signal adds one, a wait takes one and blocks at zero. *)
From S2P Require Import Prelude.
#[local] Set Warnings "-clear-no-such-hyp".

(** ** The step relation *)

(** Where a thread is in the loop of [A]; [AtStore r] has read [r] for
    [counter++]. *)
Inductive pc :=
  | AtCheck            (* for (; running;) *)
  | AtWait             (* read(info->sem1, NULL, 1) *)
  | AtLoad             (* counter++, the read *)
  | AtStore (r : Z)    (* counter++, the write *)
  | AtTest             (* if (counter >= 100) *)
  | AtStop             (* running = 0 *)
  | AtPrint            (* printf("%d: %d\n", info->id, counter) *)
  | AtSignal           (* write(info->sem2, NULL, 1) *)
  | Exited.            (* exit(0) *)
#[export] Instance pc_eq_dec : EqDecision pc.
Proof. solve_decision. Defined.

(** The shared state: the variables, the semaphores that thread 1 and thread
    2 wait for, and the lines printed, as pairs of identity and counter. *)
Record shared := Shared {
  running : bool; counter : Z; sem1 : Z; sem2 : Z; printed : list (Z * Z)
}.

(** The semaphore that thread [one] waits for, and the one it signals. *)
Definition own (one : bool) (s : shared) : Z := if one then sem1 s else sem2 s.
Definition take_own (one : bool) (s : shared) : shared :=
  if one then Shared (running s) (counter s) (sem1 s - 1) (sem2 s) (printed s)
  else Shared (running s) (counter s) (sem1 s) (sem2 s - 1) (printed s).
Definition signal_other (one : bool) (s : shared) : shared :=
  if one then Shared (running s) (counter s) (sem1 s) (sem2 s + 1) (printed s)
  else Shared (running s) (counter s) (sem1 s + 1) (sem2 s) (printed s).

(** What thread [one] does next; [None] while it is blocked or gone. *)
Definition A_step (one : bool) (p : pc) (s : shared) : option (pc * shared) :=
  match p with
  | AtCheck => Some (if running s then AtWait else Exited, s)
  | AtWait => if 0 <? own one s then Some (AtLoad, take_own one s) else None
  | AtLoad => Some (AtStore (counter s), s)
  | AtStore r => Some (AtTest, Shared (running s) (r + 1) (sem1 s) (sem2 s) (printed s))
  | AtTest => Some (if 100 <=? counter s then AtStop else AtPrint, s)
  | AtStop => Some (AtPrint, Shared false (counter s) (sem1 s) (sem2 s) (printed s))
  | AtPrint =>
      Some (AtSignal, Shared (running s) (counter s) (sem1 s) (sem2 s)
                        (printed s ++ [(if one then 1 else 2, counter s)]))
  | AtSignal => Some (AtCheck, signal_other one s)
  | Exited => None
  end.

Definition config : Type := pc * pc * shared.

Inductive step : config -> config -> Prop :=
  | step1 p1 p2 s p1' s' : A_step true p1 s = Some (p1', s') -> step (p1, p2, s) (p1', p2, s')
  | step2 p1 p2 s p2' s' : A_step false p2 s = Some (p2', s') -> step (p1, p2, s) (p1, p2', s').

(** The state when main has started both threads. *)
Definition start : config := (AtCheck, AtCheck, Shared true 0 1 0 []).

(** ** The invariant *)

(** The thread holds the token. *)
Definition critical (p : pc) : bool :=
  match p with AtLoad | AtStore _ | AtTest | AtStop | AtPrint | AtSignal => true | _ => false end.

(** The lines that a run has printed when the counter is [n]: the threads
    alternate, thread 1 first. *)
Definition turns (n : nat) : list (Z * Z) :=
  map (fun k => (if Nat.odd k then 1 else 2, Z.of_nat k)) (seq 1 n).

Lemma turns_S n : turns (S n) = turns n ++ [(if Nat.odd (S n) then 1 else 2, Z.of_nat (S n))].
Proof. unfold turns. by rewrite seq_S, map_app. Qed.

(** The token is in one of four places; [one] says whose turn it is. *)
Definition token (one : bool) (p1 p2 : pc) (s : shared) : Prop :=
  if one
  then critical p2 = false /\ sem2 s = 0 /\ sem1 s = (if critical p1 then 0 else 1)
  else critical p1 = false /\ sem1 s = 0 /\ sem2 s = (if critical p2 then 0 else 1).

(** The printed lines and the counter while thread [one], whose turn it is,
    is at [p]. *)
Definition progress (one : bool) (p : pc) (s : shared) : Prop :=
  exists n, printed s = turns n /\
  match p with
  | AtCheck | AtWait | AtLoad | Exited => counter s = Z.of_nat n /\ Nat.odd n = negb one
  | AtStore r => counter s = Z.of_nat n /\ Nat.odd n = negb one /\ r = counter s
  | AtTest | AtStop | AtPrint => counter s = Z.of_nat (S n) /\ Nat.odd (S n) = one
  | AtSignal => counter s = Z.of_nat n /\ Nat.odd n = one
  end.

(** [running] is cleared by the thread that reaches 100; then the other one
    has at most the turn that it was already waiting for. *)
Definition limits (p q : pc) (s : shared) : Prop :=
  match p with
  | AtCheck => if running s then counter s < 100 else counter s = 100 \/ counter s = 101
  | AtWait | AtLoad | AtStore _ => if running s then counter s < 100 else counter s = 100
  | AtTest => if running s then counter s <= 100 else counter s = 101
  | AtStop => if running s then counter s = 100 else counter s = 101
  | AtPrint | AtSignal => if running s then counter s < 100 else counter s = 100 \/ counter s = 101
  | Exited => running s = false /\ (counter s = 100 \/ counter s = 101)
  end /\
  (q = Exited -> running s = false) /\
  (q = AtWait -> running s = false -> counter s = 100 /\ (p = AtPrint \/ p = AtSignal)).

(** It is the turn of thread 1 when [one]; the states of both threads. *)
Definition inv_turn (one : bool) (p q : pc) (s : shared) : Prop :=
  critical q = false /\ own (negb one) s = 0 /\ own one s = (if critical p then 0 else 1) /\
  progress one p s /\ limits p q s.

Definition inv (c : config) : Prop :=
  let '(p1, p2, s) := c in inv_turn true p1 p2 s \/ inv_turn false p2 p1 s.

Lemma odd_flip n b : Nat.odd n = b -> Nat.odd (S n) = negb b.
Proof. rewrite Nat.odd_succ, <- Nat.negb_odd. by intros ->. Qed.

(** Close the parts of [inv_turn] after a step that prints [n] lines. *)
Ltac turn n :=
  unfold inv_turn, progress, limits; cbn in *;
  split_and!; try done; try lia;
  try (exists n; split_and!; done || lia || (by apply odd_flip));
  naive_solver lia.

(** The thread whose turn it is moves. *)
Lemma inv_active one p q s p' s' :
  inv_turn one p q s -> A_step one p s = Some (p', s') ->
  inv_turn one p' q s' \/ inv_turn (negb one) q p' s'.
Proof.
  intros (Hq & Hother & Hown & (n & Hprint & Hprog) & Hlim & Hexit & Hwait) Hstep.
  destruct s as [r c s1 s2 out]; destruct p; cbn in Hstep; try discriminate.
  - injection Hstep as <- <-. left. destruct r; turn n.
  - destruct (Z.ltb_spec 0 (own one (Shared r c s1 s2 out))); [|discriminate].
    injection Hstep as <- <-. left. destruct one, r; turn n.
  - injection Hstep as <- <-. left. destruct one, r; turn n.
  - injection Hstep as <- <-. left. cbn in Hprog. destruct Hprog as (Hc & Hodd & ->).
    apply odd_flip in Hodd. destruct one, r; turn n.
  - injection Hstep as <- <-. left. destruct (Z.leb_spec 100 c); destruct one, r; turn n.
  - injection Hstep as <- <-. left. destruct one, r; turn n.
  - injection Hstep as <- <-. left. cbn in Hprog. destruct Hprog as [Hc Hodd].
    assert (out ++ [(if one then 1 else 2, c)] = turns (S n)) as Hout
      by (by rewrite turns_S, <- Hprint, Hodd, Hc).
    destruct one, r; turn (S n).
  - injection Hstep as <- <-. right. destruct one, r, q; turn n.
Qed.

(** The other thread moves: it can only look at [running]. *)
Lemma inv_passive one p q s q' s' :
  inv_turn one p q s -> A_step (negb one) q s = Some (q', s') -> inv_turn one p q' s'.
Proof.
  intros (Hq & Hother & Hown & Hprog & Hlim & Hexit & Hwait) Hstep.
  destruct q; cbn in Hq; try discriminate; cbn in Hstep.
  - injection Hstep as <- <-. split_and!; try done; [by destruct (running s)|].
    unfold limits. split_and!; [done|..]; destruct (running s) eqn:Hr; naive_solver.
  - rewrite Hother in Hstep. discriminate.
Qed.

Lemma inv_step c c' : inv c -> step c c' -> inv c'.
Proof.
  intros Hinv Hstep. destruct Hstep as [p1 p2 s p1' s' Hs|p1 p2 s p2' s' Hs]; destruct Hinv as [Hi|Hi].
  - destruct (inv_active _ _ _ _ _ _ Hi Hs); [by left|by right].
  - right. by eapply (inv_passive false).
  - left. by eapply (inv_passive true).
  - destruct (inv_active _ _ _ _ _ _ Hi Hs); [by right|by left].
Qed.

Lemma inv_start : inv start.
Proof. left. split_and!; try done. by exists 0%nat. Qed.

Definition reachable (c : config) : Prop := rtc step start c.

Lemma inv_reachable c : reachable c -> inv c.
Proof.
  intros Hr. unfold reachable in Hr. remember start as c0 eqn:E.
  assert (inv c0) as Hinv by (subst; apply inv_start). clear E.
  induction Hr as [|c0 c1 c2 Hstep _ IH]; [done|]. by apply IH, (inv_step c0).
Qed.

Lemma inv_printed one p q s : inv_turn one p q s -> exists n, printed s = turns n /\ Z.of_nat n <= counter s <= Z.of_nat n + 1.
Proof. intros (_ & _ & _ & (n & -> & Hn) & _). exists n. split; [done|]. destruct p; lia. Qed.

(** C29: in every state that the two threads can reach, however they are
    interleaved, at most one of them is between its wait and its signal, and
    the lines printed so far are "1: 1", "2: 2", "1: 3", ... in turn, with no
    number lost, doubled or out of order. *)
Theorem thread_alternates p1 p2 s :
  reachable (p1, p2, s) ->
  critical p1 && critical p2 = false /\ printed s = turns (length (printed s)) /\ counter s <= 101.
Proof.
  intros Hr. apply inv_reachable in Hr as [Hi|Hi]; pose proof Hi as (Hc & _ & _ & _ & Hlim & _);
    (split; [by rewrite Hc, ?andb_false_r|]);
    destruct (inv_printed _ _ _ _ Hi) as (n & Hp & _);
    (split; [rewrite Hp; f_equal; unfold turns; by rewrite length_map, length_seq|]);
    [destruct p1|destruct p2]; destruct (running s); lia.
Qed.

(** C30: the program never deadlocks: as long as a thread has not exited some
    thread can move; and when both have exited the counter is 100 or 101 and
    every number up to it was printed. *)
Theorem thread_progress p1 p2 s :
  reachable (p1, p2, s) ->
  (exists c, step (p1, p2, s) c) \/
  (p1 = Exited /\ p2 = Exited /\ (counter s = 100 \/ counter s = 101) /\
   printed s = turns (Z.to_nat (counter s))).
Proof.
  assert (forall one p q, inv_turn one p q s ->
    (exists p' s', A_step one p s = Some (p', s')) \/ (exists q' s', A_step (negb one) q s = Some (q', s')) \/
    (p = Exited /\ q = Exited /\ (counter s = 100 \/ counter s = 101) /\
     printed s = turns (Z.to_nat (counter s)))) as Hmove.
  { intros one p q (Hq & _ & Hown & (n & Hprint & Hprog) & Hlim & Hexit & Hwait).
    destruct p; try (left; do 2 eexists; reflexivity).
    - left. cbn. rewrite Hown. cbn. eauto.
    - destruct Hlim as [Hr Hc]. right. destruct q; try discriminate.
      + left. do 2 eexists. reflexivity.
      + naive_solver.
      + right. split_and!; try done. rewrite Hprint. f_equal. lia. }
  intros Hr. apply inv_reachable in Hr as [Hi|Hi]; apply Hmove in Hi as [(p' & s' & H)|[(p' & s' & H)|H]].
  - left. eexists. by apply step1.
  - left. eexists. by apply step2.
  - right. tauto.
  - left. eexists. by apply step2.
  - left. eexists. by apply step1.
  - right. tauto.
Qed.

(** ** Termination *)

(** The steps that a thread has still to make before its next increment. *)
Definition rank (p : pc) : Z :=
  match p with
  | AtTest => 8 | AtStop => 7 | AtPrint => 6 | AtSignal => 5
  | AtCheck => 4 | AtWait => 3 | AtLoad => 2 | AtStore _ => 1 | Exited => 0
  end.
Definition measure (c : config) : Z :=
  let '(p1, p2, s) := c in 8 * (102 - counter s) + rank p1 + rank p2.

Lemma measure_step c c' : inv c -> step c c' -> 0 <= measure c' < measure c.
Proof.
  intros Hinv Hstep. pose proof (inv_step _ _ Hinv Hstep) as Hinv'.
  assert (0 <= measure c') as Hpos.
  { destruct c' as [[p1 p2] s]. unfold measure.
    assert (counter s <= 101) by
      (destruct Hinv' as [(_ & _ & _ & _ & Hl & _)|(_ & _ & _ & _ & Hl & _)];
       [destruct p1|destruct p2]; destruct (running s); lia).
    destruct p1, p2; cbn [rank]; lia. }
  split; [done|].
  assert (forall one p q s p' s', inv_turn one p q s \/ inv_turn (negb one) q p s ->
    A_step one p s = Some (p', s') ->
    8 * (102 - counter s') + rank p' < 8 * (102 - counter s) + rank p) as Hdec.
  { intros one p q s p' s' Hi Hs. destruct p; cbn in Hs; try discriminate;
      try (injection Hs as <- <-; cbn; lia).
    - injection Hs as <- <-. destruct (running s); cbn; lia.
    - destruct (0 <? own one s); [|discriminate]. injection Hs as <- <-. destruct one; cbn; lia.
    - injection Hs as <- <-. destruct Hi as [(_ & _ & _ & (n & _ & Hc & _ & ->) & _)|(Hc & _)]; [|discriminate].
      cbn. lia.
    - injection Hs as <- <-. destruct (100 <=? counter s); cbn; lia.
    - injection Hs as <- <-. destruct one; cbn; lia. }
  destruct Hstep as [p1 p2 s p1' s' Hs|p1 p2 s p2' s' Hs]; unfold measure.
  - pose proof (Hdec _ _ p2 _ _ _ Hinv Hs). lia.
  - destruct Hinv as [Hi|Hi]; [pose proof (Hdec false _ p1 _ _ _ (or_intror Hi) Hs)
      |pose proof (Hdec false _ p1 _ _ _ (or_introl Hi) Hs)]; lia.
Qed.

(** every run of the two threads is finite, whatever the scheduler does:
    after at most 824 steps both have exited. *)
Theorem thread_terminates n c : nsteps step n start c -> (n <= 824)%nat.
Proof.
  intros Hn. assert (forall c0, inv c0 -> nsteps step n c0 c ->
    Z.of_nat n <= measure c0 - measure c /\ inv c) as H.
  { clear Hn. induction n as [|n IH]; intros c0 Hi Hs.
    - inversion Hs; subst. split; [lia|done].
    - inversion Hs as [|? ? c1 ? Hstep Hs']; subst.
      pose proof (measure_step _ _ Hi Hstep). pose proof (inv_step _ _ Hi Hstep) as Hi1.
      destruct (IH c1 Hi1 Hs'). split; [lia|done]. }
  destruct (H start inv_start Hn) as [Hle Hi].
  assert (0 <= measure c).
  { destruct c as [[p1 p2] s]. unfold measure.
    assert (counter s <= 101) by
      (destruct Hi as [(_ & _ & _ & _ & Hl & _)|(_ & _ & _ & _ & Hl & _)];
       [destruct p1|destruct p2]; destruct (running s); lia).
    destruct p1, p2; cbn [rank]; lia. }
  cbn in Hle. lia.
Qed.

(** ** A concrete run, by a scheduler that prefers thread 1 *)
Fixpoint run (n : nat) (c : config) : config :=
  match n with
  | O => c
  | S n' =>
      let '(p1, p2, s) := c in
      match A_step true p1 s with
      | Some (p1', s') => run n' (p1', p2, s')
      | None => match A_step false p2 s with
                | Some (p2', s') => run n' (p1, p2', s')
                | None => c
                end
      end
  end.

Lemma run_steps n c : exists k, nsteps step k c (run n c) /\ (k <= n)%nat.
Proof.
  revert c. induction n as [|n IH]; intros [[p1 p2] s]; cbn [run]; [exists 0%nat; split; [constructor|lia]|].
  destruct (A_step true p1 s) as [[p1' s']|] eqn:E1;
    [|destruct (A_step false p2 s) as [[p2' s']|] eqn:E2; [|exists 0%nat; split; [constructor|lia]]].
  - destruct (IH (p1', p2, s')) as (k & Hk & Hle). exists (S k). split; [|lia].
    econstructor; [by apply step1|done].
  - destruct (IH (p1, p2', s')) as (k & Hk & Hle). exists (S k). split; [|lia].
    econstructor; [by apply step2|done].
Qed.

Lemma run_reachable n : reachable (run n start).
Proof. destruct (run_steps n start) as (k & Hk & _). apply rtc_nsteps. eauto. Qed.

Lemma thread_alternates_witness :
  exists p1 p2 s, reachable (p1, p2, s) /\ printed s = [(1, 1); (2, 2); (1, 3)] /\
    critical p1 && critical p2 = false.
Proof.
  destruct (run 24 start) as [[p1 p2] s] eqn:E. exists p1, p2, s.
  assert (reachable (p1, p2, s)) as Hr by (rewrite <- E; apply run_reachable).
  split; [exact Hr|]. destruct (thread_alternates p1 p2 s Hr) as (Hc & Hp & _). split; [|exact Hc].
  rewrite Hp. vm_compute in E. injection E as <- <- <-. reflexivity.
Defined.

Lemma thread_progress_witness :
  exists p1 p2 s, reachable (p1, p2, s) /\ p1 = Exited /\ p2 = Exited /\ printed s = turns 101.
Proof.
  destruct (run 900 start) as [[p1 p2] s] eqn:E. exists p1, p2, s.
  assert (reachable (p1, p2, s)) as Hr by (rewrite <- E; apply run_reachable).
  vm_compute in E. injection E as <- <- <-. split; [exact Hr|].
  destruct (thread_progress _ _ _ Hr) as [[c Hs]|(H1 & H2 & _ & Hp)].
  - inversion Hs; subst; discriminate.
  - split; [reflexivity|]. split; [reflexivity|]. exact Hp.
Defined.

Lemma thread_terminates_witness : exists k c, nsteps step k start c /\ c.1.1 = Exited /\ (k <= 824)%nat.
Proof.
  destruct (run_steps 900 start) as (k & Hk & _). exists k, (run 900 start).
  split; [exact Hk|]. split; [vm_compute; reflexivity|]. exact (thread_terminates k _ Hk).
Defined.
