(* ===== verification/Programs.v ===== *)
(** * Programs: src/user/echo, src/user/sleep, src/user/hlt, and the main of
    src/user/thread

    The small programs that run beside the shell, as sequences of library and
    system calls.  (What the threads that thread.c starts do to each other is
    in Thread.v.) *)
From S2P Require Import Prelude Mem CString Strtol Printf Stdio UserLib.
From S2P Require UserCopies.

(** ** Definitions *)
Section programs.
Context {W : Type} `{Trap W}.
Variable lit : string -> Z.
(** The array in vfprintf's frame. *)
Variable buffer : Z.
Abbreviation io := (prog (mem * W)).

(** *** echo.c *)

(** The loop from [i] on; [n] is [argc - i]. *)
Fixpoint echo_loop (n : nat) (i argc argv : Z) : io unit :=
  match n with
  | O => mret tt
  | S n' =>
      a ← on_mem (load32 (argv + 4 * i));
      printf buffer (lit "%s%s") [a; if i + 1 =? argc then lit "" else lit " "];;
      echo_loop n' (i + 1) argc argv
  end.

Definition echo_main (argc argv : Z) : io Z :=
  echo_loop (Z.to_nat (argc - 1)) 1 argc argv;; puts lit (lit "");; mret 0.

(** *** sleep.c *)
Variable sec_addr : Z.

Definition sleep_main (argc argv : Z) : io Z :=
  (if negb (argc =? 2) then
     a ← on_mem (load32 argv);
     fprintf buffer 2 (lit "Usage: %s <seconds>
") [a];; exit 1
   else mret tt);;
  waitfd ← open (lit ":SLEEP");
  a ← on_mem (load32 (argv + 4));
  r ← on_mem (UserCopies.strtol a 0 10);
  on_mem (store32 sec_addr (s32 (r * 1000)));;
  write waitfd sec_addr 4;;
  read waitfd 0 0;;
  printf buffer (lit "awaked
") [];;
  mret 0.

(** *** hlt.c: the parent idles for ever, here [fuel] times *)
Fixpoint hlt_loop (fuel : nat) : io unit :=
  match fuel with
  | O => pnofuel
  | S fuel' => syscall SYSCALL_HIDDEN_HLT 0 0 0 0 0;; hlt_loop fuel'
  end.

Definition hlt_main (fuel : nat) (argc argv : Z) : io Z :=
  pid ← fork;
  (if negb (pid =? 0) then hlt_loop fuel
   else a ← on_mem (load32 argv); exec a argv;; exit 0);;
  mret 0.

(** *** thread.c: the structures and threads that main sets up *)
Variables (info1 info2 running_addr A_addr pid1_addr pid2_addr result_addr : Z).

Definition thread_main (argc argv : Z) : io Z :=
  sem1 ← sem_create 1;
  sem2 ← sem_create 0;
  fd_wait ← open (lit ":WAITPID");
  on_mem (store32 info1 sem1;; store32 (info1 + 4) sem2;; store32 (info1 + 8) 1;;
          store32 info2 sem2;; store32 (info2 + 4) sem1;; store32 (info2 + 8) 2;;
          store32 running_addr 1);;
  pid1 ← thread A_addr info1; on_mem (store32 pid1_addr pid1);;
  pid2 ← thread A_addr info2; on_mem (store32 pid2_addr pid2);;
  write fd_wait pid1_addr 4;; read fd_wait result_addr 4;;
  write fd_wait pid2_addr 4;; read fd_wait result_addr 4;;
  mret 0.
End programs.

(** ** echo *)

(** The words separated by single spaces. *)
Fixpoint join (ts : list (list Z)) : list Z :=
  match ts with
  | [] => []
  | [t] => t
  | t :: ts => t ++ [32] ++ join ts
  end.

(** What echo writes after an argument that [ts] follow. *)
Definition after (ts : list (list Z)) : list Z := match ts with [] => [] | _ => [32] end.

Lemma render_two str a b ta tb :
  urange 32 a -> urange 32 b -> a <> 0 -> b <> 0 -> str a = Some ta -> str b = Some tb ->
  render_format str (chars "%s%s") [a; b] = Some (ta ++ tb).
Proof.
  intros Ha Hb Ha0 Hb0 Hta Htb. change (chars "%s%s") with [37; 115; 37; 115]. rewrite <- (app_nil_r tb).
  do 2 (apply item_s; [done..|]). done.
Qed.

Section echo.
Context {W : Type} `{Trap W} (lit : string -> Z) (buffer : Z) (emit : W -> list Z -> W).
(** The terminal appends what it is sent. *)
Context (emit_nil : forall x, emit x [] = x).
Context (emit_app : forall x a b, emit (emit x a) b = emit x (a ++ b)).

(** The strings of the program: its arguments [ts] at [ps], pointed to by
    [argv], and its literals, all away from the buffer. *)
Record echo_memory (str : Z -> option (list Z)) (m : mem) (argv : Z) (ps : list Z)
    (ts : list (list Z)) : Prop := {
  em_buffer : mapped m buffer 128;
  em_strings : strings_ok str m buffer 128;
  em_argv : words_at m argv ps;
  em_argv_away : argv + 4 * Z.of_nat (length ps) <= buffer \/ buffer + 128 <= argv;
  em_args : Forall2 (fun p t => str p = Some t /\ p <> 0 /\ (length t <= 126)%nat) ps ts;
  em_format : str (lit "%s%s") = Some (chars "%s%s") /\ urange 32 (lit "%s%s");
  em_empty : str (lit "") = Some [] /\ urange 32 (lit "") /\ lit "" <> 0;
  em_space : str (lit " ") = Some [32] /\ urange 32 (lit " ") /\ lit " " <> 0;
  em_newline : str (lit "
") = Some [10] /\ urange 32 (lit "
")
}.

Lemma strings_ok_formatted str m out :
  strings_ok str m buffer 128 -> strings_ok str (formatted m buffer out) buffer 128.
Proof.
  intros Hs p s Hp. destruct (Hs p s Hp) as (Hc & Hl & Ha). split_and!; [|done..].
  destruct Hc as [Hch Hb]. split; [done|]. rewrite bytes_at_lookup in Hb |- *.
  intros i b Hi. rewrite <- (Hb i b Hi). pose proof (lookup_lt_Some _ _ _ Hi) as Hlt.
  rewrite length_app in Hlt. cbn [length] in Hlt. apply formatted_outside. lia.
Qed.

Lemma echo_memory_formatted str m argv ps ts out :
  echo_memory str m argv ps ts -> echo_memory str (formatted m buffer out) argv ps ts.
Proof.
  intros []. split; try done.
  - by apply mapped_write.
  - by apply strings_ok_formatted.
  - intros i v Hi. destruct (em_argv0 i v Hi) as [Hv Hb]. split; [done|].
    rewrite bytes_at_lookup in Hb |- *. intros j b Hj. rewrite <- (Hb j b Hj).
    apply lookup_lt_Some in Hi, Hj. cbn [length le32] in Hj. apply formatted_outside. lia.
Qed.

(** One argument and what follows it. *)
Lemma echo_printf str m argv ps ts x a b ta tb :
  echo_memory str m argv ps ts -> fd_console emit 1 -> urange 32 buffer ->
  urange 32 a -> urange 32 b -> a <> 0 -> b <> 0 -> str a = Some ta -> str b = Some tb ->
  (length ta + length tb <= 127)%nat ->
  printf buffer (lit "%s%s") [a; b] (m, x) =
  Ret (Z.of_nat (length (ta ++ tb)), (formatted m buffer (ta ++ tb), emit x (ta ++ tb))).
Proof.
  intros [] Hcon Hbuf Ha Hb Ha0 Hb0 Hta Htb Hlen.
  assert (length (ta ++ tb) <= 127)%nat as Hlen' by (rewrite length_app; lia).
  assert (Forall is_char (ta ++ tb)) as Hch.
  { apply Forall_app. destruct (em_strings0 _ _ Hta) as ([? _] & _).
    by destruct (em_strings0 _ _ Htb) as ([? _] & _). }
  assert (printable m buffer (lit "%s%s") [a; b] (ta ++ tb)) as Hpr.
  { destruct em_format0 as [Hf _]. destruct (em_strings0 _ _ Hf) as (Hc & _ & Haway).
    exists str, (chars "%s%s"). split_and!; try done.
    - do 2 (constructor; [done|]). constructor.
    - by apply render_two.
    - lia. }
  unfold printf, vfprintf. rewrite (vfprintf_with_spec _ _ _ _ _ _ _ _ Hpr).
  pose proof (fputs_fd_console emit buffer _ 1 _ x Hcon (formatted_cstr m buffer _ Hch) Hbuf) as Hrun.
  rewrite (take_ge _ _ Hlen') in Hrun. apply Hrun. lia.
Qed.

Lemma echo_loop_spec str done_ rest ts1 ts2 m argv x :
  echo_memory str m argv (done_ ++ rest) (ts1 ++ ts2) -> length ts1 = length done_ ->
  fd_console emit 1 -> urange 32 buffer ->
  exists m', echo_loop lit buffer (length rest) (Z.of_nat (length done_))
      (Z.of_nat (length (done_ ++ rest))) argv (m, x) =
    Ret (tt, (m', emit x (join ts2))) /\ echo_memory str m' argv (done_ ++ rest) (ts1 ++ ts2).
Proof.
  intros Hm Hlen Hcon Hbuf. revert done_ ts1 ts2 m x Hm Hlen.
  induction rest as [|p rest IH]; intros done_ ts1 ts2 m x Hm Hlen.
  - exists m. pose proof (Forall2_length (em_args _ _ _ _ _ Hm)) as Hl. rewrite !length_app in Hl.
    cbn [length] in Hl. destruct ts2; [|cbn [length] in Hl; lia]. cbn. by rewrite emit_nil.
  - pose proof (em_args _ _ _ _ _ Hm) as Hargs.
    apply (Forall2_drop _ _ _ (length done_)) in Hargs. rewrite <- Hlen in Hargs at 2.
    rewrite !drop_app_length in Hargs.
    destruct ts2 as [|t ts2]; [by inversion Hargs|].
    apply list.Forall2_cons in Hargs as [(Hp & Hp0 & Ht) Hargs].
    pose proof (Forall2_length Hargs) as Hl2.
    cbn [length echo_loop].
    assert (word_at m (argv + 4 * Z.of_nat (length done_)) p) as Hw.
    { apply (em_argv _ _ _ _ _ Hm). by rewrite lookup_app_r, Nat.sub_diag by lia. }
    rewrite (bind_Ret _ _ _ _ _ (on_mem_Ret _ _ x _ _ (load32_at _ _ _ Hw))).
    set (sep := if Z.of_nat (length done_) + 1 =? Z.of_nat (length (done_ ++ p :: rest))
                then lit "" else lit " ").
    assert (str sep = Some (after ts2) /\ urange 32 sep /\ sep <> 0) as (Hsep & Hsr & Hs0).
    { unfold sep. rewrite length_app. cbn [length]. destruct ts2; cbn [length] in Hl2; case_cmp; try lia.
      - apply (em_empty _ _ _ _ _ Hm).
      - apply (em_space _ _ _ _ _ Hm). }
    rewrite (bind_Ret _ _ _ _ _ (echo_printf str m argv _ _ x p sep t _ Hm Hcon Hbuf (proj1 Hw) Hsr Hp0 Hs0
      Hp Hsep ltac:(destruct ts2; cbn [length after]; lia))).
    destruct (IH (done_ ++ [p]) (ts1 ++ [t]) ts2
      (formatted m buffer (t ++ (after ts2))) (emit x (t ++ (after ts2))))
      as (m' & Hrun & Hm').
    { rewrite <- !app_assoc. by apply echo_memory_formatted. }
    { rewrite !length_app. cbn [length]. lia. }
    rewrite <- !app_assoc in Hm'. rewrite <- app_assoc in Hrun. cbn [app] in Hm', Hrun.
    exists m'. split; [|done].
    rewrite !length_app in Hrun. cbn [length] in Hrun. rewrite !length_app. cbn [length].
    replace (Z.of_nat (length done_ + 1)) with (Z.of_nat (length done_) + 1) in Hrun by lia.
    rewrite Hrun. do 3 f_equal. rewrite emit_app. f_equal.
    destruct ts2; cbn [join after]; [by rewrite !app_nil_r|by rewrite <- app_assoc].
Qed.

(** echo writes its arguments to standard output, separated by single
    spaces and ended by a newline, and returns 0 (for arguments of at most
    126 characters; the kernel passes at most 19 of each). *)
Theorem echo_correct str m argv p0 ps t0 ts (x : W) :
  echo_memory str m argv (p0 :: ps) (t0 :: ts) -> fd_console emit 1 -> urange 32 buffer ->
  exists m', echo_main lit buffer (1 + Z.of_nat (length ps)) argv (m, x) =
    Ret (0, (m', emit x (join ts ++ [10]))).
Proof.
  intros Hm Hcon Hbuf. unfold echo_main.
  destruct (echo_loop_spec str [p0] ps [t0] ts m argv x Hm eq_refl Hcon Hbuf) as (m' & Hrun & Hm').
  cbn [app length] in Hrun.
  replace (Z.to_nat (1 + Z.of_nat (length ps) - 1)) with (length ps) by lia.
  replace (Z.of_nat (S (length ps))) with (1 + Z.of_nat (length ps)) in Hrun by lia.
  rewrite (bind_Ret _ _ _ _ _ Hrun).
  exists m'. unfold puts. prog_norm.
  destruct (em_empty _ _ _ _ _ Hm') as (He & Her & _). destruct (em_newline _ _ _ _ _ Hm') as (Hn & Hnr).
  destruct (em_strings _ _ _ _ _ Hm' _ _ He) as (Hec & Hel & _).
  destruct (em_strings _ _ _ _ _ Hm' _ _ Hn) as (Hnc & Hnl & _).
  rewrite (bind_Ret _ _ _ _ _ (fputs_fd_console emit _ _ _ _ _ Hcon Hec Her Hel)), emit_nil. prog_norm.
  rewrite (bind_Ret _ _ _ _ _ (fputs_fd_console emit _ _ _ _ _ Hcon Hnc Hnr Hnl)), emit_app. done.
Qed.
End echo.

(** ** A concrete run of echo *)

(** The strings of a table of addresses. *)
Definition str_of (l : list (Z * list Z)) (p : Z) : option (list Z) :=
  (list_to_map l : gmap Z (list Z)) !! p.

Lemma strings_ok_table l m buf n :
  Forall (fun '(p, s) => cstr_at m p s /\ Z.of_nat (length s) < 2 ^ 31 /\
            (p + Z.of_nat (length s) < buf \/ buf + n <= p)) l ->
  strings_ok (str_of l) m buf n.
Proof.
  intros Hl p s Hp. unfold str_of in Hp. apply elem_of_list_to_map_2 in Hp.
  rewrite list.Forall_forall in Hl. exact (Hl _ Hp).
Qed.

Definition echo_table : list (Z * list Z) :=
  [(1000, chars "%s%s"); (1100, []); (1200, [32]); (1300, [10]); (1400, chars "echo");
   (1500, chars "one"); (1600, chars "two")].
Definition echo_lit (s : string) : Z :=
  if String.eqb s "%s%s" then 1000 else if String.eqb s "" then 1100
  else if String.eqb s " " then 1200 else 1300.
Definition echo_example : mem :=
  mem_of (map (fun '(p, s) => (p, s ++ [0])) echo_table ++
          [(2000, replicate 128 1); (3000, le32s [1400; 1500; 1600])]).

Lemma echo_correct_witness :
  exists m', @echo_main _ text_trap echo_lit 2000 3 3000 (echo_example, []) =
    Ret (0, (m', chars "one two
")).
Proof.
  assert (@fd_console _ text_trap app 1) as Hcon.
  { split; [unfold urange; lia|]. intros a l m x Hb _ _. exact (log_console a l m x Hb). }
  assert (echo_memory echo_lit 2000 (str_of echo_table) echo_example 3000 [1400; 1500; 1600]
    [chars "echo"; chars "one"; chars "two"]) as Hm.
  { split.
    - mem_compute.
    - apply strings_ok_table. unfold echo_table.
      repeat (apply List.Forall_cons; [split; [mem_compute|split; [reflexivity|left; reflexivity]]|]).
      apply List.Forall_nil.
    - intros i v Hi. do 3 (destruct i as [|i]; [injection Hi as <-; mem_compute|]). done.
    - right. simpl. lia.
    - repeat constructor; (reflexivity || discriminate || simpl; lia).
    - split; [reflexivity|unfold urange, echo_lit; simpl; lia].
    - split; [reflexivity|split; [unfold urange, echo_lit; simpl; lia|discriminate]].
    - split; [reflexivity|split; [unfold urange, echo_lit; simpl; lia|discriminate]].
    - split; [reflexivity|unfold urange, echo_lit; simpl; lia]. }
  destruct (@echo_correct _ text_trap echo_lit 2000 app (@app_nil_r Z)
    (fun x a b => eq_sym (app_assoc x a b)) (str_of echo_table) echo_example 3000 1400 [1500; 1600]
    (chars "echo") [chars "one"; chars "two"] [] Hm Hcon ltac:(unfold urange; lia)) as (m' & Hrun).
  exists m'. exact Hrun.
Defined.
