(* ===== verification/IntDiv.v ===== *)
(** * IntDiv: the division routines of src/compile-rt-builtins

    The i386 has no 64-bit division: every [/] and [%] on a 64-bit integer in
    the kernel (printf's digits, for one) is a call of these routines, which
    are linked into the kernel and into the user library.  A word has [w]
    bits; the routines of the source are the instances at 32 and 64, as the
    types su_int and du_int are in the C text. *)
From S2P Require Import Prelude.

(** ** Definitions *)

(** Shifts of an unsigned [w]-bit integer. *)
Definition shlu (w a n : Z) : Z := wrap w (Z.shiftl a n).
Definition shru (a n : Z) : Z := Z.shiftr a n.

(** The builtins [__builtin_clz] and [__builtin_ctz] of a non-zero argument. *)
Definition clz (w a : Z) : Z := w - 1 - Z.log2 a.
Definition ctz (a : Z) : Z := Z.log2 (Z.land a (- a)).

(** *** int_div_impl.inc *)

(** The [for (; sr > 0; --sr)] of __udivXi3 and __umodXi3: [(r, n, carry)]. *)
Fixpoint div_loop (sr : nat) (N d r n carry : Z) : Z * Z * Z :=
  match sr with
  | O => (r, n, carry)
  | S sr' =>
      let r := Z.lor (shlu N r 1) (shru n (N - 1)) in
      let n := Z.lor (shlu N n 1) carry in
      let s := Z.shiftr (sgn N (d - r - 1)) (N - 1) in
      let carry := wrap N (Z.land s 1) in
      let r := wrap N (r - Z.land d (wrap N s)) in
      div_loop sr' N d r n carry
  end.

Definition div_shift (N n d : Z) : Z :=
  u32 ((if d =? 0 then N else clz N d) - (if n =? 0 then N else clz N n)).

Definition __udivXi3 (N n d : Z) : Z :=
  let sr := div_shift N n d in
  if N - 1 <? sr then 0
  else if sr =? N - 1 then n
  else
    let sr := sr + 1 in
    let '(_, n, carry) := div_loop (Z.to_nat sr) N d (shru n sr) (shlu N n (N - sr)) 0 in
    Z.lor (shlu N n 1) carry.

Definition __umodXi3 (N n d : Z) : Z :=
  let sr := div_shift N n d in
  if N - 1 <? sr then n
  else if sr =? N - 1 then 0
  else
    let sr := sr + 1 in
    let '(r, _, _) := div_loop (Z.to_nat sr) N d (shru n sr) (shlu N n (N - sr)) 0 in r.

Definition __udivsi3 (a b : Z) : Z := __udivXi3 32 a b.
Definition __umodsi3 (a b : Z) : Z := __umodXi3 32 a b.
Definition __udivdi3 (a b : Z) : Z := __udivXi3 64 a b.
Definition __umoddi3 (a b : Z) : Z := __umodXi3 64 a b.

(** *** udivmoddi4.c *)

(** The union udwords: the words of a [2w]-bit integer. *)
Definition low (w a : Z) : Z := wrap w a.
Definition high (w a : Z) : Z := wrap w (Z.shiftr a w).
Definition all (w h l : Z) : Z := h * 2 ^ w + l.

(** The main loop; [(q.s.high, q.s.low, r.s.high, r.s.low, carry)]. *)
Fixpoint udivmod_loop (sr : nat) (w d qh ql rh rl carry : Z) : Z * Z * Z * Z * Z :=
  match sr with
  | O => (qh, ql, rh, rl, carry)
  | S sr' =>
      let rh := Z.lor (shlu w rh 1) (shru rl (w - 1)) in
      let rl := Z.lor (shlu w rl 1) (shru qh (w - 1)) in
      let qh := Z.lor (shlu w qh 1) (shru ql (w - 1)) in
      let ql := Z.lor (shlu w ql 1) carry in
      let s := Z.shiftr (sgn (2 * w) (d - all w rh rl - 1)) (2 * w - 1) in
      let carry := wrap w (Z.land s 1) in
      let r := wrap (2 * w) (all w rh rl - Z.land d (wrap (2 * w) s)) in
      udivmod_loop sr' w d qh ql (high w r) (low w r) carry
  end.

(** The part after the special cases, and the result [(quotient, rem)]. *)
Definition udivmod_finish (w d sr qh ql rh rl : Z) : Z * Z :=
  let '(qh, ql, rh, rl, carry) := udivmod_loop (Z.to_nat sr) w d qh ql rh rl 0 in
  (Z.lor (shlu (2 * w) (all w qh ql) 1) carry, all w rh rl).

(** [d.s.low == 0] and [n.s.high != 0]. *)
Definition udivmod_low_0 (w a b : Z) : Z * Z :=
  let nh := high w a in let nl := low w a in let dh := high w b in let dl := low w b in
  (* dl is 0 here: the machine's division traps *)
  if dh =? 0 then (nh / dl, nh mod dl)
  else if nl =? 0 then (nh / dh, all w (nh mod dh) 0)
  else if Z.land dh (dh - 1) =? 0 then (shru nh (ctz dh), all w (Z.land nh (dh - 1)) nl)
  else
    let sr := u32 (clz w dh - clz w nh) in
    if w - 2 <? sr then (0, a)
    else
      let sr := sr + 1 in
      udivmod_finish w b sr (shlu w nl (w - sr)) 0 (shru nh sr)
        (Z.lor (shlu w nh (w - sr)) (shru nl sr)).

(** [d.s.low != 0], [d.s.high == 0] and [n.s.high != 0]. *)
Definition udivmod_high_0 (w a b : Z) : Z * Z :=
  let nh := high w a in let nl := low w a in let dl := low w b in
  if Z.land dl (dl - 1) =? 0 then
    let rem := Z.land nl (dl - 1) in
    if dl =? 1 then (a, rem)
    else
      let sr := ctz dl in
      (all w (shru nh sr) (Z.lor (shlu w nh (w - sr)) (shru nl sr)), rem)
  else
    let sr := u32 (1 + w + clz w dl - clz w nh) in
    if sr =? w then udivmod_finish w b sr nl 0 0 nh
    else if sr <? w then
      udivmod_finish w b sr (shlu w nl (w - sr)) 0 (shru nh sr)
        (Z.lor (shlu w nh (w - sr)) (shru nl sr))
    else
      udivmod_finish w b sr (Z.lor (shlu w nh (2 * w - sr)) (shru nl (sr - w)))
        (shlu w nl (2 * w - sr)) 0 (shru nh (sr - w)).

(** [d.s.low != 0], [d.s.high != 0] and [n.s.high != 0]. *)
Definition udivmod_full (w a b : Z) : Z * Z :=
  let nh := high w a in let nl := low w a in let dh := high w b in
  let sr := u32 (clz w dh - clz w nh) in
  if w - 1 <? sr then (0, a)
  else
    let sr := sr + 1 in
    if sr =? w then udivmod_finish w b sr nl 0 0 nh
    else
      udivmod_finish w b sr (shlu w nl (w - sr)) 0 (shru nh sr)
        (Z.lor (shlu w nh (w - sr)) (shru nl sr)).

Definition udivmod (w a b : Z) : Z * Z :=
  if high w a =? 0 then
    if high w b =? 0 then (low w a / low w b, low w a mod low w b) else (0, low w a)
  else if low w b =? 0 then udivmod_low_0 w a b
  else if high w b =? 0 then udivmod_high_0 w a b
  else udivmod_full w a b.

Definition __udivmoddi4 (a b : Z) : Z * Z := udivmod 32 a b.

(** *** The signed routines *)
Definition sign_mask (w a : Z) : Z := Z.shiftr a (w - 1).

(** [(x ^ s) - s] computed in unsigned arithmetic. *)
Definition flip (w x s : Z) : Z := wrap w (wrap w (Z.lxor x s) + - s).

Definition __divXi3 (w : Z) (udiv : Z -> Z -> Z) (a b : Z) : Z :=
  let s_a := sign_mask w a in
  let s_b := sign_mask w b in
  let a_u := flip w a s_a in
  let b_u := flip w b s_b in
  let s_a := Z.lxor s_a s_b in
  sgn w (flip w (udiv a_u b_u) s_a).

Definition __modXi3 (w : Z) (umod : Z -> Z -> Z) (a b : Z) : Z :=
  let s := sign_mask w b in
  let b_u := flip w b s in
  let s := sign_mask w a in
  let a_u := flip w a s in
  sgn w (flip w (umod a_u b_u) s).

(** [COMPUTE_UDIV] of divsi3.c is the machine's 32-bit division. *)
Definition __divsi3 (a b : Z) : Z := __divXi3 32 Z.div a b.
Definition __divdi3 (a b : Z) : Z := __divXi3 64 (fun a b => fst (__udivmoddi4 a b)) a b.
Definition __moddi3 (a b : Z) : Z := __modXi3 64 (fun a b => snd (__udivmoddi4 a b)) a b.
Definition __modsi3 (a b : Z) : Z := s32 (a - __divsi3 a b * b).
Definition __udivmodsi4 (a b : Z) : Z * Z :=
  let d := s32 (__udivsi3 a b) in (u32 d, u32 (a - d * b)).

Definition divmod (w : Z) (udivmod : Z -> Z -> Z * Z) (a b : Z) : Z * Z :=
  let s_a := sign_mask w a in
  let s_b := sign_mask w b in
  let a := sgn w (Z.lxor a s_a - s_a) in
  let b := sgn w (Z.lxor b s_b - s_b) in
  let s_b := Z.lxor s_b s_a in
  let '(q, r) := udivmod (wrap w a) (wrap w b) in
  (sgn w (Z.lxor q (wrap w s_b) - s_b), sgn w (Z.lxor r (wrap w s_a) - s_a)).

Definition __divmodsi4 (a b : Z) : Z * Z := divmod 32 __udivmodsi4 a b.
Definition __divmoddi4 (a b : Z) : Z * Z := divmod 64 __udivmoddi4 a b.

(** ** The main loop *)
Lemma lor_carry N x c : 0 < N -> 0 <= c <= 1 -> Z.lor (shlu N x 1) c = (2 * x) mod 2 ^ N + c.
Proof.
  intros HN Hc. unfold shlu, wrap. rewrite Z.shiftl_mul_pow2, Z.pow_1_r, (Z.mul_comm x 2) by lia.
  assert (c = 0 \/ c = 1) as [-> | ->] by lia; [by rewrite Z.lor_0_r, Z.add_0_r|].
  assert (Z.land ((2 * x) mod 2 ^ N) 1 = 0) as H0.
  { change 1 with (Z.ones 1) at 1. rewrite Z.land_ones by lia.
    rewrite (pow2_half N HN), Zmult_mod_distr_l, Z.mul_comm, Z.pow_1_r. apply Z_mod_mult. }
  rewrite <- Z.lxor_lor by done. symmetry. by apply Z.add_nocarry_lxor.
Qed.

(** The branch-less comparison: all ones when [d <= r], and 0 otherwise. *)
Lemma div_mask N d r :
  0 < N -> 0 < d < 2 ^ N -> 0 <= r < 2 ^ N -> r < 2 * d -> d < 2 ^ (N - 1) \/ 2 ^ (N - 1) <= r ->
  Z.shiftr (sgn N (d - r - 1)) (N - 1) = if d <=? r then -1 else 0.
Proof.
  intros HN Hd Hr Hrd Hside. pose proof (pow2_half N HN) as Hp.
  rewrite sgn_small by (unfold srange; lia). rewrite Z.shiftr_div_pow2 by lia.
  case_cmp.
  - replace (d - r - 1) with (-1 * 2 ^ (N - 1) + (2 ^ (N - 1) + (d - r - 1))) by lia.
    rewrite Z.div_add_l, Z.div_small by lia. done.
  - by apply Z.div_small; lia.
Qed.

Lemma mod_pow2_split x s : 0 <= s -> x mod 2 ^ (s + 1) = x / 2 ^ s mod 2 * 2 ^ s + x mod 2 ^ s.
Proof.
  intros Hs. rewrite Z.pow_add_r, Z.pow_1_r by lia. rewrite Z.rem_mul_r by lia. lia.
Qed.

Lemma div_pow2_split x s : 0 <= s -> x / 2 ^ s = 2 * (x / 2 ^ (s + 1)) + x / 2 ^ s mod 2.
Proof.
  intros Hs. rewrite Z.pow_add_r, Z.pow_1_r, <- Z.div_div by lia.
  pose proof (Z.div_mod (x / 2 ^ s) 2). lia.
Qed.

(** The registers when [s] turns are left: [r] is the remainder of the leading
    digits of [n0], [q] holds the other digits and the quotient so far. *)
Definition div_inv (N d n0 s r q carry : Z) : Prop :=
  0 <= carry <= 1 /\ r = (n0 / 2 ^ s) mod d /\
  exists Q, q = n0 mod 2 ^ s * 2 ^ (N - s) + Q /\ 2 * Q + carry = n0 / 2 ^ s / d.

(** One turn, as arithmetic. *)
Lemma div_turn N d n0 s r q carry :
  0 < N -> 0 < d < 2 ^ N -> 0 <= n0 < 2 ^ N -> 0 <= s -> s + 1 <= N ->
  d < 2 ^ (N - 1) \/ (s = 0 /\ 2 ^ (N - 1) <= n0) ->
  div_inv N d n0 (s + 1) r q carry ->
  let r1 := Z.lor (shlu N r 1) (shru q (N - 1)) in
  let q1 := Z.lor (shlu N q 1) carry in
  let m := Z.shiftr (sgn N (d - r1 - 1)) (N - 1) in
  0 <= r1 < 2 ^ N /\
  (m = 0 \/ m = -1) /\
  div_inv N d n0 s (wrap N (r1 - Z.land d (wrap N m))) q1 (wrap N (Z.land m 1)).
Proof.
  intros HN Hd Hn Hs HsN Hside (Hc & -> & Q & Hq & HQ) r1 q1 m.
  set (R := n0 / 2 ^ (s + 1)) in *. set (b := n0 / 2 ^ s mod 2).
  assert (0 <= b <= 1) as Hb by (pose proof (Z.mod_pos_bound (n0 / 2 ^ s) 2); lia).
  assert (0 <= R < 2 ^ (N - (s + 1))) as HR.
  { split; [apply Z.div_pos; lia|]. apply Z.div_lt_upper_bound; [lia|].
    rewrite <- Z.pow_add_r by lia. replace (s + 1 + (N - (s + 1))) with N by lia. lia. }
  pose proof (Z.mod_pos_bound R d ltac:(lia)) as Hr.
  pose proof (Z.mod_le R d ltac:(lia) ltac:(lia)) as HrR.
  assert (2 ^ N = 2 ^ (N - 1) * 2) as HpN.
  { rewrite (pow2_half N HN). lia. }
  assert (0 <= Q < 2 ^ (N - (s + 1))) as HQr.
  { assert (0 <= R / d <= R) by (split; [apply Z.div_pos; lia|apply Z.div_le_upper_bound; nia]). lia. }
  assert (2 ^ (N - s) = 2 * 2 ^ (N - (s + 1))) as HpNs
    by (rewrite <- Z.pow_succ_r by lia; f_equal; lia).
  assert (2 ^ (N - (s + 1)) * 2 ^ s = 2 ^ (N - 1)) as HpN1
    by (rewrite <- Z.pow_add_r by lia; f_equal; lia).
  pose proof (Z.mod_pos_bound n0 (2 ^ s) ltac:(lia)) as Hns.
  rewrite (mod_pow2_split n0 s Hs) in Hq. fold b in Hq.
  set (L := n0 mod 2 ^ s) in *.
  replace ((b * 2 ^ s + L) * 2 ^ (N - (s + 1)) + Q)
    with (b * 2 ^ (N - 1) + (L * 2 ^ (N - (s + 1)) + Q)) in Hq by nia.
  assert (0 <= L * 2 ^ (N - (s + 1)) + Q < 2 ^ (N - 1)) as Hrest by nia.
  assert (shru q (N - 1) = b) as Htop.
  { unfold shru. rewrite Hq, Z.shiftr_div_pow2 by lia. rewrite Z.div_add_l, Z.div_small by lia. lia. }
  assert (2 ^ (N - (s + 1)) <= 2 ^ (N - 1)) as Hple by (apply Z.pow_le_mono_r; lia).
  assert (r1 = 2 * (R mod d) + b) as Hr1.
  { unfold r1. rewrite Htop, lor_carry by lia. rewrite Z.mod_small by lia. done. }
  assert (q1 = L * 2 ^ (N - s) + (2 * Q + carry)) as Hq1.
  { unfold q1. rewrite Hq, lor_carry by lia.
    replace (2 * (b * 2 ^ (N - 1) + (L * 2 ^ (N - (s + 1)) + Q)))
      with (2 * (L * 2 ^ (N - (s + 1)) + Q) + b * 2 ^ N) by nia.
    rewrite Z_mod_plus_full, Z.mod_small by lia. nia. }
  assert (0 <= r1 < 2 ^ N) as Hr1r by lia.
  assert (m = if d <=? r1 then -1 else 0) as Hm.
  { apply div_mask; try lia. destruct Hside as [?|[-> Hbig]]; [by left|].
    destruct (Z.lt_ge_cases d (2 ^ (N - 1))); [by left|right].
    pose proof (div_pow2_split n0 0 ltac:(lia)) as Hsp. rewrite Z.pow_0_r, Z.div_1_r in Hsp.
    fold R in Hsp. assert (b = n0 mod 2) as Hb0 by (unfold b; by rewrite Z.pow_0_r, Z.div_1_r).
    assert (R mod d = R) by (apply Z.mod_small; lia). lia. }
  split; [done|]. split; [rewrite Hm; case_cmp; auto|].
  assert (n0 / 2 ^ s = d * (2 * (2 * Q + carry)) + r1) as Hn0.
  { rewrite (div_pow2_split n0 s Hs). fold R b. rewrite HQ, Hr1. pose proof (Z.div_mod R d). nia. }
  rewrite Hm. destruct (Z.leb_spec d r1).
  - assert (wrap N (Z.land (-1) 1) = 1) as -> by (apply wrap_small; unfold urange; cbn; lia).
    assert (Z.land d (wrap N (-1)) = d) as ->.
    { assert (wrap N (-1) = Z.ones N) as ->.
      { unfold wrap. rewrite Z.ones_equiv. symmetry. apply Z.mod_unique with (-1); lia. }
      rewrite Z.land_ones by lia. apply Z.mod_small. lia. }
    rewrite wrap_small by (unfold urange; lia).
    assert (n0 / 2 ^ s / d = 2 * (2 * Q + carry) + 1) as Hdiv
      by (symmetry; apply Z.div_unique with (r1 - d); lia).
    split; [lia|]. split; [apply Z.mod_unique with (2 * (2 * Q + carry) + 1); lia|].
    exists (2 * Q + carry). split; [done|lia].
  - change (Z.land 0 1) with 0.
    rewrite (wrap_small N 0), Z.land_0_r, Z.sub_0_r, wrap_small by (unfold urange; lia).
    assert (n0 / 2 ^ s / d = 2 * (2 * Q + carry)) as Hdiv
      by (symmetry; apply Z.div_unique with r1; lia).
    split; [lia|]. split; [apply Z.mod_unique with (2 * (2 * Q + carry)); lia|].
    exists (2 * Q + carry). split; [done|lia].
Qed.

Lemma div_inv_range N d n0 s r q carry :
  0 < N -> 0 < d < 2 ^ N -> 0 <= n0 < 2 ^ N -> 0 <= s <= N ->
  div_inv N d n0 s r q carry -> 0 <= r < 2 ^ N /\ 0 <= q < 2 ^ N.
Proof.
  intros HN Hd Hn Hs (Hc & -> & Q & -> & HQ).
  pose proof (Z.mod_pos_bound (n0 / 2 ^ s) d ltac:(lia)). split; [lia|].
  assert (0 <= n0 / 2 ^ s < 2 ^ (N - s)) as HR.
  { split; [apply Z.div_pos; lia|]. apply Z.div_lt_upper_bound; [lia|].
    rewrite <- Z.pow_add_r by lia. replace (s + (N - s)) with N by lia. lia. }
  assert (0 <= n0 / 2 ^ s / d <= n0 / 2 ^ s)
    by (split; [apply Z.div_pos; lia|apply Z.div_le_upper_bound; nia]).
  pose proof (Z.mod_pos_bound n0 (2 ^ s) ltac:(lia)).
  assert (2 ^ s * 2 ^ (N - s) = 2 ^ N) by (rewrite <- Z.pow_add_r by lia; f_equal; lia).
  nia.
Qed.

(** What the registers hold when the loop ends. *)
Lemma div_inv_end N d n0 r q carry :
  0 < N -> 0 < d < 2 ^ N -> 0 <= n0 < 2 ^ N -> div_inv N d n0 0 r q carry ->
  Z.lor (shlu N q 1) carry = n0 / d /\ r = n0 mod d.
Proof.
  intros HN Hd Hn (Hc & -> & Q & -> & HQ). rewrite Z.pow_0_r, Z.div_1_r in *.
  split; [|done]. rewrite Z.mod_1_r, Z.mul_0_l, Z.add_0_l, lor_carry by lia.
  assert (0 <= n0 / d <= n0) by (split; [apply Z.div_pos; lia|apply Z.div_le_upper_bound; nia]).
  rewrite Z.mod_small by lia. lia.
Qed.

(** The registers when the loop starts with [sr] turns. *)
Lemma div_inv_start N d n0 sr :
  0 < N -> 0 < d -> 0 <= n0 < 2 ^ N -> 0 <= sr <= N -> n0 / 2 ^ sr < d ->
  div_inv N d n0 sr (n0 / 2 ^ sr) (wrap N (n0 * 2 ^ (N - sr))) 0.
Proof.
  intros HN Hd Hn Hsr Hlt. assert (0 <= n0 / 2 ^ sr) by (apply Z.div_pos; lia).
  split; [lia|]. split; [by rewrite Z.mod_small|]. exists 0.
  rewrite (Z.div_small (n0 / 2 ^ sr)) by lia. split; [|done].
  unfold wrap. replace (2 ^ N) with (2 ^ sr * 2 ^ (N - sr))
    by (rewrite <- Z.pow_add_r by lia; f_equal; lia).
  rewrite Z.mul_mod_distr_r by lia. lia.
Qed.

(** The number of turns: one more than the difference of the numbers of
    digits, so that what is left of [n0] is less than [d]. *)
Lemma shift_lt n d : 0 < d -> 0 < n -> Z.log2 d <= Z.log2 n -> n / 2 ^ (Z.log2 n - Z.log2 d + 1) < d.
Proof.
  intros Hd Hn Hle. pose proof (Z.log2_spec d Hd) as [Hd1 _]. pose proof (Z.log2_spec n Hn) as [_ Hn2].
  pose proof (Z.log2_nonneg d).
  eapply Z.lt_le_trans; [|exact Hd1]. apply Z.div_lt_upper_bound; [lia|].
  rewrite <- Z.pow_add_r by lia. replace (_ + _) with (Z.succ (Z.log2 n)) by lia. done.
Qed.

(** With a divisor of full length there is a single turn. *)
Lemma shift_side N n d :
  0 < N -> 0 < d < 2 ^ N -> 0 < n < 2 ^ N -> Z.log2 d <= Z.log2 n ->
  d < 2 ^ (N - 1) \/ (Z.log2 n - Z.log2 d = 0 /\ 2 ^ (N - 1) <= n).
Proof.
  intros HN Hd Hn Hle. destruct (Z.lt_ge_cases d (2 ^ (N - 1))) as [|Hbig]; [by left|right].
  apply Z.log2_le_pow2 in Hbig; [|lia]. pose proof (Z.log2_lt_pow2 n N ltac:(lia)) as Hlog.
  split; [lia|]. apply Z.log2_le_pow2; lia.
Qed.

Section loop.
Variables (N d n0 : Z).
Hypotheses (HN : 0 < N) (Hd : 0 < d < 2 ^ N) (Hn : 0 <= n0 < 2 ^ N).

Lemma div_loop_spec sr r q carry :
  Z.of_nat sr <= N -> d < 2 ^ (N - 1) \/ ((sr <= 1)%nat /\ 2 ^ (N - 1) <= n0) ->
  div_inv N d n0 (Z.of_nat sr) r q carry ->
  let '(r', q', c') := div_loop sr N d r q carry in div_inv N d n0 0 r' q' c'.
Proof.
  revert r q carry. induction sr as [|sr IH]; intros r q carry Hle Hside Hinv; [done|].
  cbn [div_loop]. replace (Z.of_nat (S sr)) with (Z.of_nat sr + 1) in * by lia.
  edestruct (div_turn N d n0 (Z.of_nat sr)) as (_ & _ & Hturn);
    [lia|lia|lia|lia|lia|destruct Hside; [by left|right; split; [lia|tauto]]|exact Hinv|].
  apply IH; [lia|destruct Hside; [by left|right; split; [lia|tauto]]|exact Hturn].
Qed.
End loop.

(** ** __udivXi3 and __umodXi3 *)
Lemma log2_lt_width N a : 0 < a < 2 ^ N -> 0 <= Z.log2 a < N.
Proof. intros Ha. split; [apply Z.log2_nonneg|]. apply Z.log2_lt_pow2; lia. Qed.

Lemma div_shift_spec N n d :
  0 < N <= 2 ^ 31 -> 0 < d < 2 ^ N -> 0 < n < 2 ^ N ->
  div_shift N n d = u32 (Z.log2 n - Z.log2 d).
Proof.
  intros HN Hd Hn. unfold div_shift, clz. replace (d =? 0) with false by lia.
  replace (n =? 0) with false by lia. f_equal. lia.
Qed.

Section udivXi3.
Variables (N n d : Z).
Hypotheses (HN : 0 < N <= 2 ^ 31) (Hd : 0 < d < 2 ^ N) (Hn : 0 <= n < 2 ^ N).

(** The three ways out of the routines, and the registers in the third. *)
Lemma div_shift_cases :
  (N - 1 < div_shift N n d /\ n < d) \/
  (div_shift N n d = N - 1 /\ d = 1) \/
  (0 <= div_shift N n d < N - 1 /\
   let '(r, q, c) := div_loop (Z.to_nat (div_shift N n d + 1)) N d (shru n (div_shift N n d + 1))
     (shlu N n (N - (div_shift N n d + 1))) 0 in
   Z.lor (shlu N q 1) c = n / d /\ r = n mod d).
Proof.
  pose proof (log2_lt_width N d ltac:(lia)) as Hld.
  destruct (Z.eq_dec n 0) as [->|Hn0].
  { left. split; [|lia]. unfold div_shift, clz. replace (d =? 0) with false by lia. cbn [Z.eqb].
    assert (u32 (N - 1 - Z.log2 d - N) = 2 ^ 32 + (- 1 - Z.log2 d)) as ->.
    { symmetry. apply Z.mod_unique with (-1); lia. }
    lia. }
  pose proof (log2_lt_width N n ltac:(lia)) as Hln. rewrite div_shift_spec by lia.
  destruct (Z.lt_ge_cases (Z.log2 n) (Z.log2 d)) as [Hlt|Hge].
  { left. split; [|by apply Z.log2_lt_cancel].
    assert (u32 (Z.log2 n - Z.log2 d) = 2 ^ 32 + (Z.log2 n - Z.log2 d)) as ->.
    { symmetry. apply Z.mod_unique with (-1); lia. }
    lia. }
  rewrite wrap_small by (unfold urange; lia).
  destruct (Z.eq_dec (Z.log2 n - Z.log2 d) (N - 1)) as [E|E].
  { right. left. split; [done|]. assert (Z.log2 d = 0) as H0 by lia.
    apply Z.log2_null in H0. lia. }
  right. right. split; [lia|]. unfold shru, shlu.
  rewrite Z.shiftr_div_pow2, Z.shiftl_mul_pow2 by lia.
  pose proof (div_loop_spec N d n ltac:(lia) Hd Hn
    (Z.to_nat (Z.log2 n - Z.log2 d + 1)) (n / 2 ^ (Z.log2 n - Z.log2 d + 1))
    (wrap N (n * 2 ^ (N - (Z.log2 n - Z.log2 d + 1)))) 0) as Hloop.
  destruct (div_loop _ _ _ _ _ _) as [[r q] c]. apply div_inv_end; [lia..|].
  rewrite Z2Nat.id in Hloop by lia. apply Hloop; [lia| |].
  - destruct (shift_side N n d ltac:(lia) Hd ltac:(lia) ltac:(lia)) as [?|[? ?]]; [by left|right; lia].
  - apply div_inv_start; [lia..|]. apply shift_lt; lia.
Qed.

Lemma udivXi3_spec : __udivXi3 N n d = n / d.
Proof.
  unfold __udivXi3. destruct div_shift_cases as [[H1 H2]|[[H1 ->]|[H1 H2]]].
  - replace (N - 1 <? div_shift N n d) with true by lia. by rewrite Z.div_small by lia.
  - rewrite H1, Z.ltb_irrefl, Z.eqb_refl. by rewrite Z.div_1_r.
  - replace (N - 1 <? div_shift N n d) with false by lia.
    replace (div_shift N n d =? N - 1) with false by lia.
    destruct (div_loop _ _ _ _ _ _) as [[r q] c]. tauto.
Qed.

Lemma umodXi3_spec : __umodXi3 N n d = n mod d.
Proof.
  unfold __umodXi3. destruct div_shift_cases as [[H1 H2]|[[H1 ->]|[H1 H2]]].
  - replace (N - 1 <? div_shift N n d) with true by lia. by rewrite Z.mod_small by lia.
  - rewrite H1, Z.ltb_irrefl, Z.eqb_refl. by rewrite Z.mod_1_r.
  - replace (N - 1 <? div_shift N n d) with false by lia.
    replace (div_shift N n d =? N - 1) with false by lia.
    destruct (div_loop _ _ _ _ _ _) as [[r q] c]. tauto.
Qed.
End udivXi3.

(** ** __udivmoddi4: the loop on two words *)
Lemma lor_low x k y : 0 <= k -> 0 <= y < 2 ^ k -> Z.lor (x * 2 ^ k) y = x * 2 ^ k + y.
Proof.
  intros Hk Hy. assert (Z.land (x * 2 ^ k) y = 0) as H0.
  { rewrite <- Z.shiftl_mul_pow2 by lia. apply Z.bits_inj'. intros i Hi.
    rewrite Z.land_spec, Z.bits_0. destruct (Z.lt_ge_cases i k).
    - by rewrite Z.shiftl_spec_low by lia.
    - assert (Z.testbit y i = false) as ->; [|apply andb_false_r].
      destruct (Z.eq_dec y 0) as [->|]; [apply Z.bits_0|].
      apply Z.bits_above_log2; [lia|]. apply Z.log2_lt_pow2; [lia|].
      apply Z.lt_le_trans with (2 ^ k); [lia|]. apply Z.pow_le_mono_r; lia. }
  rewrite <- Z.lxor_lor by done. symmetry. by apply Z.add_nocarry_lxor.
Qed.

Section words.
Variable w : Z.
Hypothesis Hw : 0 < w.

Lemma pow_double : 2 ^ (2 * w) = 2 ^ w * 2 ^ w.
Proof. rewrite <- Z.pow_add_r by lia. f_equal. lia. Qed.

Lemma high_low a : 0 <= a < 2 ^ (2 * w) ->
  urange w (high w a) /\ urange w (low w a) /\ a = all w (high w a) (low w a) /\ high w a = a / 2 ^ w.
Proof.
  intros Ha. rewrite pow_double in Ha. unfold high, low, all.
  rewrite Z.shiftr_div_pow2 by lia.
  assert (0 <= a / 2 ^ w < 2 ^ w)
    by (split; [apply Z.div_pos; lia|apply Z.div_lt_upper_bound; lia]).
  rewrite (wrap_small w (a / 2 ^ w)) by done. split; [done|].
  split; [apply wrap_range; lia|]. split; [|done].
  unfold wrap. rewrite (Z.mul_comm _ (2 ^ w)). apply Z.div_mod. lia.
Qed.

Lemma all_range h l : urange w h -> urange w l -> 0 <= all w h l < 2 ^ (2 * w).
Proof. unfold urange, all. rewrite pow_double. nia. Qed.

Lemma high_all h l : urange w h -> urange w l -> high w (all w h l) = h /\ low w (all w h l) = l.
Proof.
  intros Hh Hl. unfold high, low, all, wrap, urange in *. rewrite Z.shiftr_div_pow2 by lia.
  rewrite Z.div_add_l, (Z.div_small l), Z.add_0_r, Z.mod_small by lia. split; [done|].
  rewrite Z.add_comm, Z_mod_plus_full, Z.mod_small; lia.
Qed.

Lemma top_digit x : urange w x -> 0 <= shru x (w - 1) <= 1 /\ 2 * x = shru x (w - 1) * 2 ^ w + (2 * x) mod 2 ^ w.
Proof.
  intros Hx. unfold urange, shru in *. pose proof (pow2_half w Hw) as Hp.
  rewrite Z.shiftr_div_pow2 by lia.
  assert (0 <= x / 2 ^ (w - 1) < 2)
    by (split; [apply Z.div_pos; lia|apply Z.div_lt_upper_bound; lia]).
  split; [lia|]. rewrite Hp, Zmult_mod_distr_l. pose proof (Z.div_mod x (2 ^ (w - 1))). nia.
Qed.

(** One digit to the left, word by word. *)
Lemma shl1_words h l c : urange w h -> urange w l -> 0 <= c <= 1 ->
  Z.lor (shlu (2 * w) (all w h l) 1) c =
  all w (Z.lor (shlu w h 1) (shru l (w - 1))) (Z.lor (shlu w l 1) c) /\
  urange w (Z.lor (shlu w h 1) (shru l (w - 1))) /\ urange w (Z.lor (shlu w l 1) c).
Proof.
  intros Hh Hl Hc. destruct (top_digit l Hl) as [Hb Htop].
  rewrite !lor_carry by lia. unfold all, urange in *.
  pose proof (pow2_half w Hw) as Hp. pose proof pow_double as Hpp.
  assert (forall x, (2 * x) mod 2 ^ w = 2 * (x mod 2 ^ (w - 1))) as Hm
    by (intros; rewrite Hp; apply Zmult_mod_distr_l).
  pose proof (Z.mod_pos_bound h (2 ^ (w - 1)) ltac:(lia)).
  pose proof (Z.mod_pos_bound l (2 ^ (w - 1)) ltac:(lia)).
  rewrite (Hm h), (Hm l) in *. split; [|lia].
  replace (2 * (h * 2 ^ w + l)) with
    (2 * (h mod 2 ^ (w - 1)) * 2 ^ w + 2 * l + h / 2 ^ (w - 1) * 2 ^ (2 * w)).
  - rewrite Z_mod_plus_full, Z.mod_small; [lia|]. split; [nia|]. rewrite Hpp. nia.
  - rewrite Hpp. pose proof (Z.div_mod h (2 ^ (w - 1)) ltac:(lia)). nia.
Qed.

Lemma shru_top h l : urange w h -> urange w l -> shru (all w h l) (2 * w - 1) = shru h (w - 1).
Proof.
  intros Hh Hl. unfold shru, all. rewrite !Z.shiftr_div_pow2 by lia.
  replace (2 * w - 1) with (w + (w - 1)) by lia.
  rewrite Z.pow_add_r, <- Z.div_div, Z.div_add_l, (Z.div_small l), Z.add_0_r by (unfold urange in *; lia).
  done.
Qed.

(** The loop on words computes the loop of int_div_impl.inc on [2w] bits. *)
Lemma udivmod_loop_words d n0 (sr : nat) qh ql rh rl carry :
  0 < d < 2 ^ (2 * w) -> 0 <= n0 < 2 ^ (2 * w) -> Z.of_nat sr <= 2 * w ->
  d < 2 ^ (2 * w - 1) \/ ((sr <= 1)%nat /\ 2 ^ (2 * w - 1) <= n0) ->
  urange w qh -> urange w ql -> urange w rh -> urange w rl ->
  div_inv (2 * w) d n0 (Z.of_nat sr) (all w rh rl) (all w qh ql) carry ->
  let '(qh', ql', rh', rl', c') := udivmod_loop sr w d qh ql rh rl carry in
  div_loop sr (2 * w) d (all w rh rl) (all w qh ql) carry = (all w rh' rl', all w qh' ql', c').
Proof.
  intros Hd Hn. revert qh ql rh rl carry.
  induction sr as [|sr IH]; intros qh ql rh rl carry Hle Hside Hqh Hql Hrh Hrl Hinv; [done|].
  cbn [udivmod_loop div_loop].
  replace (Z.of_nat (S sr)) with (Z.of_nat sr + 1) in * by lia.
  edestruct (div_turn (2 * w) d n0 (Z.of_nat sr)) as (Hr1 & Hm & Hturn);
    [lia|lia|lia|lia|lia|destruct Hside; [by left|right; split; [lia|tauto]]|exact Hinv|].
  destruct Hinv as (Hc & _ & _).
  destruct (top_digit qh Hqh) as [Hb _].
  rewrite (shru_top qh ql) in * by done.
  destruct (shl1_words rh rl (shru qh (w - 1)) Hrh Hrl Hb) as (Hr & Hr2 & Hr3).
  destruct (shl1_words qh ql carry Hqh Hql Hc) as (Hq & Hq2 & Hq3).
  rewrite Hr in Hr1, Hm, Hturn |- *. rewrite Hq in Hturn |- *. clear Hr Hq.
  set (r1 := all w _ _) in *. set (q1 := all w (Z.lor (shlu w qh 1) _) _) in *.
  set (m := Z.shiftr _ _) in *. set (r2 := wrap (2 * w) _) in *.
  assert (wrap w (Z.land m 1) = wrap (2 * w) (Z.land m 1)) as ->.
  { destruct Hm as [-> | ->]; [by rewrite !Z.land_0_l|]. change (Z.land (-1) 1) with 1.
    rewrite !wrap_small; [done| |]; unfold urange;
      (split; [lia|apply Z.pow_gt_1; lia]). }
  destruct (high_low r2) as (Hh & Hl & Hr2e & _); [apply wrap_range; lia|].
  assert (forall c, div_loop sr (2 * w) d r2 q1 c =
    div_loop sr (2 * w) d (all w (high w r2) (low w r2)) q1 c) as ->
    by (intros; by rewrite <- Hr2e).
  rewrite Hr2e in Hturn.
  apply IH; try done; [lia|]. destruct Hside; [by left|right; split; [lia|tauto]].
Qed.

(** The registers of a division of [a], [sr] digits to the left. *)
Definition regs (a sr qh ql rh rl : Z) : Prop :=
  (urange w qh /\ urange w ql /\ urange w rh /\ urange w rl) /\
  all w rh rl = a / 2 ^ sr /\ all w qh ql = wrap (2 * w) (a * 2 ^ (2 * w - sr)).

Lemma udivmod_finish_spec a b sr qh ql rh rl :
  0 < b < 2 ^ (2 * w) -> 0 <= a < 2 ^ (2 * w) -> 0 <= sr <= 2 * w -> a / 2 ^ sr < b ->
  b < 2 ^ (2 * w - 1) \/ (sr <= 1 /\ 2 ^ (2 * w - 1) <= a) ->
  regs a sr qh ql rh rl -> udivmod_finish w b sr qh ql rh rl = (a / b, a mod b).
Proof.
  intros Hb Ha Hsr Hlt Hside ((Hqh & Hql & Hrh & Hrl) & Hr & Hq). unfold udivmod_finish.
  pose proof (div_inv_start (2 * w) b a sr ltac:(lia) ltac:(lia) Ha Hsr Hlt) as Hinv.
  rewrite <- Hr, <- Hq in Hinv.
  assert (Z.of_nat (Z.to_nat sr) = sr) as Hid by lia. rewrite <- Hid in Hinv.
  assert (b < 2 ^ (2 * w - 1) \/ ((Z.to_nat sr <= 1)%nat /\ 2 ^ (2 * w - 1) <= a)) as Hside'
    by (destruct Hside; [by left|right; lia]).
  pose proof (udivmod_loop_words b a (Z.to_nat sr) qh ql rh rl 0 Hb Ha ltac:(lia) Hside'
    Hqh Hql Hrh Hrl Hinv) as Hwords.
  pose proof (div_loop_spec (2 * w) b a ltac:(lia) Hb Ha (Z.to_nat sr) _ _ _ ltac:(lia) Hside' Hinv)
    as Hspec.
  destruct (udivmod_loop _ _ _ _ _ _ _ _) as [[[[qh' ql'] rh'] rl'] c'].
  rewrite Hwords in Hspec.
  destruct (div_inv_end (2 * w) b a _ _ _ ltac:(lia) Hb Ha Hspec) as [Hdiv Hmod].
  by rewrite Hdiv, Hmod.
Qed.

(** *** The registers the special cases start from *)
Lemma shlu_mod x k : 0 <= k <= w -> shlu w x k = x mod 2 ^ (w - k) * 2 ^ k.
Proof.
  intros Hk. unfold shlu, wrap. rewrite Z.shiftl_mul_pow2 by lia.
  replace (2 ^ w) with (2 ^ (w - k) * 2 ^ k) by (rewrite <- Z.pow_add_r by lia; f_equal; lia).
  apply Z.mul_mod_distr_r; lia.
Qed.

Lemma pow_split s : 0 <= s <= w -> 2 ^ w = 2 ^ (w - s) * 2 ^ s.
Proof. intros. rewrite <- Z.pow_add_r by lia. f_equal. lia. Qed.

(** The two halves of a word moved by [s] digits into two words. *)
Lemma shift_words h l s : 0 < s < w -> urange w h -> urange w l ->
  Z.lor (shlu w h (w - s)) (shru l s) = h mod 2 ^ s * 2 ^ (w - s) + l / 2 ^ s /\
  urange w (Z.lor (shlu w h (w - s)) (shru l s)).
Proof.
  intros Hs Hh Hl. unfold urange in *. pose proof (pow_split s ltac:(lia)) as Hp.
  rewrite shlu_mod by lia. replace (w - (w - s)) with s by lia.
  unfold shru. rewrite Z.shiftr_div_pow2 by lia.
  assert (0 <= l / 2 ^ s < 2 ^ (w - s))
    by (split; [apply Z.div_pos; lia|apply Z.div_lt_upper_bound; lia]).
  pose proof (Z.mod_pos_bound h (2 ^ s) ltac:(lia)).
  rewrite lor_low by lia. split; [done|]. nia.
Qed.

Lemma all_div h l s : 0 <= s <= w -> all w h l / 2 ^ s = h * 2 ^ (w - s) + l / 2 ^ s.
Proof.
  intros Hs. unfold all. rewrite (pow_split s) by done.
  rewrite Z.mul_assoc, Z.div_add_l by lia. done.
Qed.

Lemma all_mod h l s : 0 <= s <= w -> all w h l mod 2 ^ s = l mod 2 ^ s.
Proof.
  intros Hs. unfold all. rewrite (pow_split s) by done.
  by rewrite Z.mul_assoc, Z.add_comm, Z_mod_plus_full.
Qed.

Lemma shl_regs a sr : 0 <= sr <= 2 * w ->
  wrap (2 * w) (a * 2 ^ (2 * w - sr)) = a mod 2 ^ sr * 2 ^ (2 * w - sr).
Proof.
  intros Hsr. unfold wrap.
  replace (2 ^ (2 * w)) with (2 ^ sr * 2 ^ (2 * w - sr))
    by (rewrite <- Z.pow_add_r by lia; f_equal; lia).
  apply Z.mul_mod_distr_r; lia.
Qed.

Lemma regs_low h l sr : 0 < sr < w -> urange w h -> urange w l ->
  regs (all w h l) sr (shlu w l (w - sr)) 0 (shru h sr) (Z.lor (shlu w h (w - sr)) (shru l sr)).
Proof.
  intros Hsr Hh Hl. pose proof (pow_split sr ltac:(lia)) as Hp.
  destruct (shift_words h l sr Hsr Hh Hl) as [Hrl Hrlr]. unfold regs.
  rewrite all_div, shl_regs, all_mod by lia.
  split; [split; [|split; [|split; [|done]]]|split].
  - apply wrap_range. lia.
  - unfold urange. lia.
  - unfold urange, shru in *. rewrite Z.shiftr_div_pow2 by lia.
    split; [apply Z.div_pos; lia|apply Z.div_lt_upper_bound; nia].
  - rewrite Hrl. unfold all, shru. rewrite Z.shiftr_div_pow2 by lia.
    pose proof (Z.div_mod h (2 ^ sr) ltac:(lia)). nia.
  - unfold all. rewrite shlu_mod by lia. replace (w - (w - sr)) with sr by lia.
    replace (2 * w - sr) with ((w - sr) + w) by lia. rewrite Z.pow_add_r by lia. lia.
Qed.

Lemma regs_mid h l : urange w h -> urange w l -> regs (all w h l) w l 0 0 h.
Proof.
  intros Hh Hl. unfold regs. rewrite all_div, shl_regs, all_mod by lia.
  split; [repeat split; unfold urange in *; lia|]. rewrite Z.sub_diag, Z.pow_0_r.
  unfold all, urange in *. split; [rewrite (Z.div_small l) by lia; lia|].
  rewrite Z.mod_small by lia. replace (2 * w - w) with w by lia. lia.
Qed.

Lemma regs_high h l sr : w < sr < 2 * w -> urange w h -> urange w l ->
  regs (all w h l) sr (Z.lor (shlu w h (2 * w - sr)) (shru l (sr - w))) (shlu w l (2 * w - sr))
    0 (shru h (sr - w)).
Proof.
  intros Hsr Hh Hl. set (t := sr - w). replace (2 * w - sr) with (w - t) by lia.
  assert (0 < t < w) as Ht by lia. pose proof (pow_split t ltac:(lia)) as Hp.
  destruct (shift_words h l t Ht Hh Hl) as [Hq Hqr].
  assert (2 ^ sr = 2 ^ t * 2 ^ w) as Hpsr by (rewrite <- Z.pow_add_r by lia; f_equal; lia).
  unfold regs. rewrite shl_regs by lia.
  split; [split; [done|split; [|split]]|split].
  - apply wrap_range. lia.
  - unfold urange. lia.
  - unfold urange, shru in *. rewrite Z.shiftr_div_pow2 by lia.
    split; [apply Z.div_pos; lia|apply Z.div_lt_upper_bound; nia].
  - unfold all, shru, urange in *. rewrite Z.shiftr_div_pow2 by lia.
    rewrite Hpsr, (Z.mul_comm (2 ^ t)), <- Z.div_div, Z.div_add_l, (Z.div_small l), Z.add_0_r by lia.
    lia.
  - rewrite Hq, shlu_mod by lia. replace (w - (w - t)) with t by lia.
    replace (2 * w - sr) with (w - t) by lia.
    assert (all w h l mod 2 ^ sr = h mod 2 ^ t * 2 ^ w + l) as ->.
    { unfold all, urange in *. symmetry.
      pose proof (Z.div_mod h (2 ^ t) ltac:(lia)). pose proof (Z.mod_pos_bound h (2 ^ t) ltac:(lia)).
      rewrite Hpsr. apply Z.mod_unique_pos with (h / 2 ^ t); [nia|].
      replace (h * 2 ^ w) with ((2 ^ t * (h / 2 ^ t) + h mod 2 ^ t) * 2 ^ w) by (f_equal; lia). lia. }
    unfold all. pose proof (Z.div_mod l (2 ^ t) ltac:(lia)). nia.
Qed.

(** *** Powers of two *)
Lemma pow2_test x : 0 < x -> Z.land x (x - 1) = 0 -> x = 2 ^ Z.log2 x.
Proof.
  intros Hx H0. pose proof (Z.log2_spec x Hx) as [Hl Hu]. pose proof (Z.log2_nonneg x) as Hk.
  destruct (Z.eq_dec x (2 ^ Z.log2 x)) as [|Hne]; [done|exfalso].
  assert (Z.log2 (x - 1) = Z.log2 x) as Hlog by (apply Z.log2_unique; lia).
  assert (Z.testbit (Z.land x (x - 1)) (Z.log2 x) = true) as Hbit.
  { rewrite Z.land_spec, Z.bit_log2 by done. rewrite <- Hlog. apply Z.bit_log2. 
    pose proof (Z.pow_pos_nonneg 2 (Z.log2 x)). lia. }
  by rewrite H0, Z.bits_0 in Hbit.
Qed.

Lemma ctz_pow2 k : 0 <= k -> ctz (2 ^ k) = k.
Proof.
  intros Hk. unfold ctz. replace (- 2 ^ k) with (Z.lnot (Z.ones k))
    by (rewrite Z.ones_equiv; unfold Z.lnot; lia).
  rewrite <- Z.ldiff_land, Z.ldiff_ones_r, Z.shiftr_div_pow2, Z.div_same by lia.
  by rewrite Z.shiftl_1_l, Z.log2_pow2.
Qed.

Lemma land_pow2_mod x k : 0 <= k -> Z.land x (2 ^ k - 1) = x mod 2 ^ k.
Proof. intros. rewrite <- Z.land_ones by lia. f_equal. rewrite Z.ones_equiv. lia. Qed.

(** *** The theorem of udivmoddi4.c *)
Lemma log2_all h l : 0 < h -> urange w l -> Z.log2 (all w h l) = w + Z.log2 h.
Proof.
  intros Hh Hl. unfold all, urange in *. pose proof (Z.log2_nonneg h).
  pose proof (Z.log2_spec h Hh) as [H1 H2].
  apply Z.log2_unique; [lia|]. replace (Z.succ (w + Z.log2 h)) with (w + Z.succ (Z.log2 h)) by lia.
  rewrite !Z.pow_add_r by lia. nia.
Qed.

Hypothesis Hw31 : w <= 2 ^ 30.

Lemma u32_neg x : - 2 ^ 31 <= x < 0 -> u32 x = 2 ^ 32 + x.
Proof. intros. symmetry. apply Z.mod_unique with (-1); lia. Qed.

(** What the long division needs of its number of turns. *)
Lemma long_division a b sr qh ql rh rl :
  0 < b < 2 ^ (2 * w) -> 0 < a < 2 ^ (2 * w) -> Z.log2 b <= Z.log2 a ->
  sr = Z.log2 a - Z.log2 b + 1 -> regs a sr qh ql rh rl ->
  udivmod_finish w b sr qh ql rh rl = (a / b, a mod b).
Proof.
  intros Hb Ha Hle -> Hregs. pose proof (log2_lt_width (2 * w) a ltac:(lia)).
  pose proof (log2_lt_width (2 * w) b ltac:(lia)).
  apply udivmod_finish_spec; [lia|lia|lia| | |done].
  - apply shift_lt; lia.
  - destruct (shift_side (2 * w) a b ltac:(lia) ltac:(lia) ltac:(lia) Hle); [by left|right; lia].
Qed.

Section cases.
Variables nh nl dh dl : Z.
Hypotheses (Hnh : 0 < nh < 2 ^ w) (Hnl : urange w nl) (Hdh : urange w dh) (Hdl : urange w dl).
Let a := all w nh nl.
Let b := all w dh dl.

Lemma words_a : high w a = nh /\ low w a = nl /\ 0 < a < 2 ^ (2 * w) /\ Z.log2 a = w + Z.log2 nh.
Proof.
  destruct (high_all nh nl ltac:(unfold urange; lia) Hnl) as [H1 H2].
  pose proof (all_range nh nl ltac:(unfold urange; lia) Hnl) as Hr.
  split; [done|]. split; [done|]. split; [|apply log2_all; [lia|done]].
  split; [|apply Hr]. unfold a, all, urange in *. nia.
Qed.

Lemma words_b : high w b = dh /\ low w b = dl /\ 0 <= b < 2 ^ (2 * w).
Proof. destruct (high_all dh dl Hdh Hdl) as [H1 H2]. split; [done|]. split; [done|]. by apply all_range. Qed.

(** The quotient is 0 when the divisor is longer. *)
Lemma longer_divisor : 0 < dh -> Z.log2 nh < Z.log2 dh -> (0, a) = (a / b, a mod b).
Proof.
  intros Hd Hlog. destruct words_a as (_ & _ & Ha & Hla). destruct words_b as (_ & _ & Hb).
  assert (a < b) by (apply Z.log2_lt_cancel; rewrite Hla; unfold b; rewrite log2_all by done; lia).
  rewrite Z.div_small, Z.mod_small by lia. done.
Qed.

Lemma udivmod_full_spec : 0 < dh -> udivmod_full w a b = (a / b, a mod b).
Proof.
  intros Hd. destruct words_a as (Hha & Hlow & Ha & Hla). destruct words_b as (Hhb & _ & Hb).
  assert (Z.log2 b = w + Z.log2 dh) as Hlb by (by apply log2_all).
  pose proof (log2_lt_width w nh Hnh). pose proof (log2_lt_width w dh ltac:(unfold urange in *; lia)).
  unfold udivmod_full. rewrite Hha, Hlow, Hhb. unfold clz.
  replace (w - 1 - Z.log2 dh - (w - 1 - Z.log2 nh)) with (Z.log2 nh - Z.log2 dh) by lia.
  destruct (Z.lt_ge_cases (Z.log2 nh) (Z.log2 dh)).
  { rewrite u32_neg by lia. replace (w - 1 <? _) with true by lia. by apply longer_divisor. }
  rewrite wrap_small by (unfold urange; lia).
  replace (w - 1 <? _) with false by lia.
  assert (0 < b) by (unfold b, all, urange in *; nia).
  destruct (Z.eqb_spec (Z.log2 nh - Z.log2 dh + 1) w) as [E|E].
  - rewrite E. apply long_division; [lia|lia|lia|lia|]. apply regs_mid; [unfold urange; lia|done].
  - apply long_division; [lia|lia|lia|lia|]. apply regs_low; [lia|unfold urange; lia|done].
Qed.

Lemma udivmod_low_0_spec : 0 < dh -> dl = 0 -> udivmod_low_0 w a b = (a / b, a mod b).
Proof.
  intros Hd E0. destruct words_a as (Hha & Hlow & Ha & Hla). destruct words_b as (Hhb & _ & Hb).
  assert (Z.log2 b = w + Z.log2 dh) as Hlb by (by apply log2_all).
  assert (b = dh * 2 ^ w) as Eb by (unfold b, all; lia).
  assert (a / b = nh / dh) as Hdiv.
  { rewrite Eb, Z.mul_comm, <- Z.div_div by lia. f_equal. unfold a, all, urange in *.
    rewrite Z.div_add_l, (Z.div_small nl) by lia. lia. }
  assert (a mod b = all w (nh mod dh) nl) as Hmod.
  { rewrite Z.mod_eq, Hdiv by lia. rewrite Eb. unfold a, all. rewrite (Z.mod_eq nh dh) by lia. lia. }
  pose proof (log2_lt_width w nh Hnh). pose proof (log2_lt_width w dh ltac:(unfold urange in *; lia)).
  unfold udivmod_low_0. rewrite Hha, Hlow, Hhb. replace (dh =? 0) with false by lia.
  destruct (Z.eqb_spec nl 0) as [->|Hnl0]; [by rewrite Hdiv, Hmod|].
  destruct (Z.eqb_spec (Z.land dh (dh - 1)) 0) as [Hp|Hp].
  { apply pow2_test in Hp; [|done]. rewrite Hdiv, Hmod, Hp, ctz_pow2, land_pow2_mod by lia.
    unfold shru. by rewrite Z.shiftr_div_pow2 by lia. }
  assert (Z.log2 dh <> 0) as Hdh1.
  { intros E. apply Hp. apply Z.log2_null in E. assert (dh = 1) as -> by lia. done. }
  unfold clz. replace (w - 1 - Z.log2 dh - (w - 1 - Z.log2 nh)) with (Z.log2 nh - Z.log2 dh) by lia.
  destruct (Z.lt_ge_cases (Z.log2 nh) (Z.log2 dh)).
  { rewrite u32_neg by lia. replace (w - 2 <? _) with true by lia. by apply longer_divisor. }
  rewrite wrap_small by (unfold urange; lia). replace (w - 2 <? _) with false by lia.
  apply long_division; [unfold urange in *; nia|lia|lia|lia|].
  apply regs_low; [lia|unfold urange; lia|done].
Qed.

Lemma udivmod_high_0_spec : dh = 0 -> 0 < dl -> udivmod_high_0 w a b = (a / b, a mod b).
Proof.
  intros E0 Hd. destruct words_a as (Hha & Hlow & Ha & Hla). destruct words_b as (_ & Hlb & Hb).
  assert (b = dl) as Eb by (unfold b, all; lia).
  pose proof (log2_lt_width w nh Hnh). pose proof (log2_lt_width w dl ltac:(unfold urange in *; lia)) as Hld.
  assert (urange w nh) as Hnhr by (unfold urange; lia).
  unfold udivmod_high_0. rewrite Hha, Hlow, Hlb.
  destruct (Z.eqb_spec (Z.land dl (dl - 1)) 0) as [Hp|Hp].
  { apply pow2_test in Hp; [|done].
    assert (Z.land nl (dl - 1) = a mod b) as ->.
    { rewrite Eb, Hp, land_pow2_mod by lia. unfold a. symmetry. apply all_mod. lia. }
    destruct (Z.eqb_spec dl 1) as [E1|E1].
    { rewrite Eb, E1, Z.div_1_r. done. }
    assert (0 < Z.log2 dl).
    { destruct (Z.eq_dec (Z.log2 dl) 0) as [E|]; [|lia]. rewrite E in Hp. done. }
    assert (ctz dl = Z.log2 dl) as -> by (rewrite Hp at 1; apply ctz_pow2; lia).
    destruct (regs_low nh nl (Z.log2 dl) ltac:(lia) Hnhr Hnl) as (_ & -> & _).
    by rewrite Eb, <- Hp. }
  assert (Z.log2 dl <> 0) as Hdl1.
  { intros E. apply Hp. apply Z.log2_null in E. assert (dl = 1) as -> by lia. done. }
  unfold clz. replace (1 + w + (w - 1 - Z.log2 dl) - (w - 1 - Z.log2 nh))
    with (Z.log2 a - Z.log2 b + 1) by (rewrite Eb; lia).
  rewrite wrap_small by (rewrite Hla, Eb; unfold urange; lia).
  assert (2 <= Z.log2 a - Z.log2 b + 1 < 2 * w) as Hsr by (rewrite Hla, Eb; lia).
  destruct (Z.eqb_spec (Z.log2 a - Z.log2 b + 1) w) as [E|E]; [rewrite E|case_cmp];
    (apply long_division; [lia|lia|rewrite Hla, Eb; lia|lia|]).
  - by apply regs_mid.
  - apply regs_low; [lia|done|done].
  - apply regs_high; [lia|done|done].
Qed.
End cases.

Lemma udivmod_spec a b : 0 <= a < 2 ^ (2 * w) -> 0 < b < 2 ^ (2 * w) -> udivmod w a b = (a / b, a mod b).
Proof.
  intros Ha Hb. destruct (high_low a Ha) as (Hah & Hal & Ea & _).
  destruct (high_low b ltac:(lia)) as (Hbh & Hbl & Eb & _). unfold udivmod.
  destruct (Z.eqb_spec (high w a) 0) as [E|E].
  { rewrite E in Ea. unfold all in Ea.
    destruct (Z.eqb_spec (high w b) 0) as [E'|E'].
    { rewrite E' in Eb. unfold all in Eb. by replace (low w a) with a by lia; replace (low w b) with b by lia. }
    replace (low w a) with a by lia.
    assert (2 ^ w <= b) by (rewrite Eb; unfold all, urange in *; nia).
    unfold urange in *. rewrite Z.div_small, Z.mod_small by lia. done. }
  assert (0 < high w a < 2 ^ w) as Hpos by (unfold urange in *; lia).
  destruct (Z.eqb_spec (low w b) 0) as [E'|E'].
  { assert (0 < high w b) by (rewrite E' in Eb; unfold all, urange in *; nia).
    rewrite Ea, Eb. by apply udivmod_low_0_spec. }
  destruct (Z.eqb_spec (high w b) 0) as [E''|E'']; rewrite Ea, Eb.
  - apply udivmod_high_0_spec; try done. unfold urange in *. lia.
  - apply udivmod_full_spec; try done. unfold urange in *. lia.
Qed.
End words.

(** ** The signed routines *)
Section signed.
Variable w : Z.
Hypothesis Hw : 1 < w.

Lemma sign_mask_spec a : srange w a -> sign_mask w a = if a <? 0 then -1 else 0.
Proof.
  intros Ha. unfold srange, sign_mask in *. rewrite Z.shiftr_div_pow2 by lia. case_cmp.
  - symmetry. apply Z.div_unique with (a + 2 ^ (w - 1)); lia.
  - apply Z.div_small. lia.
Qed.

Lemma lxor_mask x : Z.lxor x (-1) = - x - 1.
Proof. rewrite Z.lxor_m1_r. unfold Z.lnot. lia. Qed.

Lemma flip_spec x (b : bool) : flip w x (if b then -1 else 0) = wrap w (if b then - x else x).
Proof.
  unfold flip. rewrite wrap_add_l. destruct b.
  - rewrite lxor_mask. f_equal. lia.
  - rewrite Z.lxor_0_r. f_equal. lia.
Qed.

Lemma abs_spec x : (if x <? 0 then - x else x) = Z.abs x.
Proof. case_cmp; lia. Qed.

Lemma abs_range a : srange w a -> urange w (Z.abs a) /\ Z.abs a <= 2 ^ (w - 1).
Proof. unfold srange, urange. pose proof (pow2_half w ltac:(lia)). lia. Qed.

Lemma flip_abs a : srange w a -> flip w a (sign_mask w a) = Z.abs a.
Proof.
  intros Ha. rewrite sign_mask_spec, flip_spec, abs_spec by done.
  apply wrap_small, abs_range, Ha.
Qed.

Lemma lxor_signs a b : srange w a -> srange w b ->
  Z.lxor (sign_mask w a) (sign_mask w b) = if xorb (a <? 0) (b <? 0) then -1 else 0.
Proof. intros. rewrite !sign_mask_spec by done. by repeat case_cmp. Qed.

Lemma quot_signs a b : b <> 0 ->
  a ÷ b = if xorb (a <? 0) (b <? 0) then - (Z.abs a / Z.abs b) else Z.abs a / Z.abs b.
Proof.
  intros Hb. rewrite <- Z.quot_div_nonneg by lia.
  destruct (Z.ltb_spec a 0), (Z.ltb_spec b 0); cbn [xorb];
    rewrite ?(Z.abs_neq a), ?(Z.abs_eq a), ?(Z.abs_neq b), ?(Z.abs_eq b) by lia;
    rewrite ?Z.quot_opp_l, ?Z.quot_opp_r by lia; rewrite ?Z.quot_opp_r by lia; lia.
Qed.

Lemma rem_signs a b : b <> 0 ->
  Z.rem a b = if a <? 0 then - (Z.abs a mod Z.abs b) else Z.abs a mod Z.abs b.
Proof.
  intros Hb. rewrite <- Z.rem_mod_nonneg by lia. rewrite Z.rem_abs_r by done.
  destruct (Z.ltb_spec a 0); rewrite ?(Z.abs_neq a), ?(Z.abs_eq a) by lia;
    rewrite ?Z.rem_opp_l by done; lia.
Qed.

Lemma divXi3_spec udiv a b : srange w a -> srange w b -> b <> 0 ->
  udiv (Z.abs a) (Z.abs b) = Z.abs a / Z.abs b -> __divXi3 w udiv a b = sgn w (a ÷ b).
Proof.
  intros Ha Hb Hb0 Hu. unfold __divXi3. rewrite !flip_abs, Hu, lxor_signs, flip_spec, sgn_wrap by done.
  by rewrite (quot_signs a b Hb0).
Qed.

Lemma rem_range a b : srange w a -> srange w b -> b <> 0 -> srange w (Z.rem a b).
Proof.
  intros Ha Hb Hb0. pose proof (Z.rem_bound_abs a b Hb0). unfold srange in *.
  pose proof (Z.abs_neq b). pose proof (Z.abs_eq b). lia.
Qed.

Lemma modXi3_spec umod a b : srange w a -> srange w b -> b <> 0 ->
  umod (Z.abs a) (Z.abs b) = Z.abs a mod Z.abs b -> __modXi3 w umod a b = Z.rem a b.
Proof.
  intros Ha Hb Hb0 Hu. unfold __modXi3. rewrite !flip_abs, Hu by done.
  rewrite sign_mask_spec, flip_spec, sgn_wrap, <- (rem_signs a b) by done.
  apply sgn_small; [lia|by apply rem_range].
Qed.

Lemma unflip_spec q (b : bool) : urange w q ->
  sgn w (Z.lxor q (wrap w (if b then -1 else 0)) - (if b then -1 else 0))
  = sgn w (if b then - q else q).
Proof.
  intros Hq. destruct b.
  - assert (Z.lxor q (wrap w (-1)) = 2 ^ w - 1 - q) as ->.
    { rewrite <- (wrap_small w q Hq) at 1.
      assert (Z.lxor (wrap w q) (wrap w (-1)) = wrap w (Z.lxor q (-1))) as ->.
      { apply Z.bits_inj'. intros n Hn. rewrite Z.lxor_spec, !wrap_bits, Z.lxor_spec by lia.
        by destruct (n <? w). }
      rewrite lxor_mask. symmetry. apply Z.mod_unique with (-1); unfold urange in *; lia. }
    apply sgn_eq. rewrite <- (wrap_shift w (- q) 1). f_equal. lia.
  - f_equal. change (wrap w 0) with (0 mod 2 ^ w). rewrite Z.mod_0_l, Z.lxor_0_r by lia. lia.
Qed.

Lemma wrap_flip a : srange w a ->
  wrap w (sgn w (Z.lxor a (sign_mask w a) - sign_mask w a)) = Z.abs a.
Proof.
  intros Ha. rewrite wrap_sgn by lia. rewrite <- (flip_abs a Ha). unfold flip.
  rewrite wrap_add_l. done.
Qed.

Lemma divmod_spec udm a b : srange w a -> srange w b -> b <> 0 ->
  udm (Z.abs a) (Z.abs b) = (Z.abs a / Z.abs b, Z.abs a mod Z.abs b) ->
  divmod w udm a b = (sgn w (a ÷ b), Z.rem a b).
Proof.
  intros Ha Hb Hb0 Hu. unfold divmod. rewrite !wrap_flip, Hu, (Z.lxor_comm (sign_mask w b)), lxor_signs by done.
  destruct (abs_range a Ha) as [Hra _]. destruct (abs_range b Hb) as [Hrb _]. unfold urange in *.
  pose proof (Z.mod_pos_bound (Z.abs a) (Z.abs b) ltac:(lia)).
  assert (0 <= Z.abs a / Z.abs b <= Z.abs a)
    by (split; [apply Z.div_pos; lia|apply Z.div_le_upper_bound; nia]).
  rewrite unflip_spec, <- quot_signs by (unfold urange; lia).
  rewrite sign_mask_spec, unflip_spec by (done || (unfold urange; lia)).
  rewrite <- rem_signs by done. f_equal. apply sgn_small; [lia|by apply rem_range].
Qed.
End signed.

Lemma udivmod_correct_aux a b (Hb : b <> 0) :
  (urange 32 a -> urange 32 b ->
   __udivsi3 a b = a / b /\ __umodsi3 a b = a mod b /\ __udivmodsi4 a b = (a / b, a mod b)) /\
  (urange 64 a -> urange 64 b ->
   __udivdi3 a b = a / b /\ __umoddi3 a b = a mod b /\ __udivmoddi4 a b = (a / b, a mod b)).
Proof.
  split; intros Ha Hbr; unfold urange in *.
  - unfold __udivmodsi4, __udivsi3, __umodsi3. rewrite udivXi3_spec, umodXi3_spec by lia.
    split; [done|]. split; [done|].
    assert (0 <= a / b <= a) by (split; [apply Z.div_pos; lia|apply Z.div_le_upper_bound; nia]).
    pose proof (Z.mod_pos_bound a b ltac:(lia)).
    f_equal; [rewrite wrap_sgn by lia; apply wrap_small; unfold urange; lia|].
    destruct (sgn_congr 32 (a / b) ltac:(lia)) as [k ->].
    replace (a - (a / b + k * 2 ^ 32) * b) with (a mod b + (- k * b) * 2 ^ 32)
      by (rewrite (Z.mod_eq a b) by done; lia).
    rewrite wrap_shift. apply wrap_small. unfold urange. lia.
  - unfold __udivdi3, __umoddi3, __udivmoddi4. rewrite udivXi3_spec, umodXi3_spec by lia.
    split; [done|]. split; [done|]. apply udivmod_spec; lia.
Qed.


(** ** Properties *)

(** C31: the unsigned division routines compute the quotient and the remainder
    of every dividend of the type and every non-zero divisor: the 32-bit and
    the 64-bit ones of int_div_impl.inc, and __udivmoddi4 with its six cases
    on the words of the operands. *)
Theorem udivmod_correct a b (Hb : b <> 0) :
  (urange 32 a -> urange 32 b ->
   __udivsi3 a b = a / b /\ __umodsi3 a b = a mod b /\ __udivmodsi4 a b = (a / b, a mod b)) /\
  (urange 64 a -> urange 64 b ->
   __udivdi3 a b = a / b /\ __umoddi3 a b = a mod b /\ __udivmoddi4 a b = (a / b, a mod b)).
Proof. by apply udivmod_correct_aux. Qed.

Lemma udivmod_correct_witness :
  __udivdi3 18446744073709551615 4294967297 = 4294967295 /\
  __udivmoddi4 18446744073709551615 4294967297 = (4294967295, 0) /\
  __umodsi3 4294967295 10 = 5.
Proof.
  assert (4294967297 <> 0) as H1 by lia. assert (10 <> 0) as H2 by lia.
  assert (urange 64 18446744073709551615) as H3 by (unfold urange; lia).
  assert (urange 64 4294967297) as H4 by (unfold urange; lia).
  assert (urange 32 4294967295) as H5 by (unfold urange; lia).
  assert (urange 32 10) as H6 by (unfold urange; lia).
  destruct (udivmod_correct 18446744073709551615 4294967297 H1) as [_ Hd].
  destruct (udivmod_correct 4294967295 10 H2) as [Hs _].
  destruct (Hd H3 H4) as (-> & _ & ->). destruct (Hs H5 H6) as (_ & -> & _).
  split; [reflexivity|]. split; reflexivity.
Defined.

(** the signed division routines truncate towards zero, and give the
    remainder the sign of the dividend, for every pair of operands with a
    non-zero divisor; the one quotient that is out of range, of the least
    integer by -1, wraps around. *)
Theorem divmod_signed_correct a b (Hb : b <> 0) :
  (srange 32 a -> srange 32 b ->
   __divsi3 a b = s32 (a ÷ b) /\ __modsi3 a b = Z.rem a b /\ __divmodsi4 a b = (s32 (a ÷ b), Z.rem a b)) /\
  (srange 64 a -> srange 64 b ->
   __divdi3 a b = s64 (a ÷ b) /\ __moddi3 a b = Z.rem a b /\ __divmoddi4 a b = (s64 (a ÷ b), Z.rem a b)).
Proof.
  assert (0 < Z.abs b) by lia. assert (Z.abs b <> 0) as Hb' by lia.
  split; intros Ha Hbr.
  - destruct (abs_range 32 ltac:(lia) a Ha) as [Hra _]. destruct (abs_range 32 ltac:(lia) b Hbr) as [Hrb _].
    assert (__divsi3 a b = s32 (a ÷ b)) as Hdiv by (by apply divXi3_spec).
    destruct (proj1 (udivmod_correct_aux (Z.abs a) (Z.abs b) Hb') Hra Hrb) as (_ & _ & Hu).
    split; [done|]. split; [|by apply divmod_spec].
    unfold __modsi3. rewrite Hdiv. destruct (sgn_congr 32 (a ÷ b) ltac:(lia)) as [k ->].
    replace (a - (a ÷ b + k * 2 ^ 32) * b) with (Z.rem a b + (- k * b) * 2 ^ 32)
      by (rewrite (Z.rem_eq a b) by done; lia).
    rewrite <- (sgn_small 32 (Z.rem a b)) at 2 by (lia || by apply rem_range).
    apply sgn_eq, wrap_shift.
  - destruct (abs_range 64 ltac:(lia) a Ha) as [Hra _]. destruct (abs_range 64 ltac:(lia) b Hbr) as [Hrb _].
    destruct (proj2 (udivmod_correct_aux (Z.abs a) (Z.abs b) Hb') Hra Hrb) as (_ & _ & Hu).
    split; [|split].
    + apply divXi3_spec; try done. by rewrite Hu.
    + apply modXi3_spec; try done. by rewrite Hu.
    + by apply divmod_spec.
Qed.

Lemma divmod_signed_correct_witness :
  __divdi3 (-9223372036854775808) (-1) = -9223372036854775808 /\
  __moddi3 (-7) 2 = -1 /\ __divmodsi4 (-7) 2 = (-3, -1).
Proof.
  assert (-1 <> 0) as H1 by lia. assert (2 <> 0) as H2 by lia.
  assert (srange 64 (-9223372036854775808)) as H3 by (unfold srange; lia).
  assert (srange 64 (-1)) as H4 by (unfold srange; lia).
  assert (srange 64 (-7)) as H5 by (unfold srange; lia).
  assert (srange 64 2) as H6 by (unfold srange; lia).
  assert (srange 32 (-7)) as H7 by (unfold srange; lia).
  assert (srange 32 2) as H8 by (unfold srange; lia).
  destruct (divmod_signed_correct (-9223372036854775808) (-1) H1) as [_ Ha].
  destruct (divmod_signed_correct (-7) 2 H2) as [Hb Hc].
  destruct (Ha H3 H4) as (-> & _ & _). destruct (Hc H5 H6) as (_ & -> & _).
  destruct (Hb H7 H8) as (_ & _ & ->).
  split; [reflexivity|]. split; reflexivity.
Defined.
