(* ===== verification/IntOps.v ===== *)
(** * IntOps: 64-bit arithmetic of src/compile-rt-builtins

    Besides division the library has the other operations on the two halves of
    a 64-bit integer: shifts, multiplication and comparison, and arithmetic
    that detects an overflow, by a flag (__mulo...) or by an abort (...v...).
    A signed integer is its value; an unsigned one its value modulo a power of
    two. *)
From S2P Require Import Prelude.

(** ** Definitions *)

(** The unions dwords and udwords: [s.low], [s.high] and [all]. *)
Definition dlow (a : Z) : Z := u32 a.
Definition dhigh (a : Z) : Z := s32 (Z.shiftr a 32).
Definition uhigh (a : Z) : Z := u32 (Z.shiftr a 32).
Definition dall (high low : Z) : Z := s64 (Z.lor (Z.shiftl high 32) (u32 low)).

(** *** Shifts *)
Definition __ashldi3 (a b : Z) : Z :=
  if negb (Z.land b 32 =? 0) then dall (s32 (Z.shiftl (dlow a) (b - 32))) 0
  else if b =? 0 then a
  else dall (s32 (Z.lor (Z.shiftl (dhigh a) b) (Z.shiftr (dlow a) (32 - b)))) (u32 (Z.shiftl (dlow a) b)).

Definition __lshrdi3 (a b : Z) : Z :=
  if negb (Z.land b 32 =? 0) then dall 0 (Z.shiftr (uhigh a) (b - 32))
  else if b =? 0 then a
  else dall (Z.shiftr (uhigh a) b) (Z.lor (u32 (Z.shiftl (uhigh a) (32 - b))) (Z.shiftr (dlow a) b)).

Definition __ashrdi3 (a b : Z) : Z :=
  if negb (Z.land b 32 =? 0) then dall (Z.shiftr (dhigh a) (32 - 1)) (u32 (Z.shiftr (dhigh a) (b - 32)))
  else if b =? 0 then a
  else dall (Z.shiftr (dhigh a) b) (Z.lor (u32 (Z.shiftl (dhigh a) (32 - b))) (Z.shiftr (dlow a) b)).

(** *** Multiplication by half words *)
Definition __muldsi3 (a b : Z) : Z :=
  let lower_mask := 0xFFFF in
  let low := u32 (Z.land a lower_mask * Z.land b lower_mask) in
  let t := Z.shiftr low 16 in
  let low := Z.land low lower_mask in
  let t := u32 (t + Z.shiftr a 16 * Z.land b lower_mask) in
  let low := u32 (low + Z.shiftl (Z.land t lower_mask) 16) in
  let high := s32 (Z.shiftr t 16) in
  let t := Z.shiftr low 16 in
  let low := Z.land low lower_mask in
  let t := u32 (t + Z.shiftr b 16 * Z.land a lower_mask) in
  let low := u32 (low + Z.shiftl (Z.land t lower_mask) 16) in
  let high := s32 (high + Z.shiftr t 16) in
  let high := s32 (high + Z.shiftr a 16 * Z.shiftr b 16) in
  dall high low.

Definition __muldi3 (a b : Z) : Z :=
  let r := __muldsi3 (dlow a) (dlow b) in
  dall (s32 (dhigh r + (dhigh a * dlow b + dlow a * dhigh b))) (dlow r).

(** *** Comparison: 0, 1 or 2 *)
Definition __cmpdi2 (a b : Z) : Z :=
  if dhigh a <? dhigh b then 0 else if dhigh b <? dhigh a then 2
  else if dlow a <? dlow b then 0 else if dlow b <? dlow a then 2 else 1.
Definition __ucmpdi2 (a b : Z) : Z :=
  if uhigh a <? uhigh b then 0 else if uhigh b <? uhigh a then 2
  else if dlow a <? dlow b then 0 else if dlow b <? dlow a then 2 else 1.

Definition __negdi2 (a : Z) : Z := s64 (- a).

(** *** int_mulo_impl.inc, int_mulv_impl.inc *)
Section width.
(** [sizeof(fixint_t) * CHAR_BIT] *)
Variable N : Z.

Definition fix_MIN : Z := sgn N (Z.shiftl 1 (N - 1)).
Definition fix_MAX : Z := Z.lnot fix_MIN.
Definition fix_abs (a : Z) : Z := let s := Z.shiftr a (N - 1) in sgn N (Z.lxor a s - s).

(** The result, and what is written to [*overflow]. *)
Definition __muloXi4 (a b : Z) : Z * Z :=
  let MIN := fix_MIN in
  let result := sgn N (a * b) in
  if a =? MIN then (result, b2z (negb (b =? 0) && negb (b =? 1)))
  else if b =? MIN then (result, b2z (negb (a =? 0) && negb (a =? 1)))
  else
    let sa := Z.shiftr a (N - 1) in
    let abs_a := fix_abs a in
    let sb := Z.shiftr b (N - 1) in
    let abs_b := fix_abs b in
    if (abs_a <? 2) || (abs_b <? 2) then (result, 0)
    else if sa =? sb then (result, b2z (sgn N (Z.quot fix_MAX abs_b) <? abs_a))
    else (result, b2z (sgn N (Z.quot MIN (sgn N (- abs_b))) <? abs_a)).

(** [None]: compilerrt_abort(), which does not return. *)
Definition __mulvXi3 (a b : Z) : option Z :=
  let MIN := fix_MIN in
  let product := Some (sgn N (a * b)) in
  if a =? MIN then (if (b =? 0) || (b =? 1) then product else None)
  else if b =? MIN then (if (a =? 0) || (a =? 1) then product else None)
  else
    let sa := Z.shiftr a (N - 1) in
    let abs_a := fix_abs a in
    let sb := Z.shiftr b (N - 1) in
    let abs_b := fix_abs b in
    if (abs_a <? 2) || (abs_b <? 2) then product
    else if sa =? sb then (if sgn N (Z.quot fix_MAX abs_b) <? abs_a then None else product)
    else (if sgn N (Z.quot MIN (sgn N (- abs_b))) <? abs_a then None else product).

(** The bodies that the files for 32 and for 64 bits share. *)
Definition addvXi3 (a b : Z) : option Z :=
  let s := sgn N (a + b) in
  if 0 <=? b then (if s <? a then None else Some s) else (if a <=? s then None else Some s).
Definition subvXi3 (a b : Z) : option Z :=
  let s := sgn N (a - b) in
  if 0 <=? b then (if a <? s then None else Some s) else (if s <=? a then None else Some s).
Definition negvXi2 (a : Z) : option Z := if a =? fix_MIN then None else Some (sgn N (- a)).
Definition absvXi2 (a : Z) : option Z := if a =? fix_MIN then None else Some (fix_abs a).
End width.

Definition __mulosi4 := __muloXi4 32.
Definition __mulodi4 := __muloXi4 64.
Definition __mulvsi3 := __mulvXi3 32.
Definition __mulvdi3 := __mulvXi3 64.
Definition __addvsi3 := addvXi3 32.
Definition __addvdi3 := addvXi3 64.
Definition __subvsi3 := subvXi3 32.
Definition __subvdi3 := subvXi3 64.
Definition __negvsi2 := negvXi2 32.
Definition __negvdi2 := negvXi2 64.
Definition __absvsi2 := absvXi2 32.
Definition __absvdi2 := absvXi2 64.

Example muldi3_small : __muldi3 (-3) 5 = -15. Proof. reflexivity. Qed.
Example muldi3_wrap : __muldi3 (2 ^ 62 + 12345678901) (-98765) = s64 ((2 ^ 62 + 12345678901) * -98765). Proof. reflexivity. Qed.
Example ashr_small : (__ashrdi3 (-5000000000) 33, __lshrdi3 (-1) 40, __ashldi3 3 61) = (-1, 2 ^ 24 - 1, s64 (3 * 2 ^ 61)).
Proof. reflexivity. Qed.
Example mulo_small : (__mulosi4 65536 32768, __mulosi4 (-65536) 32768) = ((-2 ^ 31, 1), (-2 ^ 31, 0)). Proof. reflexivity. Qed.

(** ** The halves of a double word *)
Lemma sgn_bits_low w z n : 0 <= w -> n < w -> Z.testbit (sgn w z) n = Z.testbit z n.
Proof.
  intros Hw Hn. pose proof (f_equal (fun x => Z.testbit x n) (wrap_sgn w z Hw)) as H. cbv beta in H.
  rewrite !wrap_bits in H by done. by replace (n <? w) with true in H by lia.
Qed.

Lemma dall_bits high low n : 0 <= n < 64 ->
  Z.testbit (dall high low) n = if n <? 32 then Z.testbit low n else Z.testbit high (n - 32).
Proof.
  intros Hn. unfold dall. rewrite sgn_bits_low, Z.lor_spec, Z.shiftl_spec, wrap_bits by lia.
  destruct (Z.ltb_spec n 32); [by rewrite (Z.testbit_neg_r high) by lia|apply orb_false_r].
Qed.

(** An equation between 64-bit integers, bit by bit. *)
Lemma s64_bits a b : (forall n, 0 <= n < 64 -> Z.testbit a n = Z.testbit b n) -> s64 a = s64 b.
Proof.
  intros H. apply sgn_eq, Z.bits_inj'. intros n Hn. rewrite !wrap_bits by lia.
  destruct (Z.ltb_spec n 64); [|done]. cbn [andb]. apply H. lia.
Qed.

Lemma dall_range high low : srange 64 (dall high low).
Proof. by apply sgn_range. Qed.

Lemma dall_s64 high low a : (forall n, 0 <= n < 64 -> Z.testbit (dall high low) n = Z.testbit a n) -> dall high low = s64 a.
Proof. intros H. rewrite <- (sgn_small 64 (dall high low)) by (done || apply dall_range). by apply s64_bits. Qed.

(** A fact about the numbers below [n], by trying them all *)
Lemma below_forall (P : Z -> Prop) `{forall b, Decision (P b)} n :
  forallb (fun b => bool_decide (P b)) (seqZ 0 n) = true -> forall b, 0 <= b < n -> P b.
Proof.
  rewrite forallb_forall. intros Hall b Hb. apply (bool_decide_eq_true (P b)), Hall.
  apply list_elem_of_In, elem_of_seqZ. lia.
Qed.

Lemma bit_5 b : 0 <= b < 64 -> negb (Z.land b 32 =? 0) = (32 <=? b).
Proof. revert b. apply (below_forall _). vm_compute. reflexivity. Qed.

(** The bits of the parts of an operand; a signed word repeats its sign bit. *)
Lemma sgn_bits w z n : 0 < w -> 0 <= n -> Z.testbit (sgn w z) n = Z.testbit z (Z.min n (w - 1)).
Proof.
  intros Hw Hn. destruct (Z.lt_ge_cases n w) as [H|H]; [rewrite sgn_bits_low by lia; f_equal; lia|].
  rewrite Z.min_r by lia. rewrite <- (sgn_bits_low w z (w - 1)) by lia.
  pose proof (sgn_range w z Hw) as Hr. unfold srange in Hr. set (x := sgn w z) in *.
  assert (2 ^ (w - 1) * 2 ^ (n - (w - 1)) = 2 ^ n) as Ep by (rewrite <- Z.pow_add_r by lia; f_equal; lia).
  rewrite !Z.testbit_eqb by lia. pose proof (Z.pow_pos_nonneg 2 (w - 1) ltac:(lia) ltac:(lia)).
  destruct (Z.lt_ge_cases x 0).
  - assert (x / 2 ^ (w - 1) = -1) as -> by (symmetry; apply (Z.div_unique _ _ _ (x + 2 ^ (w - 1))); lia).
    assert (x / 2 ^ n = -1) as -> by (symmetry; apply (Z.div_unique _ _ _ (x + 2 ^ n)); nia). done.
  - rewrite !Z.div_small by nia. done.
Qed.

Lemma signed_bits a n : srange 64 a -> 63 <= n -> Z.testbit a n = Z.testbit a 63.
Proof. intros Ha Hn. rewrite <- (sgn_small 64 a) by (done || lia). rewrite !sgn_bits by lia. f_equal. lia. Qed.

Lemma dlow_bits a n : Z.testbit (dlow a) n = (n <? 32) && Z.testbit a n.
Proof. by apply wrap_bits. Qed.
Lemma uhigh_bits a n : 0 <= n -> Z.testbit (uhigh a) n = (n <? 32) && Z.testbit a (n + 32).
Proof. intros Hn. unfold uhigh. by rewrite wrap_bits, Z.shiftr_spec. Qed.
Lemma dhigh_bits a n : srange 64 a -> 0 <= n -> Z.testbit (dhigh a) n = Z.testbit a (n + 32).
Proof.
  intros Ha Hn. unfold dhigh. rewrite sgn_bits, Z.shiftr_spec by lia.
  destruct (Z.lt_ge_cases n 32); [f_equal; lia|]. rewrite Z.min_r, (signed_bits a (n + 32)) by (done || lia). done.
Qed.

Lemma ashldi3_correct a b : srange 64 a -> 0 <= b < 64 -> __ashldi3 a b = s64 (Z.shiftl a b).
Proof.
  intros Ha Hb. unfold __ashldi3. rewrite bit_5 by done. destruct (Z.leb_spec 32 b).
  - apply dall_s64. intros n Hn. rewrite dall_bits, Z.shiftl_spec by lia. destruct (Z.ltb_spec n 32).
    + by rewrite Z.bits_0, Z.testbit_neg_r by lia.
    + rewrite sgn_bits_low, Z.shiftl_spec, dlow_bits by lia. replace (n - 32 - (b - 32) <? 32) with true by lia.
      cbn [andb]. f_equal. lia.
  - destruct (Z.eqb_spec b 0) as [->|Hb0]; [by rewrite Z.shiftl_0_r, sgn_small|].
    apply dall_s64. intros n Hn. rewrite dall_bits, Z.shiftl_spec by lia. destruct (Z.ltb_spec n 32).
    + rewrite wrap_bits, Z.shiftl_spec, dlow_bits by lia. replace (n <? 32) with true by lia. by replace (n - b <? 32) with true by lia.
    + rewrite sgn_bits_low, Z.lor_spec, Z.shiftl_spec, Z.shiftr_spec, dlow_bits by lia.
      destruct (Z.lt_ge_cases (n - 32) b).
      * rewrite (Z.testbit_neg_r (dhigh a)) by lia. replace (n - 32 + (32 - b) <? 32) with true by lia. cbn. f_equal. lia.
      * rewrite dhigh_bits by (done || lia). replace (n - 32 + (32 - b) <? 32) with false by lia.
        cbn [andb]. rewrite orb_false_r. f_equal. lia.
Qed.

Lemma lshrdi3_correct a b : srange 64 a -> 0 <= b < 64 -> __lshrdi3 a b = s64 (Z.shiftr (u64 a) b).
Proof.
  intros Ha Hb. unfold __lshrdi3. rewrite bit_5 by done. destruct (Z.leb_spec 32 b).
  - apply dall_s64. intros n Hn. rewrite dall_bits, (Z.shiftr_spec (u64 a)), (wrap_bits 64) by lia. destruct (Z.ltb_spec n 32).
    + rewrite Z.shiftr_spec, uhigh_bits by lia. replace (n + b <? 64) with (n + (b - 32) <? 32) by lia.
      f_equal. f_equal. lia.
    + rewrite Z.bits_0. by replace (n + b <? 64) with false by lia.
  - destruct (Z.eqb_spec b 0) as [->|Hb0]; [by rewrite Z.shiftr_0_r, sgn_wrap, sgn_small|].
    apply dall_s64. intros n Hn. rewrite dall_bits, (Z.shiftr_spec (u64 a)), (wrap_bits 64) by lia. destruct (Z.ltb_spec n 32).
    + rewrite Z.lor_spec, wrap_bits, Z.shiftl_spec, Z.shiftr_spec, dlow_bits by lia. replace (n <? 32) with true by lia.
      replace (n + b <? 64) with true by lia. cbn [andb]. destruct (Z.lt_ge_cases (n + b) 32).
      * rewrite (Z.testbit_neg_r (uhigh a)) by lia. by replace (n + b <? 32) with true by lia.
      * rewrite uhigh_bits by lia. replace (n - (32 - b) <? 32) with true by lia.
        replace (n + b <? 32) with false by lia. cbn [andb]. rewrite orb_false_r. f_equal. lia.
    + rewrite Z.shiftr_spec, uhigh_bits by lia. replace (n + b <? 64) with (n - 32 + b <? 32) by lia.
      f_equal. f_equal. lia.
Qed.

Lemma ashrdi3_correct a b : srange 64 a -> 0 <= b < 64 -> __ashrdi3 a b = Z.shiftr a b.
Proof.
  intros Ha Hb. assert (srange 64 (Z.shiftr a b)) as Hr.
  { unfold srange in *. rewrite Z.shiftr_div_pow2 by lia. pose proof (Z.pow_pos_nonneg 2 b ltac:(lia) ltac:(lia)).
    split; [apply Z.div_le_lower_bound; nia|apply Z.div_lt_upper_bound; nia]. }
  unfold __ashrdi3. rewrite bit_5 by done. rewrite <- (sgn_small 64 (Z.shiftr a b)) by (done || lia).
  destruct (Z.leb_spec 32 b).
  - apply dall_s64. intros n Hn. rewrite dall_bits, (Z.shiftr_spec a) by lia. destruct (Z.ltb_spec n 32).
    + rewrite wrap_bits, Z.shiftr_spec, dhigh_bits by (done || lia). replace (n <? 32) with true by lia.
      cbn [andb]. f_equal. lia.
    + rewrite Z.shiftr_spec, dhigh_bits by (done || lia). rewrite (signed_bits a (n + b)), (signed_bits a (_ + _)) by (done || lia). done.
  - destruct (Z.eqb_spec b 0) as [->|Hb0]; [by rewrite Z.shiftr_0_r, sgn_small|].
    apply dall_s64. intros n Hn. rewrite dall_bits, (Z.shiftr_spec a) by lia. destruct (Z.ltb_spec n 32).
    + rewrite Z.lor_spec, wrap_bits, Z.shiftl_spec, Z.shiftr_spec, dlow_bits by lia. replace (n <? 32) with true by lia.
      cbn [andb]. destruct (Z.lt_ge_cases (n + b) 32).
      * rewrite (Z.testbit_neg_r (dhigh a)) by lia. by replace (n + b <? 32) with true by lia.
      * rewrite dhigh_bits by (done || lia). replace (n + b <? 32) with false by lia.
        cbn [andb]. rewrite orb_false_r. f_equal. lia.
    + rewrite Z.shiftr_spec, dhigh_bits by (done || lia). f_equal. lia.
Qed.

(** ** Multiplication *)
Lemma dall_value high low : urange 32 low -> dall high low = s64 (high * 2 ^ 32 + low).
Proof.
  intros Hl. unfold urange in Hl. apply dall_s64. intros n Hn. rewrite dall_bits by done. destruct (Z.ltb_spec n 32).
  - rewrite <- (Z.mod_pow2_bits_low (high * 2 ^ 32 + low) 32 n) by lia.
    by rewrite (Z.add_comm _ low), Z.mod_add, Z.mod_small by lia.
  - replace n with (n - 32 + 32) at 2 by lia. rewrite <- Z.div_pow2_bits by lia.
    by rewrite Z.div_add_l, Z.div_small, Z.add_0_r by lia.
Qed.

Lemma dall_congr h h' low : u32 h = u32 h' -> dall h low = dall h' low.
Proof.
  intros H. unfold dall. apply s64_bits. intros n Hn. rewrite !Z.lor_spec, !Z.shiftl_spec by lia. f_equal.
  destruct (Z.lt_ge_cases n 32); [by rewrite !Z.testbit_neg_r by lia|].
  pose proof (f_equal (fun x => Z.testbit x (n - 32)) H) as Hb. cbv beta in Hb. rewrite !wrap_bits in Hb by lia.
  by replace (n - 32 <? 32) with true in Hb by lia.
Qed.

Lemma wrap_sgn_add x y : u32 (s32 x + y) = u32 (x + y).
Proof. by rewrite <- wrap_add_l, wrap_sgn, wrap_add_l by lia. Qed.

Lemma mask_16 a : Z.land a 0xFFFF = a mod 2 ^ 16.
Proof. change 0xFFFF with (Z.ones 16). by apply Z.land_ones. Qed.

Lemma muldsi3_spec a b : urange 32 a -> urange 32 b -> __muldsi3 a b = s64 (a * b).
Proof.
  unfold urange. intros Ha Hb. unfold __muldsi3. rewrite !mask_16, !Z.shiftr_div_pow2, !Z.shiftl_mul_pow2 by lia.
  pose proof (Z.div_mod a (2 ^ 16) ltac:(lia)) as Ea. pose proof (Z.mod_pos_bound a (2 ^ 16) ltac:(lia)).
  pose proof (Z.div_mod b (2 ^ 16) ltac:(lia)) as Eb. pose proof (Z.mod_pos_bound b (2 ^ 16) ltac:(lia)).
  set (ah := a / 2 ^ 16) in *. set (al := a mod 2 ^ 16) in *. set (bh := b / 2 ^ 16) in *. set (bl := b mod 2 ^ 16) in *.
  assert (forall x y, 0 <= x < 2 ^ 16 -> 0 <= y < 2 ^ 16 -> 0 <= x * y <= (2 ^ 16 - 1) * (2 ^ 16 - 1)) as Hp by (intros; nia).
  assert (0 <= ah < 2 ^ 16 /\ 0 <= bh < 2 ^ 16) as [Hah Hbh] by lia.
  pose proof (Hp al bl ltac:(lia) ltac:(lia)) as P0. pose proof (Hp ah bl ltac:(lia) ltac:(lia)) as P1.
  pose proof (Hp bh al ltac:(lia) ltac:(lia)) as P2.
  replace (a * b) with (al * bl + 2 ^ 16 * (ah * bl) + 2 ^ 16 * (bh * al) + 2 ^ 32 * (ah * bh)) by (rewrite Ea, Eb; ring).
  set (p0 := al * bl) in *. set (p1 := ah * bl) in *. set (p2 := bh * al) in *. set (p3 := ah * bh) in *.
  clearbody p0 p1 p2 p3.
  assert (forall x, 0 <= x < 2 ^ 32 -> u32 x = x) as W by (intros; by apply wrap_small).
  pose proof (Z.div_mod p0 (2 ^ 16) ltac:(lia)). pose proof (Z.mod_pos_bound p0 (2 ^ 16) ltac:(lia)).
  rewrite (W p0) by lia. set (t1 := p0 / 2 ^ 16 + p1). rewrite !(W t1) by (unfold t1; lia).
  pose proof (Z.div_mod t1 (2 ^ 16) ltac:(lia)). pose proof (Z.mod_pos_bound t1 (2 ^ 16) ltac:(lia)).
  set (l1 := p0 mod 2 ^ 16 + t1 mod 2 ^ 16 * 2 ^ 16). rewrite !(W l1) by (unfold l1; lia).
  assert (l1 / 2 ^ 16 = t1 mod 2 ^ 16) as -> by (symmetry; apply (Z.div_unique _ _ _ (p0 mod 2 ^ 16)); unfold l1; lia).
  assert (l1 mod 2 ^ 16 = p0 mod 2 ^ 16) as -> by (symmetry; apply (Z.mod_unique _ _ (t1 mod 2 ^ 16)); unfold l1; lia).
  set (t2 := t1 mod 2 ^ 16 + p2). rewrite !(W t2) by (unfold t2; lia).
  pose proof (Z.div_mod t2 (2 ^ 16) ltac:(lia)). pose proof (Z.mod_pos_bound t2 (2 ^ 16) ltac:(lia)).
  set (l2 := p0 mod 2 ^ 16 + t2 mod 2 ^ 16 * 2 ^ 16). rewrite !(W l2) by (unfold l2; lia).
  rewrite (dall_congr _ (t1 / 2 ^ 16 + t2 / 2 ^ 16 + p3)).
  2:{ rewrite wrap_sgn, wrap_sgn_add, <- !Z.add_assoc, wrap_sgn_add by lia. done. }
  rewrite dall_value by (unfold urange, l2; lia). f_equal. unfold l2. lia.
Qed.

Lemma dparts a : srange 64 a -> a = dhigh a * 2 ^ 32 + dlow a.
Proof.
  unfold srange. intros Ha. unfold dhigh, dlow, wrap. rewrite Z.shiftr_div_pow2 by lia.
  pose proof (Z.div_mod a (2 ^ 32) ltac:(lia)). rewrite sgn_small; [lia|lia|]. unfold srange.
  split; [apply Z.div_le_lower_bound; lia|apply Z.div_lt_upper_bound; lia].
Qed.

Lemma dlow_range a : urange 32 (dlow a).
Proof. by apply wrap_range. Qed.

Lemma muldi3_correct a b : srange 64 a -> srange 64 b -> __muldi3 a b = s64 (a * b).
Proof.
  intros Ha Hb. unfold __muldi3. rewrite muldsi3_spec by apply dlow_range. set (r := s64 (dlow a * dlow b)).
  assert (srange 64 r) as Hr by by apply sgn_range.
  set (X := dhigh a * dlow b + dlow a * dhigh b).
  rewrite (dall_congr _ (dhigh r + X)) by by rewrite wrap_sgn. rewrite dall_value by apply dlow_range.
  replace ((dhigh r + X) * 2 ^ 32 + dlow r) with (r + X * 2 ^ 32) by (rewrite (dparts r Hr) at 1; ring).
  apply sgn_eq. unfold r. rewrite <- wrap_add_l, wrap_sgn, wrap_add_l by lia.
  rewrite (dparts a Ha) at 2. rewrite (dparts b Hb) at 2.
  replace ((dhigh a * 2 ^ 32 + dlow a) * (dhigh b * 2 ^ 32 + dlow b))
    with (dlow a * dlow b + X * 2 ^ 32 + dhigh a * dhigh b * 2 ^ 64) by (unfold X; ring).
  symmetry. apply wrap_shift.
Qed.

(** ** Comparison *)
Lemma cmpdi2_correct a b : srange 64 a -> srange 64 b ->
  __cmpdi2 a b = match a ?= b with Lt => 0 | Eq => 1 | Gt => 2 end.
Proof.
  intros Ha Hb. rewrite (dparts a Ha) at 2. rewrite (dparts b Hb) at 2. unfold __cmpdi2.
  pose proof (dlow_range a). pose proof (dlow_range b). unfold urange in *.
  repeat case_cmp; case Z.compare_spec; lia.
Qed.

Lemma ucmpdi2_correct a b : urange 64 a -> urange 64 b ->
  __ucmpdi2 a b = match a ?= b with Lt => 0 | Eq => 1 | Gt => 2 end.
Proof.
  assert (forall a, urange 64 a -> a = uhigh a * 2 ^ 32 + dlow a) as Hparts.
  { unfold urange. intros x Hx. unfold uhigh, dlow, wrap. rewrite Z.shiftr_div_pow2 by lia.
    pose proof (Z.div_mod x (2 ^ 32) ltac:(lia)).
    rewrite (Z.mod_small (x / 2 ^ 32)); [lia|]. split; [apply Z.div_pos; lia|apply Z.div_lt_upper_bound; lia]. }
  intros Ha Hb. rewrite (Hparts a Ha) at 2. rewrite (Hparts b Hb) at 2. unfold __ucmpdi2.
  pose proof (dlow_range a). pose proof (dlow_range b). unfold urange in *.
  repeat case_cmp; case Z.compare_spec; lia.
Qed.

(** ** Overflow *)
Definition in_range (N z : Z) : bool := (- 2 ^ (N - 1) <=? z) && (z <? 2 ^ (N - 1)).

Section overflow.
Variable N : Z.
Hypothesis HN : 2 <= N.
Let M := 2 ^ (N - 1).

Lemma M_bound : 2 <= M.
Proof. unfold M. change 2 with (2 ^ 1) at 1. apply Z.pow_le_mono_r; lia. Qed.

Lemma in_range_srange z : in_range N z = true <-> srange N z.
Proof. unfold in_range, srange. lia. Qed.

Lemma fix_MIN_value : fix_MIN N = - M.
Proof.
  pose proof M_bound. unfold fix_MIN. rewrite Z.shiftl_1_l. fold M.
  rewrite (sgn_eq N M (- M)); [apply sgn_small; [lia|unfold srange; fold M; lia]|].
  replace M with (- M + 1 * 2 ^ N) at 1; [apply wrap_shift|]. rewrite (pow2_half N) by lia. fold M. lia.
Qed.

Lemma fix_MAX_value : fix_MAX N = M - 1.
Proof. unfold fix_MAX. rewrite fix_MIN_value. unfold Z.lnot. lia. Qed.

Lemma sign_word a : srange N a -> Z.shiftr a (N - 1) = if a <? 0 then -1 else 0.
Proof.
  unfold srange. fold M. intros Ha. pose proof M_bound. rewrite Z.shiftr_div_pow2 by lia. fold M.
  destruct (Z.ltb_spec a 0); [symmetry; apply (Z.div_unique _ _ _ (a + M)); lia|apply Z.div_small; lia].
Qed.

Lemma fix_abs_value a : srange N a -> a <> - M -> fix_abs N a = Z.abs a.
Proof.
  intros Ha Hne. unfold fix_abs. rewrite (sign_word a Ha). unfold srange in Ha. fold M in Ha.
  destruct (Z.ltb_spec a 0).
  - rewrite Z.lxor_m1_r. unfold Z.lnot. rewrite sgn_small; [lia|lia|unfold srange; fold M; lia].
  - rewrite Z.lxor_0_r, Z.sub_0_r, sgn_small; [lia|lia|done].
Qed.

(** When the absolute values are at least 2, a division tells whether the
    product fits. *)
Lemma product_fits a b : srange N a -> srange N b -> a <> - M -> b <> - M -> 2 <= Z.abs a -> 2 <= Z.abs b ->
  in_range N (a * b) = negb (if Z.shiftr a (N - 1) =? Z.shiftr b (N - 1)
    then sgn N (Z.quot (fix_MAX N) (fix_abs N b)) <? fix_abs N a
    else sgn N (Z.quot (fix_MIN N) (sgn N (- fix_abs N b))) <? fix_abs N a).
Proof.
  intros Ha Hb Ha0 Hb0 Ha2 Hb2. rewrite !sign_word, !fix_abs_value, fix_MAX_value, fix_MIN_value by done.
  unfold srange in Ha, Hb. fold M in Ha, Hb. pose proof M_bound.
  assert (Z.abs (a * b) = Z.abs a * Z.abs b) as Eabs by apply Z.abs_mul.
  assert (forall c, 0 <= c <= M -> (c / Z.abs b <? Z.abs a) = (c <? Z.abs (a * b))) as Hdiv.
  { intros c Hc. rewrite Eabs. pose proof (Z.div_mod c (Z.abs b) ltac:(lia)).
    pose proof (Z.mod_pos_bound c (Z.abs b) ltac:(lia)). apply eq_iff_eq_true. rewrite !Z.ltb_lt. nia. }
  assert (forall c, 0 <= c <= M -> srange N (c / Z.abs b)) as Hsm.
  { intros c Hc. unfold srange. fold M. split; [|apply Z.div_lt_upper_bound; nia].
    pose proof (Z.div_pos c (Z.abs b) ltac:(lia) ltac:(lia)). lia. }
  rewrite (sgn_small N (- Z.abs b)) by (try (unfold srange; fold M); lia).
  rewrite Z.quot_opp_opp, !Z.quot_div_nonneg, !sgn_small by (try apply Hsm; lia). rewrite !Hdiv by lia.
  unfold in_range. fold M. destruct (Z.ltb_spec a 0), (Z.ltb_spec b 0); cbn [Z.eqb Pos.eqb]; nia.
Qed.

Lemma small_product a b : srange N a -> srange N b -> a <> - M -> b <> - M -> Z.abs a < 2 \/ Z.abs b < 2 ->
  in_range N (a * b) = true.
Proof. unfold in_range, srange. fold M. intros. pose proof M_bound. nia. Qed.

Lemma extreme_product a : srange N a -> in_range N (- M * a) = negb (negb (a =? 0) && negb (a =? 1)).
Proof. unfold in_range, srange. fold M. intros. pose proof M_bound. destruct (Z.eqb_spec a 0), (Z.eqb_spec a 1); cbn; nia. Qed.
End overflow.

Lemma in_range_sgn N z : 2 <= N -> in_range N z = true -> sgn N z = z.
Proof. intros HN Hz. apply sgn_small; [lia|]. by apply in_range_srange. Qed.

(** A sum or a difference is off by at most one turn. *)
Lemma sgn_turn N z : 2 <= N -> - 2 * 2 ^ (N - 1) <= z < 2 * 2 ^ (N - 1) ->
  sgn N z = if in_range N z then z else if z <? 0 then z + 2 * 2 ^ (N - 1) else z - 2 * 2 ^ (N - 1).
Proof.
  intros HN Hz. destruct (in_range N z) eqn:E; [by apply in_range_sgn|]. unfold in_range in E.
  rewrite <- (pow2_half N) by lia.
  destruct (Z.ltb_spec z 0).
  - rewrite (sgn_eq N z (z + 2 ^ N)) by (replace (z + 2 ^ N) with (z + 1 * 2 ^ N) by lia; by rewrite wrap_shift).
    apply sgn_small; [lia|]. unfold srange. rewrite (pow2_half N) by lia. lia.
  - rewrite (sgn_eq N z (z - 2 ^ N)) by (replace (z - 2 ^ N) with (z + -1 * 2 ^ N) by lia; by rewrite wrap_shift).
    apply sgn_small; [lia|]. unfold srange. rewrite (pow2_half N) by lia. lia.
Qed.

Lemma mulo_spec N a b : 2 <= N -> srange N a -> srange N b ->
  __muloXi4 N a b = (sgn N (a * b), b2z (negb (in_range N (a * b)))) /\
  __mulvXi3 N a b = (if in_range N (a * b) then Some (sgn N (a * b)) else None).
Proof.
  intros HN Ha Hb. unfold __muloXi4, __mulvXi3. cbv zeta. rewrite (fix_MIN_value N HN).
  destruct (Z.eqb_spec a (- 2 ^ (N - 1))) as [->|Ha0].
  { rewrite extreme_product by done. destruct (b =? 0), (b =? 1); done. }
  destruct (Z.eqb_spec b (- 2 ^ (N - 1))) as [->|Hb0].
  { rewrite (Z.mul_comm a), extreme_product by done. destruct (a =? 0), (a =? 1); done. }
  destruct ((fix_abs N a <? 2) || (fix_abs N b <? 2)) eqn:E.
  - rewrite !fix_abs_value in E by done. rewrite small_product by (done || lia). done.
  - rewrite !fix_abs_value in E by done. rewrite product_fits, fix_MIN_value by (done || lia).
    rewrite negb_involutive. destruct (Z.shiftr a _ =? _); (split; [done|]); by destruct (_ <? fix_abs N a).
Qed.

(** C32: arithmetic with overflow detection, at 32 and 64 bits: __mulo returns
    the wrapped product and sets the flag exactly when the product does not
    fit; mulv, addv, subv, negv and absv return the exact result when it fits
    and abort otherwise. *)
Theorem checked_arithmetic N a b : N = 32 \/ N = 64 -> srange N a -> srange N b ->
  let checked z := if in_range N z then Some z else None in
  __muloXi4 N a b = (sgn N (a * b), b2z (negb (in_range N (a * b)))) /\
  __mulvXi3 N a b = checked (a * b) /\ addvXi3 N a b = checked (a + b) /\ subvXi3 N a b = checked (a - b) /\
  negvXi2 N a = checked (- a) /\ absvXi2 N a = checked (Z.abs a).
Proof.
  intros HN' Ha Hb checked. assert (2 <= N) as HN by lia. destruct (mulo_spec N a b HN Ha Hb) as [H1 H2].
  assert (forall z, (if in_range N z then Some (sgn N z) else None) = checked z) as Hck.
  { intros z. unfold checked. destruct (in_range N z) eqn:E; [|done]. by rewrite in_range_sgn. }
  split; [done|]. split; [by rewrite H2|].
  unfold addvXi3, subvXi3, negvXi2, absvXi2. rewrite fix_MIN_value by done. unfold srange in Ha, Hb.
  pose proof (M_bound N HN). unfold checked. split; [|split; [|split]].
  - rewrite sgn_turn by lia. unfold in_range. repeat (case_cmp; cbn [andb] in *); try done; lia.
  - rewrite sgn_turn by lia. unfold in_range. repeat (case_cmp; cbn [andb] in *); try done; lia.
  - destruct (Z.eqb_spec a (- 2 ^ (N - 1))) as [E|E]; unfold in_range; [by replace (- a <? _) with false by lia; rewrite andb_false_r|].
    replace (_ && _) with true by lia. by rewrite sgn_small by (unfold srange; lia).
  - destruct (Z.eqb_spec a (- 2 ^ (N - 1))) as [E|E]; unfold in_range.
    + by replace (Z.abs a <? _) with false by lia; rewrite andb_false_r.
    + replace (_ && _) with true by lia. by rewrite fix_abs_value.
Qed.

Lemma checked_arithmetic_witness :
  (32 = 32 \/ 32 = 64) /\ srange 32 (-46341) /\ srange 32 46341 /\
  __mulosi4 (-46341) 46341 = (s32 (-46341 * 46341), 1) /\ __mulvsi3 (-46341) 46341 = None.
Proof.
  assert (srange 32 (-46341)) as Ha by (unfold srange; lia). assert (srange 32 46341) as Hb by (unfold srange; lia).
  split; [by left|]. split; [done|]. split; [done|].
  destruct (checked_arithmetic 32 (-46341) 46341 (or_introl eq_refl) Ha Hb) as (H1 & H2 & _).
  split; [exact H1|exact H2].
Defined.

(** C33: the routines for double words compute on their halves what the
    64-bit operation gives: the two shifts to the right, the one to the left,
    the product and the comparisons, for every count below 64 and all operands. *)
Theorem dword_ops_correct a b n : srange 64 a -> srange 64 b -> 0 <= n < 64 ->
  let order (c : comparison) := match c with Lt => 0 | Eq => 1 | Gt => 2 end in
  __ashldi3 a n = s64 (Z.shiftl a n) /\ __lshrdi3 a n = s64 (Z.shiftr (u64 a) n) /\
  __ashrdi3 a n = Z.shiftr a n /\ __muldi3 a b = s64 (a * b) /\
  __cmpdi2 a b = order (a ?= b) /\ __ucmpdi2 (u64 a) (u64 b) = order (u64 a ?= u64 b).
Proof.
  intros Ha Hb Hn order. split; [by apply ashldi3_correct|]. split; [by apply lshrdi3_correct|].
  split; [by apply ashrdi3_correct|]. split; [by apply muldi3_correct|].
  split; [by apply cmpdi2_correct|]. apply ucmpdi2_correct; by apply wrap_range.
Qed.

Lemma dword_ops_correct_witness :
  srange 64 (-5000000000) /\ srange 64 3000000001 /\ 0 <= 33 < 64 /\
  __ashrdi3 (-5000000000) 33 = -1 /\ __muldi3 (-5000000000) 3000000001 = s64 (-5000000000 * 3000000001).
Proof.
  assert (srange 64 (-5000000000)) as Ha by (unfold srange; lia).
  assert (srange 64 3000000001) as Hb by (unfold srange; lia).
  split; [done|]. split; [done|]. split; [lia|].
  destruct (dword_ops_correct (-5000000000) 3000000001 33 Ha Hb ltac:(lia)) as (_ & _ & H3 & H4 & _).
  split; [exact H3|exact H4].
Defined.
