(* ===== verification/BitOps.v ===== *)
(** * BitOps: counting and swapping bits, src/compile-rt-builtins

    The leading and trailing zeros of a word by halving, the population count
    by adding ever wider fields, the parity by folding, and the reversal of
    bytes. The routines for 64 bits work on the two halves and call the
    compiler's built-in for 32 bits, [clzsi] and [ctzsi] of int_types.h, which
    is a parameter here; __clzsi2 and __ctzsi2 have its contract. *)
From S2P Require Import Prelude IntOps.
From Stdlib Require Import Ring.

(** ** Definitions *)

(** A comparison as the int of C, [x & mask] compared with 0. *)
Definition no_bits (x mask : Z) : Z := b2z (Z.land x mask =? 0).

Definition __clzsi2 (a : Z) : Z :=
  let x := u32 a in
  let t := Z.shiftl (no_bits x 0xFFFF0000) 4 in
  let x := Z.shiftr x (16 - t) in
  let r := t in
  let t := Z.shiftl (no_bits x 0xFF00) 3 in
  let x := Z.shiftr x (8 - t) in
  let r := r + t in
  let t := Z.shiftl (no_bits x 0xF0) 2 in
  let x := Z.shiftr x (4 - t) in
  let r := r + t in
  let t := Z.shiftl (no_bits x 0xC) 1 in
  let x := Z.shiftr x (2 - t) in
  let r := r + t in
  s32 (u32 (r + Z.land (u32 (2 - x)) (u32 (- no_bits x 2)))).

Definition __ctzsi2 (a : Z) : Z :=
  let x := u32 a in
  let t := Z.shiftl (no_bits x 0xFFFF) 4 in
  let x := Z.shiftr x t in
  let r := t in
  let t := Z.shiftl (no_bits x 0xFF) 3 in
  let x := Z.shiftr x t in
  let r := r + t in
  let t := Z.shiftl (no_bits x 0xF) 2 in
  let x := Z.shiftr x t in
  let r := r + t in
  let t := Z.shiftl (no_bits x 0x3) 1 in
  let x := Z.shiftr x t in
  let x := Z.land x 3 in
  let r := r + t in
  s32 (u32 (r + Z.land (u32 (2 - Z.shiftr x 1)) (u32 (- no_bits x 1)))).

Section builtin.
(** [__builtin_clz] and [__builtin_ctz] of an unsigned int *)
Variables clzsi ctzsi : Z -> Z.

Definition __clzdi2 (a : Z) : Z :=
  let f := - b2z (dhigh a =? 0) in
  clzsi (Z.lor (Z.land (u32 (dhigh a)) (u32 (Z.lnot f))) (Z.land (dlow a) (u32 f))) + Z.land f 32.
Definition __ctzdi2 (a : Z) : Z :=
  let f := - b2z (dlow a =? 0) in
  ctzsi (Z.lor (Z.land (u32 (dhigh a)) (u32 f)) (Z.land (dlow a) (u32 (Z.lnot f)))) + Z.land f 32.
Definition __ffssi2 (a : Z) : Z := if a =? 0 then 0 else ctzsi (u32 a) + 1.
Definition __ffsdi2 (a : Z) : Z :=
  if dlow a =? 0 then if dhigh a =? 0 then 0 else ctzsi (u32 (dhigh a)) + (1 + 32)
  else ctzsi (dlow a) + 1.
End builtin.

Definition __popcountsi2 (a : Z) : Z :=
  let x := u32 a in
  let x := u32 (x - Z.land (Z.shiftr x 1) 0x55555555) in
  let x := u32 (Z.land (Z.shiftr x 2) 0x33333333 + Z.land x 0x33333333) in
  let x := Z.land (u32 (x + Z.shiftr x 4)) 0x0F0F0F0F in
  let x := u32 (x + Z.shiftr x 16) in
  Z.land (u32 (x + Z.shiftr x 8)) 0x3F.

Definition __popcountdi2 (a : Z) : Z :=
  let x2 := u64 a in
  let x2 := u64 (x2 - Z.land (Z.shiftr x2 1) 0x5555555555555555) in
  let x2 := u64 (Z.land (Z.shiftr x2 2) 0x3333333333333333 + Z.land x2 0x3333333333333333) in
  let x2 := Z.land (u64 (x2 + Z.shiftr x2 4)) 0x0F0F0F0F0F0F0F0F in
  let x := u32 (u64 (x2 + Z.shiftr x2 32)) in
  let x := u32 (x + Z.shiftr x 16) in
  Z.land (u32 (x + Z.shiftr x 8)) 0x7F.

(** The three foldings that both parity routines end with. *)
Definition parity_fold (x : Z) : Z :=
  let x := Z.lxor x (Z.shiftr x 16) in
  let x := Z.lxor x (Z.shiftr x 8) in
  let x := Z.lxor x (Z.shiftr x 4) in
  Z.land (Z.shiftr 0x6996 (Z.land x 0xF)) 1.
Definition __paritysi2 (a : Z) : Z := parity_fold (u32 a).
Definition __paritydi2 (a : Z) : Z := parity_fold (Z.lxor (u32 (dhigh a)) (dlow a)).

Definition __bswapsi2 (u : Z) : Z :=
  Z.lor (Z.lor (Z.lor (Z.shiftr (Z.land u 0xff000000) 24) (Z.shiftr (Z.land u 0x00ff0000) 8))
    (u32 (Z.shiftl (Z.land u 0x0000ff00) 8))) (u32 (Z.shiftl (Z.land u 0x000000ff) 24)).
Definition __bswapdi2 (u : Z) : Z :=
  Z.lor (Z.lor (Z.lor (Z.lor (Z.lor (Z.lor (Z.lor
    (Z.shiftr (Z.land u 0xff00000000000000) 56) (Z.shiftr (Z.land u 0x00ff000000000000) 40))
    (Z.shiftr (Z.land u 0x0000ff0000000000) 24)) (Z.shiftr (Z.land u 0x000000ff00000000) 8))
    (u64 (Z.shiftl (Z.land u 0x00000000ff000000) 8))) (u64 (Z.shiftl (Z.land u 0x0000000000ff0000) 24)))
    (u64 (Z.shiftl (Z.land u 0x000000000000ff00) 40))) (u64 (Z.shiftl (Z.land u 0x00000000000000ff) 56)).

Example clz_ctz_small : (__clzsi2 0x00012340, __ctzsi2 0x00012340, __popcountsi2 (-1), __paritysi2 7) = (15, 6, 32, 1).
Proof. reflexivity. Qed.
Example bswap_small : (__bswapsi2 0x12345678, __bswapdi2 0x1122334455667788) = (0x78563412, 0x8877665544332211).
Proof. reflexivity. Qed.
Example popcountdi_small : (__popcountdi2 (-1), __popcountdi2 0x8000000000000001, __paritydi2 (2 ^ 40)) = (64, 2, 1).
Proof. reflexivity. Qed.

(** ** Leading zeros *)
Lemma no_bits_high x k : 0 <= k -> 0 <= x < 2 ^ (2 * k) -> no_bits x (Z.shiftl (Z.ones k) k) = b2z (x <? 2 ^ k).
Proof.
  intros Hk Hx. unfold no_bits. f_equal.
  assert (Z.land x (Z.shiftl (Z.ones k) k) = Z.shiftl (Z.shiftr x k) k) as ->.
  { rewrite <- (Z.mod_small x (2 ^ (2 * k))) at 2 by done. change (x mod 2 ^ (2 * k)) with (wrap (2 * k) x).
    apply Z.bits_inj'. intros n Hn. rewrite Z.land_spec, !Z.shiftl_spec by done.
    destruct (Z.lt_ge_cases n k); [rewrite !(Z.testbit_neg_r _ (n - k)) by lia; by rewrite andb_false_r|].
    rewrite Z.shiftr_spec, wrap_bits, Z.testbit_ones_nonneg by lia. replace (n - k + k) with n by lia.
    replace (n - k <? k) with (n <? 2 * k) by lia. by rewrite andb_comm. }
  rewrite Z.shiftr_div_pow2, Z.shiftl_mul_pow2 by lia. pose proof (Z.pow_pos_nonneg 2 k ltac:(lia) Hk).
  destruct (Z.ltb_spec x (2 ^ k)); [by rewrite Z.div_small by lia|].
  assert (1 <= x / 2 ^ k) by (apply Z.div_le_lower_bound; lia). apply Z.eqb_neq. nia.
Qed.

(** One halving: [t] more zeros, and the rest has its leading bit in the lower
    half. *)
Lemma clz_step x k j : 0 <= j -> k = 2 ^ j -> 0 < x < 2 ^ (2 * k) ->
  let t := Z.shiftl (no_bits x (Z.shiftl (Z.ones k) k)) j in
  let x' := Z.shiftr x (k - t) in
  0 < x' < 2 ^ k /\ 0 <= t <= k /\ t + (k - 1 - Z.log2 x') = 2 * k - 1 - Z.log2 x.
Proof.
  intros Hj Ek Hx t x'. assert (0 < k) by (subst k; apply Z.pow_pos_nonneg; lia).
  subst t x'. rewrite no_bits_high by lia. rewrite Z.shiftl_mul_pow2 by done. rewrite <- Ek.
  replace (2 ^ (2 * k)) with (2 ^ k * 2 ^ k) in Hx by (rewrite <- Z.pow_add_r by lia; f_equal; lia).
  destruct (Z.ltb_spec x (2 ^ k)) as [H'|H']; cbn [b2z].
  - replace (k - 1 * k) with 0 by lia. rewrite Z.shiftr_0_r. lia.
  - rewrite Z.mul_0_l, Z.sub_0_r. pose proof (Z.log2_shiftr x k ltac:(lia)) as Hl.
    pose proof (Z.log2_le_pow2 x k ltac:(lia)). rewrite Z.shiftr_div_pow2 in * by lia.
    assert (1 <= x / 2 ^ k) by (apply Z.div_le_lower_bound; lia).
    assert (x / 2 ^ k < 2 ^ k) by (apply Z.div_lt_upper_bound; lia). lia.
Qed.

Lemma clzsi2_spec a : urange 32 a -> a <> 0 -> __clzsi2 a = 31 - Z.log2 a.
Proof.
  intros Ha Ha0. unfold __clzsi2. rewrite (wrap_small 32 a Ha). cbv zeta. unfold urange in Ha.
  pose proof (clz_step a 16 4 ltac:(lia) eq_refl ltac:(lia)) as (H1 & B1 & E1).
  change (Z.shiftl (Z.ones 16) 16) with 0xFFFF0000 in *. set (t1 := Z.shiftl (no_bits a _) 4) in *.
  set (x1 := Z.shiftr a (16 - t1)) in *.
  pose proof (clz_step x1 8 3 ltac:(lia) eq_refl ltac:(lia)) as (H2 & B2 & E2).
  change (Z.shiftl (Z.ones 8) 8) with 0xFF00 in *. set (t2 := Z.shiftl (no_bits x1 _) 3) in *.
  set (x2 := Z.shiftr x1 (8 - t2)) in *.
  pose proof (clz_step x2 4 2 ltac:(lia) eq_refl ltac:(lia)) as (H3 & B3 & E3).
  change (Z.shiftl (Z.ones 4) 4) with 0xF0 in *. set (t3 := Z.shiftl (no_bits x2 _) 2) in *.
  set (x3 := Z.shiftr x2 (4 - t3)) in *.
  pose proof (clz_step x3 2 1 ltac:(lia) eq_refl ltac:(lia)) as (H4 & B4 & E4).
  change (Z.shiftl (Z.ones 2) 2) with 0xC in *. set (t4 := Z.shiftl (no_bits x3 _) 1) in *.
  set (x4 := Z.shiftr x3 (2 - t4)) in *.
  replace (Z.land _ _) with (1 - Z.log2 x4).
  2:{ assert (x4 = 1 \/ x4 = 2 \/ x4 = 3) as [->|[->| ->]] by lia; reflexivity. }
  assert (0 <= 1 - Z.log2 x4 <= 1) by (assert (x4 = 1 \/ x4 = 2 \/ x4 = 3) as [->|[->| ->]] by lia; done).
  word_lia.
Qed.

(** ** Trailing zeros *)

(** One halving: [t] zeros go, and there is a bit in the lower half of the
    rest. *)
Lemma ctz_step x k j : 0 <= j -> k = 2 ^ j -> x mod 2 ^ (2 * k) <> 0 ->
  let t := Z.shiftl (no_bits x (Z.ones k)) j in
  let x' := Z.shiftr x t in
  x' mod 2 ^ k <> 0 /\ 0 <= t <= k /\ x = x' * 2 ^ t.
Proof.
  intros Hj Ek Hx t x'. assert (0 < k) by (subst k; apply Z.pow_pos_nonneg; lia).
  assert (0 < 2 ^ k) by (apply Z.pow_pos_nonneg; lia).
  subst t x'. unfold no_bits. rewrite Z.land_ones, Z.shiftl_mul_pow2, <- Ek by lia.
  replace (2 * k) with (k + k) in Hx by lia. rewrite Z.pow_add_r, Z.rem_mul_r in Hx by lia.
  destruct (Z.eqb_spec (x mod 2 ^ k) 0) as [E|E]; cbn [b2z].
  - rewrite Z.mul_1_l, Z.shiftr_div_pow2 by lia. split; [nia|]. split; [lia|].
    pose proof (Z.div_mod x (2 ^ k) ltac:(lia)). lia.
  - rewrite Z.mul_0_l, Z.shiftr_0_r. lia.
Qed.

(** The position of the lowest bit that is set *)
Definition lowest_bit (a c : Z) : Prop :=
  0 <= c /\ Z.testbit a c = true /\ (forall i, 0 <= i < c -> Z.testbit a i = false).

Lemma lowest_bit_shift x c : 0 <= c -> Z.odd x = true -> lowest_bit (x * 2 ^ c) c.
Proof.
  intros Hc Hx. split; [done|]. split.
  - rewrite Z.mul_pow2_bits by done. by rewrite Z.sub_diag, Z.bit0_odd.
  - intros i Hi. by rewrite Z.mul_pow2_bits_low by lia.
Qed.

Lemma ctz_last x : x mod 2 ^ 2 <> 0 ->
  let u := Z.land (u32 (2 - Z.shiftr (Z.land x 3) 1)) (u32 (- no_bits (Z.land x 3) 1)) in
  0 <= u <= 1 /\ exists y, x = y * 2 ^ u /\ Z.odd y = true.
Proof.
  intros Hx. change 3 with (Z.ones 2). rewrite Z.land_ones by lia.
  pose proof (Z.div_mod x (2 ^ 2) ltac:(lia)) as E. pose proof (Z.mod_pos_bound x (2 ^ 2) ltac:(lia)).
  set (q := x / 2 ^ 2) in *. set (m := x mod 2 ^ 2) in *.
  assert (m = 1 \/ m = 2 \/ m = 3) as [-> |[-> | ->]] by lia.
  - change (Z.land _ _) with 0. split; [lia|]. exists x. split; [lia|]. rewrite E. by rewrite Z.odd_add, Z.odd_mul.
  - change (Z.land _ _) with 1. split; [lia|]. exists (2 * q + 1). split; [lia|]. by rewrite Z.odd_add, Z.odd_mul.
  - change (Z.land _ _) with 0. split; [lia|]. exists x. split; [lia|]. rewrite E. by rewrite Z.odd_add, Z.odd_mul.
Qed.

Lemma ctzsi2_spec a : urange 32 a -> a <> 0 -> lowest_bit a (__ctzsi2 a).
Proof.
  intros Ha Ha0. unfold __ctzsi2. rewrite (wrap_small 32 a Ha). cbv zeta. unfold urange in Ha.
  pose proof (ctz_step a 16 4 ltac:(lia) eq_refl) as (H1 & B1 & E1).
  { by rewrite Z.mod_small. }
  change (Z.ones 16) with 0xFFFF in *. set (t1 := Z.shiftl (no_bits a _) 4) in *. set (x1 := Z.shiftr a t1) in *.
  pose proof (ctz_step x1 8 3 ltac:(lia) eq_refl H1) as (H2 & B2 & E2).
  change (Z.ones 8) with 0xFF in *. set (t2 := Z.shiftl (no_bits x1 _) 3) in *. set (x2 := Z.shiftr x1 t2) in *.
  pose proof (ctz_step x2 4 2 ltac:(lia) eq_refl H2) as (H3 & B3 & E3).
  change (Z.ones 4) with 0xF in *. set (t3 := Z.shiftl (no_bits x2 _) 2) in *. set (x3 := Z.shiftr x2 t3) in *.
  pose proof (ctz_step x3 2 1 ltac:(lia) eq_refl H3) as (H4 & B4 & E4).
  change (Z.ones 2) with 3 in *. set (t4 := Z.shiftl (no_bits x3 _) 1) in *. set (x4 := Z.shiftr x3 t4) in *.
  destruct (ctz_last x4 H4) as (B5 & y & E5 & Hy). set (t5 := Z.land (u32 _) _) in *.
  rewrite wrap_small, sgn_small by (unfold urange, srange; lia).
  replace a with (y * 2 ^ (t1 + t2 + t3 + t4 + t5)); [by apply lowest_bit_shift; [lia|]|].
  rewrite !Z.pow_add_r by lia. rewrite E1, E2, E3, E4, E5. ring.
Qed.

(** ** Bytes *)
Definition byte_value (b : Z) : Prop := 0 <= b < 256.

(** A word of its bytes, the lowest first, and a mask that is the same in
    each byte *)
Definition le_val (bs : list Z) : Z := foldr (fun b h => h * 256 + b) 0 bs.
Definition byte_mask (n : nat) (m : Z) : Z := le_val (repeat m n).

Lemma le_val_range bs : Forall byte_value bs -> 0 <= le_val bs < 256 ^ Z.of_nat (length bs).
Proof.
  unfold byte_value. induction 1 as [|b bs Hb _ IH]; cbn [le_val foldr length]; [done|].
  fold (le_val bs). rewrite Nat2Z.inj_succ, Z.pow_succ_r by lia. lia.
Qed.

(** Every word is the word of its bytes. *)
Fixpoint le_bytes (n : nat) (x : Z) : list Z :=
  match n with O => [] | S n => x mod 256 :: le_bytes n (x / 256) end.

Lemma le_bytes_range n x : Forall byte_value (le_bytes n x).
Proof. revert x. induction n as [|n IH]; intros x; constructor; [apply Z.mod_pos_bound; lia|apply IH]. Qed.
Lemma le_bytes_length n x : length (le_bytes n x) = n.
Proof. revert x. induction n as [|n IH]; intros x; cbn; [done|by rewrite IH]. Qed.
Lemma le_val_bytes n x : 0 <= x < 256 ^ Z.of_nat n -> le_val (le_bytes n x) = x.
Proof.
  revert x. induction n as [|n IH]; intros x Hx; [cbn in *; lia|].
  rewrite Nat2Z.inj_succ, Z.pow_succ_r in Hx by lia. cbn [le_bytes le_val foldr]. fold (le_val (le_bytes n (x / 256))).
  rewrite IH; [pose proof (Z.div_mod x 256 ltac:(lia)); lia|].
  split; [apply Z.div_pos; lia|apply Z.div_lt_upper_bound; lia].
Qed.

Lemma shift_byte_bits h l n : byte_value l -> 0 <= n ->
  Z.testbit (h * 256 + l) n = if n <? 8 then Z.testbit l n else Z.testbit h (n - 8).
Proof.
  intros Hl Hn. unfold byte_value in Hl. change 256 with (2 ^ 8) in *. destruct (Z.ltb_spec n 8).
  - rewrite <- (Z.mod_pow2_bits_low (h * 2 ^ 8 + l) 8 n) by lia.
    by rewrite (Z.add_comm _ l), Z.mod_add, Z.mod_small by lia.
  - replace n with (n - 8 + 8) at 1 by lia. rewrite <- (Z.div_pow2_bits _ 8) by lia.
    by rewrite Z.div_add_l, Z.div_small, Z.add_0_r by lia.
Qed.

(** A mask that clears the bits shifted in from the next byte: the bytes are
    shifted one by one. *)
Lemma land_shift_cons h l M m k : byte_value l -> byte_value m -> 0 <= k <= 8 -> m < 2 ^ (8 - k) ->
  Z.land (Z.shiftr (h * 256 + l) k) (M * 256 + m) = Z.land (Z.shiftr h k) M * 256 + Z.land (Z.shiftr l k) m.
Proof.
  intros Hl Hm Hk Hmk. unfold byte_value in Hl, Hm.
  assert (m = wrap (8 - k) m) as Em by (rewrite wrap_small by (unfold urange; lia); done).
  assert (byte_value (Z.land (Z.shiftr l k) m)) as Hr.
  { assert (Z.land (Z.shiftr l k) m = wrap 8 (Z.land (Z.shiftr l k) m)) as ->.
    { apply Z.bits_inj'. intros n Hn. rewrite wrap_bits, Z.land_spec, Em, wrap_bits by lia.
      destruct (Z.ltb_spec n 8), (Z.ltb_spec n (8 - k)); cbn; rewrite ?andb_false_r; done || lia. }
    apply wrap_range. lia. }
  apply Z.bits_inj'. intros n Hn. rewrite shift_byte_bits, Z.land_spec, Z.shiftr_spec, !shift_byte_bits by (unfold byte_value; lia || done).
  destruct (Z.ltb_spec n 8).
  - rewrite Z.land_spec, Z.shiftr_spec by done. rewrite Em, !wrap_bits by lia.
    destruct (Z.ltb_spec n (8 - k)); cbn [andb]; [|by rewrite !andb_false_r].
    by replace (n + k <? 8) with true by lia.
  - rewrite Z.land_spec, Z.shiftr_spec by lia. replace (n + k <? 8) with false by lia. do 2 f_equal. lia.
Qed.

(** ** Population count *)
Fixpoint bit_count (n : nat) (x : Z) : Z :=
  match n with O => 0 | S n => b2z (Z.testbit x (Z.of_nat n)) + bit_count n x end.

Lemma bit_count_cons n h l : byte_value l -> bit_count (n + 8) (h * 256 + l) = bit_count n h + bit_count 8 l.
Proof.
  intros Hl. induction n as [|n IH].
  - cbn [bit_count Nat.add]. rewrite !shift_byte_bits by (done || lia). reflexivity.
  - change (S n + 8)%nat with (S (n + 8)). set (c := bit_count 8 l) in *. cbn [bit_count].
    rewrite IH, shift_byte_bits, Nat2Z.inj_add by (done || lia). change (Z.of_nat 8) with 8.
    destruct (Z.ltb_spec (Z.of_nat n + 8) 8); [lia|]. rewrite Z.add_simpl_r. lia.
Qed.

(** The three stages of both routines, on a word of [n] bytes *)
Definition pairs (n : nat) (x : Z) : Z := x - Z.land (Z.shiftr x 1) (byte_mask n 0x55).
Definition nibbles (n : nat) (x : Z) : Z := Z.land (Z.shiftr x 2) (byte_mask n 0x33) + Z.land x (byte_mask n 0x33).
Definition octets (n : nat) (x : Z) : Z := Z.land (x + Z.shiftr x 4) (byte_mask n 0x0F).

Lemma byte_mask_S n m : byte_mask (S n) m = byte_mask n m * 256 + m.
Proof. done. Qed.
Lemma le_val_cons b bs : le_val (b :: bs) = le_val bs * 256 + b.
Proof. done. Qed.

Lemma pairs_bytes bs : Forall byte_value bs -> pairs (length bs) (le_val bs) = le_val (map (pairs 1) bs).
Proof.
  induction 1 as [|b bs Hb _ IH]; [done|]. cbn [length map]. rewrite !le_val_cons, <- IH. unfold pairs at 1.
  rewrite byte_mask_S, land_shift_cons by (done || (unfold byte_value; lia)). unfold pairs.
  change (byte_mask 1 0x55) with 0x55. lia.
Qed.

Lemma nibbles_bytes bs : Forall byte_value bs -> nibbles (length bs) (le_val bs) = le_val (map (nibbles 1) bs).
Proof.
  induction 1 as [|b bs Hb _ IH]; [done|]. cbn [length map]. rewrite !le_val_cons, <- IH. unfold nibbles at 1.
  rewrite <- (Z.shiftr_0_r (_ * 256 + b)) at 2. rewrite byte_mask_S, !land_shift_cons by (done || (unfold byte_value; lia)).
  rewrite !Z.shiftr_0_r. unfold nibbles. change (byte_mask 1 0x33) with 0x33. lia.
Qed.

(** What the second stage leaves in a byte: both nibbles are at most 4. *)
Definition small_nibbles (b : Z) : Prop := 0 <= b /\ b / 16 <= 4 /\ b mod 16 <= 4.

Lemma octets_bytes bs : Forall small_nibbles bs -> octets (length bs) (le_val bs) = le_val (map (octets 1) bs).
Proof.
  unfold small_nibbles. induction 1 as [|b bs Hb Hbs IH]; [done|]. cbn [length map]. rewrite !le_val_cons, <- IH. unfold octets at 1.
  assert (le_val bs mod 16 <= 4) as Hn.
  { destruct Hbs as [|c cs Hc _]; [done|]. rewrite le_val_cons. replace (le_val cs * 256 + c) with (c + le_val cs * 16 * 16) by lia.
    rewrite Z.mod_add by lia. lia. }
  set (h := le_val bs) in *. pose proof (Z.div_mod b 16 ltac:(lia)). pose proof (Z.mod_pos_bound b 16 ltac:(lia)).
  pose proof (Z.div_mod h 16 ltac:(lia)). pose proof (Z.mod_pos_bound h 16 ltac:(lia)).
  assert (Z.shiftr (h * 256 + b) 4 = Z.shiftr h 4 * 256 + (h mod 16 * 16 + Z.shiftr b 4)) as ->.
  { rewrite !Z.shiftr_div_pow2 by lia. change (2 ^ 4) with 16. symmetry. apply (Z.div_unique _ _ _ (b mod 16)); lia. }
  rewrite (Z.shiftr_div_pow2 b) by lia. change (2 ^ 4) with 16.
  replace (h * 256 + b + _) with (Z.shiftr ((h + Z.shiftr h 4) * 256 + (b + (h mod 16 * 16 + b / 16))) 0)
    by (rewrite Z.shiftr_0_r; lia).
  rewrite byte_mask_S, land_shift_cons by (unfold byte_value; lia). rewrite !Z.shiftr_0_r. unfold octets. f_equal.
  rewrite (Z.shiftr_div_pow2 b) by lia. change (2 ^ 4) with 16. change (byte_mask 1 0x0F) with (Z.ones 4). change 0x0F with (Z.ones 4).
  rewrite !Z.land_ones by lia. change (2 ^ 4) with 16.
  replace (b + (h mod 16 * 16 + b / 16)) with (b + b / 16 + h mod 16 * 16) by lia. by rewrite Z.mod_add.
Qed.

(** The stages of one byte *)
Lemma byte_stages b : byte_value b ->
  byte_value (pairs 1 b) /\ byte_value (nibbles 1 (pairs 1 b)) /\ small_nibbles (nibbles 1 (pairs 1 b)) /\
  octets 1 (nibbles 1 (pairs 1 b)) = bit_count 8 b.
Proof.
  revert b. unfold byte_value, small_nibbles. apply (below_forall _). vm_compute. reflexivity.
Qed.

(** The three stages of a word: each byte becomes its count. *)
Lemma stages_bytes bs : Forall byte_value bs ->
  octets (length bs) (nibbles (length bs) (pairs (length bs) (le_val bs))) = le_val (map (bit_count 8) bs) /\
  0 <= pairs (length bs) (le_val bs) < 256 ^ Z.of_nat (length bs) /\
  0 <= nibbles (length bs) (pairs (length bs) (le_val bs)) < 256 ^ Z.of_nat (length bs).
Proof.
  intros Hbs.
  assert (Forall byte_value (map (pairs 1) bs)) as H1.
  { apply Forall_map. eapply Forall_impl; [|exact Hbs]. intros b Hb. by apply byte_stages. }
  assert (Forall byte_value (map (nibbles 1) (map (pairs 1) bs))) as H2.
  { rewrite map_map. apply Forall_map. eapply Forall_impl; [|exact Hbs]. intros b Hb. by apply byte_stages. }
  rewrite pairs_bytes by done. rewrite <- (length_map (pairs 1) bs). rewrite nibbles_bytes by done.
  split; [|split; [by apply le_val_range|]].
  - rewrite <- (length_map (nibbles 1) (map _ bs)). rewrite octets_bytes.
    + f_equal. rewrite !map_map. apply map_ext_Forall. eapply Forall_impl; [|exact Hbs]. intros b Hb. by apply byte_stages.
    + rewrite map_map. apply Forall_map. eapply Forall_impl; [|exact Hbs]. intros b Hb. by apply byte_stages.
  - rewrite <- (length_map (nibbles 1) (map _ bs)). by apply le_val_range.
Qed.

Lemma bit_count_bytes bs : Forall byte_value bs ->
  bit_count (8 * length bs) (le_val bs) = foldr Z.add 0 (map (bit_count 8) bs).
Proof.
  induction 1 as [|b bs Hb _ IH]; [done|]. cbn [length map foldr]. rewrite le_val_cons, <- IH.
  replace (8 * S (length bs))%nat with (8 * length bs + 8)%nat by lia. rewrite bit_count_cons by done. lia.
Qed.

Lemma bit_count_range n x : 0 <= bit_count n x <= Z.of_nat n.
Proof. induction n as [|n IH]; cbn [bit_count]; [lia|]. destruct (Z.testbit x (Z.of_nat n)); cbn [b2z]; lia. Qed.
Lemma bit_count_byte b : 0 <= bit_count 8 b <= 8.
Proof. apply bit_count_range. Qed.

Lemma land_wrap w z m : 0 <= m < 2 ^ w -> 0 <= w -> Z.land (wrap w z) m = Z.land z m.
Proof.
  intros Hm Hw. rewrite <- (wrap_small w m Hm). apply Z.bits_inj'. intros n Hn.
  rewrite !Z.land_spec, !wrap_bits by done. destruct (n <? w); cbn [andb]; [done|]. symmetry. apply andb_false_r.
Qed.

(** The two additions at the end of both routines *)
Lemma add_four_bytes k c0 c1 c2 c3 : k = 6 \/ k = 7 ->
  0 <= c0 <= 16 -> 0 <= c1 <= 16 -> 0 <= c2 <= 16 -> 0 <= c3 <= 16 -> c0 + c1 + c2 + c3 < 2 ^ k ->
  let x := le_val [c0; c1; c2; c3] in
  let x' := u32 (x + Z.shiftr x 16) in
  Z.land (u32 (x' + Z.shiftr x' 8)) (Z.ones k) = c0 + c1 + c2 + c3.
Proof.
  intros Hk H0 H1 H2 H3 Hs x x'. set (s := c0 + c1 + c2 + c3) in *.
  assert (x = c0 + 256 * c1 + 65536 * c2 + 16777216 * c3) as Ex by (subst x; cbn [le_val foldr]; lia).
  assert (Z.shiftr x 16 = c2 + 256 * c3) as E16.
  { rewrite Z.shiftr_div_pow2 by lia. change (2 ^ 16) with 65536. symmetry. apply (Z.div_unique _ _ _ (c0 + 256 * c1)); lia. }
  assert (x' = c0 + c2 + 256 * (c1 + c3) + 65536 * c2 + 16777216 * c3) as Ex'.
  { subst x'. rewrite wrap_small by (unfold urange; lia). lia. }
  assert (Z.shiftr x' 8 = c1 + c3 + 256 * c2 + 65536 * c3) as E8.
  { rewrite Z.shiftr_div_pow2 by lia. change (2 ^ 8) with 256. symmetry. apply (Z.div_unique _ _ _ (c0 + c2)); lia. }
  rewrite wrap_small, Z.land_ones by (unfold urange; lia). rewrite E8, Ex'.
  destruct Hk as [-> | ->]; symmetry;
    [apply (Z.mod_unique _ _ (4 * (c1 + c3 + c2) + 1024 * (c2 + c3) + 262144 * c3))
    |apply (Z.mod_unique _ _ (2 * (c1 + c3 + c2) + 512 * (c2 + c3) + 131072 * c3))]; lia.
Qed.

(** Both routines, in terms of the stages *)
Lemma popcountsi2_stages a : __popcountsi2 a =
  let x := u32 a in let x := u32 (pairs 4 x) in let x := u32 (nibbles 4 x) in
  let x := Z.land (u32 (x + Z.shiftr x 4)) (byte_mask 4 0x0F) in
  let x := u32 (x + Z.shiftr x 16) in Z.land (u32 (x + Z.shiftr x 8)) (Z.ones 6).
Proof. reflexivity. Qed.
Lemma popcountdi2_stages a : __popcountdi2 a =
  let x := u64 a in let x := u64 (pairs 8 x) in let x := u64 (nibbles 8 x) in
  let x := Z.land (u64 (x + Z.shiftr x 4)) (byte_mask 8 0x0F) in
  let x := u32 (u64 (x + Z.shiftr x 32)) in
  let x := u32 (x + Z.shiftr x 16) in Z.land (u32 (x + Z.shiftr x 8)) (Z.ones 7).
Proof. reflexivity. Qed.

(** After the stages the bytes of the word are their counts. *)
Lemma stages_word n a : 
  let bs := le_bytes n a in let w := 8 * Z.of_nat n in urange w a ->
  let x := wrap w (nibbles n (wrap w (pairs n (wrap w a)))) in
  Z.land (wrap w (x + Z.shiftr x 4)) (byte_mask n 0x0F) = le_val (map (bit_count 8) bs) /\
  bit_count (8 * n) a = foldr Z.add 0 (map (bit_count 8) bs).
Proof.
  intros bs w Ha. assert (256 ^ Z.of_nat n = 2 ^ w) as E by (subst w; rewrite Z.pow_mul_r by lia; done).
  assert (le_val bs = a) as Ea by (apply le_val_bytes; rewrite E; done).
  assert (Forall byte_value bs) as Hbs by apply le_bytes_range. assert (length bs = n) as Hlen by apply le_bytes_length.
  pose proof (stages_bytes bs Hbs) as (Hst & R1 & R2). pose proof (bit_count_bytes bs Hbs) as Hc.
  rewrite Hlen, Ea, ?E in *. cbv zeta. rewrite (wrap_small w a), (wrap_small w (pairs n a)), (wrap_small w (nibbles n _)) by done. split; [|done].
  rewrite <- Hst. apply land_wrap; [|lia]. rewrite <- E. unfold byte_mask. rewrite <- (repeat_length 0x0F n) at 3.
  apply le_val_range. apply Forall_forall. intros b Hb. apply repeat_spec in Hb. subst b. unfold byte_value. lia.
Qed.

Lemma popcountsi2_spec a : urange 32 a -> __popcountsi2 a = bit_count 32 a.
Proof.
  intros Ha. destruct (stages_word 4 a Ha) as [E1 E2]. rewrite popcountsi2_stages. cbv zeta.
  change (8 * Z.of_nat 4) with 32 in E1. rewrite E1. change (8 * 4)%nat with 32%nat in E2. rewrite E2.
  destruct (le_bytes 4 a) as [|b0 [|b1 [|b2 [|b3 [|? ?]]]]] eqn:Eb; try discriminate. cbn [map foldr].
  pose proof (bit_count_byte b0). pose proof (bit_count_byte b1). pose proof (bit_count_byte b2). pose proof (bit_count_byte b3).
  rewrite add_four_bytes; lia.
Qed.

Lemma popcountdi2_spec z : __popcountdi2 z = bit_count 64 (u64 z).
Proof.
  transitivity (__popcountdi2 (u64 z)); [unfold __popcountdi2; by rewrite (wrap_wrap 64)|].
  assert (urange 64 (u64 z)) as Ha by by apply wrap_range. revert Ha. generalize (u64 z) as a. intros a Ha.
  destruct (stages_word 8 a Ha) as [E1 E2]. rewrite popcountdi2_stages. cbv zeta.
  change (8 * Z.of_nat 8) with 64 in E1. rewrite E1. change (8 * 8)%nat with 64%nat in E2. rewrite E2.
  assert (Forall (fun c => 0 <= c <= 8) (map (bit_count 8) (le_bytes 8 a))) as Hc.
  { apply Forall_map, Forall_forall. intros b _. apply bit_count_byte. }
  assert (length (map (bit_count 8) (le_bytes 8 a)) = 8%nat) as Hl by (by rewrite length_map, le_bytes_length).
  destruct (map _ (le_bytes 8 a)) as [|c0 [|c1 [|c2 [|c3 [|c4 [|c5 [|c6 [|c7 [|? ?]]]]]]]]]; try discriminate.
  repeat match goal with H : Forall _ (_ :: _) |- _ => apply Forall_cons_iff in H; destruct H as [? H] end.
  set (hi := le_val [c4; c5; c6; c7]). set (lo := le_val [c0; c1; c2; c3]).
  assert (0 <= lo < 2 ^ 31 /\ 0 <= hi < 2 ^ 31) as [Hlo Hhi] by (subst lo hi; cbn [le_val foldr]; lia).
  replace (le_val _) with (hi * 2 ^ 32 + lo) by (subst lo hi; cbn [le_val foldr]; lia).
  assert (Z.shiftr (hi * 2 ^ 32 + lo) 32 = hi) as ->.
  { rewrite Z.shiftr_div_pow2 by lia. symmetry. apply (Z.div_unique _ _ _ lo); lia. }
  rewrite (wrap_small 64) by (unfold urange; lia).
  replace (u32 (hi * 2 ^ 32 + lo + hi)) with (le_val [c0 + c4; c1 + c5; c2 + c6; c3 + c7]).
  2:{ replace (hi * 2 ^ 32 + lo + hi) with (lo + hi + hi * 2 ^ 32) by lia. rewrite wrap_shift by lia.
      rewrite wrap_small by (unfold urange; lia). subst lo hi. cbn [le_val foldr]. lia. }
  rewrite add_four_bytes; cbn [foldr]; lia.
Qed.

(** ** Parity *)
Fixpoint bit_parity (n : nat) (x : Z) : bool :=
  match n with O => false | S n => xorb (Z.testbit x (Z.of_nat n)) (bit_parity n x) end.

Lemma bit_parity_count n x : b2z (bit_parity n x) = bit_count n x mod 2.
Proof.
  rewrite Zmod_odd. change (if Z.odd ?c then 1 else 0) with (b2z (Z.odd c)). f_equal.
  induction n as [|n IH]; [done|]. cbn [bit_parity bit_count]. rewrite Z.odd_add, <- IH. by destruct (Z.testbit x _).
Qed.

Lemma bit_parity_lxor n x y : bit_parity n (Z.lxor x y) = xorb (bit_parity n x) (bit_parity n y).
Proof. induction n as [|n IH]; [done|]. cbn [bit_parity]. rewrite Z.lxor_spec, IH. ring. Qed.

Lemma bit_parity_shift m n x : bit_parity (n + m) x = xorb (bit_parity n (Z.shiftr x (Z.of_nat m))) (bit_parity m x).
Proof.
  induction n as [|n IH]; [by rewrite xorb_false_l|]. cbn [bit_parity Nat.add].
  rewrite IH, Z.shiftr_spec, <- Nat2Z.inj_add by lia. by rewrite xorb_assoc.
Qed.

(** One folding: the parity of the lower half of [x ^ (x >> k)] is that of
    [x]. *)
Lemma bit_parity_fold k x : bit_parity k (Z.lxor x (Z.shiftr x (Z.of_nat k))) = bit_parity (k + k) x.
Proof. by rewrite bit_parity_lxor, bit_parity_shift, xorb_comm. Qed.

Lemma parity_fold_spec x : parity_fold x = b2z (bit_parity 32 x).
Proof.
  unfold parity_fold. cbv zeta. set (x1 := Z.lxor x _). set (x2 := Z.lxor x1 _). set (x3 := Z.lxor x2 _).
  transitivity (b2z (bit_parity 4 x3)).
  - assert (bit_parity 4 x3 = bit_parity 4 (Z.land x3 0xF)) as ->.
    { cbn [bit_parity]. rewrite !Z.land_spec. cbn [Z.of_nat Z.testbit]. by rewrite !andb_true_r. }
    change 0xF with (Z.ones 4). rewrite Z.land_ones by lia. generalize (Z.mod_pos_bound x3 (2 ^ 4) ltac:(lia)).
    generalize (x3 mod 2 ^ 4). apply (below_forall _). vm_compute. reflexivity.
  - f_equal. transitivity (bit_parity 8 x2); [exact (bit_parity_fold 4 x2)|].
    transitivity (bit_parity 16 x1); [exact (bit_parity_fold 8 x1)|exact (bit_parity_fold 16 x)].
Qed.

Lemma paritydi2_spec a : srange 64 a -> __paritydi2 a = bit_count 64 a mod 2.
Proof.
  intros Ha. unfold __paritydi2. rewrite parity_fold_spec, <- bit_parity_count. f_equal.
  rewrite bit_parity_lxor, (bit_parity_shift 32 32). 
  assert (forall n x y, (forall i, 0 <= i < Z.of_nat n -> Z.testbit x i = Z.testbit y i) -> bit_parity n x = bit_parity n y) as Hext.
  { intros n x y. induction n as [|n IH]; intros H; [done|]. cbn [bit_parity]. rewrite H, IH by (intros; apply H; lia) || lia. done. }
  f_equal; apply Hext; intros i Hi.
  - rewrite wrap_bits, dhigh_bits, Z.shiftr_spec by (done || lia). by replace (i <? 32) with true by lia.
  - rewrite dlow_bits. by replace (i <? 32) with true by lia.
Qed.

(** ** Both halves *)
Lemma uhigh_dhigh a : u32 (dhigh a) = uhigh a.
Proof. unfold dhigh, uhigh. by apply wrap_sgn. Qed.

Lemma u64_halves a : srange 64 a -> u64 a = u32 (dhigh a) * 2 ^ 32 + dlow a.
Proof.
  intros Ha. rewrite (dparts a Ha) at 1. pose proof (dlow_range a) as Hl. pose proof (wrap_range 32 (dhigh a) ltac:(lia)) as Hh.
  unfold urange in *. set (l := dlow a) in *. unfold wrap at 1. symmetry.
  apply (Z.mod_unique _ _ (dhigh a / 2 ^ 32)); [lia|]. unfold wrap. pose proof (Z.div_mod (dhigh a) (2 ^ 32) ltac:(lia)). lia.
Qed.

Lemma land_all_ones x : urange 32 x -> Z.land x (u32 (-1)) = x.
Proof. intros Hx. change (u32 (-1)) with (Z.ones 32). rewrite Z.land_ones by lia. by apply Z.mod_small. Qed.

Section halves.
(** __builtin_clz and __builtin_ctz: undefined for 0 *)
Variables clzsi ctzsi : Z -> Z.
Hypothesis clzsi_spec : forall x, urange 32 x -> x <> 0 -> clzsi x = 31 - Z.log2 x.
Hypothesis ctzsi_spec : forall x, urange 32 x -> x <> 0 -> lowest_bit x (ctzsi x).

Lemma clzdi2_spec a : srange 64 a -> a <> 0 -> __clzdi2 clzsi a = 63 - Z.log2 (u64 a).
Proof.
  intros Ha Ha0. pose proof (u64_halves a Ha) as Eu. pose proof (dparts a Ha) as Ep.
  pose proof (dlow_range a) as Hl. pose proof (wrap_range 32 (dhigh a) ltac:(lia)) as Hh. unfold __clzdi2. cbv zeta.
  destruct (Z.eqb_spec (dhigh a) 0) as [E|E].
  - change (Z.land (- b2z true) 32) with 32. change (u32 (Z.lnot (- b2z true))) with 0. change (- b2z true) with (-1).
    rewrite Z.land_0_r, Z.lor_0_l, land_all_ones, clzsi_spec by (done || lia). rewrite Eu, E.
    change (u32 0 * 2 ^ 32 + dlow a) with (dlow a). lia.
  - change (Z.land (- b2z false) 32) with 0. change (u32 (Z.lnot (- b2z false))) with (u32 (-1)). change (u32 (- b2z false)) with 0.
    rewrite Z.land_0_r, Z.lor_0_r, land_all_ones by done.
    assert (u32 (dhigh a) <> 0) as E'.
    { intros H0. apply E. unfold dhigh in *. rewrite wrap_sgn in H0 by lia. unfold s32, sgn in *. rewrite H0. done. }
    rewrite clzsi_spec by done. rewrite Eu. unfold urange in Hl, Hh.
    pose proof (Z.log2_shiftr (u32 (dhigh a) * 2 ^ 32 + dlow a) 32 ltac:(lia)) as Hs.
    rewrite Z.shiftr_div_pow2, Z.div_add_l, (Z.div_small (dlow a)), Z.add_0_r in Hs by lia.
    pose proof (Z.log2_le_pow2 (u32 (dhigh a) * 2 ^ 32 + dlow a) 32 ltac:(lia)). lia.
Qed.

Lemma lowest_bit_low a c : lowest_bit (dlow a) c -> lowest_bit a c.
Proof.
  intros (Hc & H1 & H2). rewrite dlow_bits in H1. apply andb_prop in H1 as [Hlt H1]. split; [done|]. split; [done|].
  intros i Hi. specialize (H2 i Hi). rewrite dlow_bits in H2. by replace (i <? 32) with true in H2 by lia.
Qed.

Lemma lowest_bit_high a c : dlow a = 0 -> lowest_bit (uhigh a) c -> lowest_bit a (c + 32).
Proof.
  intros H0 (Hc & H1 & H2). rewrite uhigh_bits in H1 by done. apply andb_prop in H1 as [Hlt H1].
  split; [lia|]. split; [done|]. intros i Hi. destruct (Z.lt_ge_cases i 32).
  - pose proof (dlow_bits a i) as Hb. rewrite H0, Z.bits_0 in Hb. by replace (i <? 32) with true in Hb by lia.
  - specialize (H2 (i - 32) ltac:(lia)). rewrite uhigh_bits in H2 by lia. replace (i - 32 <? 32) with true in H2 by lia.
    by replace (i - 32 + 32) with i in H2 by lia.
Qed.

Lemma high_nonzero a : srange 64 a -> a <> 0 -> dlow a = 0 -> uhigh a <> 0.
Proof.
  intros Ha Ha0 H0 H. rewrite <- uhigh_dhigh in H. pose proof (u64_halves a Ha) as E. rewrite H, H0 in E.
  apply Ha0. rewrite <- (sgn_small 64 a) by (done || lia). rewrite <- sgn_wrap, E by lia. done.
Qed.

Lemma ctz_parts a : srange 64 a -> a <> 0 ->
  lowest_bit a (if dlow a =? 0 then ctzsi (uhigh a) + 32 else ctzsi (dlow a)).
Proof.
  intros Ha Ha0. destruct (Z.eqb_spec (dlow a) 0) as [E|E].
  - apply lowest_bit_high; [done|]. apply ctzsi_spec; [by apply wrap_range|by apply high_nonzero].
  - apply lowest_bit_low, ctzsi_spec; [apply dlow_range|done].
Qed.

Lemma ctzdi2_spec a : srange 64 a -> a <> 0 -> lowest_bit a (__ctzdi2 ctzsi a).
Proof.
  intros Ha Ha0. pose proof (ctz_parts a Ha Ha0) as Hp. unfold __ctzdi2. cbv zeta. rewrite uhigh_dhigh.
  destruct (Z.eqb_spec (dlow a) 0) as [E|E].
  - change (Z.land (- b2z true) 32) with 32. change (u32 (Z.lnot (- b2z true))) with 0. change (- b2z true) with (-1).
    rewrite Z.land_0_r, Z.lor_0_r, land_all_ones by by apply wrap_range. done.
  - change (Z.land (- b2z false) 32) with 0. change (u32 (Z.lnot (- b2z false))) with (u32 (-1)). change (u32 (- b2z false)) with 0.
    rewrite Z.land_0_r, Z.lor_0_l, land_all_ones by apply dlow_range. by rewrite Z.add_0_r.
Qed.

Lemma ffsdi2_spec a : srange 64 a -> a <> 0 -> lowest_bit a (__ffsdi2 ctzsi a - 1).
Proof.
  intros Ha Ha0. pose proof (ctz_parts a Ha Ha0) as Hp. unfold __ffsdi2. rewrite uhigh_dhigh.
  destruct (Z.eqb_spec (dlow a) 0) as [E|E]; [|by rewrite Z.add_simpl_r].
  pose proof (high_nonzero a Ha Ha0 E) as Hh. destruct (Z.eqb_spec (dhigh a) 0) as [E'|E'].
  - rewrite <- uhigh_dhigh, E' in Hh. done.
  - by replace (ctzsi (uhigh a) + (1 + 32) - 1) with (ctzsi (uhigh a) + 32) by lia.
Qed.
End halves.

(** ** Bytes in the other order *)
Lemma mask_byte u k n : 0 <= k -> Z.testbit (Z.land u (Z.shiftl 255 k)) n = (k <=? n) && (n <? k + 8) && Z.testbit u n.
Proof.
  intros Hk. destruct (Z.lt_ge_cases n 0) as [Hn|Hn]; [rewrite !Z.testbit_neg_r by done; by rewrite andb_false_r|].
  change 255 with (Z.ones 8). rewrite Z.land_spec, Z.shiftl_spec by done.
  destruct (Z.leb_spec k n); [|rewrite (Z.testbit_neg_r _ (n - k)) by lia; apply andb_false_r].
  rewrite Z.testbit_ones_nonneg by lia. replace (n - k <? 8) with (n <? k + 8) by lia. apply andb_comm.
Qed.

(** Decide every comparison of the goal that [lia] can. *)
Ltac decide_cmps :=
  repeat match goal with
  | |- context [?a <=? ?b] => first [replace (a <=? b) with true by lia | replace (a <=? b) with false by lia]
  | |- context [?a <? ?b] => first [replace (a <? b) with true by lia | replace (a <? b) with false by lia]
  end; cbn [andb orb]; rewrite ?orb_false_r.

Lemma bswapsi2_spec u i n : 0 <= i < 4 -> 0 <= n < 8 ->
  Z.testbit (__bswapsi2 u) (8 * i + n) = Z.testbit u (8 * (3 - i) + n).
Proof.
  intros Hi Hn. unfold __bswapsi2. change 0xff000000 with (Z.shiftl 255 24). change 0x00ff0000 with (Z.shiftl 255 16).
  change 0x0000ff00 with (Z.shiftl 255 8). change (Z.land u 0x000000ff) with (Z.land u (Z.shiftl 255 0)).
  rewrite !Z.lor_spec, !wrap_bits, !Z.shiftr_spec, !Z.shiftl_spec, !mask_byte by lia.
  assert (i = 0 \/ i = 1 \/ i = 2 \/ i = 3) as [-> |[-> |[-> | ->]]] by lia.
  all: decide_cmps; f_equal; lia.
Qed.

Lemma bswapdi2_spec u i n : 0 <= i < 8 -> 0 <= n < 8 ->
  Z.testbit (__bswapdi2 u) (8 * i + n) = Z.testbit u (8 * (7 - i) + n).
Proof.
  intros Hi Hn. unfold __bswapdi2. change 0xff00000000000000 with (Z.shiftl 255 56). change 0x00ff000000000000 with (Z.shiftl 255 48).
  change 0x0000ff0000000000 with (Z.shiftl 255 40). change 0x000000ff00000000 with (Z.shiftl 255 32).
  change 0x00000000ff000000 with (Z.shiftl 255 24). change 0x0000000000ff0000 with (Z.shiftl 255 16).
  change 0x000000000000ff00 with (Z.shiftl 255 8). change (Z.land u 0x00000000000000ff) with (Z.land u (Z.shiftl 255 0)).
  rewrite !Z.lor_spec, !wrap_bits, !Z.shiftr_spec, !Z.shiftl_spec, !mask_byte by lia.
  assert (i = 0 \/ i = 1 \/ i = 2 \/ i = 3 \/ i = 4 \/ i = 5 \/ i = 6 \/ i = 7)
    as [-> |[-> |[-> |[-> |[-> |[-> |[-> | ->]]]]]]] by lia.
  all: decide_cmps; f_equal; lia.
Qed.

(** ** The contracts *)

(** C34: the bit routines have the contracts of the built-ins they implement:
    the leading and the trailing zeros of every word but 0 (of which ffs is 0),
    and of every word the number of bits that are set and its parity, and the
    bytes in the other order, at 32 and at 64 bits. *)
Theorem bit_ops_correct clzsi ctzsi a b :
  (forall x, urange 32 x -> x <> 0 -> clzsi x = 31 - Z.log2 x) ->
  (forall x, urange 32 x -> x <> 0 -> lowest_bit x (ctzsi x)) ->
  urange 32 a -> srange 64 b ->
  (a <> 0 -> __clzsi2 a = 31 - Z.log2 a /\ lowest_bit a (__ctzsi2 a) /\ lowest_bit a (__ffssi2 ctzsi a - 1)) /\
  (b <> 0 -> __clzdi2 clzsi b = 63 - Z.log2 (u64 b) /\ lowest_bit b (__ctzdi2 ctzsi b) /\ lowest_bit b (__ffsdi2 ctzsi b - 1)) /\
  (__ffssi2 ctzsi 0 = 0 /\ __ffsdi2 ctzsi 0 = 0) /\
  (__popcountsi2 a = bit_count 32 a /\ __popcountdi2 b = bit_count 64 (u64 b)) /\
  (__paritysi2 a = bit_count 32 a mod 2 /\ __paritydi2 b = bit_count 64 b mod 2) /\
  (forall i n, 0 <= i < 4 -> 0 <= n < 8 ->
    Z.testbit (__bswapsi2 a) (8 * i + n) = Z.testbit a (8 * (3 - i) + n)) /\
  (forall i n, 0 <= i < 8 -> 0 <= n < 8 ->
    Z.testbit (__bswapdi2 (u64 b)) (8 * i + n) = Z.testbit (u64 b) (8 * (7 - i) + n)).
Proof.
  intros Hclz Hctz Ha Hb.
  split; [intros Ha0; split; [by apply clzsi2_spec|split; [by apply ctzsi2_spec|]]|].
  { unfold __ffssi2. destruct (Z.eqb_spec a 0); [done|]. rewrite wrap_small by done. rewrite Z.add_simpl_r. by apply Hctz. }
  split; [intros Hb0; split; [by apply clzdi2_spec|split; [by apply ctzdi2_spec|by apply ffsdi2_spec]]|].
  split; [done|].
  split; [split; [by apply popcountsi2_spec|by apply popcountdi2_spec]|].
  split; [split; [|by apply paritydi2_spec]|split; [apply bswapsi2_spec|apply bswapdi2_spec]].
  unfold __paritysi2. by rewrite parity_fold_spec, bit_parity_count, wrap_small by done.
Qed.

(** __clzsi2 and __ctzsi2 themselves have the contract of the built-ins. *)
Lemma bit_ops_correct_witness :
  (forall x, urange 32 x -> x <> 0 -> __clzsi2 x = 31 - Z.log2 x) /\
  (forall x, urange 32 x -> x <> 0 -> lowest_bit x (__ctzsi2 x)) /\
  urange 32 0x00012340 /\ 0x00012340 <> 0 /\ srange 64 (- 2 ^ 40) /\ - 2 ^ 40 <> 0 /\
  __clzsi2 0x00012340 = 31 - Z.log2 0x00012340 /\ lowest_bit (- 2 ^ 40) (__ctzdi2 __ctzsi2 (- 2 ^ 40)).
Proof.
  assert (urange 32 0x00012340) as Ha by (unfold urange; lia). assert (srange 64 (- 2 ^ 40)) as Hb by (unfold srange; lia).
  split; [exact clzsi2_spec|]. split; [exact ctzsi2_spec|]. split; [exact Ha|]. split; [lia|]. split; [exact Hb|]. split; [lia|].
  destruct (bit_ops_correct __clzsi2 __ctzsi2 0x00012340 (- 2 ^ 40) clzsi2_spec ctzsi2_spec Ha Hb)
    as (H1 & H2 & _). destruct (H1 ltac:(lia)) as [H1' _]. destruct (H2 ltac:(lia)) as (_ & H2' & _).
  split; [exact H1'|exact H2'].
Defined.
