(* ===== verification/Kernel.v ===== *)
(** * Kernel: the state of the kernel proper

    The objects and processes of src/inc/objects as data: what
    src/inc/objects/Process.hpp, BlockInputDevice.hpp, Semaphore.hpp,
    SleepDevice.hpp, ProcessWait.hpp, Segment.hpp and shared_ptr.hpp declare,
    and the task state segment of src/inc/protected_mode.hpp.  A pointer to a
    process is its pid (a slot of [process_list] holds one process as long as
    it lives), a pointer to an object is a number that is never reused. *)
From S2P Require Import Prelude Mem.

(** ** Constants of the sources *)
Definition MAX_PROCESS_NUM : Z := 32.
Definition PROCESS_MAX_SEGMENTS : Z := 16.
Definition PROCESS_MAX_OBJECTS : Z := 128.
Definition PROCESS_STACK_BACKUP_SIZE : Z := 128.
Definition PROCESS_STACK_SIZE : Z := 8192.
Definition PROCESS_NORMAL_OBJECT_BEGIN : Z := 3.
Definition PROCESS_SEGMENT_BEGIN : Z := PROCESS_MAX_OBJECTS - PROCESS_MAX_SEGMENTS.
Definition PROCESS_USER_IMAGE_SPACE : Z := 640 * 1024.
Definition MAX_BLOCK_INPUT_DEVICE_NUM : Z := 64.
Definition PROCESS_TICKS : Z := 30.
Definition ENOENT : Z := 2.
Definition ENOEXEC : Z := 8.
Definition EAGAIN : Z := 11.
Definition EINVAL : Z := 22.
Definition ENOSPC : Z := 28.

(** ** The task state segment

    The fields of tss_entry_struct_t that a process uses (its 32 bytes
    [redirect] serve the v8086 task only). *)
Inductive reg :=
  | Prev_tss | Esp0 | Ss0 | Esp1 | Ss1 | Esp2 | Ss2 | Cr3 | Eip | Eflags
  | Eax | Ecx | Edx | Ebx | Esp | Ebp | Esi | Edi
  | Es | Cs | Ss | Ds | Fs | Gs | Ldt | Trap | Iomap_base.

#[global] Instance reg_eq_dec : EqDecision reg.
Proof. solve_decision. Defined.

Definition tss : Type := reg -> Z.
Definition tss_zero : tss := fun _ => 0.
Definition tss_set (r : reg) (v : Z) (t : tss) : tss := fun r' => if decide (r = r') then v else t r'.
Definition sizeof_tss : Z := 136.

(** [SEGMENT_SELECTOR] and the segments a process uses. *)
Definition SEGMENT_SELECTOR (seg_id loc rpl : Z) : Z :=
  Z.shiftl seg_id 3 + Z.shiftl loc 2 + rpl.
Definition SEG_KERNEL_CODE : Z := 1.
Definition SEG_KERNEL_DATA : Z := 2.
Definition SEG_USER_CODE : Z := 3.
Definition SEG_USER_DATA : Z := 4.
Definition SEG_INIT_TSS : Z := 5.
Definition SEG_USER_TSS : Z := 6.
Definition SEG_SYSCALL_TSS : Z := 7.
Definition SEG_V8086_TSS : Z := 8.

(** ** Processes and objects *)
Inductive pstate := PROCESS_STATE_RUNNABLE | PROCESS_STATE_SLEEPING.
Inductive psche := PROCESS_SCHE_NORMAL | PROCESS_SCHE_IDLE.
Inductive clone_mode := PROCESS_CLONE_KEEP_STACK | PROCESS_CLONE_NEW_THREAD.

#[global] Instance pstate_eq_dec : EqDecision pstate.
Proof. solve_decision. Defined.
#[global] Instance psche_eq_dec : EqDecision psche.
Proof. solve_decision. Defined.

Record process := Process {
  ppid : Z;
  process_state : pstate;
  process_sche_type : psche;
  stack_top_backup : Z;
  stack_backup : option (list Z);
  usermode_state : tss;
  objects : gmap Z Z
}.

(** The classes of objects: the kernel's own devices, a segment of an image,
    and the devices and files behind the interface [External]. *)
Inductive base :=
  | BSemaphore (cnt : Z)
  | BSleep
  | BProcessWait
  | BSegment (seg_base seg_size : Z)
  | BExt (d : Z).

(** BlockInputDeviceWrapper::PendingRead *)
Record pending_read := PendingRead { pr_proc : Z; pr_buffer : Z; pr_size : Z }.

(** An object with the count of its shared_ptr; [o_pending] is the queue of
    the BlockInputDeviceWrapper of a BlockInputDeviceMixin. *)
Record object := Object {
  o_ref : Z;
  o_base : base;
  o_pending : option (list pending_read)
}.

Record section := Section_ { sec_base : Z; sec_limit : Z; sec_buffer : Z }.

(** ** The state *)
Record kernel (W : Type) := Kernel {
  k_mem : mem;
  k_ext : W;
  current_process : Z;
  process_list : gmap Z process;
  store : gmap Z object;
  next_object : Z;
  devices : gmap Z Z;
  reqs : gmap Z (Z * Z);
  last_exit_code : gmap Z Z;
  process_sleep_until : gmap Z Z;
  pit_ticks : Z;
  resche_counter : Z;
  user_tss : tss
}.
Arguments Kernel {W} _ _ _ _ _ _ _ _ _ _ _ _ _.
Arguments k_mem {W} _.
Arguments k_ext {W} _.
Arguments current_process {W} _.
Arguments process_list {W} _.
Arguments store {W} _.
Arguments next_object {W} _.
Arguments devices {W} _.
Arguments reqs {W} _.
Arguments last_exit_code {W} _.
Arguments process_sleep_until {W} _.
Arguments pit_ticks {W} _.
Arguments resche_counter {W} _.
Arguments user_tss {W} _.

(** The rest of the system, as the kernel calls it: the terminals and files
    are objects with virtual read and write functions that work on the memory
    and on a state of their own. *)
Class External (W : Type) := {
  ext_is_input : Z -> bool;
  ext_is_output : Z -> bool;
  ext_read : Z -> Z -> Z -> prog (mem * W) Z;
  ext_write : Z -> Z -> Z -> prog (mem * W) Z
}.

(** Where the linker and main() put the images and the stacks. *)
Class Layout := {
  USER_SPACE_START : Z;
  user_stack_pos : Z;
  kernel_stack_pos : Z
}.

(** ** Updates *)
Section updates.
Context {W : Type}.
Implicit Types (k : kernel W).

Definition set_mem m k := Kernel m (k_ext k) (current_process k) (process_list k) (store k)
  (next_object k) (devices k) (reqs k) (last_exit_code k) (process_sleep_until k) (pit_ticks k)
  (resche_counter k) (user_tss k).
Definition set_world (mx : mem * W) k := Kernel mx.1 mx.2 (current_process k) (process_list k) (store k)
  (next_object k) (devices k) (reqs k) (last_exit_code k) (process_sleep_until k) (pit_ticks k)
  (resche_counter k) (user_tss k).
Definition set_current pid k := Kernel (k_mem k) (k_ext k) pid (process_list k) (store k)
  (next_object k) (devices k) (reqs k) (last_exit_code k) (process_sleep_until k) (pit_ticks k)
  (resche_counter k) (user_tss k).
Definition set_process_list l k := Kernel (k_mem k) (k_ext k) (current_process k) l (store k)
  (next_object k) (devices k) (reqs k) (last_exit_code k) (process_sleep_until k) (pit_ticks k)
  (resche_counter k) (user_tss k).
Definition set_store s k := Kernel (k_mem k) (k_ext k) (current_process k) (process_list k) s
  (next_object k) (devices k) (reqs k) (last_exit_code k) (process_sleep_until k) (pit_ticks k)
  (resche_counter k) (user_tss k).
Definition set_next_object n k := Kernel (k_mem k) (k_ext k) (current_process k) (process_list k) (store k)
  n (devices k) (reqs k) (last_exit_code k) (process_sleep_until k) (pit_ticks k)
  (resche_counter k) (user_tss k).
Definition set_devices d k := Kernel (k_mem k) (k_ext k) (current_process k) (process_list k) (store k)
  (next_object k) d (reqs k) (last_exit_code k) (process_sleep_until k) (pit_ticks k)
  (resche_counter k) (user_tss k).
Definition set_reqs r k := Kernel (k_mem k) (k_ext k) (current_process k) (process_list k) (store k)
  (next_object k) (devices k) r (last_exit_code k) (process_sleep_until k) (pit_ticks k)
  (resche_counter k) (user_tss k).
Definition set_last_exit_code l k := Kernel (k_mem k) (k_ext k) (current_process k) (process_list k) (store k)
  (next_object k) (devices k) (reqs k) l (process_sleep_until k) (pit_ticks k)
  (resche_counter k) (user_tss k).
Definition set_sleep_until l k := Kernel (k_mem k) (k_ext k) (current_process k) (process_list k) (store k)
  (next_object k) (devices k) (reqs k) (last_exit_code k) l (pit_ticks k)
  (resche_counter k) (user_tss k).
Definition set_ticks t k := Kernel (k_mem k) (k_ext k) (current_process k) (process_list k) (store k)
  (next_object k) (devices k) (reqs k) (last_exit_code k) (process_sleep_until k) t
  (resche_counter k) (user_tss k).
Definition set_resche_counter c k := Kernel (k_mem k) (k_ext k) (current_process k) (process_list k) (store k)
  (next_object k) (devices k) (reqs k) (last_exit_code k) (process_sleep_until k) (pit_ticks k)
  c (user_tss k).
Definition set_user_tss t k := Kernel (k_mem k) (k_ext k) (current_process k) (process_list k) (store k)
  (next_object k) (devices k) (reqs k) (last_exit_code k) (process_sleep_until k) (pit_ticks k)
  (resche_counter k) t.
End updates.

Definition set_process_state s p :=
  Process (ppid p) s (process_sche_type p) (stack_top_backup p) (stack_backup p) (usermode_state p) (objects p).
Definition set_sche_type s p :=
  Process (ppid p) (process_state p) s (stack_top_backup p) (stack_backup p) (usermode_state p) (objects p).
Definition set_backup top b p :=
  Process (ppid p) (process_state p) (process_sche_type p) top b (usermode_state p) (objects p).
Definition set_usermode_state t p :=
  Process (ppid p) (process_state p) (process_sche_type p) (stack_top_backup p) (stack_backup p) t (objects p).
Definition set_objects o p :=
  Process (ppid p) (process_state p) (process_sche_type p) (stack_top_backup p) (stack_backup p) (usermode_state p) o.

Definition set_base b o := Object (o_ref o) b (o_pending o).
Definition set_ref r o := Object r (o_base o) (o_pending o).
Definition set_pending l o := Object (o_ref o) (o_base o) (Some l).

(** ** Access *)
Section access.
Context {W : Type}.
Abbreviation kprog := (prog (kernel W)).

Definition kmem {A} (p : prog mem A) : kprog A := zoom k_mem set_mem p.
Definition kworld {A} (p : prog (mem * W) A) : kprog A :=
  zoom (fun k => (k_mem k, k_ext k)) set_world p.

(** [process_list[pid]]: an index outside the array is undefined. *)
Definition valid_pid (pid : Z) : bool := (0 <=? pid) && (pid <? MAX_PROCESS_NUM).
Definition getProcess (pid : Z) : kprog (option process) :=
  if valid_pid pid then k ← pget; mret (process_list k !! pid) else pfault.
Definition getCurrentProcess : kprog Z := k ← pget; mret (current_process k).
Definition setCurrentProcess (pid : Z) : kprog unit := pmodify (set_current pid).

(** A member of the process that a pointer designates; NULL faults. *)
Definition proc (pid : Z) : kprog process :=
  p ← getProcess pid; match p with Some p => mret p | None => pfault end.
Definition put_proc (pid : Z) (p : process) : kprog unit :=
  pmodify (fun k => set_process_list (<[pid := p]> (process_list k)) k).
Definition mod_proc (pid : Z) (f : process -> process) : kprog unit :=
  p ← proc pid; put_proc pid (f p).

Definition obj (o : Z) : kprog object :=
  k ← pget; match store k !! o with Some x => mret x | None => pfault end.
Definition put_obj (o : Z) (x : object) : kprog unit :=
  pmodify (fun k => set_store (<[o := x]> (store k)) k).

(** ** shared_ptr.hpp: the count of an object *)
Definition addRef (o : Z) : kprog unit := x ← obj o; put_obj o (set_ref (o_ref x + 1) x).

(** ~BlockInputDeviceWrapper *)
Definition drop_device (o : Z) : kprog unit :=
  pmodify (fun k => set_devices (filter (fun e => e.2 <> o) (devices k)) k).

(** The destructor of a shared_ptr: the last one deletes the object. *)
Definition release (o : Z) : kprog unit :=
  x ← obj o;
  if o_ref x - 1 =? 0 then
    (match o_pending x with Some _ => drop_device o | None => mret tt end);;
    pmodify (fun k => set_store (delete o (store k)) k)
  else put_obj o (set_ref (o_ref x - 1) x).

Definition with_ref {A} (o : Z) (p : kprog A) : kprog A :=
  addRef o;; r ← p; release o;; mret r.

(** make_shared: a new object, whose only reference is the result. *)
Definition new_object (b : base) (q : option (list pending_read)) : kprog Z :=
  k ← pget;
  let o := next_object k in
  pput (set_next_object (o + 1) (set_store (<[o := Object 1 b q]> (store k)) k));;
  mret o.
End access.

(** ** Outcomes of the accesses *)
Section outcomes.
Context {W : Type}.
Implicit Types (k : kernel W).

Lemma proc_at k pid p : valid_pid pid = true -> process_list k !! pid = Some p -> proc pid k = Ret (p, k).
Proof. intros Hv Hp. unfold proc, getProcess. rewrite Hv. prog_norm. by rewrite Hp. Qed.

Lemma obj_at k o x : store k !! o = Some x -> obj o k = Ret (x, k).
Proof. intros Hx. unfold obj. prog_norm. by rewrite Hx. Qed.

Lemma kworld_at {A} (p : prog (mem * W) A) k a mx : p (k_mem k, k_ext k) = Ret (a, mx) -> kworld p k = Ret (a, set_world mx k).
Proof. intros H. unfold kworld, zoom. by rewrite H. Qed.

Lemma kmem_at {A} (p : prog mem A) k a m : p (k_mem k) = Ret (a, m) -> kmem p k = Ret (a, set_mem m k).
Proof. intros H. unfold kmem, zoom. by rewrite H. Qed.

Lemma addRef_at k o x : store k !! o = Some x -> addRef o k = Ret (tt, set_store (<[o := set_ref (o_ref x + 1) x]> (store k)) k).
Proof. intros Hx. unfold addRef. by rewrite (bind_Ret _ _ _ _ _ (obj_at _ _ _ Hx)). Qed.

Lemma release_at k o x : store k !! o = Some x -> 1 < o_ref x ->
  release o k = Ret (tt, set_store (<[o := set_ref (o_ref x - 1) x]> (store k)) k).
Proof.
  intros Hx Hr. unfold release. rewrite (bind_Ret _ _ _ _ _ (obj_at _ _ _ Hx)).
  by rewrite (proj2 (Z.eqb_neq _ _)) by lia.
Qed.

Lemma mod_proc_at k pid f p : valid_pid pid = true -> process_list k !! pid = Some p ->
  mod_proc pid f k = Ret (tt, set_process_list (<[pid := f p]> (process_list k)) k).
Proof. intros Hv Hp. unfold mod_proc. by rewrite (bind_Ret _ _ _ _ _ (proc_at _ _ _ Hv Hp)). Qed.
End outcomes.
