(* ===== verification/Devices.v ===== *)
(** * Devices: the kernel's own devices and blocking reads

    src/src/objects/Semaphore.cpp, SleepDevice.cpp, ProcessWait.cpp and
    BlockInputDevice.cpp: the [read] and [write] of each device, and the
    wrapper that puts a process to sleep when a read has nothing to return and
    completes the read later.  [int] results are signed 32-bit values. *)
From S2P Require Import Prelude Mem Kernel.

Section devices.
Context {W : Type} `{!External W}.
Abbreviation kprog := (prog (kernel W)).

(** ** The devices without blocking *)
Definition sem_read (o cnt size : Z) : kprog Z :=
  if cnt <=? 0 then mret (- EAGAIN)
  else
    (if size =? 0 then mret tt else x ← obj o; put_obj o (set_base (BSemaphore (cnt - 1)) x));;
    mret 0.

Definition sem_write (o cnt : Z) : kprog Z :=
  x ← obj o; put_obj o (set_base (BSemaphore (s32 (cnt + 1))) x);; mret 0.

(** [process_sleep_until[pid]] and [reqs[pid]], arrays of MAX_PROCESS_NUM. *)
Definition array_get {A} (a : gmap Z A) (i : Z) : kprog A :=
  match a !! i with Some v => mret v | None => pfault end.

Definition sleep_write (data size : Z) : kprog Z :=
  if negb (size =? 4) then mret (- EINVAL)
  else
    pid ← getCurrentProcess;
    k ← pget;
    v ← kmem (load32 data);
    array_get (process_sleep_until k) pid;;
    pmodify (set_sleep_until (<[pid := u64 (pit_ticks k + v)]> (process_sleep_until k)));;
    mret size.

Definition sleep_read : kprog Z :=
  pid ← getCurrentProcess;
  k ← pget;
  t ← array_get (process_sleep_until k) pid;
  mret (if pit_ticks k <? t then - EAGAIN else 0).

Definition wait_write (data size : Z) : kprog Z :=
  if negb (size =? 4) then mret (- EINVAL)
  else
    pid ← getCurrentProcess;
    k ← pget;
    target_pid ← kmem (load32 data);
    target ← getProcess target_pid;
    array_get (reqs k) pid;;
    (match target with
     | Some _ => pmodify (set_reqs (<[pid := (target_pid, 0)]> (reqs k)))
     | None =>
         status ← array_get (last_exit_code k) target_pid;
         pmodify (set_reqs (<[pid := (0, status)]> (reqs k)))
     end);;
    mret size.

Definition wait_read (buffer size : Z) : kprog Z :=
  pid ← getCurrentProcess;
  k ← pget;
  '(rpid, status) ← array_get (reqs k) pid;
  if negb (rpid =? 0) then mret (- EAGAIN)
  else if size =? 4 then kmem (store32 buffer status);; mret 4
  else mret (- EINVAL).

Definition processExit (pid status : Z) : kprog unit :=
  k ← pget;
  array_get (last_exit_code k) pid;;
  pmodify (set_last_exit_code (<[pid := status]> (last_exit_code k)));;
  pmodify (set_reqs ((fun req => if req.1 =? pid then (0, status) else req) <$> reqs k)).

(** The virtual [read] and [write] of the wrapped class. *)
Definition base_read (o buffer size : Z) : kprog Z :=
  x ← obj o;
  match o_base x with
  | BSemaphore cnt => sem_read o cnt size
  | BSleep => sleep_read
  | BProcessWait => wait_read buffer size
  | BSegment _ _ => pfault
  | BExt d => kworld (ext_read d buffer size)
  end.

Definition dev_write (o data size : Z) : kprog Z :=
  x ← obj o;
  match o_base x with
  | BSemaphore cnt => sem_write o cnt
  | BSleep => sleep_write data size
  | BProcessWait => wait_write data size
  | BSegment _ _ => pfault
  | BExt d => kworld (ext_write d data size)
  end.

(** [dynamic_cast<InputDevice *>], [dynamic_cast<OutputDevice *>] and
    [dynamic_cast<Segment *>] of an object. *)
Definition is_input (x : object) : bool :=
  match o_base x with BSegment _ _ => false | BExt d => ext_is_input d | _ => true end.
Definition is_output (x : object) : bool :=
  match o_base x with BSegment _ _ => false | BExt d => ext_is_output d | _ => true end.
Definition is_segment (x : object) : bool :=
  match o_base x with BSegment _ _ => true | _ => false end.

(** ** BlockInputDeviceWrapper *)

(** The queue of a wrapper; other objects have none. *)
Definition pending_of (o : Z) : kprog (list pending_read) :=
  x ← obj o; match o_pending x with Some l => mret l | None => pfault end.
Definition put_pending (o : Z) (l : list pending_read) : kprog unit :=
  x ← obj o; put_obj o (set_pending l x).

(** The constructor takes the first free entry of [devices]. *)
Fixpoint free_device (n : nat) (i : Z) (d : gmap Z Z) : option Z :=
  match n with
  | O => None
  | S n => match d !! i with None => Some i | Some _ => free_device n (i + 1) d end
  end.

Definition BlockInputDevice (b : base) : kprog Z :=
  k ← pget;
  match free_device (Z.to_nat MAX_BLOCK_INPUT_DEVICE_NUM) 0 (devices k) with
  | Some i =>
      o ← new_object b (Some []);
      pmodify (fun k => set_devices (<[i := o]> (devices k)) k);;
      mret o
  | None => ppanic "block input device limit exceeded"
  end.

Definition do_read (o p buffer size : Z) : kprog Z :=
  r ← base_read o buffer size;
  let ret := s32 r in
  if ret =? - EAGAIN then
    l ← pending_of o;
    (if Z.of_nat (length l) <? MAX_PROCESS_NUM
     then put_pending o (l ++ [PendingRead p buffer size]) else pfault);;
    mod_proc p (set_process_state PROCESS_STATE_SLEEPING);;
    mret ret
  else mret ret.

(** The virtual [read] of an object: BlockInputDeviceMixin's or the class's. *)
Definition dev_read (o buffer size : Z) : kprog Z :=
  x ← obj o;
  match o_pending x with
  | Some _ => p ← getCurrentProcess; do_read o p buffer size
  | None => base_read o buffer size
  end.

(** The loop that removes the first request of [owner]. *)
Fixpoint remove_request (owner : Z) (l : list pending_read) : list pending_read :=
  match l with
  | [] => []
  | r :: l => if pr_proc r =? owner then l else r :: remove_request owner l
  end.

(** The virtual [onRemovedByOwner]: no class but the wrapper overrides it. *)
Definition onRemovedByOwner (o owner : Z) : kprog unit :=
  x ← obj o;
  match o_pending x with
  | Some l => put_obj o (set_pending (remove_request owner l) x)
  | None => mret tt
  end.

(** [syscall_set_retval] *)
Definition retval (ret : Z) (t : tss) : tss :=
  tss_set Edx (u32 (Z.shiftr ret 32)) (tss_set Eax (Z.land ret 0xFFFFFFFF) t).
Definition syscall_set_retval (p ret : Z) : kprog unit :=
  mod_proc p (fun p => set_usermode_state (retval ret (usermode_state p)) p).

(** The loop of check(): the result is [ind].  The queue never holds more
    than MAX_PROCESS_NUM requests and [ind] grows, so this many turns are
    enough. *)
Fixpoint check_loop (fuel : nat) (o : Z) (ind : nat) : kprog nat :=
  match fuel with
  | O => pnofuel
  | S fuel =>
      l ← pending_of o;
      match l !! ind with
      | None => mret ind
      | Some now =>
          probe ← base_read o 0 0;
          if probe =? - EAGAIN then mret ind
          else
            setCurrentProcess (pr_proc now);;
            mod_proc (pr_proc now) (set_process_state PROCESS_STATE_RUNNABLE);;
            ret ← do_read o (pr_proc now) (pr_buffer now) (pr_size now);
            syscall_set_retval (pr_proc now) (u64 ret);;
            check_loop fuel o (S ind)
      end
  end.

Definition check (o : Z) : kprog unit :=
  now_running_process ← getCurrentProcess;
  ind ← check_loop 33 o 0;
  l ← pending_of o;
  put_pending o (drop ind l);;
  setCurrentProcess now_running_process.

Fixpoint checkAll_loop (n : nat) (i : Z) : kprog unit :=
  match n with
  | O => mret tt
  | S n =>
      k ← pget;
      (match devices k !! i with Some o => check o | None => mret tt end);;
      checkAll_loop n (i + 1)
  end.

Definition checkAll : kprog unit := checkAll_loop (Z.to_nat MAX_BLOCK_INPUT_DEVICE_NUM) 0.

Definition createSemaphore (cnt : Z) : kprog Z := BlockInputDevice (BSemaphore cnt).
End devices.
