(* ===== verification/Process.v ===== *)
(** * Process: src/src/objects/Process.cpp

    The process table and the operations on a process: its objects, clone,
    exec, the saved stack of a forking parent, and the end of a process.  An
    exception of the C++ text that nothing catches is [Panic] with the text of
    its [what()]. *)
From S2P Require Import Prelude Mem CString Kernel Devices UserLib.

(** [1 << i] of an int: the i386 takes the count modulo 32, and the result is
    extended to 64 bits with its sign before the [&]. *)
Definition keep_bit (i : Z) : Z := s32 (Z.shiftl 1 (i mod 32)).

(** process_runtime_info_t of src/common_inc/common_def.h *)
Definition PROCESS_RUNTIME_INFO_SIZE : Z := 512.
Definition sizeof_info_buffer : Z := PROCESS_RUNTIME_INFO_SIZE - PROCESS_MAX_ARGUMENTS - 4.
Definition sizeof_runtime_info : Z := 4 + 2 * PROCESS_MAX_ARGUMENTS + sizeof_info_buffer.

Definition store16 (a v : Z) : prog mem unit := store8 a v;; store8 (a + 1) (Z.shiftr v 8).

Lemma store16_at m a v : mapped m a 2 -> store16 a v m = Ret (tt, write_bytes m a [u8 v; u8 (Z.shiftr v 8)]).
Proof.
  intros H. unfold store16. rewrite (bind_Ret _ _ _ _ _ (store8_at m a v ltac:(apply H; lia))).
  rewrite store8_at; [done|]. apply (mapped_insert m a (u8 v) a 2 H). lia.
Qed.

(** A string as a local object, such as [sargs[i]]. *)
Fixpoint load_string (n : nat) (a : Z) : prog mem (list Z) :=
  match n with
  | O => mret []
  | S n =>
      c ← load8 a;
      if c =? 0 then mret [] else s ← load_string n (a + 1); mret (c :: s)
  end.

(** A copy from and to an array outside the modelled memory. *)
Fixpoint load_bytes (n : nat) (a : Z) : prog mem (list Z) :=
  match n with
  | O => mret []
  | S n => b ← load8 a; l ← load_bytes n (a + 1); mret (b :: l)
  end.

Fixpoint store_bytes (a : Z) (l : list Z) : prog mem unit :=
  match l with
  | [] => mret tt
  | b :: l => store8 a b;; store_bytes (a + 1) l
  end.

(** Copies between the memory and an array. *)
Lemma load_bytes_at m a l : bytes_at m a l -> load_bytes (length l) a m = Ret (l, m).
Proof.
  revert a. induction l as [|b l IH]; intros a H; [done|]. destruct H as [Hb H]. cbn [load_bytes length].
  rewrite (bind_Ret _ _ _ _ _ (load8_at _ _ _ Hb)), (bind_Ret _ _ _ _ _ (IH _ H)). done.
Qed.

Lemma store_bytes_at m a l : mapped m a (Z.of_nat (length l)) -> Forall (urange 8) l ->
  store_bytes a l m = Ret (tt, write_bytes m a l).
Proof.
  revert m a. induction l as [|b l IH]; intros m a Hm Hl; [done|]. cbn [store_bytes write_bytes length] in *.
  apply list.Forall_cons in Hl as [Hb Hl].
  rewrite (bind_Ret _ _ _ tt (<[a := b]> m)); [|rewrite store8_at by (apply Hm; lia); by rewrite wrap_small].
  apply IH; [|done]. apply mapped_insert. intros x Hx. apply Hm. lia.
Qed.

(** The user_stack_pos and kernel_stack_pos of a process, at their tops. *)
Definition stack_top (pos pid : Z) : Z := u32 (pos + PROCESS_STACK_SIZE * pid + PROCESS_STACK_SIZE).

Section process.
Context {W : Type} `{!External W} `{!Layout}.
Abbreviation kprog := (prog (kernel W)).

Definition ObjectLimitExceededException : string := "too many objects".
Definition InvalidSectionException : string := "invalid section".

(** ** The table *)
Fixpoint free_slot (n : nat) (i : Z) (l : gmap Z process) : option Z :=
  match n with
  | O => None
  | S n => match l !! i with None => Some i | Some _ => free_slot n (i + 1) l end
  end.

(** The constructor; [usermode_state], which it leaves unset, is written by
    clone() and exec() before the process runs. *)
Definition new_process (parent : option Z) : kprog Z :=
  k ← pget;
  match free_slot (Z.to_nat MAX_PROCESS_NUM) 0 (process_list k) with
  | Some pid =>
      put_proc pid (Process (default (-1) parent) PROCESS_STATE_RUNNABLE PROCESS_SCHE_NORMAL 0 None
        tss_zero ∅);;
      mret pid
  | None => ppanic "too many processes"
  end.

(** ** Objects *)

(** removeObject() on a process [p] that need not be in the table any more. *)
Definition remove_object (pid pos : Z) (p : process) : kprog process :=
  if (0 <=? pos) && (pos <? PROCESS_MAX_OBJECTS) then
    match objects p !! pos with
    | Some o => onRemovedByOwner o pid;; release o;; mret (set_objects (delete pos (objects p)) p)
    | None => mret p
    end
  else mret p.

Definition removeObject (pid pos : Z) : kprog unit :=
  p ← proc pid; p ← remove_object pid pos p; put_proc pid p.

(** [objects[pos] = obj]: the reference of the entry is counted. *)
Definition attach (pid pos o : Z) : kprog unit :=
  addRef o;; mod_proc pid (fun p => set_objects (<[pos := o]> (objects p)) p).

Definition setObject (pid pos : Z) (new_obj : option Z) : kprog Z :=
  if (pos <? 0) || (PROCESS_MAX_OBJECTS <=? pos) then mret (-1)
  else
    removeObject pid pos;;
    match new_obj with
    | None => ppanic "invalid objects"
    | Some o => attach pid pos o;; mret pos
    end.

(** [objects[pos]]: an index outside the array is undefined. *)
Definition getObject (pid pos : Z) : kprog (option Z) :=
  p ← proc pid;
  if (0 <=? pos) && (pos <? PROCESS_MAX_OBJECTS) then mret (objects p !! pos) else pfault.

Fixpoint free_object (n : nat) (i : Z) (m : gmap Z Z) : option Z :=
  match n with
  | O => None
  | S n => match m !! i with None => Some i | Some _ => free_object n (i + 1) m end
  end.

Definition addObject (pid : Z) (o : option Z) : kprog Z :=
  match o with
  | None => ppanic "invalid objects"
  | Some o =>
      x ← obj o;
      p ← proc pid;
      let first := if is_segment x then PROCESS_SEGMENT_BEGIN else PROCESS_NORMAL_OBJECT_BEGIN in
      match free_object (Z.to_nat (PROCESS_MAX_OBJECTS - first)) first (objects p) with
      | Some i => attach pid i o;; mret i
      | None => ppanic ObjectLimitExceededException
      end
  end.

(** ** The saved stack of a forking parent *)
Definition restoreStack (pid : Z) : kprog unit :=
  p ← proc pid;
  match stack_backup p with
  | Some b =>
      kmem (store_bytes (stack_top_backup p) b);;
      mod_proc pid (fun p => set_process_state PROCESS_STATE_RUNNABLE (set_backup 0 None p))
  | None => mret tt
  end.

Definition restore_parent (p : process) : kprog unit :=
  if 0 <=? ppid p then
    parent ← getProcess (ppid p);
    match parent with Some _ => restoreStack (ppid p) | None => mret tt end
  else mret tt.

(** ** The end of a process *)
Fixpoint remove_objects (n : nat) (pid i : Z) (p : process) : kprog process :=
  match n with
  | O => mret p
  | S n => p ← remove_object pid i p; remove_objects n pid (i + 1) p
  end.

(** ~Process *)
Definition destroy_process (pid : Z) (p : process) : kprog unit :=
  p ← remove_objects (Z.to_nat PROCESS_MAX_OBJECTS) pid 0 p;
  restore_parent p.

Definition deleteProcess (pid code : Z) : kprog unit :=
  p ← getProcess pid;
  pmodify (fun k => set_process_list (delete pid (process_list k)) k);;
  (match p with Some p => destroy_process pid p | None => mret tt end);;
  processExit pid code.

(** ** Kernel mode *)
Definition enterKernelMode : kprog unit :=
  pid ← getCurrentProcess;
  p ← getProcess pid;
  match p with
  | Some p => k ← pget; put_proc pid (set_usermode_state (user_tss k) p)
  | None => mret tt
  end.

Definition leaveKernelMode : kprog unit :=
  pid ← getCurrentProcess;
  p ← getProcess pid;
  match p with
  | Some p => pmodify (set_user_tss (usermode_state p))
  | None => mret tt
  end.

Definition run (pid : Z) : kprog unit :=
  mod_proc pid (set_process_state PROCESS_STATE_RUNNABLE);; setCurrentProcess pid.

(** ** clone() *)
Fixpoint clone_objects (n : nat) (pid child i : Z) : kprog unit :=
  match n with
  | O => mret tt
  | S n =>
      p ← proc pid;
      (match objects p !! i with Some o => setObject child i (Some o);; mret tt | None => mret tt end);;
      clone_objects n pid child (i + 1)
  end.

Definition clone_stack (pid child : Z) (mode : clone_mode) (code data : Z) : kprog unit :=
  p ← proc pid;
  match mode with
  | PROCESS_CLONE_KEEP_STACK =>
      b ← kmem (load_bytes (Z.to_nat PROCESS_STACK_BACKUP_SIZE) (usermode_state p Esp));
      mod_proc pid (set_backup (usermode_state p Esp) (Some b));;
      syscall_set_retval child 0;;
      mod_proc pid (set_process_state PROCESS_STATE_SLEEPING)
  | PROCESS_CLONE_NEW_THREAD =>
      let esp := u32 (stack_top user_stack_pos child - 16) in
      kmem (store32 esp data);;
      let esp := u32 (esp - 4) in
      kmem (store32 esp 0);;
      mod_proc child (fun c => set_usermode_state
        (tss_set Eip code (tss_set Esp esp
          (tss_set Esp0 (stack_top kernel_stack_pos child) (usermode_state c)))) c)
  end.

Definition clone (pid : Z) (mode : clone_mode) (code data : Z) : kprog Z :=
  p ← proc pid;
  match stack_backup p with
  | Some _ => ppanic "Fork with dirty stack, it shouldn't happen"
  | None =>
      child ← new_process (Some pid);
      mod_proc child (fun c =>
        set_process_state PROCESS_STATE_RUNNABLE (set_usermode_state (usermode_state p) c));;
      clone_stack pid child mode code data;;
      clone_objects (Z.to_nat PROCESS_MAX_OBJECTS) pid child 0;;
      setCurrentProcess child;;
      mret child
  end.

(** ** exec() *)
Definition bad_section (s : section) : bool := PROCESS_USER_IMAGE_SPACE <=? u32 (sec_base s + sec_limit s).

(** [sargs]: the arguments, copied by strlcpy() into at most 20 bytes each. *)
Fixpoint exec_args (n : nat) (args : Z) : prog mem (list (list Z)) :=
  match n with
  | O => mret []
  | S n =>
      a ← load32 args;
      if a =? 0 then mret []
      else
        strlen a;;
        s ← load_string 19 a;
        rest ← exec_args n (args + 4);
        mret (s :: rest)
  end.

Definition exec_keep (object_keep_low object_keep_high : Z) (i : Z) : bool :=
  negb (Z.land (Z.shiftl object_keep_high 32 + object_keep_low) (u64 (keep_bit i)) =? 0).

Fixpoint exec_remove (n : nat) (pid i low high : Z) : kprog unit :=
  match n with
  | O => mret tt
  | S n =>
      (if exec_keep low high i then mret tt else removeObject pid i);;
      exec_remove n pid (i + 1) low high
  end.

(** [strcpy] of a local string. *)
Fixpoint store_string (a : Z) (s : list Z) : prog mem unit :=
  match s with
  | [] => store8 a 0
  | c :: s => store8 a c;; store_string (a + 1) s
  end.

(** The loop that fills [info->buffer] and [info->args]. *)
Fixpoint exec_info (info i total_length : Z) (sargs : list (list Z)) : prog mem unit :=
  match sargs with
  | [] => mret tt
  | s :: rest =>
      let length := Z.of_nat (length s) in
      if total_length + length + 1 <=? sizeof_info_buffer then
        store_string (info_buffer info + total_length) s;;
        store16 (info_args info + 2 * i) total_length;;
        exec_info info (i + 1) (total_length + length + 1) rest
      else mret tt
  end.

(** The address where the image of a process is loaded. *)
Definition image_base (pid : Z) : Z := u32 (USER_SPACE_START + PROCESS_USER_IMAGE_SPACE * pid).

Definition exec_tss (pid entry_point : Z) : tss :=
  let user_data := SEGMENT_SELECTOR SEG_USER_DATA 0 3 in
  let t := tss_set Cs (SEGMENT_SELECTOR SEG_USER_CODE 0 3) tss_zero in
  let t := tss_set Ss0 (SEGMENT_SELECTOR SEG_KERNEL_DATA 0 0) t in
  let t := tss_set Ds user_data (tss_set Es user_data (tss_set Fs user_data
             (tss_set Gs user_data (tss_set Ss user_data t)))) in
  let t := tss_set Eip (u32 (entry_point + image_base pid)) t in
  let t := tss_set Eflags (Z.lor (t Eflags) (Z.shiftl 1 9)) t in
  let t := tss_set Iomap_base sizeof_tss t in
  tss_set Esp0 (stack_top kernel_stack_pos pid) t.

(** The stack: the block of the arguments, and a word for the alignment. *)
Definition exec_stack (pid : Z) (sargs : list (list Z)) : prog mem Z :=
  let esp := u32 (stack_top user_stack_pos pid - sizeof_runtime_info) in
  memset (info_args esp) 0xFF (2 * PROCESS_MAX_ARGUMENTS);;
  exec_info esp 0 0 sargs;;
  store32 esp esp;;
  let esp' := u32 (esp - 4) in
  store32 esp' 0;;
  mret esp'.

Fixpoint exec_load (pid : Z) (sections : list section) : kprog unit :=
  match sections with
  | [] => mret tt
  | s :: rest =>
      let base := u32 (sec_base s + image_base pid) in
      segment ← new_object (BSegment base (sec_limit s)) None;
      kmem (memcpy base (sec_buffer s) (sec_limit s));;
      addObject pid (Some segment);;
      release segment;;
      exec_load pid rest
  end.

Definition exec (pid args : Z) (sections : list section)
    (entry_point object_keep_low object_keep_high : Z) : kprog unit :=
  if existsb bad_section sections then ppanic InvalidSectionException
  else
    sargs ← kmem (exec_args (Z.to_nat PROCESS_MAX_ARGUMENTS) args);
    exec_remove (Z.to_nat PROCESS_MAX_OBJECTS) pid 0 object_keep_low object_keep_high;;
    mod_proc pid (set_usermode_state (exec_tss pid entry_point));;
    esp ← kmem (exec_stack pid sargs);
    mod_proc pid (fun p => set_usermode_state (tss_set Esp esp (usermode_state p)) p);;
    exec_load pid sections;;
    p ← proc pid;
    restore_parent p.
End process.
