(* ===== verification/Invariant.v ===== *)
(** * Invariant: the well-formedness of the kernel's state

    The invariant [inv] ties the process table, the objects with their
    reference counts, the table of the blocking devices and their queues
    together; every operation of Devices.v and Process.v keeps it. *)
From stdpp Require Import gmultiset.
From S2P Require Import Prelude Mem Kernel Devices Process.

(** ** Inversion of the access operations *)
Section inversion.
Context {W : Type}.
Implicit Types (k : kernel W).

Lemma mret_Ret {S A} (a b : A) (s s' : S) : mret (M := prog S) a s = Ret (b, s') -> a = b /\ s = s'.
Proof. unfold mret, prog_ret. intros H. by injection H as -> ->. Qed.

Lemma pget_Ret {S} (a s s' : S) : pget s = Ret (a, s') -> a = s /\ s' = s.
Proof. intros H. by injection H as -> ->. Qed.

Lemma pmodify_Ret {S} (f : S -> S) u s s' : pmodify f s = Ret (u, s') -> s' = f s.
Proof. intros H. by injection H as _ ->. Qed.

Lemma pput_Ret {S} (t : S) u s s' : pput t s = Ret (u, s') -> s' = t.
Proof. intros H. by injection H as _ ->. Qed.

Lemma getCurrentProcess_Ret k a k' : getCurrentProcess k = Ret (a, k') -> a = current_process k /\ k' = k.
Proof. intros H. by injection H as -> ->. Qed.

Lemma getProcess_Ret pid k a k' :
  getProcess pid k = Ret (a, k') -> a = process_list k !! pid /\ k' = k /\ 0 <= pid < MAX_PROCESS_NUM.
Proof.
  unfold getProcess, valid_pid. destruct (_ && _) eqn:E; [|done].
  apply andb_true_iff in E as [E1%Z.leb_le E2%Z.ltb_lt]. intros H. injection H as -> ->. auto.
Qed.

Lemma proc_Ret pid k p k' :
  proc pid k = Ret (p, k') -> process_list k !! pid = Some p /\ k' = k.
Proof.
  unfold proc. intros H. apply bind_Ret_inv in H as (q & k1 & Hq & H).
  apply getProcess_Ret in Hq as (-> & -> & _).
  destruct (process_list k !! pid); [|done]. by injection H as -> ->.
Qed.

Lemma mod_proc_Ret pid f k u k' :
  mod_proc pid f k = Ret (u, k') ->
  exists p, process_list k !! pid = Some p /\ k' = set_process_list (<[pid := f p]> (process_list k)) k.
Proof.
  unfold mod_proc. intros H. apply bind_Ret_inv in H as (p & k1 & Hp & H).
  apply proc_Ret in Hp as [Hp ->]. apply pmodify_Ret in H as ->. by exists p.
Qed.

Lemma obj_Ret o k x k' : obj o k = Ret (x, k') -> store k !! o = Some x /\ k' = k.
Proof.
  unfold obj. intros H. apply bind_Ret_inv in H as (k1 & k2 & Hk & H).
  apply pget_Ret in Hk as [-> ->]. destruct (store k !! o); [|done]. by injection H as -> ->.
Qed.

Lemma kmem_Ret {A} (p : prog mem A) k a k' :
  kmem p k = Ret (a, k') -> exists m', p (k_mem k) = Ret (a, m') /\ k' = set_mem m' k.
Proof.
  unfold kmem, zoom. destruct (p (k_mem k)) as [[b m']| | |]; [|done..].
  intros H. injection H as <- <-. eauto.
Qed.

Lemma kworld_Ret {A} (p : prog (mem * W) A) k a k' :
  kworld p k = Ret (a, k') -> exists mx, k' = set_world mx k.
Proof.
  unfold kworld, zoom. destruct (p _) as [[b mx]| | |]; [|done..].
  intros H. injection H as <- <-. eauto.
Qed.

Lemma array_get_Ret {A} (a : gmap Z A) i k v k' : array_get a i k = Ret (v, k') -> a !! i = Some v /\ k' = k.
Proof. unfold array_get. destruct (a !! i); [|done]. intros H. by apply mret_Ret in H as [-> ->]. Qed.

Lemma pending_of_Ret o k l k' :
  pending_of o k = Ret (l, k') -> k' = k /\ exists x, store k !! o = Some x /\ o_pending x = Some l.
Proof.
  unfold pending_of. intros H. apply bind_Ret_inv in H as (x & k1 & Hx & H).
  apply obj_Ret in Hx as [Hx ->]. destruct (o_pending x) eqn:E; [|done].
  injection H as -> ->. eauto.
Qed.

Lemma put_pending_Ret o l k u k' :
  put_pending o l k = Ret (u, k') ->
  exists x, store k !! o = Some x /\ k' = set_store (<[o := set_pending l x]> (store k)) k.
Proof.
  unfold put_pending. intros H. apply bind_Ret_inv in H as (x & k1 & Hx & H).
  apply obj_Ret in Hx as [Hx ->]. apply pmodify_Ret in H as ->. eauto.
Qed.
End inversion.

(** [runs] takes apart the hypotheses that say that a program returned. *)
Ltac run_step :=
  match goal with
  | H : (_ ≫= _) _ = Ret _ |- _ => apply bind_Ret_inv in H as (? & ? & ? & H); cbn beta iota in H
  | H : mret _ _ = Ret _ |- _ => apply mret_Ret in H as [<- <-]
  | H : pfault _ = Ret _ |- _ => discriminate H
  | H : ppanic _ _ = Ret _ |- _ => discriminate H
  | H : pnofuel _ = Ret _ |- _ => discriminate H
  | H : pget _ = Ret _ |- _ => apply pget_Ret in H as [-> ->]
  | H : pput _ _ = Ret _ |- _ => apply pput_Ret in H as ->
  | H : pmodify _ _ = Ret _ |- _ => apply pmodify_Ret in H as ->
  | H : setCurrentProcess _ _ = Ret _ |- _ => apply pmodify_Ret in H as ->
  | H : put_obj _ _ _ = Ret _ |- _ => apply pmodify_Ret in H as ->
  | H : put_proc _ _ _ = Ret _ |- _ => apply pmodify_Ret in H as ->
  | H : getCurrentProcess _ = Ret _ |- _ => apply getCurrentProcess_Ret in H as [-> ->]
  | H : getProcess _ _ = Ret _ |- _ => apply getProcess_Ret in H as (-> & -> & ?)
  | H : proc _ _ = Ret _ |- _ => apply proc_Ret in H as [? ->]
  | H : obj _ _ = Ret _ |- _ => apply obj_Ret in H as [? ->]
  | H : mod_proc _ _ _ = Ret _ |- _ => apply mod_proc_Ret in H as (? & ? & ->)
  | H : kmem _ _ = Ret _ |- _ => apply kmem_Ret in H as (? & ? & ->)
  | H : kworld _ _ = Ret _ |- _ => apply kworld_Ret in H as (? & ->)
  | H : array_get _ _ _ = Ret _ |- _ => apply array_get_Ret in H as [? ->]
  | H : pending_of _ _ = Ret _ |- _ => apply pending_of_Ret in H as (-> & ? & ? & ?)
  | H : put_pending _ _ _ = Ret _ |- _ => apply put_pending_Ret in H as (? & ? & ->)
  end.
Ltac runs := repeat run_step.

(** ** References from the process table *)
Definition slots_of (m : gmap Z Z) : gmultiset Z := map_fold (fun _ o acc => {[+ o +]} ⊎ acc) ∅ m.
Definition all_slots (l : gmap Z process) : gmultiset Z :=
  map_fold (fun _ p acc => slots_of (objects p) ⊎ acc) ∅ l.

Lemma slots_of_insert m i o : m !! i = None -> slots_of (<[i := o]> m) = {[+ o +]} ⊎ slots_of m.
Proof.
  intros Hi. unfold slots_of. apply (map_fold_insert_L (fun _ o acc => {[+ o +]} ⊎ acc)); [|done].
  intros. multiset_solver.
Qed.

Lemma slots_of_delete m i o : m !! i = Some o -> slots_of m = {[+ o +]} ⊎ slots_of (delete i m).
Proof.
  intros Hi. rewrite <- (insert_delete_id m i o Hi) at 1. apply slots_of_insert, lookup_delete_eq.
Qed.

Lemma slots_of_lookup m i o : m !! i = Some o -> (0 < multiplicity o (slots_of m))%nat.
Proof. intros Hi. rewrite (slots_of_delete m i o Hi), multiplicity_disj_union, multiplicity_singleton_eq. lia. Qed.

Lemma all_slots_insert l pid p :
  l !! pid = None -> all_slots (<[pid := p]> l) = slots_of (objects p) ⊎ all_slots l.
Proof.
  intros Hi. unfold all_slots.
  apply (map_fold_insert_L (fun _ p acc => slots_of (objects p) ⊎ acc)); [|done].
  intros. multiset_solver.
Qed.

Lemma all_slots_delete l pid p :
  l !! pid = Some p -> all_slots l = slots_of (objects p) ⊎ all_slots (delete pid l).
Proof.
  intros Hi. rewrite <- (insert_delete_id l pid p Hi) at 1.
  apply all_slots_insert, lookup_delete_eq.
Qed.

Lemma all_slots_update l pid p p' :
  l !! pid = Some p ->
  all_slots (<[pid := p']> l) = slots_of (objects p') ⊎ all_slots (delete pid l).
Proof.
  intros Hi. rewrite <- insert_delete_eq. apply all_slots_insert, lookup_delete_eq.
Qed.

Lemma all_slots_same l pid p p' :
  l !! pid = Some p -> objects p' = objects p -> all_slots (<[pid := p']> l) = all_slots l.
Proof. intros Hi Ho. by rewrite (all_slots_update l pid p), Ho, <- all_slots_delete by done. Qed.

Lemma all_slots_lookup l pid p i o :
  l !! pid = Some p -> objects p !! i = Some o -> (0 < multiplicity o (all_slots l))%nat.
Proof.
  intros Hp Hi. rewrite (all_slots_delete l pid p Hp), multiplicity_disj_union.
  pose proof (slots_of_lookup _ _ _ Hi). lia.
Qed.

(** ** The invariant *)
Section inv.
Context {W : Type}.
Implicit Types (k : kernel W).

(** The process [pid] waits for data in the queue of [o]. *)
Definition waits k (pid o : Z) : Prop :=
  exists x l, store k !! o = Some x /\ o_pending x = Some l /\ pid ∈ pr_proc <$> l.

Definition asleep (p : process) : Prop := process_state p = PROCESS_STATE_SLEEPING.

(** [X o] counts the references to [o] that are not in the process table: the
    special paths, the default devices and the variables of the kernel. *)
Record inv (X : Z -> Z) k : Prop := {
  inv_extra : forall o, 0 <= X o;
  inv_pids : forall pid p, process_list k !! pid = Some p -> 0 <= pid < MAX_PROCESS_NUM;
  inv_slots : forall pid p i o, process_list k !! pid = Some p -> objects p !! i = Some o ->
    0 <= i < PROCESS_MAX_OBJECTS;
  inv_refs : forall o, match store k !! o with
    | Some x => o_ref x = Z.of_nat (multiplicity o (all_slots (process_list k))) + X o /\ 0 < o_ref x
    | None => multiplicity o (all_slots (process_list k)) = 0%nat /\ X o = 0
    end;
  inv_next : forall o x, store k !! o = Some x -> o < next_object k;
  inv_devices : forall o x l, store k !! o = Some x -> o_pending x = Some l ->
    exists i, devices k !! i = Some o;
  inv_device : forall i o, devices k !! i = Some o -> 0 <= i < MAX_BLOCK_INPUT_DEVICE_NUM /\
    exists x l, store k !! o = Some x /\ o_pending x = Some l;
  inv_wait : forall pid o, waits k pid o -> exists p i, process_list k !! pid = Some p /\
    asleep p /\ stack_backup p = None /\ objects p !! i = Some o;
  inv_one : forall pid o o', waits k pid o -> waits k pid o' -> o = o';
  inv_nodup : forall o x l, store k !! o = Some x -> o_pending x = Some l -> NoDup (pr_proc <$> l);
  inv_sleep : forall pid p, process_list k !! pid = Some p -> asleep p ->
    is_Some (stack_backup p) \/ exists o, waits k pid o;
  inv_backup : forall pid p, process_list k !! pid = Some p -> is_Some (stack_backup p) -> asleep p
}.

(** ** What the invariant depends on *)
Definition shape_of (x : object) : Z * option (list pending_read) := (o_ref x, o_pending x).

Record same_shape k k' : Prop := {
  same_processes : process_list k' = process_list k;
  same_store : shape_of <$> store k' = shape_of <$> store k;
  same_next : next_object k' = next_object k;
  same_devices : devices k' = devices k;
  same_current : current_process k' = current_process k
}.

Lemma same_lookup k k' o : same_shape k k' -> shape_of <$> store k' !! o = shape_of <$> store k !! o.
Proof. intros [_ Hs _ _ _]. by rewrite <- !lookup_fmap, Hs. Qed.

Lemma same_lookup_Some k k' o x' : same_shape k k' -> store k' !! o = Some x' ->
  exists x, store k !! o = Some x /\ o_ref x = o_ref x' /\ o_pending x = o_pending x'.
Proof.
  intros Hs Hx. pose proof (same_lookup k k' o Hs) as E. rewrite Hx in E.
  destruct (store k !! o) as [x|]; [|done]. injection E as E1 E2. eauto.
Qed.

Lemma same_shape_sym k k' : same_shape k k' -> same_shape k' k.
Proof. intros [? ? ? ? ?]. by split. Qed.

Lemma same_waits k k' pid o : same_shape k k' -> waits k' pid o -> waits k pid o.
Proof.
  intros Hs (x' & l & Hx & Hl & Hin). destruct (same_lookup_Some k k' o x' Hs Hx) as (x & ? & _ & E).
  exists x, l. by rewrite E.
Qed.

Lemma inv_same X k k' : same_shape k k' -> inv X k -> inv X k'.
Proof.
  intros Hs Hi. pose proof (same_shape_sym _ _ Hs) as Hs'.
  pose proof (fun pid o => same_waits k k' pid o Hs) as Hw.
  pose proof (fun pid o => same_waits k' k pid o Hs') as Hw'.
  pose proof Hs as [Hp _ Hn Hd _]. destruct Hi. split; rewrite ?Hp, ?Hn, ?Hd.
  - done.
  - done.
  - done.
  - intros o. specialize (inv_refs0 o). pose proof (same_lookup k k' o Hs) as E.
    destruct (store k' !! o) as [x'|], (store k !! o) as [x|]; try done. by injection E as -> _.
  - intros o x' Hx. destruct (same_lookup_Some k k' o x' Hs Hx) as (x & ? & _). eauto.
  - intros o x' l Hx Hl. destruct (same_lookup_Some k k' o x' Hs Hx) as (x & ? & _ & E).
    apply (inv_devices0 o x l); [done|congruence].
  - intros i o Hi. destruct (inv_device0 i o Hi) as (? & x & l & Hx & Hl). split; [done|].
    destruct (same_lookup_Some k' k o x Hs' Hx) as (x' & ? & _ & E). exists x', l. split; [done|congruence].
  - eauto.
  - eauto.
  - intros o x' l Hx Hl. destruct (same_lookup_Some k k' o x' Hs Hx) as (x & ? & _ & E).
    apply (inv_nodup0 o x l); [done|congruence].
  - intros pid p H1 H2. destruct (inv_sleep0 pid p H1 H2) as [|[o Ho]]; [by left|right; eauto].
  - done.
Qed.

Lemma same_refl k : same_shape k k.
Proof. by split. Qed.
Lemma same_trans k1 k2 k3 : same_shape k1 k2 -> same_shape k2 k3 -> same_shape k1 k3.
Proof. intros [] []. split; congruence. Qed.

(** A change of an object that keeps its count and its queue. *)
Lemma same_put_obj o x x' k :
  store k !! o = Some x -> shape_of x' = shape_of x ->
  same_shape k (set_store (<[o := x']> (store k)) k).
Proof.
  intros Hx E. split; [done| |done..]. cbn. rewrite fmap_insert. apply insert_id.
  by rewrite lookup_fmap, Hx, E.
Qed.

Lemma inv_set_current X pid k : inv X k -> inv X (set_current pid k).
Proof. intros []. by split. Qed.

(** A change of a process that keeps its objects. *)
Lemma inv_put_proc X k pid p p' :
  process_list k !! pid = Some p -> objects p' = objects p ->
  ((exists o, waits k pid o) -> asleep p' /\ stack_backup p' = None) ->
  (asleep p' -> is_Some (stack_backup p') \/ exists o, waits k pid o) ->
  (is_Some (stack_backup p') -> asleep p') ->
  inv X k -> inv X (set_process_list (<[pid := p']> (process_list k)) k).
Proof.
  intros Hp Ho Hw Hs Hb Hi. destruct Hi. split; try done; cbn.
  - intros q p1. rewrite lookup_insert_Some. intros [[<- <-]|[_ H]]; eauto.
  - intros q p1 i o. rewrite lookup_insert_Some. intros [[<- <-]|[_ H]]; [rewrite Ho|]; eauto.
  - intros o. rewrite (all_slots_same _ pid p) by done. apply inv_refs0.
  - intros q o Hq. destruct (decide (q = pid)) as [->|Hne].
    + destruct (inv_wait0 pid o Hq) as (p1 & i & Hp1 & _ & _ & Hi). destruct Hw as [? ?]; [eauto|].
      exists p', i. rewrite lookup_insert_eq. split; [done|]. split; [done|]. split; [done|].
      rewrite Ho. congruence.
    + destruct (inv_wait0 q o Hq) as (p1 & i & ?). exists p1, i. by rewrite lookup_insert_ne.
  - intros q p1. rewrite lookup_insert_Some. intros [[<- <-]|[_ H]]; eauto.
  - intros q p1. rewrite lookup_insert_Some. intros [[<- <-]|[_ H]]; eauto.
Qed.

Lemma inv_put_proc_same X k pid p p' :
  process_list k !! pid = Some p -> objects p' = objects p -> process_state p' = process_state p ->
  stack_backup p' = stack_backup p ->
  inv X k -> inv X (set_process_list (<[pid := p']> (process_list k)) k).
Proof.
  intros Hp Ho Hs Hb Hi. apply (inv_put_proc X k pid p); [done|done| | | |done];
    unfold asleep; rewrite ?Hs, ?Hb; intros H.
  - destruct H as [o Hw]. destruct (inv_wait X k Hi pid o Hw) as (p1 & i & Hp1 & Ha & Hb1 & _).
    rewrite Hp in Hp1. by injection Hp1 as <-.
  - by apply (inv_sleep X k Hi pid p).
  - by apply (inv_backup X k Hi pid p).
Qed.
End inv.

(** ** The devices *)
Section devices.
Context {W : Type} `{!External W}.
Implicit Types (k : kernel W).

Ltac use_store Hr := match goal with H : store _ !! _ = Some _ |- _ => rewrite H in Hr end.
Ltac shape_done := first [apply same_refl | by split | by apply same_put_obj with (2 := eq_refl)].

Lemma base_read_same o buffer size k r k' : base_read o buffer size k = Ret (r, k') -> same_shape k k'.
Proof.
  unfold base_read. intros H. runs. case_match.
  - unfold sem_read in H. destruct (_ <=? _); runs; [shape_done|].
    destruct (size =? 0); runs; [shape_done|]. simplify_eq. by eapply same_put_obj.
  - unfold sleep_read in H. runs. shape_done.
  - unfold wait_read in H. runs. repeat (case_match; runs); shape_done.
  - runs.
  - runs. shape_done.
Qed.

Lemma dev_write_same o data size k r k' : dev_write o data size k = Ret (r, k') -> same_shape k k'.
Proof.
  unfold dev_write. intros H. runs. destruct (o_base _) eqn:Eb.
  - unfold sem_write in H. runs. simplify_eq. by eapply same_put_obj.
  - unfold sleep_write in H. destruct (negb _); runs; shape_done.
  - unfold wait_write in H. repeat (case_match; runs); shape_done.
  - runs.
  - runs. shape_done.
Qed.

Lemma processExit_same pid status k u k' : processExit pid status k = Ret (u, k') -> same_shape k k'.
Proof. unfold processExit. intros H. runs. shape_done. Qed.

(** ** References *)

(** One more or one less reference to [o] outside the process table. *)
Definition extra (d : Z) (o : Z) (X : Z -> Z) : Z -> Z := fun o' => if decide (o' = o) then X o' + d else X o'.

Lemma waits_put_obj o x x' k pid o' :
  store k !! o = Some x -> o_pending x' = o_pending x ->
  waits (set_store (<[o := x']> (store k)) k) pid o' <-> waits k pid o'.
Proof.
  intros Hx E. unfold waits. cbn. destruct (decide (o' = o)) as [->|Hne].
  - rewrite lookup_insert_eq. split; intros (y & l & Hy & Hl & Hin); simplify_eq.
    + exists x, l. by rewrite <- E.
    + exists x', l. by rewrite E.
  - by rewrite lookup_insert_ne.
Qed.

Lemma inv_put_ref X d o x k :
  store k !! o = Some x -> 0 < o_ref x + d -> 0 <= X o + d ->
  inv X k -> inv (extra d o X) (set_store (<[o := set_ref (o_ref x + d) x]> (store k)) k).
Proof.
  intros Hx Hd HX Hi.
  pose proof (fun pid o' => waits_put_obj o x (set_ref (o_ref x + d) x) k pid o' Hx eq_refl) as Hw.
  destruct Hi. split; cbn; try done.
  - intros o'. unfold extra. specialize (inv_extra0 o'). case_decide; subst; lia.
  - intros o'. unfold extra. destruct (decide (o' = o)) as [->|Hne].
    + rewrite lookup_insert_eq. cbn. specialize (inv_refs0 o). rewrite Hx in inv_refs0. lia.
    + rewrite lookup_insert_ne by done. apply inv_refs0.
  - intros o' x'. rewrite lookup_insert_Some. intros [[<- <-]|[_ H]]; eauto.
  - intros o' x' l. rewrite lookup_insert_Some. intros [[<- <-]|[_ H]]; eauto.
  - intros i o' Ho. destruct (inv_device0 i o' Ho) as (? & y & l & Hy & Hl). split; [done|].
    destruct (decide (o' = o)) as [->|Hne]; [|exists y, l; by rewrite lookup_insert_ne].
    rewrite lookup_insert_eq. simplify_eq. by exists (set_ref (o_ref x + d) x), l.
  - intros pid o' Hw'. apply Hw in Hw'. eauto.
  - intros pid o1 o2 H1 H2. apply Hw in H1, H2. eauto.
  - intros o' x' l. rewrite lookup_insert_Some. intros [[<- <-]|[_ H]]; eauto.
  - intros pid p Hp Ha. destruct (inv_sleep0 pid p Hp Ha) as [|[o' Ho]]; [by left|right].
    exists o'. by apply Hw.
Qed.

Lemma addRef_inv X o k u k' :
  addRef o k = Ret (u, k') -> inv X k ->
  inv (extra 1 o X) k' /\ process_list k' = process_list k /\ current_process k' = current_process k /\
  (forall pid o', waits k' pid o' <-> waits k pid o').
Proof.
  unfold addRef. intros H Hi. runs. split; [|split; [done|split; [done|]]].
  - pose proof (inv_extra X k Hi o). pose proof (inv_refs X k Hi o) as Hr. use_store Hr.
    apply inv_put_ref; [done|lia|lia|done].
  - intros pid o'. by apply waits_put_obj with x.
Qed.

(** An object whose last reference goes: no entry of the table refers to it,
    and so nobody waits for it. *)
Lemma inv_free X o x d k :
  store k !! o = Some x -> o_ref x = 1 -> 0 < X o ->
  (forall i o', d !! i = Some o' <-> devices k !! i = Some o' /\ o' <> o) ->
  inv X k ->
  inv (extra (-1) o X) (set_store (delete o (store k)) (set_devices d k)) /\
  forall pid, ~ waits k pid o.
Proof.
  intros Hx Hr HX Hd Hi.
  assert (multiplicity o (all_slots (process_list k)) = 0%nat) as Hm.
  { pose proof (inv_refs X k Hi o) as H. rewrite Hx in H. lia. }
  assert (forall pid, ~ waits k pid o) as Hno.
  { intros pid Hw. destruct (inv_wait X k Hi pid o Hw) as (p & i & Hp & _ & _ & Ho).
    pose proof (all_slots_lookup _ _ _ _ _ Hp Ho). lia. }
  split; [|done].
  assert (forall pid o', waits (set_store (delete o (store k)) (set_devices d k)) pid o' <-> waits k pid o') as Hw.
  { intros pid o'. split.
    - intros (y & l & Hy & ?). cbn in Hy. apply lookup_delete_Some in Hy as [_ Hy]. by exists y, l.
    - intros Hw. destruct (decide (o' = o)) as [->|Hne]; [by destruct (Hno pid)|].
      destruct Hw as (y & l & Hy & ?). exists y, l. cbn. by rewrite lookup_delete_ne. }
  destruct Hi. split; cbn; try done.
  - intros o'. unfold extra. specialize (inv_extra0 o'). case_decide; subst; lia.
  - intros o'. unfold extra. destruct (decide (o' = o)) as [->|Hne].
    + rewrite lookup_delete_eq. specialize (inv_refs0 o). rewrite Hx in inv_refs0. lia.
    + rewrite lookup_delete_ne by done. apply inv_refs0.
  - intros o' x'. rewrite lookup_delete_Some. intros [_ H]. eauto.
  - intros o' x' l. rewrite lookup_delete_Some. intros [Hne H] Hl.
    destruct (inv_devices0 o' x' l H Hl) as [i Hdi]. exists i. apply Hd. auto.
  - intros i o' [Hdi Hne]%Hd. destruct (inv_device0 i o' Hdi) as (? & y & l & Hy & Hl). split; [done|]. exists y, l.
    by rewrite lookup_delete_ne.
  - intros pid o' H. apply Hw in H. eauto.
  - intros pid o1 o2 H1 H2. apply Hw in H1, H2. eauto.
  - intros o' x' l. rewrite lookup_delete_Some. intros [_ H]. eauto.
  - intros pid p Hp Ha. destruct (inv_sleep0 pid p Hp Ha) as [|[o' Ho]]; [by left|right].
    exists o'. by apply Hw.
Qed.

(** What the operations on the references keep. *)
Record same_procs (k k' : kernel W) : Prop := {
  procs_list : process_list k' = process_list k;
  procs_current : current_process k' = current_process k;
  procs_waits : forall pid o, waits k' pid o <-> waits k pid o
}.

Lemma release_inv X o k u k' :
  release o k = Ret (u, k') -> 0 < X o -> inv X k ->
  inv (extra (-1) o X) k' /\ same_procs k k'.
Proof.
  unfold release. intros H HX Hi. runs. rename x into y.
  pose proof (inv_refs X k Hi o) as Hr. use_store Hr.
  case_match eqn:E.
  - apply Z.eqb_eq in E.
    assert (exists d, k' = set_store (delete o (store k)) (set_devices d k) /\
      forall i o', d !! i = Some o' <-> devices k !! i = Some o' /\ o' <> o) as (d & -> & Hd).
    { destruct (o_pending y) eqn:Ep; unfold drop_device in H; runs.
      - eexists. split; [reflexivity|]. intros i o'. by rewrite map_lookup_filter_Some.
      - exists (devices k). split; [by destruct k|]. intros i o'. split; [|by intros [? _]].
        intros Hd. split; [done|]. intros ->.
        destruct (inv_device X k Hi i o Hd) as (_ & x' & l & Hx' & Hl). congruence. }
    destruct (inv_free X o y d k ltac:(done) ltac:(lia) HX Hd Hi) as [Hinv Hno].
    split; [done|]. split; [done|done|]. intros pid o'. split.
    + intros (z & l & Hz & ?). cbn in Hz. apply lookup_delete_Some in Hz as [_ Hz]. by exists z, l.
    + intros Hw. destruct (decide (o' = o)) as [->|Hne]; [by destruct (Hno pid)|].
      destruct Hw as (z & l & Hz & ?). exists z, l. cbn. by rewrite lookup_delete_ne.
  - apply Z.eqb_neq in E. runs. split.
    + apply (inv_put_ref X (-1)); [done|lia|lia|done].
    + split; [done|done|]. intros pid o'. by apply waits_put_obj with y.
Qed.

(** ** A process outside the table

    An operation on the objects of a process is followed with the process
    taken out of the table, its references counted with the others. *)
Definition slots_extra (m : gmap Z Z) (X : Z -> Z) : Z -> Z := fun o => X o + Z.of_nat (multiplicity o (slots_of m)).

Lemma inv_ext X Y k : (forall o, X o = Y o) -> inv X k -> inv Y k.
Proof.
  intros E []. split; try done; intros o; rewrite <- E; [done|]. apply inv_refs0.
Qed.

Definition without (pid : Z) k : kernel W := set_process_list (delete pid (process_list k)) k.
Definition idle_in_queues k (pid : Z) : Prop := forall o, ~ waits k pid o.

Lemma inv_take_out X pid p k :
  process_list k !! pid = Some p -> idle_in_queues k pid -> inv X k ->
  inv (slots_extra (objects p) X) (without pid k).
Proof.
  intros Hp Hno Hi. destruct Hi. split; cbn; try done.
  - intros o. specialize (inv_extra0 o). unfold slots_extra. lia.
  - intros q p1. rewrite lookup_delete_Some. intros [_ H]. eauto.
  - intros q p1 i o. rewrite lookup_delete_Some. intros [_ H]. eauto.
  - intros o. specialize (inv_refs0 o). unfold slots_extra.
    rewrite (all_slots_delete _ _ _ Hp), multiplicity_disj_union in inv_refs0.
    destruct (store k !! o); lia.
  - intros q o Hw. destruct (inv_wait0 q o Hw) as (p1 & i & H1 & ?). exists p1, i.
    rewrite lookup_delete_ne; [done|]. intros <-. by destruct (Hno o).
  - intros q p1. rewrite lookup_delete_Some. intros [_ H]. eauto.
  - intros q p1. rewrite lookup_delete_Some. intros [_ H]. eauto.
Qed.

Lemma inv_put_in X pid p k :
  process_list k !! pid = None -> 0 <= pid < MAX_PROCESS_NUM ->
  (forall i o, objects p !! i = Some o -> 0 <= i < PROCESS_MAX_OBJECTS) ->
  (asleep p <-> is_Some (stack_backup p)) -> (forall o, 0 <= X o) ->
  inv (slots_extra (objects p) X) k ->
  inv X (set_process_list (<[pid := p]> (process_list k)) k).
Proof.
  intros Hp Hpid Hslots Hs HX Hi.
  assert (idle_in_queues k pid) as Hno.
  { intros o Hw. destruct (inv_wait _ k Hi pid o Hw) as (p1 & i & H1 & _). congruence. }
  destruct Hi. split; cbn; try done.
  - intros q p1. rewrite lookup_insert_Some. intros [[<- <-]|[_ H]]; eauto.
  - intros q p1 i o. rewrite lookup_insert_Some. intros [[<- <-]|[_ H]]; eauto.
  - intros o. specialize (inv_refs0 o). unfold slots_extra in inv_refs0.
    rewrite all_slots_insert, multiplicity_disj_union by done. specialize (HX o).
    destruct (store k !! o); lia.
  - intros q o Hw. destruct (inv_wait0 q o Hw) as (p1 & i & H1 & ?). exists p1, i.
    rewrite lookup_insert_ne; [done|]. intros <-. by destruct (Hno o).
  - intros q p1. rewrite lookup_insert_Some. intros [[<- <-]|[_ H]] Ha; [left; by apply Hs|eauto].
  - intros q p1. rewrite lookup_insert_Some. intros [[<- <-]|[_ H]] Ha; [by apply Hs|eauto].
Qed.

(** The operations on objects do not look at the process table. *)
Lemma addRef_frame o l k u k' :
  addRef o k = Ret (u, k') -> addRef o (set_process_list l k) = Ret (u, set_process_list l k').
Proof.
  unfold addRef, obj, mbind, prog_bind, pget. cbn. destruct (store k !! o); [|done].
  cbn. intros H. by injection H as <- <-.
Qed.

Lemma release_frame o l k u k' :
  release o k = Ret (u, k') -> release o (set_process_list l k) = Ret (u, set_process_list l k').
Proof.
  unfold release, obj, mbind, prog_bind, pget. cbn. destruct (store k !! o) as [x|]; [|done].
  cbn. destruct (o_ref x - 1 =? 0); [destruct (o_pending x)|]; cbn; intros H; by injection H as <- <-.
Qed.

Lemma onRemovedByOwner_frame o owner l k u k' :
  onRemovedByOwner o owner k = Ret (u, k') ->
  onRemovedByOwner o owner (set_process_list l k) = Ret (u, set_process_list l k').
Proof.
  unfold onRemovedByOwner, obj, mbind, prog_bind, pget. cbn. destruct (store k !! o) as [x|]; [|done].
  cbn. destruct (o_pending x); cbn; intros H; by injection H as <- <-.
Qed.

(** A process that does not wait is not in the queue. *)
Lemma remove_request_absent owner l : owner ∉ pr_proc <$> l -> remove_request owner l = l.
Proof.
  induction l as [|r l IH]; [done|]. rewrite fmap_cons, not_elem_of_cons. intros [H1 H2]. cbn.
  replace (pr_proc r =? owner) with false by lia. by rewrite IH.
Qed.

Lemma onRemovedByOwner_idle o owner k u k' :
  onRemovedByOwner o owner k = Ret (u, k') -> ~ waits k owner o -> same_shape k k'.
Proof.
  unfold onRemovedByOwner. intros H Hno. runs. destruct (o_pending x) as [l|] eqn:El; runs; [|apply same_refl].
  apply same_put_obj with x; [done|]. unfold shape_of. cbn. rewrite El, remove_request_absent; [done|].
  intros Hin. apply Hno. by exists x, l.
Qed.

Lemma inv_status X pid p k :
  process_list k !! pid = Some p -> idle_in_queues k pid -> inv X k ->
  asleep p <-> is_Some (stack_backup p).
Proof.
  intros Hp Hno Hi. split; [|by apply (inv_backup X k Hi pid)]. intros Ha.
  destruct (inv_sleep X k Hi pid p Hp Ha) as [|[o Ho]]; [done|by destruct (Hno o)].
Qed.

Lemma same_shape_procs k k' : same_shape k k' -> same_procs k k'.
Proof.
  intros Hs. split; [apply Hs|apply Hs|]. intros pid o. split; [by apply same_waits|].
  apply same_waits. by apply same_shape_sym.
Qed.

Lemma same_procs_trans k1 k2 k3 : same_procs k1 k2 -> same_procs k2 k3 -> same_procs k1 k3.
Proof. intros [A B C] [A' B' C']. split; [congruence|congruence|]. intros. by rewrite C', C. Qed.

Lemma same_shape_list l k k' : same_shape k k' -> same_shape (set_process_list l k) (set_process_list l k').
Proof. intros []. by split. Qed.

Lemma with_release X i o m : m !! i = Some o -> forall o',
  extra (-1) o (slots_extra m X) o' = slots_extra (delete i m) X o'.
Proof.
  intros Hi o'. unfold extra, slots_extra. rewrite (slots_of_delete m i o Hi), multiplicity_disj_union.
  case_decide; [subst; rewrite multiplicity_singleton_eq|rewrite multiplicity_singleton_ne by done]; lia.
Qed.

Lemma set_objects_id p : set_objects (objects p) p = p.
Proof. by destruct p. Qed.

(** removeObject on a process outside the table. *)
Lemma remove_object_inv X pid pos p k p' k' :
  remove_object pid pos p k = Ret (p', k') -> idle_in_queues k pid -> (forall o, 0 <= X o) ->
  inv (slots_extra (objects p) X) (without pid k) ->
  inv (slots_extra (objects p') X) (without pid k') /\
  p' = (if (0 <=? pos) && (pos <? PROCESS_MAX_OBJECTS) then set_objects (delete pos (objects p)) p else p) /\
  same_procs k k'.
Proof.
  unfold remove_object. intros H Hno HX Hi.
  assert (same_procs k k) as Hrefl by (by split).
  case_match; [|runs; auto]. destruct (objects p !! pos) as [o|] eqn:Ho;
    [|runs; by rewrite delete_id, set_objects_id].
  apply bind_Ret_inv in H as ([] & k1 & H1 & H). apply bind_Ret_inv in H as ([] & k2 & H2 & H). runs.
  pose proof (onRemovedByOwner_idle o pid k () k1 H1 (Hno o)) as Hs1.
  pose proof (same_shape_procs _ _ Hs1) as Hp1.
  assert (without pid k1 = set_process_list (delete pid (process_list k)) k1) as E1
    by (unfold without; by rewrite (procs_list _ _ Hp1)).
  assert (inv (slots_extra (objects p) X) (without pid k1)) as Hi1.
  { rewrite E1. eapply inv_same; [|exact Hi]. by apply same_shape_list. }
  destruct (release_inv (slots_extra (objects p) X) o (without pid k1) ()
    (set_process_list (delete pid (process_list k1)) k2)) as [Hi2 Hp2].
  - by apply release_frame.
  - pose proof (slots_of_lookup _ _ _ Ho). specialize (HX o). unfold slots_extra. lia.
  - done.
  - destruct Hp2 as [_ Hc Hw]. cbn in Hc.
    assert (process_list k2 = process_list k1) as El.
    { clear -H2. unfold release in H2. runs. repeat (case_match; runs); unfold drop_device in *; runs; done. }
    split; [|split; [done|]].
    + unfold without. rewrite El. eapply inv_ext; [|exact Hi2]. intros o'. by apply with_release.
    + apply same_procs_trans with k1; [done|]. split; [done|done|]. exact Hw.
Qed.

(** An operation on the objects of the process [pid] only. *)
Record touches (pid : Z) k k' : Prop := {
  touch_current : current_process k' = current_process k;
  touch_others : forall q, q <> pid -> process_list k' !! q = process_list k !! q;
  touch_self : exists m, process_list k' !! pid = set_objects m <$> process_list k !! pid;
  touch_waits : forall q o, waits k' q o <-> waits k q o
}.

Lemma touches_refl pid k : touches pid k k.
Proof.
  split; try done. destruct (process_list k !! pid) as [p|]; [|by exists ∅].
  exists (objects p). cbn. by rewrite set_objects_id.
Qed.

Lemma touches_trans pid k1 k2 k3 : touches pid k1 k2 -> touches pid k2 k3 -> touches pid k1 k3.
Proof.
  intros [A B [m C] D] [A' B' [m' C'] D']. split.
  - congruence.
  - intros q Hq. by rewrite B', B.
  - exists m'. rewrite C', C. by destruct (process_list k1 !! pid).
  - intros. by rewrite D', D.
Qed.

Lemma touches_idle pid k k' q : touches pid k k' -> idle_in_queues k q -> idle_in_queues k' q.
Proof. intros Ht Hno o Hw. by apply (touch_waits _ _ _ Ht), Hno in Hw. Qed.

Lemma touches_same pid k k' : same_procs k k' -> touches pid k k'.
Proof.
  intros [A B C]. split; [done|by rewrite A| |done].
  destruct (touch_self pid k k (touches_refl pid k)) as [m Hm]. exists m. by rewrite A.
Qed.

(** Put the process back after an operation on its objects. *)
Lemma inv_put_back X pid p p' m k :
  process_list k !! pid = Some p -> idle_in_queues k pid -> (forall o, 0 <= X o) ->
  0 <= pid < MAX_PROCESS_NUM -> (asleep p <-> is_Some (stack_backup p)) ->
  (forall i o, m !! i = Some o -> 0 <= i < PROCESS_MAX_OBJECTS) ->
  p' = set_objects m p ->
  inv (slots_extra m X) (without pid k) ->
  inv X (set_process_list (<[pid := p']> (process_list k)) k) /\
  touches pid k (set_process_list (<[pid := p']> (process_list k)) k).
Proof.
  intros Hp Hno HX Hpid Hs Hm -> Hi. split.
  - assert (inv X (set_process_list (<[pid := set_objects m p]> (delete pid (process_list k))) k)) as H.
    { apply (inv_put_in X pid (set_objects m p) (without pid k)); try done. apply lookup_delete_eq. }
    by rewrite insert_delete_eq in H.
  - split; try done; cbn.
    + intros q Hq. by rewrite lookup_insert_ne.
    + exists m. by rewrite lookup_insert_eq, Hp.
Qed.

Lemma removeObject_inv X pid pos k u k' :
  removeObject pid pos k = Ret (u, k') -> idle_in_queues k pid -> inv X k ->
  inv X k' /\ touches pid k k' /\
  (0 <= pos < PROCESS_MAX_OBJECTS -> forall p, process_list k' !! pid = Some p -> objects p !! pos = None).
Proof.
  unfold removeObject. intros H Hno Hi. apply bind_Ret_inv in H as (p & k1 & Hp & H).
  apply proc_Ret in Hp as [Hp ->]. apply bind_Ret_inv in H as (p' & k1 & H1 & H). runs.
  pose proof (inv_extra X k Hi) as HX.
  pose proof (inv_status X pid p k Hp Hno Hi) as Hs.
  destruct (remove_object_inv X pid pos p k p' k1 H1 Hno HX (inv_take_out X pid p k Hp Hno Hi))
    as (Hi1 & Hp' & [El Ec Ew]).
  assert (process_list k1 !! pid = Some p) as Hp1 by (by rewrite El).
  assert (idle_in_queues k1 pid) as Hno1 by (intros o Hw; by apply Ew, Hno in Hw).
  destruct (inv_put_back X pid p p' (objects p') k1) as [Hinv Ht]; try done.
  - by apply (inv_pids X k Hi pid p).
  - intros i o Ho. rewrite Hp' in Ho. apply (inv_slots X k Hi pid p i o Hp).
    case_match; [|done]. cbn in Ho. by apply lookup_delete_Some in Ho as [_ Ho].
  - rewrite Hp'. case_match; [done|by rewrite set_objects_id].
  - split; [done|]. split; [apply touches_trans with k1; [|done]; by apply touches_same|].
    intros Hpos q. cbn. rewrite lookup_insert_eq. intros [= <-]. rewrite Hp'.
    replace ((0 <=? pos) && (pos <? PROCESS_MAX_OBJECTS)) with true by lia. apply lookup_delete_eq.
Qed.

Lemma with_attach X i o m : m !! i = None -> forall o',
  extra 1 o (slots_extra m X) o' = slots_extra (<[i := o]> m) X o'.
Proof.
  intros Hi o'. unfold extra, slots_extra. rewrite (slots_of_insert m i o Hi), multiplicity_disj_union.
  case_decide; [subst; rewrite multiplicity_singleton_eq|rewrite multiplicity_singleton_ne by done]; lia.
Qed.

Lemma attach_inv X pid pos o p k u k' :
  attach pid pos o k = Ret (u, k') -> process_list k !! pid = Some p -> objects p !! pos = None ->
  0 <= pos < PROCESS_MAX_OBJECTS -> idle_in_queues k pid -> inv X k ->
  inv X k' /\ touches pid k k'.
Proof.
  unfold attach. intros H Hp Hfree Hpos Hno Hi.
  apply bind_Ret_inv in H as ([] & k1 & H1 & H). apply mod_proc_Ret in H as (p1 & Hp1 & ->).
  destruct (addRef_inv X o k () k1 H1 Hi) as (_ & El & Ec & Ew).
  assert (process_list k1 !! pid = Some p) as Hp' by (by rewrite El).
  assert (p1 = p) as -> by congruence.
  assert (idle_in_queues k1 pid) as Hno1 by (intros o' Hw; by apply Ew, Hno in Hw).
  destruct (inv_put_back X pid p (set_objects (<[pos := o]> (objects p)) p) (<[pos := o]> (objects p)) k1)
    as [Hinv Ht]; try done.
  - apply (inv_extra X k Hi).
  - by apply (inv_pids X k Hi pid p).
  - by apply (inv_status X pid p k).
  - intros i o'. rewrite lookup_insert_Some. intros [[<- <-]|[_ Ho]]; [done|].
    by apply (inv_slots X k Hi pid p i o').
  - destruct (addRef_inv (slots_extra (objects p) X) o (without pid k) () (without pid k1)) as (Hi1 & _).
    + unfold without. rewrite El. by apply addRef_frame.
    + by apply inv_take_out.
    + eapply inv_ext; [|exact Hi1]. intros o'. by apply with_attach.
  - split; [done|]. apply touches_trans with k1; [|done]. by apply touches_same.
Qed.

Lemma setObject_inv X pid pos o k r k' :
  setObject pid pos o k = Ret (r, k') -> idle_in_queues k pid -> inv X k ->
  inv X k' /\ touches pid k k'.
Proof.
  unfold setObject. intros H Hno Hi. case_match eqn:E; [runs; split; [done|apply touches_refl]|].
  apply bind_Ret_inv in H as ([] & k1 & H1 & H). destruct o as [o|]; [|runs].
  apply bind_Ret_inv in H as ([] & k2 & H2 & H). runs.
  destruct (removeObject_inv X pid pos k () k1 H1 Hno Hi) as (Hi1 & Ht1 & Hfree).
  assert (0 <= pos < PROCESS_MAX_OBJECTS) as Hpos by lia.
  assert (exists p, process_list k1 !! pid = Some p) as [p Hp].
  { unfold removeObject in H1. apply bind_Ret_inv in H1 as (p & k3 & Hp & H1).
    apply proc_Ret in Hp as [Hp ->]. destruct (touch_self _ _ _ Ht1) as [m Hm]. rewrite Hp in Hm. eauto. }
  destruct (attach_inv X pid pos o p k1 () k2 H2 Hp) as [Hi2 Ht2]; [by apply Hfree|done| |done|].
  - by apply touches_idle with pid k.
  - split; [done|by apply touches_trans with k1].
Qed.

Lemma free_object_Some n i m j : free_object n i m = Some j ->
  i <= j < i + Z.of_nat n /\ m !! j = None /\ forall j', i <= j' < j -> is_Some (m !! j').
Proof.
  revert i. induction n as [|n IH]; intros i H; [done|]. cbn in H.
  destruct (m !! i) eqn:E.
  - destruct (IH (i + 1) H) as (Hj & Hm & Hb). split; [lia|]. split; [done|]. intros j' Hj'.
    destruct (decide (j' = i)) as [->|]; [by rewrite E|]. apply Hb. lia.
  - injection H as <-. split; [lia|]. split; [done|]. lia.
Qed.

Lemma addObject_inv X pid o k r k' :
  addObject pid o k = Ret (r, k') -> idle_in_queues k pid -> inv X k ->
  inv X k' /\ touches pid k k'.
Proof.
  unfold addObject. intros H Hno Hi. destruct o as [o|]; [|runs].
  apply bind_Ret_inv in H as (x & k1 & Hx & H). apply obj_Ret in Hx as [Hx ->].
  apply bind_Ret_inv in H as (p & k1 & Hp & H). apply proc_Ret in Hp as [Hp ->].
  destruct (free_object _ _ _) as [i|] eqn:Ef; [|runs].
  apply bind_Ret_inv in H as ([] & k1 & H1 & H). runs.
  apply free_object_Some in Ef as (Hi' & Hfree & _).
  apply (attach_inv X pid i o p k () k1); try done.
  unfold PROCESS_SEGMENT_BEGIN, PROCESS_MAX_OBJECTS, PROCESS_MAX_SEGMENTS, PROCESS_NORMAL_OBJECT_BEGIN in *.
  destruct (is_segment x); lia.
Qed.

(** ** The end of a process *)
Definition awake (p : process) : process := set_process_state PROCESS_STATE_RUNNABLE (set_backup 0 None p).

(** restoreStack wakes at most the process it is called for. *)
Record wakes (pid : Z) k k' : Prop := {
  wake_current : current_process k' = current_process k;
  wake_list : process_list k' = process_list k \/
    exists p, process_list k !! pid = Some p /\ is_Some (stack_backup p) /\
      process_list k' = <[pid := awake p]> (process_list k);
  wake_waits : forall q o, waits k' q o <-> waits k q o
}.

Lemma restoreStack_inv X pid k u k' :
  restoreStack pid k = Ret (u, k') -> inv X k -> inv X k' /\ wakes pid k k'.
Proof.
  unfold restoreStack. intros H Hi. apply bind_Ret_inv in H as (p & k1 & Hp & H).
  apply proc_Ret in Hp as [Hp ->]. destruct (stack_backup p) as [b|] eqn:Eb; [|runs; split; [done|split; auto]].
  apply bind_Ret_inv in H as (u1 & k1 & H1 & H). apply kmem_Ret in H1 as (m & _ & ->).
  apply mod_proc_Ret in H as (p1 & Hp1 & ->). cbn in Hp1. assert (p1 = p) as -> by congruence.
  assert (inv X (set_mem m k)) as Hi1 by (apply inv_same with k; [by split|done]).
  split; [|split; [done| |done]].
  - apply (inv_put_proc X (set_mem m k) pid p); try done; [|by intros [? ?]].
    intros [o Hw]. destruct (inv_wait X k Hi pid o Hw) as (p2 & i & Hp2 & _ & Hb & _). congruence.
  - right. exists p. rewrite Eb. eauto.
Qed.

Lemma restore_parent_inv X p k u k' :
  restore_parent p k = Ret (u, k') -> inv X k -> inv X k' /\ wakes (ppid p) k k'.
Proof.
  unfold restore_parent. intros H Hi. case_match; [|runs; split; [done|split; auto]].
  apply bind_Ret_inv in H as (q & k1 & Hq & H). apply getProcess_Ret in Hq as (-> & -> & _).
  case_match; [exact (restoreStack_inv X _ _ _ _ H Hi)|]. runs. split; [done|split; auto].
Qed.

Lemma without_absent pid k : process_list k !! pid = None -> without pid k = k.
Proof. intros H. unfold without. rewrite delete_id by done. by destruct k. Qed.

Lemma remove_objects_inv X n pid i p k p' k' :
  remove_objects n pid i p k = Ret (p', k') -> 0 <= i -> i + Z.of_nat n <= PROCESS_MAX_OBJECTS ->
  process_list k !! pid = None -> (forall o, 0 <= X o) ->
  inv (slots_extra (objects p) X) k ->
  inv (slots_extra (objects p') X) k' /\ same_procs k k' /\
  ppid p' = ppid p /\
  forall j o, objects p' !! j = Some o -> objects p !! j = Some o /\ ~ (i <= j < i + Z.of_nat n).
Proof.
  revert i p k. induction n as [|n IH]; intros i p k H Hi Hn Hnone HX Hinv; cbn in H.
  { apply mret_Ret in H as [<- <-]. split; [done|]. split; [by split|]. split; [done|].
    intros j o Ho. split; [done|lia]. }
  apply bind_Ret_inv in H as (p1 & k1 & H1 & H).
  assert (idle_in_queues k pid) as Hno.
  { intros o Hw. destruct (inv_wait _ k Hinv pid o Hw) as (q & j & Hq & _). congruence. }
  pose proof (without_absent pid k Hnone) as Ew. rewrite <- Ew in Hinv.
  destruct (remove_object_inv X pid i p k p1 k1 H1 Hno HX Hinv) as (Hi1 & -> & Hs).
  replace ((0 <=? i) && (i <? PROCESS_MAX_OBJECTS)) with true in * by lia.
  assert (process_list k1 !! pid = None) as Hnone1 by (by rewrite (procs_list _ _ Hs)).
  rewrite (without_absent pid k1 Hnone1) in Hi1.
  destruct (IH (i + 1) _ k1 H ltac:(lia) ltac:(lia) Hnone1 HX Hi1) as (Hi2 & Hs2 & Hpp & Ho).
  split; [done|]. split; [by apply same_procs_trans with k1|]. split; [by rewrite Hpp|].
  intros j o Hj. destruct (Ho j o Hj) as [Hd Hout]. cbn in Hd. apply lookup_delete_Some in Hd as [Hne Hd].
  split; [done|]. lia.
Qed.

Lemma deleteProcess_inv X pid code k u k' :
  deleteProcess pid code k = Ret (u, k') -> idle_in_queues k pid -> inv X k ->
  inv X k' /\ process_list k' !! pid = None /\ current_process k' = current_process k.
Proof.
  unfold deleteProcess. intros H Hno Hi. apply bind_Ret_inv in H as (p & k1 & Hp & H).
  apply getProcess_Ret in Hp as (-> & -> & _). apply bind_Ret_inv in H as (u1 & k1 & H1 & H).
  apply pmodify_Ret in H1 as ->. apply bind_Ret_inv in H as (u2 & k2 & H2 & H).
  apply processExit_same in H. change (set_process_list _ k) with (without pid k) in H2.
  assert (inv X k2 /\ process_list k2 !! pid = None /\ current_process k2 = current_process k) as (Hi2 & Hn2 & Hc2).
  { destruct (process_list k !! pid) as [p|] eqn:Hp.
    - unfold destroy_process in H2. apply bind_Ret_inv in H2 as (p' & k3 & H3 & H2).
      destruct (remove_objects_inv X _ pid 0 p (without pid k) p' k3 H3) as (Hi3 & Hs3 & Hpp & Ho).
      + lia.
      + unfold PROCESS_MAX_OBJECTS. lia.
      + apply lookup_delete_eq.
      + apply (inv_extra X k Hi).
      + by apply inv_take_out.
      + assert (objects p' = ∅) as E.
        { apply map_empty. intros j. apply eq_None_not_Some. intros [o Hj].
          destruct (Ho j o Hj) as [Hj' Hout]. apply Hout.
          pose proof (inv_slots X k Hi pid p j o Hp Hj'). unfold PROCESS_MAX_OBJECTS in *. lia. }
        rewrite E in Hi3. apply (inv_ext _ X) in Hi3; [|intros o; unfold slots_extra; 
          change (slots_of ∅) with (∅ : gmultiset Z); rewrite multiplicity_empty; lia].
        assert (process_list k3 !! pid = None) as Hn3.
        { rewrite (procs_list _ _ Hs3). apply lookup_delete_eq. }
        destruct (restore_parent_inv X p' k3 u2 k2 H2 Hi3) as (Hi4 & [Hc Hl _]). split; [done|].
        split; [|rewrite Hc; apply Hs3].
        destruct Hl as [-> | (q & Hq & _ & ->)]; [done|].
        rewrite lookup_insert_ne; [done|]. congruence.
    - apply mret_Ret in H2 as [_ <-]. rewrite without_absent by done. auto. }
  split; [by apply inv_same with k2|]. split; [by rewrite (same_processes _ _ H)|].
  by rewrite (same_current _ _ H).
Qed.

(** ** The queues *)
Lemma waits_set_pending o x l k pid o' :
  store k !! o = Some x ->
  waits (set_store (<[o := set_pending l x]> (store k)) k) pid o' <->
  (o' = o /\ pid ∈ pr_proc <$> l) \/ (o' <> o /\ waits k pid o').
Proof.
  intros Hx. unfold waits. cbn. destruct (decide (o' = o)) as [->|Hne].
  - rewrite lookup_insert_eq. split.
    + intros (y & l' & [= <-] & [= <-] & Hin). by left.
    + intros [[_ Hin]|[? _]]; [|done]. by exists (set_pending l x), l.
  - rewrite lookup_insert_ne by done. split; [auto|]. by intros [[? _]|[_ ?]].
Qed.

Definition fall_asleep (p : process) : process := set_process_state PROCESS_STATE_SLEEPING p.

(** A process that holds [o] joins its queue and sleeps. *)
Lemma inv_enqueue X o x l r p i k :
  store k !! o = Some x -> o_pending x = Some l ->
  process_list k !! pr_proc r = Some p -> stack_backup p = None -> objects p !! i = Some o ->
  idle_in_queues k (pr_proc r) -> inv X k ->
  inv X (set_process_list (<[pr_proc r := fall_asleep p]> (process_list k))
    (set_store (<[o := set_pending (l ++ [r]) x]> (store k)) k)).
Proof.
  intros Hx Hl Hp Hb Ho Hno Hi.
  set (k' := set_process_list _ _).
  assert (forall q o', waits k' q o' <-> waits k q o' \/ (q = pr_proc r /\ o' = o)) as Hw.
  { intros q o'. unfold k'. change (waits (set_process_list ?a ?b)) with (waits b).
    rewrite (waits_set_pending o x) by done. rewrite fmap_app, elem_of_app. change (pr_proc <$> [r]) with [pr_proc r].
    rewrite list_elem_of_singleton.
    destruct (decide (o' = o)) as [->|Hne]; [|tauto].
    split; [intros [[_ [H|H]]|[? _]]; [left; by exists x, l|by right|done]|].
    intros [(y & l' & Hy & Hl' & Hin)|[-> _]]; left; split; try done; [left|by right]. simplify_eq. done. }
  pose proof (all_slots_same (process_list k) _ p (fall_asleep p) Hp eq_refl) as Hall.
  destruct Hi. split; cbn; try done.
  - intros q p1. rewrite lookup_insert_Some. intros [[<- <-]|[_ H]]; eauto.
  - intros q p1 j o'. rewrite lookup_insert_Some. intros [[<- <-]|[_ H]]; [exact (inv_slots0 _ p j o' Hp)|eauto].
  - intros o'. rewrite Hall. specialize (inv_refs0 o'). destruct (decide (o' = o)) as [->|Hne].
    + rewrite lookup_insert_eq. by rewrite Hx in inv_refs0.
    + by rewrite lookup_insert_ne.
  - intros o' x'. rewrite lookup_insert_Some. intros [[<- <-]|[_ H]]; eauto.
  - intros o' x' l'. rewrite lookup_insert_Some. intros [[<- <-]|[_ H]]; eauto.
  - intros j o' Hd. destruct (inv_device0 j o' Hd) as (? & y & l' & Hy & Hl'). split; [done|].
    destruct (decide (o' = o)) as [->|Hne].
    + rewrite lookup_insert_eq. by eexists _, _.
    + rewrite lookup_insert_ne by done. by exists y, l'.
  - intros q o' [Hq|[-> ->]]%Hw.
    + destruct (inv_wait0 q o' Hq) as (p1 & j & ?). exists p1, j. rewrite lookup_insert_ne; [done|].
      intros <-. by destruct (Hno o').
    + exists (fall_asleep p), i. by rewrite lookup_insert_eq.
  - intros q o1 o2 H1%Hw H2%Hw.
    destruct H1 as [H1|[-> ->]], H2 as [H2|[? ->]]; subst; eauto; try (by destruct (Hno _ H1)).
    by destruct (Hno _ H2).
  - intros o' x' l'. rewrite lookup_insert_Some. intros [[<- <-]|[_ H]]; [|eauto].
    cbn. intros [= <-]. rewrite fmap_app. change (pr_proc <$> [r]) with [pr_proc r]. apply list.NoDup_app. split; [eauto|]. split; [|apply list.NoDup_singleton].
    intros q Hin ->%list_elem_of_singleton. apply (Hno o). by exists x, l.
  - intros q p1. rewrite lookup_insert_Some. intros [[<- <-]|[_ H]] Ha.
    + right. exists o. apply Hw. by right.
    + destruct (inv_sleep0 q p1 H Ha) as [|[o' Ho']]; [by left|]. right. exists o'. apply Hw. by left.
  - intros q p1. rewrite lookup_insert_Some. intros [[<- <-]|[_ H]] Ha; [done|eauto].
Qed.

(** The first process of a queue leaves it and runs. *)
Lemma inv_dequeue X o x l r p k :
  store k !! o = Some x -> o_pending x = Some (r :: l) ->
  process_list k !! pr_proc r = Some p -> inv X k ->
  let k' := set_process_list (<[pr_proc r := set_process_state PROCESS_STATE_RUNNABLE p]> (process_list k))
    (set_store (<[o := set_pending l x]> (store k)) k) in
  inv X k' /\ (forall q o', waits k' q o' <-> waits k q o' /\ q <> pr_proc r).
Proof.
  intros Hx Hl Hp Hi k'.
  assert (waits k (pr_proc r) o) as Hwr by (exists x, (r :: l); rewrite fmap_cons; set_solver).
  assert (forall q o', waits k' q o' <-> waits k q o' /\ q <> pr_proc r) as Hw.
  { pose proof (inv_nodup X k Hi o x _ Hx Hl) as Hnd. rewrite fmap_cons in Hnd.
    apply list.NoDup_cons in Hnd as [Hnotin _].
    intros q o'. unfold k'. change (waits (set_process_list ?a ?b)) with (waits b).
    rewrite (waits_set_pending o x) by done. destruct (decide (o' = o)) as [->|Hne].
    - split.
      + intros [[_ Hin]|[? _]]; [|done]. split; [|by intros ->].
        exists x, (r :: l). rewrite fmap_cons. set_solver.
      + intros [(y & l' & Hy & Hl' & Hin) Hq]. left. split; [done|]. simplify_eq.
        rewrite fmap_cons in Hin. set_solver.
    - split; [intros [[? _]|[_ Hq]]; [done|]|tauto]. split; [done|]. intros ->.
      by apply Hne, (inv_one X k Hi (pr_proc r)). }
  destruct (inv_wait X k Hi _ _ Hwr) as (p1 & i & Hp1 & _ & Hb & _).
  assert (p1 = p) as -> by congruence.
  pose proof (all_slots_same (process_list k) _ p (set_process_state PROCESS_STATE_RUNNABLE p) Hp eq_refl) as Hall.
  split; [|done]. destruct Hi. split; cbn; try done.
  - intros q p1. rewrite lookup_insert_Some. intros [[<- <-]|[_ H]]; eauto.
  - intros q p1 j o'. rewrite lookup_insert_Some. intros [[<- <-]|[_ H]]; [exact (inv_slots0 _ p j o' Hp)|eauto].
  - intros o'. rewrite Hall. specialize (inv_refs0 o'). destruct (decide (o' = o)) as [->|Hne].
    + rewrite lookup_insert_eq. by rewrite Hx in inv_refs0.
    + by rewrite lookup_insert_ne.
  - intros o' x'. rewrite lookup_insert_Some. intros [[<- <-]|[_ H]]; eauto.
  - intros o' x' l'. rewrite lookup_insert_Some. intros [[<- <-]|[_ H]]; eauto.
  - intros j o' Hd. destruct (inv_device0 j o' Hd) as (? & y & l' & Hy & Hl'). split; [done|].
    destruct (decide (o' = o)) as [->|Hne].
    + rewrite lookup_insert_eq. by eexists _, _.
    + rewrite lookup_insert_ne by done. by exists y, l'.
  - intros q o' [Hq Hne]%Hw. destruct (inv_wait0 q o' Hq) as (p1 & j & ?). exists p1, j.
    by rewrite lookup_insert_ne.
  - intros q o1 o2 [H1 _]%Hw [H2 _]%Hw. eauto.
  - intros o' x' l'. rewrite lookup_insert_Some. intros [[<- <-]|[_ H]]; [|eauto].
    cbn. intros [= <-]. specialize (inv_nodup0 o x _ Hx Hl). rewrite fmap_cons in inv_nodup0.
    by apply list.NoDup_cons in inv_nodup0 as [_ ?].
  - intros q p1. rewrite lookup_insert_Some. intros [[<- <-]|[Hne H]] Ha; [done|].
    destruct (inv_sleep0 q p1 H Ha) as [|[o' Ho']]; [by left|]. right. exists o'. by apply Hw.
  - intros q p1. rewrite lookup_insert_Some. intros [[<- <-]|[_ H]] Ha; [|eauto].
    cbn in Ha. rewrite Hb in Ha. by destruct Ha.
Qed.

(** ** check()

    While check() runs, the first [n] requests of the queue of [o] have been
    served; the invariant holds of the state without them. *)
Definition drop_pending (n : nat) (x : object) : object :=
  match o_pending x with Some l => set_pending (drop n l) x | None => x end.
Definition drop_queue (o : Z) (n : nat) k : kernel W := set_store (alter (drop_pending n) o (store k)) k.

Lemma drop_queue_0 o k : drop_queue o 0 k = k.
Proof.
  unfold drop_queue. replace (alter (drop_pending 0) o (store k)) with (store k); [by destruct k|].
  symmetry. apply map_eq. intros o'. destruct (decide (o' = o)) as [->|Hne].
  - rewrite lookup_alter_eq. destruct (store k !! o) as [[r b [l|]]|]; done.
  - by rewrite lookup_alter_ne.
Qed.

Lemma shape_drop n x x' : shape_of x' = shape_of x -> shape_of (drop_pending n x') = shape_of (drop_pending n x).
Proof.
  unfold shape_of, drop_pending. intros [= E1 E2]. rewrite E2. destruct (o_pending x) eqn:E; cbn; by rewrite ?E1, ?E2, ?E.
Qed.

Lemma drop_queue_same o n k k' : same_shape k k' -> same_shape (drop_queue o n k) (drop_queue o n k').
Proof.
  intros Hs. pose proof (same_lookup k k') as Hl. pose proof Hs as [A B C D E]. split; try done.
  cbn. apply map_eq. intros o'. rewrite !lookup_fmap.
  pose proof (Hl o' Hs) as E'. destruct (decide (o' = o)) as [->|Hne].
  - rewrite !lookup_alter_eq. destruct (store k' !! o), (store k !! o); try done. cbn in *. f_equal.
    apply shape_drop. unfold shape_of in *. congruence.
  - by rewrite !lookup_alter_ne.
Qed.

Lemma drop_queue_lookup o n k x l :
  store k !! o = Some x -> o_pending x = Some l ->
  store (drop_queue o n k) !! o = Some (set_pending (drop n l) x).
Proof. intros Hx Hl. cbn. rewrite lookup_alter_eq, Hx. cbn. unfold drop_pending. by rewrite Hl. Qed.

Lemma drop_queue_put o n k x l l' :
  store k !! o = Some x -> o_pending x = Some l ->
  drop_queue o n (set_store (<[o := set_pending l' x]> (store k)) k) =
  set_store (<[o := set_pending (drop n l') x]> (store (drop_queue o n k))) (drop_queue o n k).
Proof.
  intros Hx Hl. unfold drop_queue, set_store. cbn. f_equal. apply map_eq. intros o'.
  destruct (decide (o' = o)) as [->|Hne].
  - by rewrite lookup_alter_eq, !lookup_insert_eq.
  - by rewrite lookup_alter_ne, !lookup_insert_ne, lookup_alter_ne.
Qed.

(** What a read of the process [pid] does to the others. *)
Record read_by (pid o : Z) (n : nat) k k' : Prop := {
  read_current : current_process k' = current_process k;
  read_others : forall q, q <> pid -> process_list k' !! q = process_list k !! q;
  read_idle : forall q, q <> pid -> idle_in_queues (drop_queue o n k) q -> idle_in_queues (drop_queue o n k') q;
  read_queue : forall x l, store k !! o = Some x -> o_pending x = Some l ->
    exists x' l', store k' !! o = Some x' /\ o_pending x' = Some l' /\ (length l <= length l')%nat
}.

Lemma do_read_inv X o n pid buffer size p i x l k r k' :
  do_read o pid buffer size k = Ret (r, k') ->
  process_list k !! pid = Some p -> stack_backup p = None -> objects p !! i = Some o ->
  store k !! o = Some x -> o_pending x = Some l -> (n <= length l)%nat ->
  idle_in_queues (drop_queue o n k) pid -> inv X (drop_queue o n k) ->
  inv X (drop_queue o n k') /\ read_by pid o n k k' /\
  (process_list k' = process_list k \/ process_list k' = <[pid := fall_asleep p]> (process_list k)).
Proof.
  unfold do_read. intros H Hp Hb Ho Hx Hl Hn Hno Hi.
  apply bind_Ret_inv in H as (r1 & k1 & H1 & H). apply base_read_same in H1 as Hs.
  pose proof (drop_queue_same o n _ _ Hs) as Hsd.
  pose proof (inv_same X _ _ Hsd Hi) as Hi1.
  destruct (same_lookup_Some k1 k o x (same_shape_sym _ _ Hs) Hx) as (x1 & Hx1 & _ & El).
  assert (idle_in_queues (drop_queue o n k1) pid) as Hno1
    by (intros o' Hw; by apply (same_waits _ _ _ _ Hsd), Hno in Hw).
  assert (forall q, idle_in_queues (drop_queue o n k) q -> idle_in_queues (drop_queue o n k1) q) as Hidle
    by (intros q Hq o' Hw; by apply (same_waits _ _ _ _ Hsd), Hq in Hw).
  assert (o_pending x1 = Some l) as Hl1 by congruence.
  case_match.
  - apply bind_Ret_inv in H as (l1 & k2 & H2 & H). apply pending_of_Ret in H2 as (-> & x2 & Hx2 & Hl2).
    assert (x2 = x1) as -> by congruence. assert (l1 = l) as -> by congruence.
    apply bind_Ret_inv in H as (u & k2 & H2 & H). case_match; [|runs].
    apply put_pending_Ret in H2 as (x2 & Hx2' & ->). assert (x2 = x1) as -> by congruence.
    apply bind_Ret_inv in H as (u2 & k2 & H2 & H). apply mret_Ret in H as [_ <-].
    apply mod_proc_Ret in H2 as (p2 & Hp2 & ->). cbn in Hp2. rewrite (same_processes _ _ Hs) in Hp2.
    assert (p2 = p) as -> by congruence.
    set (r2 := PendingRead pid buffer size).
    assert (drop_queue o n (set_process_list (<[pid := fall_asleep p]> (process_list k1))
        (set_store (<[o := set_pending (l ++ [r2]) x1]> (store k1)) k1)) =
      set_process_list (<[pid := fall_asleep p]> (process_list (drop_queue o n k1)))
        (set_store (<[o := set_pending (drop n l ++ [r2]) (set_pending (drop n l) x1)]>
           (store (drop_queue o n k1))) (drop_queue o n k1))) as E.
    { change (drop_queue o n (set_process_list ?a ?b)) with (set_process_list a (drop_queue o n b)).
      rewrite (drop_queue_put o n k1 x1 l) by done. rewrite drop_app_le by done. done. }
    cbn [process_list set_store]. change (PendingRead pid buffer size) with r2.
    change (set_process_state PROCESS_STATE_SLEEPING p) with (fall_asleep p).
    assert (inv X (drop_queue o n (set_process_list (<[pid := fall_asleep p]> (process_list k1))
        (set_store (<[o := set_pending (l ++ [r2]) x1]> (store k1)) k1)))) as Hi2.
    { rewrite E. apply (inv_enqueue X o (set_pending (drop n l) x1) (drop n l) r2 p i); try done.
      - by apply drop_queue_lookup.
      - change (process_list (drop_queue o n k1)) with (process_list k1). by rewrite (same_processes _ _ Hs). }
    split; [exact Hi2|]. split; [|right; by rewrite (same_processes _ _ Hs)].
    split.
    + exact (same_current _ _ Hs).
    + intros q Hq. cbn. by rewrite lookup_insert_ne, (same_processes _ _ Hs).
    + intros q Hq Hqi o' Hw. rewrite E in Hw.
      change (waits (set_process_list ?a ?b)) with (waits b) in Hw.
      rewrite (waits_set_pending o (set_pending (drop n l) x1)) in Hw by (by apply drop_queue_lookup).
      destruct Hw as [[-> Hin]|[_ Hw]]; [|by apply (Hidle q Hqi) in Hw].
      rewrite fmap_app, elem_of_app in Hin. change (pr_proc <$> [r2]) with [pid] in Hin.
      rewrite list_elem_of_singleton in Hin. destruct Hin as [Hin|]; [|done].
      apply (Hidle q Hqi o). exists (set_pending (drop n l) x1), (drop n l).
      by rewrite drop_queue_lookup with (x := x1) (l := l).
    + intros x' l' Hx' Hl'. assert (x' = x) as -> by congruence. assert (l' = l) as -> by congruence.
      cbn. rewrite lookup_insert_eq. eexists _, _. split; [done|]. split; [done|]. rewrite length_app. lia.
  - apply mret_Ret in H as [_ <-]. split; [done|]. split; [|left; apply Hs]. split.
    + exact (same_current _ _ Hs).
    + intros q _. by rewrite (same_processes _ _ Hs).
    + auto.
    + intros x' l' Hx' Hl'. exists x1, l. split; [done|]. split; [done|].
      assert (l' = l) as -> by congruence. done.
Qed.

(** What check() does to the processes: those that do not wait are left
    alone, and no process appears or disappears. *)
Record served k k' : Prop := {
  served_idle : forall q, idle_in_queues k q -> process_list k' !! q = process_list k !! q /\ idle_in_queues k' q;
  served_dom : forall q, is_Some (process_list k' !! q) <-> is_Some (process_list k !! q)
}.

Lemma served_refl k : served k k.
Proof. by split. Qed.
Lemma served_trans k1 k2 k3 : served k1 k2 -> served k2 k3 -> served k1 k3.
Proof.
  intros [A B] [A' B']. split.
  - intros q Hq. destruct (A q Hq) as [E Hq']. destruct (A' q Hq') as [E' ?]. split; [congruence|done].
  - intros q. by rewrite B', B.
Qed.
Lemma served_same k k' : same_shape k k' -> served k k'.
Proof.
  intros Hs. split; rewrite (same_processes _ _ Hs); [|done]. intros q Hq. split; [done|].
  intros o Hw. by apply (same_waits _ _ _ _ Hs), Hq in Hw.
Qed.

(** The turn of the loop that takes the request [now] out of the queue. *)
Lemma check_dequeue X o n now x l p k :
  store k !! o = Some x -> o_pending x = Some l -> l !! n = Some now ->
  process_list k !! pr_proc now = Some p -> inv X (drop_queue o n k) ->
  let k' := set_process_list (<[pr_proc now := set_process_state PROCESS_STATE_RUNNABLE p]> (process_list k))
    (set_current (pr_proc now) k) in
  inv X (drop_queue o (S n) k') /\ idle_in_queues (drop_queue o (S n) k') (pr_proc now) /\
  served (drop_queue o n k) (drop_queue o (S n) k') /\
  stack_backup p = None /\ exists i, objects p !! i = Some o.
Proof.
  intros Hx Hl Hnow Hp Hi k'.
  pose proof (drop_queue_lookup o n k x l Hx Hl) as Hxd.
  pose proof (drop_S l now n Hnow) as Hdrop.
  destruct (inv_dequeue X o (set_pending (drop n l) x) (drop (S n) l) now p (drop_queue o n k)) as [Hi' Hw];
    [done|by cbn; rewrite Hdrop|done|done|].
  set (kd := set_process_list _ _) in Hi', Hw.
  assert (same_shape (set_current (pr_proc now) kd) (drop_queue o (S n) k')) as Hs.
  { split; try done. cbn. apply map_eq. intros o'. rewrite !lookup_fmap.
    destruct (decide (o' = o)) as [->|Hne].
    - rewrite lookup_alter_eq, lookup_insert_eq, Hx. cbn. unfold drop_pending. by rewrite Hl.
    - by rewrite lookup_alter_ne, lookup_insert_ne, lookup_alter_ne. }
  assert (forall q o', waits (drop_queue o (S n) k') q o' -> waits (drop_queue o n k) q o' /\ q <> pr_proc now) as Hw'.
  { intros q o' H. apply Hw. change (waits kd) with (waits (set_current (pr_proc now) kd)).
    by apply (same_waits _ _ _ _ Hs). }
  assert (waits (drop_queue o n k) (pr_proc now) o) as Hwn.
  { eexists _, (drop n l). split; [exact Hxd|]. split; [done|]. rewrite Hdrop, fmap_cons. set_solver. }
  split; [apply (inv_same _ _ _ Hs), inv_set_current, Hi'|].
  split; [intros o' H; by apply Hw' in H as [_ ?]|]. split; [split|].
  - intros q Hq. split; [|intros o' H; by apply Hw' in H as [H _]; apply Hq in H].
    cbn. rewrite lookup_insert_ne; [done|]. intros <-. by apply (Hq o).
  - intros q. cbn. destruct (decide (q = pr_proc now)) as [->|Hne].
    + rewrite lookup_insert_eq, Hp. split; intros _; eauto.
    + by rewrite lookup_insert_ne.
  - destruct (inv_wait X _ Hi _ _ Hwn) as (p1 & i & Hp1 & _ & Hb & Ho). cbn in Hp1.
    assert (p1 = p) as -> by congruence. eauto.
Qed.

Lemma check_loop_inv X fuel o n k n' k' x l :
  check_loop fuel o n k = Ret (n', k') -> store k !! o = Some x -> o_pending x = Some l ->
  (n <= length l)%nat -> inv X (drop_queue o n k) ->
  inv X (drop_queue o n' k') /\ served (drop_queue o n k) (drop_queue o n' k').
Proof.
  revert n k x l. induction fuel as [|fuel IH]; intros n k x l H Hx Hl Hn Hi; [done|]. cbn in H.
  apply bind_Ret_inv in H as (l1 & k1 & H1 & H). apply pending_of_Ret in H1 as (-> & x1 & Hx1 & Hl1).
  assert (l1 = l) as -> by congruence.
  destruct (l !! n) as [now|] eqn:Hnow; [|apply mret_Ret in H as [<- <-]; split; [done|apply served_refl]].
  apply bind_Ret_inv in H as (probe & k1 & H1 & H). apply base_read_same in H1 as Hs.
  pose proof (drop_queue_same o n _ _ Hs) as Hsd. pose proof (inv_same X _ _ Hsd Hi) as Hi1.
  destruct (same_lookup_Some k1 k o x (same_shape_sym _ _ Hs) Hx) as (x2 & Hx2 & _ & El).
  assert (o_pending x2 = Some l) as Hl2 by congruence.
  case_match.
  { apply mret_Ret in H as [<- <-]. split; [done|by apply served_same]. }
  apply bind_Ret_inv in H as (u1 & k2 & H2 & H). apply pmodify_Ret in H2 as ->.
  apply bind_Ret_inv in H as (u2 & k2 & H2 & H). apply mod_proc_Ret in H2 as (p & Hp & ->). cbn in Hp.
  destruct (check_dequeue X o n now x2 l p k1 Hx2 Hl2 Hnow Hp Hi1) as (Hi2 & Hidle & Hsv & Hb & i & Ho).
  apply bind_Ret_inv in H as (ret & k3 & H3 & H). apply lookup_lt_Some in Hnow as Hlt.
  apply bind_Ret_inv in H as (u4 & k4 & H4 & H). unfold syscall_set_retval in H4.
  apply mod_proc_Ret in H4 as (p4 & Hp4 & ->).
  set (k2 := set_process_list (<[pr_proc now := set_process_state PROCESS_STATE_RUNNABLE p]>
      (process_list (set_current (pr_proc now) k1))) (set_current (pr_proc now) k1)) in *.
  destruct (do_read_inv X o (S n) (pr_proc now) (pr_buffer now) (pr_size now)
      (set_process_state PROCESS_STATE_RUNNABLE p) i x2 l k2 ret k3) as (Hi3 & [Hrc Hro Hri Hrq] & _);
    try done; [apply lookup_insert_eq|].
  destruct (Hrq x2 l Hx2 Hl2) as (x3 & l3 & Hx3 & Hl3 & Hlen).
  set (k4 := set_process_list (<[pr_proc now := set_usermode_state (retval (u64 ret) (usermode_state p4)) p4]>
      (process_list k3)) k3) in *.
  assert (inv X (drop_queue o (S n) k4)) as Hi4 by (by apply (inv_put_proc_same X (drop_queue o (S n) k3) _ p4)).
  destruct (IH (S n) k4 x3 l3 H Hx3 Hl3 ltac:(lia) Hi4) as [Hi5 Hsv5].
  split; [done|]. apply served_trans with (drop_queue o n k1); [by apply served_same|].
  apply served_trans with (drop_queue o (S n) k4); [|done]. split.
  - intros q Hq. destruct (served_idle _ _ Hsv q Hq) as [E Hq2].
    assert (q <> pr_proc now) as Hne.
    { intros ->. apply (Hq o). eexists _, (drop n l). split; [by apply drop_queue_lookup|]. split; [done|].
      rewrite (drop_S l now n Hnow), fmap_cons. set_solver. }
    split; [|by apply Hri]. cbn. rewrite lookup_insert_ne by done. rewrite Hro by done.
    cbn. by rewrite lookup_insert_ne.
  - intros q. cbn. destruct (decide (q = pr_proc now)) as [->|Hne].
    + rewrite lookup_insert_eq, Hp. split; intros _; eauto.
    + rewrite lookup_insert_ne by done. rewrite Hro by done. cbn. by rewrite lookup_insert_ne.
Qed.

Lemma check_inv X o k u k' :
  check o k = Ret (u, k') -> inv X k -> inv X k' /\ served k k' /\ current_process k' = current_process k.
Proof.
  unfold check. intros H Hi. apply bind_Ret_inv in H as (cur & k1 & H1 & H).
  apply getCurrentProcess_Ret in H1 as [-> ->]. apply bind_Ret_inv in H as (n & k1 & H1 & H).
  apply bind_Ret_inv in H as (l & k2 & H2 & H). apply pending_of_Ret in H2 as (-> & x & Hx & Hl).
  apply bind_Ret_inv in H as (u2 & k2 & H2 & H). apply put_pending_Ret in H2 as (x2 & Hx2 & ->).
  assert (x2 = x) as -> by congruence. apply pmodify_Ret in H as ->.
  assert (exists x0 l0, store k !! o = Some x0 /\ o_pending x0 = Some l0) as (x0 & l0 & Hx0 & Hl0).
  { cbn in H1. apply bind_Ret_inv in H1 as (l1 & k2 & H1 & _). apply pending_of_Ret in H1 as (_ & x1 & ?).
    by exists x1, l1. }
  destruct (check_loop_inv X 33 o 0 k n k1 x0 l0 H1 Hx0 Hl0 ltac:(lia)) as [Hi1 Hsv];
    rewrite drop_queue_0 in *; [done|].
  assert (same_shape (set_current (current_process k) (drop_queue o n k1))
    (set_current (current_process k) (set_store (<[o := set_pending (drop n l) x]> (store k1)) k1))) as Hs.
  { split; try done. cbn. apply map_eq. intros o'. rewrite !lookup_fmap.
    destruct (decide (o' = o)) as [->|Hne].
    - rewrite lookup_alter_eq, lookup_insert_eq, Hx. cbn. unfold drop_pending. by rewrite Hl.
    - by rewrite lookup_alter_ne, lookup_insert_ne. }
  split; [apply (inv_same _ _ _ Hs), inv_set_current, Hi1|]. split; [|done].
  apply served_trans with (set_current (current_process k) (drop_queue o n k1)); [|by apply served_same].
  destruct Hsv as [A B]. by split.
Qed.

Lemma checkAll_inv X k u k' :
  checkAll k = Ret (u, k') -> inv X k -> inv X k' /\ served k k' /\ current_process k' = current_process k.
Proof.
  unfold checkAll. generalize (Z.to_nat MAX_BLOCK_INPUT_DEVICE_NUM), 0. intros n.
  revert k. induction n as [|n IH]; intros k i H Hi; cbn in H.
  { apply mret_Ret in H as [_ <-]. split; [done|]. split; [apply served_refl|done]. }
  apply bind_Ret_inv in H as (k0 & k1 & H1 & H). apply pget_Ret in H1 as [-> ->].
  apply bind_Ret_inv in H as ([] & k1 & H1 & H).
  assert (inv X k1 /\ served k k1 /\ current_process k1 = current_process k) as (Hi1 & Hs1 & Hc1).
  { destruct (devices k !! i); [exact (check_inv X _ _ _ _ H1 Hi)|].
    apply mret_Ret in H1 as [_ <-]. split; [done|]. split; [apply served_refl|done]. }
  destruct (IH k1 (i + 1) H Hi1) as (Hi2 & Hs2 & Hc2).
  split; [done|]. split; [by apply served_trans with k1|congruence].
Qed.
End devices.
