(* ===== verification/ProcessInv.v ===== *)
(** * ProcessInv: clone and exec keep the invariant

    The operations of Process.v that create a process or replace its image,
    and the objects they create. *)
From stdpp Require Import gmultiset.
From S2P Require Import Prelude Mem CString Kernel Devices UserLib Process Invariant.

Section process_inv.
Context {W : Type} `{!External W} `{HL : Layout}.
Implicit Types (k : kernel W).

Lemma touches_served pid k k' q :
  touches pid k k' -> q <> pid -> process_list k' !! q = process_list k !! q.
Proof. intros []. auto. Qed.

(** ** New objects *)
Lemma fresh_object X k : inv X k ->
  store k !! next_object k = None /\ multiplicity (next_object k) (all_slots (process_list k)) = 0%nat /\
  X (next_object k) = 0 /\ (forall pid, ~ waits k pid (next_object k)).
Proof.
  intros Hi. assert (store k !! next_object k = None) as Hnone.
  { apply eq_None_not_Some. intros [x Hx]. apply (inv_next X k Hi) in Hx. lia. }
  pose proof (inv_refs X k Hi (next_object k)) as Hr. rewrite Hnone in Hr.
  split; [done|]. split; [tauto|]. split; [tauto|]. intros pid (x & l & Hx & _). congruence.
Qed.

(** A new object with one reference; a queue comes with an entry [d] of the
    table of the blocking devices. *)
Lemma inv_new X b q d k :
  (forall i o, d !! i = Some o ->
    devices k !! i = Some o \/ (o = next_object k /\ is_Some q /\ 0 <= i < MAX_BLOCK_INPUT_DEVICE_NUM)) ->
  (forall i o, devices k !! i = Some o -> d !! i = Some o) ->
  (is_Some q -> exists i, d !! i = Some (next_object k)) ->
  (forall l, q = Some l -> l = []) ->
  inv X k ->
  let k' := set_devices d (set_next_object (next_object k + 1)
    (set_store (<[next_object k := Object 1 b q]> (store k)) k)) in
  inv (extra 1 (next_object k) X) k' /\ (forall pid o, waits k' pid o <-> waits k pid o).
Proof.
  intros Hd Hd' Hq Hl Hi k'. destruct (fresh_object X k Hi) as (Hnone & Hm & HX & Hno).
  assert (forall pid o, waits k' pid o <-> waits k pid o) as Hw.
  { intros pid o. unfold waits. cbn. destruct (decide (o = next_object k)) as [->|Hne].
    - rewrite lookup_insert_eq. split; [|intros H; by destruct (Hno pid)].
      intros (x & l & [= <-] & Hl' & Hin). cbn in Hl'. rewrite (Hl l Hl') in Hin. set_solver.
    - by rewrite lookup_insert_ne. }
  split; [|done]. destruct Hi. split; cbn; try done.
  - intros o. unfold extra. specialize (inv_extra o). case_decide; lia.
  - intros o. unfold extra. destruct (decide (o = next_object k)) as [->|Hne].
    + rewrite lookup_insert_eq. cbn. lia.
    + rewrite lookup_insert_ne by done. apply inv_refs.
  - intros o x. rewrite lookup_insert_Some. intros [[<- _]|[_ H]]; [lia|]. apply inv_next in H. lia.
  - intros o x l. rewrite lookup_insert_Some. intros [[<- <-]|[_ H]] Hl'.
    + cbn in Hl'. apply Hq. by exists l.
    + destruct (inv_devices o x l H Hl') as [i Hi]. exists i. by apply Hd'.
  - intros i o H. destruct (Hd i o H) as [H'|(-> & [l Hl'] & Hi)].
    + destruct (inv_device i o H') as (Hr & x & l & Hx & Hl'). split; [done|]. exists x, l.
      rewrite lookup_insert_ne; [done|]. intros <-. congruence.
    + split; [done|]. rewrite lookup_insert_eq. eexists _, l. split; [done|]. by rewrite Hl'.
  - intros pid o H%Hw. eauto.
  - intros pid o1 o2 H1%Hw H2%Hw. eauto.
  - intros o x l. rewrite lookup_insert_Some. intros [[<- <-]|[_ H]] Hl'; [|eauto].
    cbn in Hl'. rewrite (Hl l Hl'). apply base.NoDup_nil_2.
  - intros pid p Hp Ha. destruct (inv_sleep pid p Hp Ha) as [|[o Ho]]; [by left|right].
    exists o. by apply Hw.
Qed.

Lemma new_object_inv X b k o k' :
  new_object b None k = Ret (o, k') -> inv X k ->
  o = next_object k /\ inv (extra 1 o X) k' /\ same_procs k k'.
Proof.
  unfold new_object. intros H Hi. runs. split; [done|].
  destruct (inv_new X b None (devices k) k) as [Hi' Hw]; [by left|done|by intros []|done|done|].
  split; [|by split].
  apply inv_same with (2 := Hi'). by split.
Qed.

Lemma free_device_Some n i d j : free_device n i d = Some j ->
  i <= j < i + Z.of_nat n /\ d !! j = None.
Proof.
  revert i. induction n as [|n IH]; intros i H; [done|]. cbn in H.
  destruct (d !! i) eqn:E; [destruct (IH (i + 1) H); lia || (split; [lia|done])|].
  injection H as <-. split; [lia|done].
Qed.

Lemma BlockInputDevice_inv X b k o k' :
  BlockInputDevice b k = Ret (o, k') -> inv X k ->
  o = next_object k /\ inv (extra 1 o X) k' /\ same_procs k k'.
Proof.
  unfold BlockInputDevice, new_object. intros H Hi. runs.
  destruct (free_device _ _ _) as [i|] eqn:Ef; [|runs]. apply free_device_Some in Ef as [Hr Hfree]. runs.
  split; [done|].
  destruct (inv_new X b (Some []) (<[i := next_object k]> (devices k)) k) as [Hi' Hw]; try done.
  - intros j o. rewrite lookup_insert_Some. intros [[<- <-]|[_ H]]; [right|by left].
    split; [done|]. split; [done|]. unfold MAX_BLOCK_INPUT_DEVICE_NUM in *. lia.
  - intros j o H. rewrite lookup_insert_ne; [done|]. intros <-. congruence.
  - intros _. exists i. apply lookup_insert_eq.
  - by intros l [= <-].
Qed.

(** ** clone *)
Lemma free_slot_Some n i l j : free_slot n i l = Some j -> i <= j < i + Z.of_nat n /\ l !! j = None.
Proof.
  revert i. induction n as [|n IH]; intros i Hf; [done|]. cbn in Hf.
  destruct (l !! i) eqn:E; [destruct (IH (i + 1) Hf); split; [lia|done]|].
  injection Hf as <-. split; [lia|done].
Qed.

Lemma slots_extra_empty X : forall o, slots_extra ∅ X o = X o.
Proof. intros o. unfold slots_extra. change (slots_of ∅) with (∅ : gmultiset Z). rewrite multiplicity_empty. lia. Qed.

(** A new process without objects. *)
Lemma inv_new_process X pid p k :
  process_list k !! pid = None -> 0 <= pid < MAX_PROCESS_NUM -> objects p = ∅ ->
  process_state p = PROCESS_STATE_RUNNABLE -> stack_backup p = None ->
  inv X k -> inv X (set_process_list (<[pid := p]> (process_list k)) k).
Proof.
  intros Hp Hpid Ho Hs Hb Hi. apply inv_put_in; try done.
  - intros i o. by rewrite Ho.
  - unfold asleep. rewrite Hs, Hb. split; [done|by intros []].
  - apply (inv_extra X k Hi).
  - rewrite Ho. eapply inv_ext; [|exact Hi]. intros o. by rewrite slots_extra_empty.
Qed.

Lemma clone_objects_inv X n pid child i k u k' :
  clone_objects n pid child i k = Ret (u, k') -> idle_in_queues k child -> inv X k ->
  inv X k' /\ touches child k k'.
Proof.
  revert i k. induction n as [|n IH]; intros i k H Hno Hi; cbn in H.
  { apply mret_Ret in H as [_ <-]. split; [done|apply touches_refl]. }
  apply bind_Ret_inv in H as (p & k1 & H1 & H). apply proc_Ret in H1 as [_ ->].
  apply bind_Ret_inv in H as ([] & k1 & H1 & H).
  assert (inv X k1 /\ touches child k k1) as [Hi1 Ht1].
  { destruct (objects p !! i); [|apply mret_Ret in H1 as [_ <-]; split; [done|apply touches_refl]].
    apply bind_Ret_inv in H1 as (r & k2 & H2 & H1). apply mret_Ret in H1 as [_ <-].
    exact (setObject_inv X _ _ _ _ _ _ H2 Hno Hi). }
  destruct (IH (i + 1) k1 H) as [Hi2 Ht2]; [by apply touches_idle with child k|done|].
  split; [done|by apply touches_trans with k1].
Qed.

(** The parent after clone(): asleep with its stack saved, or as it was. *)
Definition cloned (mode : clone_mode) (b : list Z) (p : process) : process :=
  match mode with
  | PROCESS_CLONE_KEEP_STACK => fall_asleep (set_backup (usermode_state p Esp) (Some b) p)
  | PROCESS_CLONE_NEW_THREAD => p
  end.

Definition fresh_child (c : process) : Prop :=
  objects c = ∅ /\ process_state c = PROCESS_STATE_RUNNABLE /\ stack_backup c = None.

Lemma clone_stack_list pid child mode code data k u k' p c :
  clone_stack pid child mode code data k = Ret (u, k') -> pid <> child ->
  process_list k !! pid = Some p -> process_list k !! child = Some c -> fresh_child c ->
  exists m b c', fresh_child c' /\
    k' = set_process_list (<[pid := cloned mode b p]> (<[child := c']> (process_list k))) (set_mem m k).
Proof.
  unfold clone_stack. intros H Hne Hp Hc Hf. apply bind_Ret_inv in H as (p1 & k1 & H1 & H).
  apply proc_Ret in H1 as [Hp1 ->]. assert (p1 = p) as -> by congruence. destruct mode.
  - apply bind_Ret_inv in H as (b & k1 & H1 & H). apply kmem_Ret in H1 as (m & _ & ->).
    apply bind_Ret_inv in H as (u1 & k1 & H1 & H). apply mod_proc_Ret in H1 as (p1 & Hq1 & ->).
    cbn in Hq1. assert (p1 = p) as -> by congruence.
    apply bind_Ret_inv in H as (u2 & k1 & H1 & H). apply mod_proc_Ret in H1 as (c1 & Hc1 & ->).
    cbn in Hc1. rewrite lookup_insert_ne in Hc1 by done. assert (c1 = c) as -> by congruence.
    apply mod_proc_Ret in H as (p2 & Hp2 & ->). cbn in Hp2.
    rewrite lookup_insert_ne, lookup_insert_eq in Hp2 by done. injection Hp2 as <-.
    exists m, b, (set_usermode_state (retval 0 (usermode_state c)) c). split; [exact Hf|].
    unfold set_process_list. cbn. f_equal. rewrite (insert_insert_ne _ child pid), insert_insert_eq by done.
    done.
  - apply bind_Ret_inv in H as (u1 & k1 & H1 & H). apply kmem_Ret in H1 as (m1 & _ & ->).
    apply bind_Ret_inv in H as (u2 & k1 & H1 & H). apply kmem_Ret in H1 as (m2 & _ & ->).
    apply mod_proc_Ret in H as (c1 & Hc1 & ->). cbn in Hc1. assert (c1 = c) as -> by congruence.
    eexists m2, [], _. split; [|unfold set_process_list; cbn; f_equal; symmetry; apply insert_id].
    + exact Hf.
    + by rewrite lookup_insert_ne.
Qed.

Lemma clone_inv X pid mode code data k child k' p :
  clone pid mode code data k = Ret (child, k') -> process_list k !! pid = Some p ->
  idle_in_queues k pid -> inv X k ->
  inv X k' /\ current_process k' = child /\ child <> pid /\ process_list k !! child = None /\
  (exists b, process_list k' !! pid = Some (cloned mode b p)) /\
  (exists c, process_list k' !! child = Some c /\ process_state c = PROCESS_STATE_RUNNABLE).
Proof.
  unfold clone. intros H Hp Hno Hi. apply bind_Ret_inv in H as (p1 & k1 & H1 & H).
  apply proc_Ret in H1 as [Hp1 ->]. assert (p1 = p) as -> by congruence.
  destruct (stack_backup p) as [|] eqn:Hb; [runs|].
  apply bind_Ret_inv in H as (child' & k1 & H1 & H). unfold new_process in H1.
  apply bind_Ret_inv in H1 as (k2 & k3 & H2 & H1). apply pget_Ret in H2 as [-> ->].
  destruct (free_slot _ _ _) as [pid'|] eqn:Ef; [|runs]. apply free_slot_Some in Ef as [Hr Hfree].
  apply bind_Ret_inv in H1 as (u0 & k2 & H2 & H1). apply pmodify_Ret in H2 as ->.
  apply mret_Ret in H1 as [<- <-].
  apply bind_Ret_inv in H as (u1 & k2 & H2 & H). apply mod_proc_Ret in H2 as (c & Hc & ->).
  cbn in Hc. rewrite lookup_insert_eq in Hc. injection Hc as <-.
  apply bind_Ret_inv in H as (u2 & k2 & H2 & H). apply bind_Ret_inv in H as (u3 & k3 & H3 & H).
  apply bind_Ret_inv in H as (u4 & k4 & H4 & H). apply pmodify_Ret in H4 as ->. apply mret_Ret in H as [<- <-].
  assert (pid' <> pid) as Hne by (intros ->; congruence).
  cbn [process_list set_process_list] in H2. rewrite insert_insert_eq in H2.
  match type of H2 with clone_stack _ _ _ _ _ ?s = _ => set (k1 := s) in H2 end.
  edestruct (clone_stack_list pid pid' mode code data k1 u2 k2 p) as (m & b & c' & Hc' & ->);
    [done|done|by cbn; rewrite lookup_insert_ne|by cbn; rewrite lookup_insert_eq|done|].
  cbn [process_list set_process_list k1] in H3. rewrite insert_insert_eq in H3.
  assert (inv X (set_process_list (<[pid' := c']> (process_list k)) (set_mem m k))) as Hi1.
  { destruct Hc' as (? & ? & ?). apply (inv_new_process X pid' c' (set_mem m k)); try done.
apply inv_same with k; [by split|done]. }
  assert (process_list (set_process_list (<[pid' := c']> (process_list k)) (set_mem m k)) !! pid = Some p) as Hp2
    by (cbn; by rewrite lookup_insert_ne).
  match type of H3 with clone_objects _ _ _ _ ?s = _ => set (k2 := s) in H3 end.
  assert (inv X k2) as Hi2.
  { change k2 with (set_process_list (<[pid := cloned mode b p]>
        (process_list (set_process_list (<[pid' := c']> (process_list k)) (set_mem m k))))
        (set_process_list (<[pid' := c']> (process_list k)) (set_mem m k))).
    apply (inv_put_proc X _ pid p);
      [done|by destruct mode| | | |done].
    - intros [o Hw]. by destruct (Hno o).
    - destruct mode; [by left|]. intros Ha. destruct (inv_sleep X k Hi pid p Hp Ha) as [|[o Ho]]; [by left|right].
      by exists o.
    - destruct mode; [done|]. apply (inv_backup X k Hi pid p Hp). }
  assert (idle_in_queues k2 pid') as Hno2.
  { intros o Hw. destruct (inv_wait X k Hi pid' o Hw) as (q & i & Hq & _). congruence. }
  destruct (clone_objects_inv X _ _ _ _ k2 _ k3 H3 Hno2 Hi2) as [Hi3 Ht].
  split; [by apply inv_set_current|]. split; [done|]. split; [done|]. split; [done|]. split.
  - exists b. cbn. rewrite (touch_others _ _ _ Ht) by done. apply lookup_insert_eq.
  - destruct (touch_self _ _ _ Ht) as [m' Hm]. cbn. rewrite Hm. cbn.
    rewrite lookup_insert_ne, lookup_insert_eq by done. eexists. split; [done|]. apply Hc'.
Qed.

(** ** A process at work in the kernel *)
Definition runs_now (pid : Z) k : Prop :=
  exists p, process_list k !! pid = Some p /\ process_state p = PROCESS_STATE_RUNNABLE.

Record working (X : Z -> Z) (pid cur : Z) k : Prop := {
  working_inv : inv X k;
  working_current : current_process k = cur;
  working_runs : runs_now pid k
}.

Lemma runs_idle X pid k : inv X k -> runs_now pid k -> idle_in_queues k pid.
Proof.
  intros Hi (p & Hp & Hr) o Hw. destruct (inv_wait X k Hi pid o Hw) as (p1 & i & Hp1 & Ha & _).
  unfold asleep in Ha. congruence.
Qed.

Lemma working_idle X pid cur k : working X pid cur k -> idle_in_queues k pid.
Proof. intros [Hi _ Hr]. by apply (runs_idle X). Qed.

Lemma working_same X pid cur k k' : same_shape k k' -> working X pid cur k -> working X pid cur k'.
Proof.
  intros Hs [Hi Hc (p & Hp & Hr)]. split; [by apply inv_same with k|by rewrite (same_current _ _ Hs)|].
  exists p. by rewrite (same_processes _ _ Hs).
Qed.

Lemma working_procs X Y pid cur k k' :
  inv Y k' -> same_procs k k' -> working X pid cur k -> working Y pid cur k'.
Proof.
  intros Hi' [A B _] [Hi Hc (p & Hp & Hr)]. split; [done|congruence|]. exists p. by rewrite A.
Qed.

Lemma working_touches X Y pid cur k k' :
  inv Y k' -> touches pid k k' -> working X pid cur k -> working Y pid cur k'.
Proof.
  intros Hi' Ht [Hi Hc (p & Hp & Hr)]. split; [done|by rewrite (touch_current _ _ _ Ht)|].
  destruct (touch_self _ _ _ Ht) as [m Hm]. rewrite Hp in Hm. by eexists.
Qed.

Lemma working_ext X Y pid cur k : (forall o, X o = Y o) -> working X pid cur k -> working Y pid cur k.
Proof. intros E [Hi Hc Hr]. split; [by apply (inv_ext X)|done|done]. Qed.

(** The registers of the process. *)
Lemma working_tss X pid cur k t u k' :
  mod_proc pid (fun p => set_usermode_state (t p) p) k = Ret (u, k') -> working X pid cur k -> working X pid cur k'.
Proof.
  intros H [Hi Hc (p & Hp & Hr)]. apply mod_proc_Ret in H as (p1 & Hp1 & ->).
  assert (p1 = p) as -> by congruence. split; [by apply (inv_put_proc_same X k pid p)|done|].
  eexists. cbn. by rewrite lookup_insert_eq.
Qed.

Lemma working_kmem {A} X pid cur (p : prog mem A) k a k' :
  kmem p k = Ret (a, k') -> working X pid cur k -> working X pid cur k'.
Proof. intros H. apply kmem_Ret in H as (m & _ & ->). apply (working_same _ _ _ k). by split. Qed.

Lemma working_kworld {A} X pid cur (p : prog (mem * W) A) k a k' :
  kworld p k = Ret (a, k') -> working X pid cur k -> working X pid cur k'.
Proof. intros H. apply kworld_Ret in H as (mx & ->). apply (working_same _ _ _ k). by split. Qed.

Lemma working_wakes X pid cur q k k' :
  inv X k' -> wakes q k k' -> working X pid cur k -> working X pid cur k'.
Proof.
  intros Hi' [Hc' Hl _] [Hi Hc (p & Hp & Hr)]. split; [done|congruence|].
  unfold runs_now. destruct Hl as [-> | (p1 & Hp1 & _ & ->)]; [by exists p|]. destruct (decide (pid = q)) as [->|Hne].
  - exists (awake p1). by rewrite lookup_insert_eq.
  - exists p. by rewrite lookup_insert_ne.
Qed.

(** ** exec *)
Lemma exec_remove_working X n pid i low high cur k u k' :
  exec_remove n pid i low high k = Ret (u, k') -> working X pid cur k -> working X pid cur k'.
Proof.
  revert i k. induction n as [|n IH]; intros i k H Hw; cbn in H.
  { by apply mret_Ret in H as [_ <-]. }
  apply bind_Ret_inv in H as ([] & k1 & H1 & H). apply (IH (i + 1) k1 H).
  destruct (exec_keep low high i); [by apply mret_Ret in H1 as [_ <-]|].
  destruct (removeObject_inv X pid i k () k1 H1 (working_idle _ _ _ _ Hw) (working_inv _ _ _ _ Hw))
    as (Hi & Ht & _).
  by apply (working_touches X X pid cur k).
Qed.

Lemma exec_load_working X pid sections cur k u k' :
  exec_load pid sections k = Ret (u, k') -> working X pid cur k -> working X pid cur k'.
Proof.
  revert k. induction sections as [|s rest IH]; intros k H Hw; cbn in H.
  { by apply mret_Ret in H as [_ <-]. }
  apply bind_Ret_inv in H as (o & k1 & H1 & H). apply bind_Ret_inv in H as (u2 & k2 & H2 & H).
  apply bind_Ret_inv in H as (i & k3 & H3 & H). apply bind_Ret_inv in H as (u4 & k4 & H4 & H).
  apply (IH k4 H). clear H IH.
  pose proof (inv_extra X k (working_inv _ _ _ _ Hw) o) as HX.
  destruct (new_object_inv X _ k o k1 H1 (working_inv _ _ _ _ Hw)) as (_ & Hi1 & Hs1).
  pose proof (working_procs X _ pid cur k k1 Hi1 Hs1 Hw) as Hw1.
  pose proof (working_kmem _ _ _ _ _ _ _ H2 Hw1) as Hw2.
  destruct (addObject_inv _ pid (Some o) k2 i k3 H3 (working_idle _ _ _ _ Hw2) (working_inv _ _ _ _ Hw2))
    as [Hi3 Ht3].
  pose proof (working_touches _ _ pid cur k2 k3 Hi3 Ht3 Hw2) as Hw3.
  destruct (release_inv (extra 1 o X) o k3 u4 k4 H4) as [Hi4 Hs4].
  { unfold extra. case_decide; [lia|done]. }
  { done. }
  apply (working_ext (extra (-1) o (extra 1 o X))); [intros o'; unfold extra; repeat case_decide; lia|].
  by apply (working_procs (extra 1 o X) _ pid cur k3).
Qed.

Lemma exec_working X pid args sections entry low high cur k u k' :
  exec pid args sections entry low high k = Ret (u, k') -> working X pid cur k -> working X pid cur k'.
Proof.
  unfold exec. intros H Hw. destruct (existsb _ _); [runs|].
  apply bind_Ret_inv in H as (sargs & k1 & H1 & H). pose proof (working_kmem _ _ _ _ _ _ _ H1 Hw) as Hw1.
  apply bind_Ret_inv in H as (u2 & k2 & H2 & H). pose proof (exec_remove_working _ _ _ _ _ _ _ _ _ _ H2 Hw1) as Hw2.
  apply bind_Ret_inv in H as (u3 & k3 & H3 & H).
  pose proof (working_tss _ _ _ _ (fun _ => exec_tss pid entry) _ _ H3 Hw2) as Hw3.
  apply bind_Ret_inv in H as (esp & k4 & H4 & H). pose proof (working_kmem _ _ _ _ _ _ _ H4 Hw3) as Hw4.
  apply bind_Ret_inv in H as (u5 & k5 & H5 & H).
  pose proof (working_tss _ _ _ _ (fun p => tss_set Esp esp (usermode_state p)) _ _ H5 Hw4) as Hw5.
  apply bind_Ret_inv in H as (u6 & k6 & H6 & H). pose proof (exec_load_working _ _ _ _ _ _ _ H6 Hw5) as Hw6.
  apply bind_Ret_inv in H as (p & k7 & H7 & H). apply proc_Ret in H7 as [_ ->].
  destruct (restore_parent_inv X p k6 u k' H (working_inv _ _ _ _ Hw6)) as [Hi Hwk].
  by apply (working_wakes X pid cur (ppid p) k6).
Qed.
End process_inv.
