(* ===== verification/Sched.v ===== *)
(** * Sched: src/src/resche.cpp and src/src/pit.cpp

    The choice of the next process and the clock tick. *)
From S2P Require Import Prelude Mem Keyboard Pic Kernel Process.

Definition IRQ_BASE0 : Z := 0x20.
Definition IRQ_BASE1 : Z := 0x28.

(** ** The scheduler *)
Section sched.
Context {W : Type}.
Abbreviation kprog := (prog (kernel W)).

(** The [i]-th candidate after the current process. *)
Definition candidate (cur i : Z) : Z := (cur + i) mod MAX_PROCESS_NUM.

(** A loop over the candidates. *)
Fixpoint pick (n : nat) (ok : process -> bool) (cur i : Z) (l : gmap Z process) : option Z :=
  match n with
  | O => None
  | S n =>
      match l !! candidate cur i with
      | Some p => if ok p then Some (candidate cur i) else pick n ok cur (i + 1) l
      | None => pick n ok cur (i + 1) l
      end
  end.

Definition runnable (p : process) : bool := bool_decide (process_state p = PROCESS_STATE_RUNNABLE).
Definition idle (p : process) : bool := bool_decide (process_sche_type p = PROCESS_SCHE_IDLE).

(** The process that both loops of resche() find. *)
Definition next_process (cur : Z) (l : gmap Z process) : option Z :=
  match pick (Z.to_nat MAX_PROCESS_NUM) (fun p => runnable p && negb (idle p)) cur 1 l with
  | Some pid => Some pid
  | None => pick (Z.to_nat MAX_PROCESS_NUM) runnable cur 1 l
  end.

(** Without a runnable process the task switch of the final [iret] leaves the
    user programs for good, for the kernel's own task. *)
Definition resche : kprog unit :=
  k ← pget;
  match next_process (current_process k) (process_list k) with
  | Some pid => pmodify (fun k => set_resche_counter PROCESS_TICKS (set_current pid k))
  | None => ppanic "iret to the kernel's task"
  end.

(** The part of a clock interrupt that is not in user mode, or does not use
    up the time of the process; the result says whether [int $0x80] follows,
    a call of sched_yield.  [dpl] is the privilege level of the segment of
    the interrupted code, and bit 17 of its flags the v8086 mode. *)
Definition resche_tick (frame_eflags dpl : Z) : kprog bool :=
  k ← pget;
  let c := if 0 <? resche_counter k then resche_counter k - 1 else resche_counter k in
  pput (set_resche_counter c k);;
  let kernel_mode := if Z.testbit frame_eflags 17 then true else dpl =? 0 in
  mret ((c =? 0) && negb kernel_mode).

Definition resche_leave_kernel_mode_hook : kprog unit :=
  k ← pget; if resche_counter k =? 0 then resche else mret tt.

Definition get_tick : kprog Z := k ← pget; mret (pit_ticks k).

(** The interrupt handler of the clock; [eoi] is PIC_sendEOI on the devices. *)
Definition timer_handler (eoi : kprog unit) (frame_eflags dpl : Z) : kprog bool :=
  pmodify (fun k => set_ticks (pit_ticks k + 1) k);;
  eoi;;
  resche_tick frame_eflags dpl.
End sched.

(** ** The clock chip *)
Definition CLOCKBASE : Z := 0x40.
Definition CLOCK0 : Z := CLOCKBASE.
Definition CLKCNTL : Z := CLOCKBASE + 3.

Definition pit_init {S} `{PortIO S} (idt_set_descriptor : Z -> prog S unit) : prog S unit :=
  idt_set_descriptor IRQ_BASE0;;
  outb CLKCNTL 0x34;;
  let intv := 1193 in
  outb CLOCK0 (Z.land 0xff intv);;
  outb CLOCK0 (Z.land 0xff (Z.shiftr intv 8));;
  IRQ_clear_mask 0.

(** ** The order of the candidates *)
Lemma valid_pid_spec pid : valid_pid pid = true <-> 0 <= pid < MAX_PROCESS_NUM.
Proof. unfold valid_pid. rewrite andb_true_iff, Z.leb_le, Z.ltb_lt. done. Qed.

(** How many candidates after [cur] the process [pid] is, from 1 to 32. *)
Definition turn_dist (cur pid : Z) : Z := 1 + (pid - cur - 1) mod MAX_PROCESS_NUM.

Lemma turn_dist_range cur pid : 1 <= turn_dist cur pid <= MAX_PROCESS_NUM.
Proof. unfold turn_dist, MAX_PROCESS_NUM. pose proof (Z.mod_pos_bound (pid - cur - 1) 32). lia. Qed.

Lemma candidate_valid cur i : 0 <= candidate cur i < MAX_PROCESS_NUM.
Proof. apply Z.mod_pos_bound. unfold MAX_PROCESS_NUM. lia. Qed.

Lemma candidate_dist cur pid : 0 <= pid < MAX_PROCESS_NUM -> candidate cur (turn_dist cur pid) = pid.
Proof.
  intros Hp. unfold candidate, turn_dist, MAX_PROCESS_NUM in *.
  replace (cur + (1 + (pid - cur - 1) mod 32)) with (cur + 1 + (pid - cur - 1) mod 32) by lia.
  rewrite Zplus_mod_idemp_r. replace (cur + 1 + (pid - cur - 1)) with pid by lia.
  apply Z.mod_small. lia.
Qed.

Lemma dist_candidate cur i : 1 <= i <= MAX_PROCESS_NUM -> turn_dist cur (candidate cur i) = i.
Proof.
  intros Hi. unfold candidate, turn_dist, MAX_PROCESS_NUM in *.
  replace ((cur + i) mod 32 - cur - 1) with ((cur + i) mod 32 - (cur + 1)) by lia.
  rewrite Zminus_mod_idemp_l. replace (cur + i - (cur + 1)) with (i - 1) by lia.
  rewrite Z.mod_small; lia.
Qed.

(** After a turn of [q], which comes before [pid], the distance is smaller. *)
Lemma dist_decreases cur q pid :
  turn_dist cur q < turn_dist cur pid -> turn_dist q pid = turn_dist cur pid - turn_dist cur q.
Proof.
  unfold turn_dist, MAX_PROCESS_NUM. intros Hlt.
  pose proof (Z.mod_pos_bound (q - cur - 1) 32 ltac:(lia)) as Hq.
  pose proof (Z.mod_pos_bound (pid - cur - 1) 32 ltac:(lia)) as Hp.
  replace (pid - q - 1) with ((pid - cur - 1) - (q - cur - 1) - 1) by lia.
  rewrite Zminus_mod, (Zminus_mod (pid - cur - 1)), Zminus_mod_idemp_l.
  change (1 mod 32) with 1. rewrite Z.mod_small by lia. lia.
Qed.

Section pick.
Variables (ok : process -> bool) (cur : Z) (l : gmap Z process).

(** A candidate that the loop takes. *)
Definition eligible (pid : Z) : Prop := exists p, l !! pid = Some p /\ ok p = true.

Lemma pick_Some n i pid :
  pick n ok cur i l = Some pid ->
  exists j, i <= j < i + Z.of_nat n /\ pid = candidate cur j /\ eligible pid /\
    forall j', i <= j' < j -> ~ eligible (candidate cur j').
Proof.
  revert i. induction n as [|n IH]; intros i Hpick; [done|]. cbn [pick] in Hpick.
  assert (~ eligible (candidate cur i) -> pick n ok cur (i + 1) l = Some pid ->
    exists j, i <= j < i + Z.of_nat (S n) /\ pid = candidate cur j /\ eligible pid /\
    forall j', i <= j' < j -> ~ eligible (candidate cur j')) as Hnext.
  { intros Hno Hrec. destruct (IH (i + 1) Hrec) as (j & Hj & -> & He & Hbefore).
    exists j. split; [lia|]. split; [done|]. split; [done|]. intros j' Hj'.
    destruct (Z.eq_dec j' i) as [->|]; [done|]. apply Hbefore. lia. }
  destruct (l !! candidate cur i) as [p|] eqn:Hl.
  - destruct (ok p) eqn:Hok.
    + injection Hpick as <-. exists i. split; [lia|]. split; [done|]. split; [by exists p|]. lia.
    + apply Hnext; [|done]. intros (p' & Hp' & Hok'). congruence.
  - apply Hnext; [|done]. intros (p' & Hp' & _). congruence.
Qed.

Lemma pick_None n i : pick n ok cur i l = None ->
  forall j, i <= j < i + Z.of_nat n -> ~ eligible (candidate cur j).
Proof.
  revert i. induction n as [|n IH]; intros i Hpick j Hj; [lia|]. cbn [pick] in Hpick.
  intros (p & Hp & Hok). destruct (Z.eq_dec j i) as [->|].
  - by rewrite Hp, Hok in Hpick.
  - apply (IH (i + 1)) with j; [|lia|by exists p].
    destruct (l !! candidate cur i) as [p'|]; [by destruct (ok p')|done].
Qed.

(** The whole round: the nearest eligible process, or none at all. *)
Lemma pick_round :
  match pick (Z.to_nat MAX_PROCESS_NUM) ok cur 1 l with
  | Some pid => 0 <= pid < MAX_PROCESS_NUM /\ eligible pid /\
      forall q, 0 <= q < MAX_PROCESS_NUM -> eligible q -> turn_dist cur pid <= turn_dist cur q
  | None => forall q, 0 <= q < MAX_PROCESS_NUM -> ~ eligible q
  end.
Proof.
  destruct (pick _ _ _ _ _) as [pid|] eqn:Hpick.
  - apply pick_Some in Hpick as (j & Hj & -> & He & Hbefore).
    split; [apply candidate_valid|]. split; [done|]. intros q Hq Heq.
    change (Z.of_nat (Z.to_nat MAX_PROCESS_NUM)) with 32 in Hj.
    rewrite dist_candidate by (unfold MAX_PROCESS_NUM; lia).
    destruct (Z.le_gt_cases j (turn_dist cur q)) as [|Hlt]; [done|exfalso].
    apply (Hbefore (turn_dist cur q)); [pose proof (turn_dist_range cur q); lia|].
    by rewrite candidate_dist.
  - intros q Hq He. apply (pick_None _ _ Hpick (turn_dist cur q)).
    + pose proof (turn_dist_range cur q). change (Z.of_nat _) with 32. unfold MAX_PROCESS_NUM in *. lia.
    + by rewrite candidate_dist.
Qed.
End pick.

(** ** Properties *)
Definition ready (pid : Z) (l : gmap Z process) : Prop :=
  eligible (fun p => runnable p && negb (idle p)) l pid.

(** What resche() promises: the nearest ready process after the current one,
    and an idle one only when no process is ready. *)
Definition scheduled (cur pid : Z) (l : gmap Z process) : Prop :=
  0 <= pid < MAX_PROCESS_NUM /\
  ((ready pid l /\ forall q, 0 <= q < MAX_PROCESS_NUM -> ready q l -> turn_dist cur pid <= turn_dist cur q) \/
   ((forall q, 0 <= q < MAX_PROCESS_NUM -> ~ ready q l) /\ eligible runnable l pid /\
    forall q, 0 <= q < MAX_PROCESS_NUM -> eligible runnable l q -> turn_dist cur pid <= turn_dist cur q)).

Lemma next_process_spec cur l :
  match next_process cur l with
  | Some pid => scheduled cur pid l
  | None => forall q, 0 <= q < MAX_PROCESS_NUM -> ~ eligible runnable l q
  end.
Proof.
  unfold next_process, scheduled, ready.
  pose proof (pick_round (fun p => runnable p && negb (idle p)) cur l) as H1.
  destruct (pick _ (fun p => runnable p && negb (idle p)) _ _ _) as [pid|]; [tauto|].
  pose proof (pick_round runnable cur l) as H2.
  destruct (pick _ runnable _ _ _) as [pid|]; tauto.
Qed.

Lemma resche_spec {W} (k : kernel W) :
  match resche k with
  | Ret (_, k') => exists pid, scheduled (current_process k) pid (process_list k) /\
      k' = set_resche_counter PROCESS_TICKS (set_current pid k)
  | Panic _ => forall q, 0 <= q < MAX_PROCESS_NUM -> ~ eligible runnable (process_list k) q
  | _ => False
  end.
Proof.
  unfold resche. rewrite pget_bind. pose proof (next_process_spec (current_process k) (process_list k)) as H.
  destruct (next_process _ _) as [pid|]; [|done]. cbn. by exists pid.
Qed.

(** C12: resche() passes the processor to the first process after the current
    one, in the cyclic order of the pids, that is runnable and not idle; to
    the nearest runnable idle process only when no other process is runnable;
    and it leaves the user programs only when none is.  It gives the chosen
    process a whole time slice and changes nothing else. *)
Theorem resche_correct {W} (k : kernel W) q p :
  0 <= q < MAX_PROCESS_NUM -> process_list k !! q = Some p -> process_state p = PROCESS_STATE_RUNNABLE ->
  exists pid, resche k = Ret (tt, set_resche_counter PROCESS_TICKS (set_current pid k)) /\
    scheduled (current_process k) pid (process_list k).
Proof.
  intros Hq Hp Hrun. pose proof (resche_spec k) as H.
  destruct (resche k) as [[[] k']| | |].
  - destruct H as (pid & Hs & ->). by exists pid.
  - done.
  - destruct (H q Hq). exists p. split; [done|]. unfold runnable. by rewrite Hrun.
  - done.
Qed.

(** One turn: what the running process does, and then resche(). *)
Fixpoint turns {W} (fs : list (kernel W -> kernel W)) (k : kernel W) : list Z :=
  match fs with
  | [] => []
  | f :: fs =>
      match resche (f k) with
      | Ret (_, k') => current_process k' :: turns fs k'
      | _ => []
      end
  end.

Lemma turns_fair {W} (fs : list (kernel W -> kernel W)) k pid :
  0 <= pid < MAX_PROCESS_NUM ->
  Forall (fun f => forall k, ready pid (process_list k) ->
    ready pid (process_list (f k)) /\ current_process (f k) = current_process k) fs ->
  ready pid (process_list k) ->
  turn_dist (current_process k) pid <= Z.of_nat (length fs) -> pid ∈ turns fs k.
Proof.
  intros Hpid. revert k. induction fs as [|f fs IH]; intros k Hfs Hready Hlen.
  { pose proof (turn_dist_range (current_process k) pid). simpl in Hlen. lia. }
  inversion Hfs as [|? ? Hf Hfs']; subst. destruct (Hf k Hready) as [Hready' Hcur].
  cbn [turns]. pose proof (resche_spec (f k)) as Hspec.
  destruct (resche (f k)) as [[[] k']| | |]; [|done| |done].
  - destruct Hspec as (q & (Hq & Hs) & ->). cbn [current_process set_resche_counter set_current].
    rewrite Hcur in Hs. destruct Hs as [[Hrq Hbest]|[Hno _]]; [|by destruct (Hno pid)].
    destruct (Z.eq_dec q pid) as [->|Hne]; [by left|]. right. apply IH; [done|exact Hready'|].
    cbn [current_process set_resche_counter set_current].
    specialize (Hbest pid Hpid Hready').
    assert (turn_dist (current_process k) q <> turn_dist (current_process k) pid) as Hd.
    { intros E. apply Hne. rewrite <- (candidate_dist (current_process k) q), E by done.
      by apply candidate_dist. }
    rewrite dist_decreases with (cur := current_process k) by lia. simpl in Hlen.
    pose proof (turn_dist_range (current_process k) q). lia.
  - destruct (Hspec pid Hpid). destruct Hready' as (p & Hp & Hok). exists p. split; [done|].
    by apply andb_true_iff in Hok as [-> _].
Qed.

(** C13: no ready process is passed over for ever: whatever the processes that
    run in between do, as long as the process stays ready it is chosen by one
    of the next 32 calls of resche(). *)
Theorem resche_round_robin {W} (fs : list (kernel W -> kernel W)) k pid :
  0 <= pid < MAX_PROCESS_NUM ->
  Forall (fun f => forall k, ready pid (process_list k) ->
    ready pid (process_list (f k)) /\ current_process (f k) = current_process k) fs ->
  ready pid (process_list k) -> (32 <= length fs)%nat -> pid ∈ turns fs k.
Proof.
  intros Hpid Hfs Hready Hlen. apply turns_fair; try done.
  pose proof (turn_dist_range (current_process k) pid). unfold MAX_PROCESS_NUM in *. lia.
Qed.

(** ** A small table: 0 is the idle process, 3 and 5 are ready, 4 sleeps *)
Definition sched_proc (s : pstate) (t : psche) : process := Process (-1) s t 0 None tss_zero ∅.
Definition sched_example : kernel unit :=
  Kernel ∅ tt 5
    (list_to_map [(0, sched_proc PROCESS_STATE_RUNNABLE PROCESS_SCHE_IDLE);
                  (3, sched_proc PROCESS_STATE_RUNNABLE PROCESS_SCHE_NORMAL);
                  (4, sched_proc PROCESS_STATE_SLEEPING PROCESS_SCHE_NORMAL);
                  (5, sched_proc PROCESS_STATE_RUNNABLE PROCESS_SCHE_NORMAL)])
    ∅ 0 ∅ ∅ ∅ ∅ 0 7 tss_zero.

Lemma resche_correct_witness :
  exists pid, resche sched_example = Ret (tt, set_resche_counter PROCESS_TICKS (set_current pid sched_example)) /\
    pid = 3.
Proof.
  assert (0 <= 0 < MAX_PROCESS_NUM) as H1 by (unfold MAX_PROCESS_NUM; lia).
  destruct (resche_correct sched_example 0 _ H1 eq_refl eq_refl) as (pid & Hrun & _).
  exists pid. split; [exact Hrun|].
  assert (resche sched_example = Ret (tt, set_resche_counter PROCESS_TICKS (set_current 3 sched_example)))
    as E by reflexivity.
  rewrite E in Hrun. injection Hrun. auto.
Defined.

Lemma resche_round_robin_witness : 3 ∈ turns (replicate 32 (fun k => k)) sched_example.
Proof.
  apply resche_round_robin.
  - unfold MAX_PROCESS_NUM. lia.
  - apply list.Forall_replicate. auto.
  - exists (sched_proc PROCESS_STATE_RUNNABLE PROCESS_SCHE_NORMAL). split; reflexivity.
  - simpl. lia.
Defined.
