(* ===== verification/Elf.v ===== *)
(** * Elf: src/src/elf/elf-loader.cpp

    The parser of program images.  It reads the file from a buffer of the
    memory, at the offsets of elf32_hdr and elf32_phdr of src/inc/elf/elf.h. *)
From S2P Require Import Prelude Mem CString Kernel UserLib.

Definition EI_CLASS : Z := 4.
Definition EI_DATA : Z := 5.
Definition PT_LOAD : Z := 1.
Definition sizeof_elf32_phdr : Z := 32.

(** elf32_hdr *)
Definition hdr_e_entry (hdr : Z) : Z := hdr + 24.
Definition hdr_e_phoff (hdr : Z) : Z := hdr + 28.

(** elf32_phdr *)
Definition ph_p_type (ph : Z) : Z := ph.
Definition ph_p_offset (ph : Z) : Z := ph + 4.
Definition ph_p_paddr (ph : Z) : Z := ph + 12.
Definition ph_p_memsz (ph : Z) : Z := ph + 20.

Definition ELF_MAGIC : list Z := [127; 69; 76; 70].

(** [memcmp(hdr->e_ident, "\x7f" "ELF", 4) != 0] *)
Fixpoint bytes_differ (a : Z) (l : list Z) : prog mem bool :=
  match l with
  | [] => mret false
  | c :: l => b ← load8 a; if b =? c then bytes_differ (a + 1) l else mret true
  end.

(** The loop over the program headers, with its bound [e_phoff]; when [n]
    segments have been found the others are only counted.  The result is [num]
    and the entries of the array [sections], of [n] elements, written so far:
    a segment goes to the index of its header. *)
Fixpoint elf_loop (count : nat) (buffer phdr i num n : Z) (sections : gmap Z section) :
    prog mem (Z * gmap Z section) :=
  match count with
  | O => mret (num, sections)
  | S count =>
      let ph := u32 (phdr + sizeof_elf32_phdr * i) in
      type ← load32 (ph_p_type ph);
      if type =? PT_LOAD then
        sections ←
          (if num <? n then
             base ← load32 (ph_p_paddr ph);
             limit ← load32 (ph_p_memsz ph);
             offset ← load32 (ph_p_offset ph);
             if i <? n then mret (<[i := Section_ base limit (u32 (buffer + offset))]> sections)
             else pfault
           else mret sections);
        elf_loop count buffer phdr (i + 1) (num + 1) n sections
      else elf_loop count buffer phdr (i + 1) num n sections
  end.

Definition InvalidElfException : string := "Unexpected magic, arch or endian".

(** The result is the number of loadable segments, the entry point and the
    filled sections; an exception of the source is [None]. *)
Definition parseElfSections (buffer n : Z) : prog mem (option (Z * Z * gmap Z section)) :=
  bad ← bytes_differ buffer ELF_MAGIC;
  if bad : bool then mret None
  else
    class ← load8 (buffer + EI_CLASS);
    if negb (class =? 1) then mret None
    else
      data ← load8 (buffer + EI_DATA);
      if negb (data =? 1) then mret None
      else
        entry ← load32 (hdr_e_entry buffer);
        phoff ← load32 (hdr_e_phoff buffer);
        '(num, sections) ← elf_loop (Z.to_nat phoff) buffer (u32 (buffer + phoff)) 0 0 n ∅;
        mret (Some (num, entry, sections)).
