(* ===== verification/Syscall.v ===== *)
(** * Syscall: src/src/syscall and src/src/exec.cpp

    One definition per system call, and real_syscall_handler, which every
    [int $0x80] enters through the task gate.  The file system and the special
    paths are reached through the interface [Files]. *)
From S2P Require Import Prelude Mem CString Kernel Devices UserLib Process Sched Elf.

(** What the system calls use of SpecialPathManager, Fat16FileSystem, File and
    Directory, and of [operator new] and [operator delete]. *)
Class Files (W : Type) := {
  special_get : Z -> prog (mem * W) (option Z);
  openFile : Z -> prog (mem * W) (option Z);
  file_size : Z -> prog (mem * W) Z;
  is_file : Z -> bool;
  dir_entries : Z -> prog (mem * W) (option (list (list Z * Z * Z)));
  new_bytes : Z -> prog (mem * W) Z;
  delete_bytes : Z -> prog (mem * W) unit
}.

(** file_info_t of common_def.h *)
Definition info_filename (info : Z) : Z := info.
Definition info_size (info : Z) : Z := info + 16.
Definition info_directory (info : Z) : Z := info + 20.
Definition sizeof_file_info_t : Z := 24.

Section syscall.
Context {W : Type} `{!External W} `{!Layout} `{!Files W}.
Abbreviation kprog := (prog (kernel W)).

Definition minus_one : Z := u64 (-1).

(** ** The handlers: their results are uint64_t *)
Definition close_handler (fd : Z) : kprog Z :=
  pid ← getCurrentProcess; removeObject pid (s32 fd);; mret 0.

Definition dup2_handler (oldfd newfd : Z) : kprog Z :=
  if oldfd =? newfd then mret 0
  else
    pid ← getCurrentProcess;
    sobj ← getObject pid (s32 oldfd);
    match sobj with
    | None => mret minus_one
    | Some o => with_ref o (setObject pid (s32 newfd) (Some o));; mret 0
    end.

Definition exit_handler (code : Z) : kprog Z :=
  pid ← getCurrentProcess; deleteProcess pid (s32 code);; mret 0.

Definition fork_handler : kprog Z :=
  pid ← getCurrentProcess; child ← clone pid PROCESS_CLONE_KEEP_STACK 0 0; mret (u64 child).

Definition thread_handler (func data : Z) : kprog Z :=
  pid ← getCurrentProcess; child ← clone pid PROCESS_CLONE_NEW_THREAD func data; mret (u64 child).

(** The [hlt] instruction waits for an interrupt. *)
Definition hlt_handler : kprog Z := pid ← getCurrentProcess; proc pid;; mret 0.

Definition read_handler (device buffer size : Z) : kprog Z :=
  pid ← getCurrentProcess;
  sobj ← getObject pid (s32 device);
  match sobj with
  | None => mret minus_one
  | Some o =>
      with_ref o (
        x ← obj o;
        if is_input x then r ← dev_read o buffer size; mret (u64 r) else mret minus_one)
  end.

Definition write_handler (device buffer size : Z) : kprog Z :=
  pid ← getCurrentProcess;
  sobj ← getObject pid (s32 device);
  match sobj with
  | None => mret minus_one
  | Some o =>
      with_ref o (
        x ← obj o;
        if is_output x then r ← dev_write o buffer size; mret (u64 r) else mret minus_one)
  end.

Definition sched_yield_handler : kprog Z := resche;; mret 0.

(** The exception that [addObject] throws is not one the handler catches. *)
Definition sem_create_handler (cnt : Z) : kprog Z :=
  sem ← createSemaphore (s32 cnt);
  pid ← getCurrentProcess;
  fd ← addObject pid (Some sem);
  release sem;;
  mret (u64 fd).

(** [try { return now_proc->addObject(obj); } catch ...]: the exception leaves
    the kernel as it was. *)
Definition add_or_nospc (pid o : Z) : kprog Z := fun k =>
  match addObject pid (Some o) k with
  | Panic msg => if String.eqb msg ObjectLimitExceededException then Ret (ENOSPC, k) else Panic msg
  | r => r
  end.

Definition open_handler (filename : Z) : kprog Z :=
  pid ← getCurrentProcess;
  special ← kworld (special_get filename);
  match special with
  | Some o => addRef o;; fd ← add_or_nospc pid o; release o;; mret (u64 fd)
  | None =>
      file ← kworld (openFile filename);
      match file with
      | None => mret (u64 (- ENOENT))
      | Some d =>
          o ← new_object (BExt d) None;
          fd ← add_or_nospc pid o;
          release o;;
          mret (u64 fd)
      end
  end.

(** The loop of readdir_handler over the entries; strlcpy() of at most 15
    characters of the name. *)
Fixpoint readdir_loop (n : nat) (info_array : Z) (entries : list (list Z * Z * Z)) : prog mem Z :=
  match n, entries with
  | S n, (name, size, directory) :: entries =>
      store_string (info_filename info_array) (take 15 name);;
      store32 (info_size info_array) size;;
      store32 (info_directory info_array) directory;;
      i ← readdir_loop n (info_array + sizeof_file_info_t) entries;
      mret (i + 1)
  | _, _ => mret 0
  end.

Definition readdir_handler (fd info_array_addr n_addr : Z) : kprog Z :=
  pid ← getCurrentProcess;
  file_obj ← getObject pid (s32 fd);
  match file_obj with
  | None => mret (u64 (- ENOENT))
  | Some o =>
      x ← obj o;
      match o_base x with
      | BExt d =>
          if is_file d then
            dir ← kworld (dir_entries d);
            match dir with
            | None => mret (u64 (- ENOENT))
            | Some entries =>
                n ← kmem (load32 n_addr);
                i ← kmem (readdir_loop (Z.to_nat (s32 n)) info_array_addr entries);
                kmem (store32 n_addr (Z.of_nat (length entries)));;
                mret i
            end
          else mret (u64 (- ENOENT))
      | _ => mret (u64 (- ENOENT))
      end
  end.

(** ** exec.cpp *)

(** The array filled by the second call of parseElfSections; an element that
    was not written is undefined. *)
Fixpoint section_array (n : nat) (i : Z) (a : gmap Z section) : option (list section) :=
  match n with
  | O => Some []
  | S n => s ← a !! i; rest ← section_array n (i + 1) a; Some (s :: rest)
  end.

Definition exec_or_noexec (pid args : Z) (sections : list section) (entry low high : Z) : kprog Z := fun k =>
  match Process.exec pid args sections entry low high k with
  | Ret (_, k') => Ret (0, k')
  | Panic msg => if String.eqb msg InvalidSectionException then Ret (- ENOEXEC, k) else Panic msg
  | Fault => Fault
  | NoFuel => NoFuel
  end.

(** From the first call of parseElfSections to the end. *)
Definition exec_image (pid args buffer object_keep_low object_keep_high : Z) : kprog Z :=
  counted ← kmem (parseElfSections buffer 0);
  match counted with
  | None => mret (- ENOEXEC)
  | Some (section_num, _, _) =>
      parsed ← kmem (parseElfSections buffer section_num);
      match parsed with
      | None => pfault
      | Some (_, entry, sections) =>
          match section_array (Z.to_nat section_num) 0 sections with
          | Some sections =>
              exec_or_noexec pid args sections entry object_keep_low object_keep_high
          | None => pfault
          end
      end
  end.

(** The shared pointer deletes the buffer when the function returns. *)
Definition execv (pid exec args object_keep_low object_keep_high : Z) : kprog Z :=
  pfile ← kworld (openFile exec);
  match pfile with
  | None => mret (- ENOENT)
  | Some d =>
      size ← kworld (file_size d);
      buffer ← kworld (new_bytes (u32 (s32 size)));
      kworld (ext_read d buffer (u32 (s32 size)));;
      ret ← exec_image pid args buffer object_keep_low object_keep_high;
      kworld (delete_bytes buffer);;
      mret ret
  end.

Definition exec_handler (iexec iargs fd_keep_low fd_keep_high : Z) : kprog Z :=
  pid ← getCurrentProcess;
  ret ← execv pid iexec iargs fd_keep_low fd_keep_high;
  mret (u64 ret).

(** ** syscall_handler.cpp *)

(** The table of the wrappers, each applied to the registers of the current
    process; a number without a wrapper does nothing. *)
Definition apply_wrapper (callsys : Z) (t : tss) : option (kprog Z) :=
  if callsys =? SYSCALL_EXIT then Some (exit_handler (t Ebx))
  else if callsys =? SYSCALL_FORK then Some fork_handler
  else if callsys =? SYSCALL_READ then Some (read_handler (t Ebx) (t Ecx) (t Edx))
  else if callsys =? SYSCALL_WRITE then Some (write_handler (t Ebx) (t Ecx) (t Edx))
  else if callsys =? SYSCALL_OPEN then Some (open_handler (t Ebx))
  else if callsys =? SYSCALL_CLOSE then Some (close_handler (t Ebx))
  else if callsys =? SYSCALL_EXEC then Some (exec_handler (t Ebx) (t Ecx) (t Edx) (t Esi))
  else if callsys =? SYSCALL_DUP2 then Some (dup2_handler (t Ebx) (t Ecx))
  else if callsys =? SYSCALL_SCHED_YIELD then Some sched_yield_handler
  else if callsys =? SYSCALL_SEM_CREATE then Some (sem_create_handler (t Ebx))
  else if callsys =? SYSCALL_READDIR then Some (readdir_handler (t Ebx) (t Ecx) (t Edx))
  else if callsys =? SYSCALL_THREAD then Some (thread_handler (t Ebx) (t Ecx))
  else if callsys =? SYSCALL_HIDDEN_HLT then Some hlt_handler
  else None.

Definition SYSCALL_END : Z := 255.

(** What follows the handler, in the process [pid] that made the call. *)
Definition syscall_return (pid ret : Z) : kprog unit :=
  alive ← getProcess pid;
  match alive with
  | Some _ =>
      syscall_set_retval pid ret;;
      p ← proc pid;
      if bool_decide (process_state p = PROCESS_STATE_RUNNABLE) then mret tt else resche
  | None => resche
  end.

Definition real_syscall_handler : kprog unit :=
  enterKernelMode;;
  pid ← getCurrentProcess;
  now_proc ← proc pid;
  let t := usermode_state now_proc in
  (if (0 <=? t Eax) && (t Eax <? SYSCALL_END) then
     match apply_wrapper (t Eax) t with
     | Some handler => ret ← handler; checkAll;; syscall_return pid ret
     | None => mret tt
     end
   else pfault);;
  resche_leave_kernel_mode_hook;;
  leaveKernelMode.
End syscall.
