(* ===== verification/SyscallInv.v ===== *)
(** * SyscallInv: every system call keeps the kernel well formed

    The handlers of Syscall.v keep the invariant of Invariant.v, and the
    system as a whole - user programs, system calls, clock ticks and device
    interrupts in any order - stays in well-formed states. *)
From stdpp Require Import gmultiset.
From S2P Require Import Prelude Mem CString Keyboard Kernel Devices UserLib Process Sched Elf.
From S2P Require Import Invariant ProcessInv Syscall.

Section handlers.
Context {W : Type} `{HE : !External W} `{HL : Layout} `{HF : !Files W}.
Implicit Types (k : kernel W).

(** The process that made the call is still there, perhaps asleep. *)
Record present (X : Z -> Z) (pid : Z) k : Prop := {
  present_inv : inv X k;
  present_current : current_process k = pid;
  present_alive : is_Some (process_list k !! pid)
}.

Lemma working_present X pid k : working X pid pid k -> present X pid k.
Proof. intros [Hi Hc (p & Hp & _)]. by split. Qed.

(** What a handler leaves: the caller is gone, or still current, or another
    process that can run has become current. *)
Definition handled (X : Z -> Z) (pid : Z) k : Prop :=
  inv X k /\ (process_list k !! pid = None \/ present X pid k \/ runs_now (current_process k) k).

Lemma working_handled X pid k : working X pid pid k -> handled X pid k.
Proof. intros Hw. split; [apply Hw|]. right. left. by apply working_present. Qed.

Lemma with_ref_working X pid cur {A} o (f : prog (kernel W) A) k r k' :
  with_ref o f k = Ret (r, k') -> working X pid cur k ->
  (forall k1 k2, working (extra 1 o X) pid cur k1 -> f k1 = Ret (r, k2) -> working (extra 1 o X) pid cur k2) ->
  working X pid cur k'.
Proof.
  unfold with_ref. intros H Hw Hf. apply bind_Ret_inv in H as (u1 & k1 & H1 & H).
  apply bind_Ret_inv in H as (r' & k2 & H2 & H). apply bind_Ret_inv in H as (u3 & k3 & H3 & H).
  apply mret_Ret in H as [-> <-].
  destruct (addRef_inv X o k u1 k1 H1 (working_inv _ _ _ _ Hw)) as (Hi1 & El1 & Ec1 & Ew1).
  assert (working (extra 1 o X) pid cur k1) as Hw1 by (by apply (working_procs X _ pid cur k)).
  pose proof (Hf k1 k2 Hw1 H2) as Hw2. pose proof (inv_extra X k (working_inv _ _ _ _ Hw) o) as HX.
  destruct (release_inv (extra 1 o X) o k2 u3 k3 H3) as [Hi3 Hs3].
  { unfold extra. case_decide; [lia|done]. }
  { apply Hw2. }
  apply (working_ext (extra (-1) o (extra 1 o X))); [intros o'; unfold extra; repeat case_decide; lia|].
  by apply (working_procs (extra 1 o X) _ pid cur k2).
Qed.

Lemma with_ref_present X pid {A} o (f : prog (kernel W) A) k r k' :
  with_ref o f k = Ret (r, k') -> working X pid pid k ->
  (forall k1 k2, working (extra 1 o X) pid pid k1 -> process_list k1 = process_list k -> f k1 = Ret (r, k2) ->
    present (extra 1 o X) pid k2) ->
  present X pid k'.
Proof.
  unfold with_ref. intros H Hw Hf. apply bind_Ret_inv in H as (u1 & k1 & H1 & H).
  apply bind_Ret_inv in H as (r' & k2 & H2 & H). apply bind_Ret_inv in H as (u3 & k3 & H3 & H).
  apply mret_Ret in H as [-> <-].
  destruct (addRef_inv X o k u1 k1 H1 (working_inv _ _ _ _ Hw)) as (Hi1 & El1 & Ec1 & Ew1).
  assert (working (extra 1 o X) pid pid k1) as Hw1 by (by apply (working_procs X _ pid pid k)).
  pose proof (Hf k1 k2 Hw1 El1 H2) as [Hi2 Hc2 Ha2]. pose proof (inv_extra X k (working_inv _ _ _ _ Hw) o) as HX.
  destruct (release_inv (extra 1 o X) o k2 u3 k3 H3) as [Hi3 [El3 Ec3 _]].
  { unfold extra. case_decide; [lia|done]. }
  { done. }
  split; [|congruence|by rewrite El3].
  apply (inv_ext (extra (-1) o (extra 1 o X))); [intros o'; unfold extra; repeat case_decide; lia|done].
Qed.

(** ** The handlers *)
Lemma getObject_Ret pid pos k r k' :
  getObject pid pos k = Ret (r, k') -> k' = k /\ exists p, process_list k !! pid = Some p /\ r = objects p !! pos.
Proof.
  unfold getObject. intros H. apply bind_Ret_inv in H as (p & k1 & H1 & H). apply proc_Ret in H1 as [Hp ->].
  case_match; [|runs]. apply mret_Ret in H as [<- <-]. eauto.
Qed.

Lemma close_handled X pid fd k r k' :
  close_handler fd k = Ret (r, k') -> working X pid pid k -> working X pid pid k'.
Proof.
  unfold close_handler. intros H Hw. apply bind_Ret_inv in H as (cur & k1 & H1 & H).
  apply getCurrentProcess_Ret in H1 as [-> ->]. rewrite (working_current _ _ _ _ Hw) in H.
  apply bind_Ret_inv in H as (u & k1 & H1 & H). apply mret_Ret in H as [_ <-].
  destruct (removeObject_inv X pid _ k u k1 H1 (working_idle _ _ _ _ Hw) (working_inv _ _ _ _ Hw)) as (Hi & Ht & _).
  by apply (working_touches X X pid pid k).
Qed.

Lemma dup2_handled X pid oldfd newfd k r k' :
  dup2_handler oldfd newfd k = Ret (r, k') -> working X pid pid k -> working X pid pid k'.
Proof.
  unfold dup2_handler. intros H Hw. case_match; [by apply mret_Ret in H as [_ <-]|].
  apply bind_Ret_inv in H as (cur & k1 & H1 & H).
  apply getCurrentProcess_Ret in H1 as [-> ->]. rewrite (working_current _ _ _ _ Hw) in H.
  apply bind_Ret_inv in H as (so & k1 & H1 & H). apply getObject_Ret in H1 as [-> _].
  destruct so as [o|]; [|by apply mret_Ret in H as [_ <-]].
  apply bind_Ret_inv in H as (u & k1 & H1 & H). apply mret_Ret in H as [_ <-].
  apply (with_ref_working X pid pid o _ k u k1 H1 Hw). intros k2 k3 Hw2 H3.
  destruct (setObject_inv _ pid _ _ k2 u k3 H3 (working_idle _ _ _ _ Hw2) (working_inv _ _ _ _ Hw2)) as [Hi Ht].
  by apply (working_touches (extra 1 o X) _ pid pid k2).
Qed.

Lemma exit_handled X pid code k r k' :
  exit_handler code k = Ret (r, k') -> working X pid pid k -> handled X pid k'.
Proof.
  unfold exit_handler. intros H Hw. apply bind_Ret_inv in H as (cur & k1 & H1 & H).
  apply getCurrentProcess_Ret in H1 as [-> ->]. rewrite (working_current _ _ _ _ Hw) in H.
  apply bind_Ret_inv in H as (u & k1 & H1 & H). apply mret_Ret in H as [_ <-].
  destruct (deleteProcess_inv X pid _ k u k1 H1 (working_idle _ _ _ _ Hw) (working_inv _ _ _ _ Hw)) as (Hi & Hn & _).
  split; [done|by left].
Qed.

Lemma clone_handled X pid mode code data k child k' :
  clone pid mode code data k = Ret (child, k') -> working X pid pid k -> handled X pid k'.
Proof.
  intros H Hw. destruct (working_runs _ _ _ _ Hw) as (p & Hp & _).
  destruct (clone_inv X pid mode code data k child k' p H Hp (working_idle _ _ _ _ Hw) (working_inv _ _ _ _ Hw))
    as (Hi & Hc & _ & _ & _ & c & Hc' & Hr).
  split; [done|]. right. right. rewrite Hc. by exists c.
Qed.

Lemma read_handled X pid device buffer size k r k' :
  read_handler device buffer size k = Ret (r, k') -> working X pid pid k -> present X pid k'.
Proof.
  unfold read_handler. intros H Hw. apply bind_Ret_inv in H as (cur & k1 & H1 & H).
  apply getCurrentProcess_Ret in H1 as [-> ->]. rewrite (working_current _ _ _ _ Hw) in H.
  apply bind_Ret_inv in H as (so & k1 & H1 & H). apply getObject_Ret in H1 as (-> & p & Hp & ->).
  destruct (objects p !! _) as [o|] eqn:Ho; [|apply mret_Ret in H as [_ <-]; by apply working_present].
  apply (with_ref_present X pid o _ k r k' H Hw). clear H. intros k1 k2 Hw1 El H.
  apply bind_Ret_inv in H as (x & k3 & H3 & H). apply obj_Ret in H3 as [Hx ->].
  case_match; [|apply mret_Ret in H as [_ <-]; by apply working_present].
  apply bind_Ret_inv in H as (r1 & k3 & H3 & H). apply mret_Ret in H as [_ <-].
  unfold dev_read in H3. apply bind_Ret_inv in H3 as (x1 & k4 & H4 & H3). apply obj_Ret in H4 as [Hx1 ->].
  assert (x1 = x) as -> by congruence. destruct (o_pending x) as [l|] eqn:Hl.
  - apply bind_Ret_inv in H3 as (cur & k4 & H4 & H3). apply getCurrentProcess_Ret in H4 as [-> ->].
    rewrite (working_current _ _ _ _ Hw1) in H3.
    destruct (working_runs _ _ _ _ Hw1) as (p1 & Hp1 & Hr). rewrite El in Hp1.
    assert (p1 = p) as -> by congruence.
    assert (stack_backup p = None) as Hb.
    { apply eq_None_not_Some. intros Hs. rewrite <- El in Hp.
      pose proof (inv_backup (extra 1 o X) k1 (working_inv (extra 1 o X) pid pid k1 Hw1) pid p Hp Hs) as Ha. unfold asleep in Ha. congruence. }
    pose proof (working_inv (extra 1 o X) pid pid k1 Hw1) as Hi1. pose proof (working_idle _ _ _ _ Hw1) as Hno.
    rewrite <- (drop_queue_0 o k1) in Hi1, Hno.
    destruct (do_read_inv (extra 1 o X) o 0 pid buffer size p (s32 device) x l k1 r1 k3 H3) as (Hi3 & [Hc _ _ _] & Hl3);
      try done; [by rewrite El|lia|].
    rewrite drop_queue_0 in Hi3. split; [done|rewrite Hc; apply Hw1|].
    destruct Hl3 as [-> | ->]; [by rewrite El, Hp|]. by rewrite lookup_insert_eq.
  - apply base_read_same in H3. apply working_present. by apply (working_same _ _ _ k1).
Qed.

Lemma write_handled X pid device buffer size k r k' :
  write_handler device buffer size k = Ret (r, k') -> working X pid pid k -> working X pid pid k'.
Proof.
  unfold write_handler. intros H Hw. apply bind_Ret_inv in H as (cur & k1 & H1 & H).
  apply getCurrentProcess_Ret in H1 as [-> ->]. rewrite (working_current _ _ _ _ Hw) in H.
  apply bind_Ret_inv in H as (so & k1 & H1 & H). apply getObject_Ret in H1 as (-> & p & Hp & ->).
  destruct (objects p !! _) as [o|] eqn:Ho; [|by apply mret_Ret in H as [_ <-]].
  apply (with_ref_working X pid pid o _ k r k' H Hw). clear H. intros k1 k2 Hw1 H.
  apply bind_Ret_inv in H as (x & k3 & H3 & H). apply obj_Ret in H3 as [Hx ->].
  case_match; [|by apply mret_Ret in H as [_ <-]].
  apply bind_Ret_inv in H as (r1 & k3 & H3 & H). apply mret_Ret in H as [_ <-].
  apply dev_write_same in H3. by apply (working_same _ _ _ k1).
Qed.

(** A new object that is given to the process. *)
Lemma add_new_working X pid o k1 i k2 u k3 :
  0 <= X o -> working (extra 1 o X) pid pid k1 ->
  (addObject pid (Some o) k1 = Ret (i, k2) \/ k2 = k1) -> release o k2 = Ret (u, k3) -> working X pid pid k3.
Proof.
  intros HX Hw1 H2 H3.
  assert (working (extra 1 o X) pid pid k2) as Hw2.
  { destruct H2 as [H2| ->]; [|done].
    destruct (addObject_inv _ pid _ k1 i k2 H2 (working_idle _ _ _ _ Hw1) (working_inv _ _ _ _ Hw1)) as [Hi Ht].
    by apply (working_touches (extra 1 o X) _ pid pid k1). }
  destruct (release_inv (extra 1 o X) o k2 u k3 H3) as [Hi3 Hs3].
  { unfold extra. case_decide; [lia|done]. }
  { apply Hw2. }
  apply (working_ext (extra (-1) o (extra 1 o X))); [intros o'; unfold extra; repeat case_decide; lia|].
  by apply (working_procs (extra 1 o X) _ pid pid k2).
Qed.

Lemma sem_create_handled X pid cnt k r k' :
  sem_create_handler cnt k = Ret (r, k') -> working X pid pid k -> working X pid pid k'.
Proof.
  unfold sem_create_handler, createSemaphore. intros H Hw. apply bind_Ret_inv in H as (o & k1 & H1 & H).
  destruct (BlockInputDevice_inv X _ k o k1 H1 (working_inv _ _ _ _ Hw)) as (_ & Hi1 & Hs1).
  pose proof (working_procs X _ pid pid k k1 Hi1 Hs1 Hw) as Hw1.
  apply bind_Ret_inv in H as (cur & k2 & H2 & H). apply getCurrentProcess_Ret in H2 as [-> ->].
  rewrite (working_current _ _ _ _ Hw1) in H. apply bind_Ret_inv in H as (i & k2 & H2 & H).
  apply bind_Ret_inv in H as (u & k3 & H3 & H). apply mret_Ret in H as [_ <-].
  apply (add_new_working X pid o k1 i k2 u k3); auto. apply (inv_extra X k), Hw.
Qed.

Lemma add_or_nospc_Ret pid o k r k' :
  add_or_nospc pid o k = Ret (r, k') -> addObject pid (Some o) k = Ret (r, k') \/ k' = k.
Proof.
  unfold add_or_nospc. destruct (addObject pid (Some o) k) as [[i k1]| | |]; try done; [by left|].
  case_match; [|done]. intros Heq. injection Heq as _ <-. by right.
Qed.

Lemma open_handled X pid filename k r k' :
  open_handler filename k = Ret (r, k') -> working X pid pid k -> working X pid pid k'.
Proof.
  unfold open_handler. intros H Hw. apply bind_Ret_inv in H as (cur & k1 & H1 & H).
  apply getCurrentProcess_Ret in H1 as [-> ->]. rewrite (working_current _ _ _ _ Hw) in H.
  apply bind_Ret_inv in H as (special & k1 & H1 & H).
  pose proof (working_kworld _ _ _ _ _ _ _ H1 Hw) as Hw1. destruct special as [o|].
  - apply bind_Ret_inv in H as (u2 & k2 & H2 & H).
    destruct (addRef_inv X o k1 u2 k2 H2 (working_inv _ _ _ _ Hw1)) as (Hi2 & El2 & Ec2 & Ew2).
    assert (working (extra 1 o X) pid pid k2) as Hw2 by (by apply (working_procs X _ pid pid k1)).
    apply bind_Ret_inv in H as (fd & k3 & H3 & H). apply add_or_nospc_Ret in H3.
    apply bind_Ret_inv in H as (u4 & k4 & H4 & H). apply mret_Ret in H as [_ <-].
    apply (add_new_working X pid o k2 fd k3 u4 k4); auto. apply (inv_extra X k), Hw.
  - apply bind_Ret_inv in H as (file & k2 & H2 & H). pose proof (working_kworld _ _ _ _ _ _ _ H2 Hw1) as Hw2.
    destruct file as [d|]; [|by apply mret_Ret in H as [_ <-]].
    apply bind_Ret_inv in H as (o & k3 & H3 & H).
    destruct (new_object_inv X _ k2 o k3 H3 (working_inv _ _ _ _ Hw2)) as (_ & Hi3 & Hs3).
    pose proof (working_procs X _ pid pid k2 k3 Hi3 Hs3 Hw2) as Hw3.
    apply bind_Ret_inv in H as (fd & k4 & H4 & H). apply add_or_nospc_Ret in H4.
    apply bind_Ret_inv in H as (u5 & k5 & H5 & H). apply mret_Ret in H as [_ <-].
    apply (add_new_working X pid o k3 fd k4 u5 k5); auto. apply (inv_extra X k), Hw.
Qed.

Lemma readdir_handled X pid fd info n k r k' :
  readdir_handler fd info n k = Ret (r, k') -> working X pid pid k -> working X pid pid k'.
Proof.
  unfold readdir_handler. intros H Hw. apply bind_Ret_inv in H as (cur & k1 & H1 & H).
  apply getCurrentProcess_Ret in H1 as [-> ->]. rewrite (working_current _ _ _ _ Hw) in H.
  apply bind_Ret_inv in H as (so & k1 & H1 & H). apply getObject_Ret in H1 as (-> & _).
  destruct so as [o|]; [|by apply mret_Ret in H as [_ <-]].
  apply bind_Ret_inv in H as (x & k1 & H1 & H). apply obj_Ret in H1 as [_ ->].
  destruct (o_base x) as [| | | |d]; try (by apply mret_Ret in H as [_ <-]).
  destruct (is_file d); [|by apply mret_Ret in H as [_ <-]].
  apply bind_Ret_inv in H as (dir & k1 & H1 & H). pose proof (working_kworld _ _ _ _ _ _ _ H1 Hw) as Hw1.
  destruct dir as [entries|]; [|by apply mret_Ret in H as [_ <-]].
  apply bind_Ret_inv in H as (n' & k2 & H2 & H). pose proof (working_kmem _ _ _ _ _ _ _ H2 Hw1) as Hw2.
  apply bind_Ret_inv in H as (i & k3 & H3 & H). pose proof (working_kmem _ _ _ _ _ _ _ H3 Hw2) as Hw3.
  apply bind_Ret_inv in H as (u & k4 & H4 & H). pose proof (working_kmem _ _ _ _ _ _ _ H4 Hw3) as Hw4.
  by apply mret_Ret in H as [_ <-].
Qed.

Lemma exec_image_working X pid args buffer low high cur k r k' :
  exec_image pid args buffer low high k = Ret (r, k') -> working X pid cur k -> working X pid cur k'.
Proof.
  unfold exec_image. intros H Hw.
  apply bind_Ret_inv in H as (counted & k5 & H5 & H). pose proof (working_kmem _ _ _ _ _ _ _ H5 Hw) as Hw5.
  destruct counted as [[[num e] ss]|]; [|by apply mret_Ret in H as [_ <-]].
  apply bind_Ret_inv in H as (parsed & k6 & H6 & H). pose proof (working_kmem _ _ _ _ _ _ _ H6 Hw5) as Hw6.
  destruct parsed as [[[num' entry] sections]|]; [|runs]. destruct (section_array _ _ _) as [l|]; [|runs].
  unfold exec_or_noexec in H. destruct (Process.exec _ _ _ _ _ _ k6) as [[u k7]| | |] eqn:H7; try done.
  - injection H as _ <-. exact (exec_working _ _ _ _ _ _ _ _ _ _ _ H7 Hw6).
  - case_match; [|done]. by injection H as _ <-.
Qed.

Lemma execv_working X pid path args low high cur k r k' :
  execv pid path args low high k = Ret (r, k') -> working X pid cur k -> working X pid cur k'.
Proof.
  unfold execv. intros H Hw. apply bind_Ret_inv in H as (pfile & k1 & H1 & H).
  pose proof (working_kworld _ _ _ _ _ _ _ H1 Hw) as Hw1. destruct pfile as [d|]; [|by apply mret_Ret in H as [_ <-]].
  apply bind_Ret_inv in H as (size & k2 & H2 & H). pose proof (working_kworld _ _ _ _ _ _ _ H2 Hw1) as Hw2.
  apply bind_Ret_inv in H as (buffer & k3 & H3 & H). pose proof (working_kworld _ _ _ _ _ _ _ H3 Hw2) as Hw3.
  apply bind_Ret_inv in H as (n & k4 & H4 & H). pose proof (working_kworld _ _ _ _ _ _ _ H4 Hw3) as Hw4.
  apply bind_Ret_inv in H as (ret & k5 & H5 & H). pose proof (exec_image_working _ _ _ _ _ _ _ _ _ _ H5 Hw4) as Hw5.
  apply bind_Ret_inv in H as (u & k6 & H6 & H). pose proof (working_kworld _ _ _ _ _ _ _ H6 Hw5) as Hw6.
  by apply mret_Ret in H as [_ <-].
Qed.

Lemma exec_handled X pid path args low high k r k' :
  exec_handler path args low high k = Ret (r, k') -> working X pid pid k -> working X pid pid k'.
Proof.
  unfold exec_handler. intros H Hw. apply bind_Ret_inv in H as (cur & k1 & H1 & H).
  apply getCurrentProcess_Ret in H1 as [-> ->]. rewrite (working_current _ _ _ _ Hw) in H.
  apply bind_Ret_inv in H as (ret & k1 & H1 & H). apply mret_Ret in H as [_ <-].
  exact (execv_working _ _ _ _ _ _ _ _ _ _ H1 Hw).
Qed.

(** ** Scheduling *)
Lemma resche_inv X k u k' :
  resche k = Ret (u, k') -> inv X k ->
  inv X k' /\ runs_now (current_process k') k' /\ process_list k' = process_list k.
Proof.
  intros H Hi. pose proof (resche_spec k) as Hs. rewrite H in Hs. destruct u, Hs as (pid & Hsched & ->).
  split; [|split; [|done]].
  - apply inv_same with (set_current pid k); [by split|by apply inv_set_current].
  - assert (eligible runnable (process_list k) pid) as (p & Hp & Hr).
    { destruct Hsched as (_ & [[(p & Hp & Hr) _]|(_ & He & _)]); [|done].
      exists p. split; [done|]. by apply andb_true_iff in Hr as [? _]. }
    exists p. split; [done|]. by apply bool_decide_eq_true in Hr.
Qed.

(** The search of the process table is not to be unfolded by conversion. *)
#[local] Opaque resche clone.

(** ** The whole system call *)
Definition keeps_handled (h : prog (kernel W) Z) : Prop :=
  forall X pid k r k', h k = Ret (r, k') -> working X pid pid k -> handled X pid k'.

Lemma fork_keeps : keeps_handled fork_handler.
Proof.
  intros X pid k r k' H Hw. unfold fork_handler in H. apply bind_Ret_inv in H as (cur & k1 & H1 & H).
  apply getCurrentProcess_Ret in H1 as [-> ->]. rewrite (working_current _ _ _ _ Hw) in H.
  apply bind_Ret_inv in H as (child & k1 & H1 & H). apply mret_Ret in H as [_ <-].
  exact (clone_handled X pid _ _ _ k child k1 H1 Hw).
Qed.

Lemma thread_keeps func data : keeps_handled (thread_handler func data).
Proof.
  intros X pid k r k' H Hw. unfold thread_handler in H. apply bind_Ret_inv in H as (cur & k1 & H1 & H).
  apply getCurrentProcess_Ret in H1 as [-> ->]. rewrite (working_current _ _ _ _ Hw) in H.
  apply bind_Ret_inv in H as (child & k1 & H1 & H). apply mret_Ret in H as [_ <-].
  exact (clone_handled X pid _ _ _ k child k1 H1 Hw).
Qed.

Lemma sched_yield_keeps : keeps_handled sched_yield_handler.
Proof.
  intros X pid k r k' H Hw. apply bind_Ret_inv in H as (u & k1 & H1 & H). apply mret_Ret in H as [_ <-].
  destruct (resche_inv X k u k1 H1 (working_inv _ _ _ _ Hw)) as (Hi & Hr & _).
  split; [exact Hi|]. right. right. exact Hr.
Qed.

Lemma hlt_keeps : keeps_handled hlt_handler.
Proof.
  intros X pid k r k' H Hw. unfold hlt_handler in H. apply bind_Ret_inv in H as (cur & k1 & H1 & H).
  apply getCurrentProcess_Ret in H1 as [-> ->]. apply bind_Ret_inv in H as (p & k1 & H1 & H).
  apply proc_Ret in H1 as [_ ->]. apply mret_Ret in H as [_ <-]. by apply working_handled.
Qed.

Lemma read_keeps device buffer size : keeps_handled (read_handler device buffer size).
Proof.
  intros X pid k r k' H Hw. pose proof (read_handled X pid _ _ _ k r k' H Hw) as Hp.
  split; [apply Hp|]. auto.
Qed.

Lemma working_keeps (h : prog (kernel W) Z) :
  (forall X pid k r k', h k = Ret (r, k') -> working X pid pid k -> working X pid pid k') -> keeps_handled h.
Proof. intros Hh X pid k r k' H Hw. apply working_handled. by apply (Hh X pid k r). Qed.

Lemma exit_keeps code : keeps_handled (exit_handler code).
Proof. intros X pid k r k'. apply exit_handled. Qed.

(** Every handler of the table. *)
Lemma apply_keeps callsys t h : apply_wrapper callsys t = Some h -> keeps_handled h.
Proof.
  unfold apply_wrapper. intros H.
  repeat match type of H with (if ?b then _ else _) = _ => destruct b end; try done;
    (injection H as <-);
    first [apply exit_keeps | apply fork_keeps | apply thread_keeps | apply sched_yield_keeps
          | apply hlt_keeps | apply read_keeps
          | apply working_keeps; intros X pid k r k';
            first [apply write_handled | apply open_handled | apply close_handled | apply exec_handled
                  | apply dup2_handled | apply sem_create_handled | apply readdir_handled]].
Qed.

Lemma checkAll_handled X pid k u k' : checkAll k = Ret (u, k') -> handled X pid k -> handled X pid k'.
Proof.
  intros H [Hi Hcase]. destruct (checkAll_inv X k u k' H Hi) as (Hi' & Hs & Hc). split; [done|].
  destruct Hcase as [Hn|[[_ Hcur Ha]|Hr]].
  - left. apply eq_None_not_Some. intros Hsome. apply (served_dom _ _ Hs) in Hsome. rewrite Hn in Hsome. by destruct Hsome.
  - right. left. split; [done|congruence|]. by apply (served_dom _ _ Hs).
  - right. right. rewrite Hc. destruct (served_idle _ _ Hs (current_process k)) as [E _]; [by apply (runs_idle X)|].
    unfold runs_now. by rewrite E.
Qed.

(** Between two system calls a process that can run is current. *)
Record user_mode (X : Z -> Z) k : Prop := {
  user_inv : inv X k;
  user_runs : runs_now (current_process k) k
}.

Lemma syscall_return_user X pid ret k u k' :
  syscall_return pid ret k = Ret (u, k') -> handled X pid k -> user_mode X k'.
Proof.
  unfold syscall_return. intros H [Hi Hcase]. apply bind_Ret_inv in H as (alive & k1 & H1 & H).
  apply getProcess_Ret in H1 as (-> & -> & _). destruct (process_list k !! pid) as [p0|] eqn:Hp0.
  - apply bind_Ret_inv in H as (u1 & k1 & H1 & H). unfold syscall_set_retval in H1.
    apply mod_proc_Ret in H1 as (p & Hp & ->). assert (p0 = p) as -> by congruence.
    set (p1 := set_usermode_state (retval ret (usermode_state p)) p) in H.
    assert (inv X (set_process_list (<[pid := p1]> (process_list k)) k)) as Hi1
      by (by apply (inv_put_proc_same X k pid p)).
    apply bind_Ret_inv in H as (p2 & k1 & H1 & H). apply proc_Ret in H1 as [Hp2 ->]. cbn in Hp2.
    rewrite lookup_insert_eq in Hp2. injection Hp2 as <-. case_match eqn:Er.
    + apply mret_Ret in H as [_ <-]. apply bool_decide_eq_true in Er. split; [done|]. cbn.
      destruct Hcase as [Hn|[[_ Hcur _]|(q & Hq & Hr)]]; [congruence| |].
      * exists p1. cbn. by rewrite Hcur, lookup_insert_eq.
      * destruct (decide (current_process k = pid)) as [->|Hne].
        -- exists p1. cbn. by rewrite lookup_insert_eq.
        -- exists q. cbn. by rewrite lookup_insert_ne.
    + destruct (resche_inv X _ u k' H Hi1) as (Hi2 & Hr & _). by split.
  - destruct (resche_inv X _ u k' H Hi) as (Hi2 & Hr & _). by split.
Qed.

Lemma user_same X k k' : same_shape k k' -> user_mode X k -> user_mode X k'.
Proof.
  intros Hs [Hi Hr]. split; [by apply inv_same with k|].
  unfold runs_now. by rewrite (same_current _ _ Hs), (same_processes _ _ Hs).
Qed.

Lemma enter_working X k u k' : enterKernelMode k = Ret (u, k') -> user_mode X k ->
  working X (current_process k) (current_process k) k'.
Proof.
  unfold enterKernelMode. intros H [Hi Hr]. apply bind_Ret_inv in H as (cur & k2 & H2 & H).
  apply getCurrentProcess_Ret in H2 as [-> ->]. apply bind_Ret_inv in H as (p & k2 & H2 & H).
  apply getProcess_Ret in H2 as (-> & -> & _). destruct Hr as (p & Hp & Hrun). rewrite Hp in H.
  apply bind_Ret_inv in H as (k2 & k3 & H2 & H). apply pget_Ret in H2 as [-> ->].
  apply pmodify_Ret in H as ->. split; [by apply (inv_put_proc_same X k _ p)|done|].
  eexists. cbn. by rewrite lookup_insert_eq.
Qed.

Lemma syscall_user X k u k' : real_syscall_handler k = Ret (u, k') -> user_mode X k -> user_mode X k'.
Proof.
  unfold real_syscall_handler. intros H Hu.
  apply bind_Ret_inv in H as (u1 & k1 & H1 & H). pose proof (enter_working X k u1 k1 H1 Hu) as Hw1.
  apply bind_Ret_inv in H as (cur & k2 & H2 & H). apply getCurrentProcess_Ret in H2 as [-> ->].
  rewrite (working_current _ _ _ _ Hw1) in H. set (pid := current_process k) in *.
  apply bind_Ret_inv in H as (p & k2 & H2 & H). apply proc_Ret in H2 as [_ ->].
  apply bind_Ret_inv in H as (u3 & k3 & H3 & H).
  assert (user_mode X k3) as Hu3.
  { case_match; [|runs]. destruct (apply_wrapper _ _) as [h|] eqn:Ha.
    - apply bind_Ret_inv in H3 as (ret & k4 & H4 & H3). pose proof (apply_keeps _ _ _ Ha X pid _ _ _ H4 Hw1) as Hh.
      apply bind_Ret_inv in H3 as (u5 & k5 & H5 & H3).
      exact (syscall_return_user X pid ret k5 u3 k3 H3 (checkAll_handled X pid k4 u5 k5 H5 Hh)).
    - apply mret_Ret in H3 as [_ <-]. split; [apply Hw1|]. rewrite (working_current _ _ _ _ Hw1). apply Hw1. }
  apply bind_Ret_inv in H as (u4 & k4 & H4 & H).
  assert (user_mode X k4) as Hu4.
  { unfold resche_leave_kernel_mode_hook in H4. apply bind_Ret_inv in H4 as (k5 & k6 & H5 & H4).
    apply pget_Ret in H5 as [-> ->]. case_match; [|by apply mret_Ret in H4 as [_ <-]].
    destruct (resche_inv X k3 u4 k4 H4 (user_inv _ _ Hu3)) as (Hi4 & Hr4 & _). by split. }
  unfold leaveKernelMode in H. apply bind_Ret_inv in H as (cur & k5 & H5 & H).
  apply getCurrentProcess_Ret in H5 as [-> ->]. apply bind_Ret_inv in H as (p5 & k5 & H5 & H).
  apply getProcess_Ret in H5 as (-> & -> & _). case_match.
  - apply pmodify_Ret in H as ->. apply user_same with k4; [by split|done].
  - by apply mret_Ret in H as [_ <-].
Qed.

(** ** The system

    A step is the work of the current program in user mode, which without
    paging can change any byte of the memory and its own registers; a system
    call; a clock tick; or an interrupt of another device. *)
Inductive system_step k : kernel W -> Prop :=
  | step_user m t : system_step k (set_mem m (set_user_tss t k))
  | step_syscall k' : real_syscall_handler k = Ret (tt, k') -> system_step k k'
  | step_tick flags dpl b k' : timer_handler (mret tt) flags dpl k = Ret (b, k') -> system_step k k'
  | step_device x : system_step k (set_world (k_mem k, x) k).

Lemma system_step_user X k k' : system_step k k' -> user_mode X k -> user_mode X k'.
Proof.
  intros [m t|k1 H|flags dpl b k1 H|x] Hu.
  - apply user_same with k; [by split|done].
  - by apply syscall_user with k tt.
  - unfold timer_handler, resche_tick in H. runs. apply user_same with k; [by split|done].
  - apply user_same with k; [by split|done].
Qed.

Lemma system_user X k k' : rtc system_step k k' -> user_mode X k -> user_mode X k'.
Proof. intros Hr. induction Hr as [|k1 k2 k3 Hs _ IH]; [done|]. intros Hu. apply IH. by apply system_step_user with k1. Qed.

(** No queue holds more requests than there are processes. *)
Lemma inv_queue_length X k o x l : inv X k -> store k !! o = Some x -> o_pending x = Some l ->
  Z.of_nat (length l) <= MAX_PROCESS_NUM.
Proof.
  intros Hi Hx Hl. pose proof (inv_nodup X k Hi o x l Hx Hl) as Hnd.
  assert (pr_proc <$> l ⊆ seqZ 0 MAX_PROCESS_NUM) as Hsub.
  { intros pid Hin. destruct (inv_wait X k Hi pid o) as (q & i & Hq & _); [by exists x, l|].
    apply elem_of_seqZ. pose proof (inv_pids X k Hi pid q Hq). lia. }
  pose proof (submseteq_length _ _ (NoDup_submseteq _ _ Hnd Hsub)) as Hlen.
  rewrite length_fmap, length_seqZ in Hlen. unfold MAX_PROCESS_NUM in *. lia.
Qed.

(** ** Properties *)

(** C1: from a well-formed start the system only reaches states in which no
    entry of a process' table refers to an object that was deleted, and every
    object has as many references counted as there are - however programs
    run, call the kernel and are interrupted. *)
Theorem no_dangling_object X k0 k pid p i o :
  user_mode X k0 -> rtc system_step k0 k ->
  process_list k !! pid = Some p -> objects p !! i = Some o ->
  exists x, store k !! o = Some x /\
    o_ref x = Z.of_nat (multiplicity o (all_slots (process_list k))) + X o.
Proof.
  intros Hu Hr Hp Ho. destruct (system_user X k0 k Hr Hu) as [Hi _].
  pose proof (inv_refs X k Hi o) as H. pose proof (all_slots_lookup _ _ _ _ _ Hp Ho).
  destruct (store k !! o) as [x|]; [|lia]. exists x. tauto.
Qed.

(** C2: no process is forgotten: in every reachable state a process that
    sleeps waits in the queue of exactly one blocking device, which it holds
    open and which checkAll() visits, or is a parent whose stack is saved for
    a child; and a process in a queue is alive and sleeps. *)
Theorem sleepers_accounted X k0 k :
  user_mode X k0 -> rtc system_step k0 k ->
  (forall pid p, process_list k !! pid = Some p -> asleep p -> stack_backup p = None ->
    exists o j i, waits k pid o /\ objects p !! j = Some o /\ devices k !! i = Some o /\
      0 <= i < MAX_BLOCK_INPUT_DEVICE_NUM /\ forall o', waits k pid o' -> o' = o) /\
  (forall pid o, waits k pid o -> exists p, process_list k !! pid = Some p /\ asleep p).
Proof.
  intros Hu Hr. destruct (system_user X k0 k Hr Hu) as [Hi _]. split.
  - intros pid p Hp Ha Hb. destruct (inv_sleep X k Hi pid p Hp Ha) as [Hs|[o Ho]].
    { rewrite Hb in Hs. by destruct Hs. }
    destruct (inv_wait X k Hi pid o Ho) as (p1 & j & Hp1 & _ & _ & Hj).
    assert (p1 = p) as -> by congruence.
    destruct Ho as (x & l & Hx & Hl & Hin). destruct (inv_devices X k Hi o x l Hx Hl) as [i Hd].
    exists o, j, i. split; [by exists x, l|]. split; [done|]. split; [done|].
    split; [apply (inv_device X k Hi i o Hd)|]. intros o' Ho'.
    apply (inv_one X k Hi pid); [done|by exists x, l].
  - intros pid o Hw. destruct (inv_wait X k Hi pid o Hw) as (p & i & Hp & Ha & _). eauto.
Qed.

(** C6: the tables stay within the bounds of their arrays: pids below
    MAX_PROCESS_NUM, object numbers below PROCESS_MAX_OBJECTS, and no queue
    holds more requests than its array of MAX_PROCESS_NUM has room for. *)
Theorem tables_in_bounds X k0 k :
  user_mode X k0 -> rtc system_step k0 k ->
  0 <= current_process k < MAX_PROCESS_NUM /\
  (forall pid p, process_list k !! pid = Some p -> 0 <= pid < MAX_PROCESS_NUM /\
    forall i o, objects p !! i = Some o -> 0 <= i < PROCESS_MAX_OBJECTS) /\
  (forall o x l, store k !! o = Some x -> o_pending x = Some l -> Z.of_nat (length l) <= MAX_PROCESS_NUM).
Proof.
  intros Hu Hr. destruct (system_user X k0 k Hr Hu) as [Hi (p & Hp & _)]. split; [|split].
  - by apply (inv_pids X k Hi _ p).
  - intros pid q Hq. split; [by apply (inv_pids X k Hi _ q)|]. intros i o. by apply (inv_slots X k Hi pid q).
  - intros o x l. by apply inv_queue_length with X.
Qed.
End handlers.

(** ** A small system

    A process and the idle process; the process creates a semaphore of count
    0, forks, and the child reads the semaphore: both then sleep, the parent
    with its stack saved and the child in the queue of the semaphore. *)
Section small.
#[local] Instance no_devices : External unit := {
  ext_is_input _ := false; ext_is_output _ := false;
  ext_read _ _ _ := mret 0; ext_write _ _ _ := mret 0
}.
#[local] Instance small_layout : Layout := {
  USER_SPACE_START := 0x100000; user_stack_pos := 0x80000; kernel_stack_pos := 0x90000
}.
#[local] Instance no_files : Files unit := {
  special_get _ := mret None; openFile _ := mret None; file_size _ := mret 0; is_file _ := false;
  dir_entries _ := mret None; new_bytes _ := mret 0; delete_bytes _ := mret tt
}.

Definition small_boot : kernel unit :=
  Kernel (mem_of [(1000, repeat 0 128)]) tt 1
    (list_to_map [(0, Process (-1) PROCESS_STATE_RUNNABLE PROCESS_SCHE_IDLE 0 None tss_zero ∅);
                  (1, Process (-1) PROCESS_STATE_RUNNABLE PROCESS_SCHE_NORMAL 0 None tss_zero ∅)])
    ∅ 0 ∅ ∅ ∅ ∅ 0 7 tss_zero.

(** The registers of a system call, with the stack at 1000. *)
Definition regs (n b c d : Z) : tss :=
  tss_set Esp 1000 (tss_set Eax n (tss_set Ebx b (tss_set Ecx c (tss_set Edx d tss_zero)))).

Definition call (k : kernel unit) (t : tss) : option (kernel unit) :=
  match real_syscall_handler (set_mem (k_mem k) (set_user_tss t k)) with
  | Ret (_, k') => Some k'
  | _ => None
  end.
Fixpoint calls (k : kernel unit) (ts : list tss) : option (kernel unit) :=
  match ts with
  | [] => Some k
  | t :: ts => match call k t with Some k => calls k ts | None => None end
  end.

Definition small_calls : list tss :=
  [regs SYSCALL_SEM_CREATE 0 0 0; regs SYSCALL_FORK 0 0 0; regs SYSCALL_READ 3 0 4].
Definition small_kernel : kernel unit := default small_boot (calls small_boot small_calls).

Lemma small_boot_lookup pid p : process_list small_boot !! pid = Some p ->
  (pid = 0 \/ pid = 1) /\ process_state p = PROCESS_STATE_RUNNABLE /\ stack_backup p = None /\ objects p = ∅.
Proof.
  intros H. apply elem_of_list_to_map_2 in H.
  apply elem_of_cons in H as [[= -> ->]|H]; [by auto|].
  apply elem_of_cons in H as [[= -> ->]|H]; [by auto|]. by apply elem_of_nil in H.
Qed.

Lemma small_boot_store o : store small_boot !! o = None.
Proof. reflexivity. Qed.

Lemma small_boot_waits pid o : ~ waits small_boot pid o.
Proof. intros (x & l & H & _). by rewrite small_boot_store in H. Qed.

Lemma small_boot_user : user_mode (fun _ => 0) small_boot.
Proof.
  split; [split|by eexists].
  - done.
  - intros pid p H%small_boot_lookup. unfold MAX_PROCESS_NUM. lia.
  - intros pid p i o (_ & _ & _ & ->)%small_boot_lookup. by rewrite lookup_empty.
  - intros o. split; [|done]. reflexivity.
  - intros o x. by rewrite small_boot_store.
  - intros o x l. by rewrite small_boot_store.
  - done.
  - intros pid o Hw. by apply small_boot_waits in Hw.
  - intros pid o o' Hw. by apply small_boot_waits in Hw.
  - intros o x l. by rewrite small_boot_store.
  - intros pid p (_ & Hr & _)%small_boot_lookup Ha. unfold asleep in Ha. congruence.
  - intros pid p (_ & _ & -> & _)%small_boot_lookup [? ?]. done.
Qed.

Lemma calls_steps k ts k' : calls k ts = Some k' -> rtc system_step k k'.
Proof.
  revert k. induction ts as [|t ts IH]; cbn [calls]; intros k H; [by injection H as ->|].
  destruct (call k t) as [k1|] eqn:H1; [|done]. unfold call in H1.
  eapply rtc_l; [apply (step_user k (k_mem k) t)|].
  eapply rtc_l; [apply step_syscall|by apply IH].
  destruct (real_syscall_handler _) as [[[] k2]| | |]; congruence.
Qed.

Lemma small_reached : rtc system_step small_boot small_kernel.
Proof.
  apply calls_steps with small_calls.
  assert (is_Some (calls small_boot small_calls)) as [k E] by (vm_compute; by eexists).
  unfold small_kernel. by rewrite E.
Qed.

Lemma no_dangling_object_witness :
  exists x, store small_kernel !! 0 = Some x /\ o_ref x = 2.
Proof.
  assert (exists p, process_list small_kernel !! 2 = Some p /\ objects p !! 3 = Some 0) as (p & Hp & Ho)
    by (vm_compute; eauto).
  destruct (no_dangling_object (fun _ => 0) small_boot small_kernel 2 p 3 0 small_boot_user small_reached Hp Ho)
    as (x & Hx & _).
  exists x. split; [exact Hx|].
  assert (o_ref <$> store small_kernel !! 0 = Some 2) as E by (vm_compute; reflexivity).
  rewrite Hx in E. by injection E.
Defined.

Lemma sleepers_accounted_witness : waits small_kernel 2 0 /\ exists p, process_list small_kernel !! 2 = Some p /\ asleep p.
Proof.
  destruct (sleepers_accounted (fun _ => 0) small_boot small_kernel small_boot_user small_reached) as [Hs Hw].
  assert (exists p, process_list small_kernel !! 2 = Some p /\ asleep p /\ stack_backup p = None /\
    objects p = {[3 := 0]}) as (p & Hp & Ha & Hb & Ho) by (vm_compute; eauto).
  destruct (Hs 2 p Hp Ha Hb) as (o & j & i & Hwait & Hj & _).
  rewrite Ho in Hj. apply lookup_singleton_Some in Hj as [_ <-].
  split; [exact Hwait|]. exact (Hw 2 0 Hwait).
Defined.

Lemma tables_in_bounds_witness : current_process small_kernel = 0 /\ 0 <= current_process small_kernel < MAX_PROCESS_NUM.
Proof.
  split; [vm_compute; reflexivity|].
  apply (tables_in_bounds (fun _ => 0) small_boot small_kernel small_boot_user small_reached).
Defined.
End small.
