(* ===== verification/Wakeup.v ===== *)
(** * Wakeup: no wake-up of a semaphore is lost

    After the check() of every device that ends a system call, a semaphore
    with a positive count has no waiting process; nothing that happens between
    two system calls can change that. *)
From stdpp Require Import gmultiset.
From S2P Require Import Prelude Mem CString Keyboard Kernel Devices UserLib Process Sched Elf.
From S2P Require Import Invariant ProcessInv Syscall SyscallInv.

Section wakeup.
Context {W : Type} `{HE : !External W} `{HL : Layout} `{HF : !Files W}.
Implicit Types (k : kernel W).

(** ** What a check() of a device changes in the store: that device *)
Record only_object (o : Z) k k' : Prop := {
  only_store o' : o' <> o -> store k' !! o' = store k !! o';
  only_devices : devices k' = devices k
}.

Lemma only_refl o k : only_object o k k.
Proof. by split. Qed.

Lemma only_trans o k1 k2 k3 : only_object o k1 k2 -> only_object o k2 k3 -> only_object o k1 k3.
Proof. intros [S1 D1] [S2 D2]. split; [|congruence]. intros o' Ho. by rewrite S2, S1. Qed.

Lemma only_put o x k : only_object o k (set_store (<[o := x]> (store k)) k).
Proof. split; [|done]. intros o' Ho. cbn. by rewrite lookup_insert_ne. Qed.

Lemma sleep_read_frame k r k' : sleep_read k = Ret (r, k') -> store k' = store k /\ devices k' = devices k.
Proof. unfold sleep_read. intros H. by runs. Qed.

Lemma wait_read_frame buffer size k r k' : wait_read buffer size k = Ret (r, k') ->
  store k' = store k /\ devices k' = devices k.
Proof.
  unfold wait_read. intros H. apply bind_Ret_inv in H as (pid & k1 & H1 & H). apply getCurrentProcess_Ret in H1 as [-> ->].
  apply bind_Ret_inv in H as (k0 & k1 & H1 & H). apply pget_Ret in H1 as [-> ->].
  apply bind_Ret_inv in H as ([rpid status] & k1 & H1 & H). apply array_get_Ret in H1 as [_ ->].
  case_match; [by runs|]. case_match; [|by runs]. by runs.
Qed.

Lemma frame_only o k k' : store k' = store k /\ devices k' = devices k -> only_object o k k'.
Proof. intros [Hs Hd]. split; [|done]. intros o' _. by rewrite Hs. Qed.

Lemma base_read_only o buffer size k r k' : base_read o buffer size k = Ret (r, k') -> only_object o k k'.
Proof.
  unfold base_read. intros H. apply bind_Ret_inv in H as (x & k1 & H1 & H). apply obj_Ret in H1 as [_ ->].
  destruct (o_base x) as [cnt| | | |d].
  - unfold sem_read in H. case_match; [runs; apply only_refl|]. case_match; runs; [apply only_refl|apply only_put].
  - by apply frame_only, (sleep_read_frame k r).
  - by apply frame_only, (wait_read_frame buffer size k r).
  - runs.
  - runs. by apply frame_only.
Qed.

Lemma do_read_only o pid buffer size k r k' : do_read o pid buffer size k = Ret (r, k') -> only_object o k k'.
Proof.
  unfold do_read. intros H. apply bind_Ret_inv in H as (r1 & k1 & H1 & H). apply base_read_only in H1.
  case_match; [|runs; done]. apply bind_Ret_inv in H as (l & k2 & H2 & H). apply pending_of_Ret in H2 as (-> & _).
  apply bind_Ret_inv in H as (u & k2 & H2 & H). case_match; [|done]. apply put_pending_Ret in H2 as (x & Hx & ->).
  runs. eapply only_trans; [exact H1|]. eapply only_trans; [apply (only_put o)|]. by split.
Qed.

Lemma check_loop_only fuel o n k n' k' : check_loop fuel o n k = Ret (n', k') -> only_object o k k'.
Proof.
  revert n k. induction fuel as [|fuel IH]; intros n k H; [done|]. cbn [check_loop] in H.
  apply bind_Ret_inv in H as (l & k1 & H1 & H). apply pending_of_Ret in H1 as (-> & _).
  destruct (l !! n) as [now|]; [|runs; apply only_refl].
  apply bind_Ret_inv in H as (probe & k1 & H1 & H). apply base_read_only in H1. case_match; [by runs|].
  apply bind_Ret_inv in H as (u2 & k2 & H2 & H). apply pmodify_Ret in H2 as ->.
  apply bind_Ret_inv in H as (u3 & k3 & H3 & H). apply mod_proc_Ret in H3 as (p & _ & ->).
  apply bind_Ret_inv in H as (ret & k4 & H4 & H). apply do_read_only in H4.
  apply bind_Ret_inv in H as (u5 & k5 & H5 & H). apply mod_proc_Ret in H5 as (q & _ & ->).
  apply IH in H. eapply only_trans; [exact H1|]. eapply only_trans; [|eapply only_trans; [exact H4|]].
  - by split.
  - eapply only_trans; [|exact H]. by split.
Qed.

Lemma check_only o k u k' : check o k = Ret (u, k') -> only_object o k k'.
Proof.
  unfold check. intros H. apply bind_Ret_inv in H as (cur & k1 & H1 & H). apply getCurrentProcess_Ret in H1 as [_ ->].
  apply bind_Ret_inv in H as (n & k1 & H1 & H). apply check_loop_only in H1.
  apply bind_Ret_inv in H as (l & k2 & H2 & H). apply pending_of_Ret in H2 as (-> & _).
  apply bind_Ret_inv in H as (u2 & k2 & H2 & H). apply put_pending_Ret in H2 as (x & _ & ->).
  apply pmodify_Ret in H as ->. eapply only_trans; [exact H1|]. eapply only_trans; [apply (only_put o)|]. by split.
Qed.

(** ** A semaphore after its check() *)
Definition sem_settled k (o : Z) : Prop :=
  forall x c l, store k !! o = Some x -> o_base x = BSemaphore c -> o_pending x = Some l -> l = [] \/ c <= 0.

(** The loop stops at the end of the queue, or at a count that is used up. *)
Lemma check_loop_settled fuel o n k n' k' x c l :
  check_loop fuel o n k = Ret (n', k') -> store k' !! o = Some x -> o_base x = BSemaphore c ->
  o_pending x = Some l -> drop n' l = [] \/ c <= 0.
Proof.
  revert n k. induction fuel as [|fuel IH]; intros n k H Hx Hc Hl; [done|]. cbn [check_loop] in H.
  apply bind_Ret_inv in H as (l1 & k1 & H1 & H). apply pending_of_Ret in H1 as (-> & x1 & Hx1 & Hl1).
  destruct (l1 !! n) as [now|] eqn:Hn.
  - apply bind_Ret_inv in H as (probe & k1 & H1 & H). destruct (probe =? - EAGAIN) eqn:Hp.
    + apply mret_Ret in H as [<- <-]. right. apply Z.eqb_eq in Hp as ->.
      unfold base_read in H1. apply bind_Ret_inv in H1 as (x2 & k2 & H2 & H1). apply obj_Ret in H2 as [Hx2 ->].
      assert (o_base x2 = BSemaphore c) as E.
      { assert (store k1 !! o = Some x2 -> o_base x2 = BSemaphore c) as Hsame by congruence.
        destruct (o_base x2) as [cnt| | | |d] eqn:E; apply Hsame.
        - unfold sem_read in H1. case_match; [by apply mret_Ret in H1 as [_ <-]|]. done.
        - apply sleep_read_frame in H1 as [-> _]. done.
        - apply wait_read_frame in H1 as [-> _]. done.
        - done.
        - by apply kworld_Ret in H1 as (mx & ->). }
      rewrite E in H1. unfold sem_read in H1. destruct (Z.leb_spec c 0); [done|]. by runs.
    + do 4 (apply bind_Ret_inv in H as (? & ? & ? & H)). by apply (IH _ _ H).
  - apply mret_Ret in H as [<- <-]. left. apply drop_ge. apply lookup_ge_None in Hn. congruence.
Qed.

Lemma check_settled o k u k' : check o k = Ret (u, k') -> sem_settled k' o.
Proof.
  unfold check. intros H. apply bind_Ret_inv in H as (cur & k1 & H1 & H). apply getCurrentProcess_Ret in H1 as [_ ->].
  apply bind_Ret_inv in H as (n & k1 & H1 & H).
  apply bind_Ret_inv in H as (l & k2 & H2 & H). apply pending_of_Ret in H2 as (-> & x1 & Hx1 & Hl1).
  apply bind_Ret_inv in H as (u2 & k2 & H2 & H). apply put_pending_Ret in H2 as (x & Hx & ->).
  apply pmodify_Ret in H as ->. intros x2 c l2 Hx2 Hc Hl2. cbn in Hx2. rewrite lookup_insert_eq in Hx2.
  injection Hx2 as <-. cbn in Hc, Hl2. injection Hl2 as <-. assert (x1 = x) as -> by congruence.
  by apply (check_loop_settled 33 o 0 k n k1 x c l).
Qed.

Lemma check_keeps_settled o o' k u k' : check o' k = Ret (u, k') -> sem_settled k o -> sem_settled k' o.
Proof.
  intros H Hs. destruct (decide (o = o')) as [->|Hne]; [by apply check_settled in H|].
  intros x c l Hx. rewrite (only_store _ _ _ (check_only _ _ _ _ H) o Hne) in Hx. by apply Hs.
Qed.

Lemma checkAll_loop_settled n i k u k' : checkAll_loop n i k = Ret (u, k') ->
  (forall o, sem_settled k o -> sem_settled k' o) /\ devices k' = devices k /\
  forall j o, i <= j < i + Z.of_nat n -> devices k !! j = Some o -> sem_settled k' o.
Proof.
  revert i k. induction n as [|n IH]; intros i k H; cbn [checkAll_loop] in H.
  { apply mret_Ret in H as [_ <-]. split; [done|]. split; [done|]. lia. }
  apply bind_Ret_inv in H as (k0 & k1 & H1 & H). apply pget_Ret in H1 as [-> ->].
  apply bind_Ret_inv in H as (u1 & k1 & H1 & H). destruct (IH _ _ H) as (Hk & Hd & Ha).
  assert ((forall o, sem_settled k o -> sem_settled k1 o) /\ devices k1 = devices k /\
    (forall o, devices k !! i = Some o -> sem_settled k1 o)) as (Hk1 & Hd1 & Ha1).
  { destruct (devices k !! i) as [o|].
    - split; [|split; [apply (only_devices _ _ _ (check_only _ _ _ _ H1))|]].
      + intros o' Ho'. by apply (check_keeps_settled o' o k u1).
      + intros o' [= <-]. by apply check_settled in H1.
    - apply mret_Ret in H1 as [_ <-]. by split_and!. }
  split; [|split; [congruence|]].
  - intros o Ho. by apply Hk, Hk1.
  - intros j o Hj Ho. destruct (Z.eq_dec j i) as [->|]; [by apply Hk, Ha1|]. apply (Ha j); [lia|congruence].
Qed.

(** ** System calls *)
Definition settled k : Prop := forall o, sem_settled k o.

Lemma settled_store k k' : store k' = store k -> settled k -> settled k'.
Proof. intros E Hs o x c l. rewrite E. apply Hs. Qed.

Lemma checkAll_settled X k u k' : checkAll k = Ret (u, k') -> inv X k -> settled k'.
Proof.
  intros H Hi o x c l Hx Hc Hl. destruct (checkAll_inv X k u k' H Hi) as (Hi' & _).
  destruct (checkAll_loop_settled _ _ _ _ _ H) as (_ & Hd & Ha).
  destruct (inv_devices X k' Hi' o x l Hx Hl) as [j Hj]. destruct (inv_device X k' Hi' j o Hj) as [Hr _].
  rewrite Hd in Hj. by apply (Ha j o Hr Hj x c l).
Qed.

Lemma resche_store k u k' : resche k = Ret (u, k') -> store k' = store k.
Proof. intros H. pose proof (resche_spec k) as Hs. rewrite H in Hs. by destruct Hs as (pid & _ & ->). Qed.

Lemma syscall_return_store pid ret k u k' : syscall_return pid ret k = Ret (u, k') -> store k' = store k.
Proof.
  unfold syscall_return, syscall_set_retval. intros H. apply bind_Ret_inv in H as (alive & k1 & H1 & H).
  apply getProcess_Ret in H1 as (-> & -> & _). destruct (process_list k !! pid); [|by apply resche_store in H].
  apply bind_Ret_inv in H as (u1 & k1 & H1 & H). apply mod_proc_Ret in H1 as (p1 & _ & ->).
  apply bind_Ret_inv in H as (p2 & k1 & H1 & H). apply proc_Ret in H1 as [_ ->].
  case_match; [by runs|by apply resche_store in H].
Qed.

Lemma enter_store k u k' : enterKernelMode k = Ret (u, k') -> store k' = store k.
Proof. unfold enterKernelMode. intros H. runs. case_match; by runs. Qed.

Lemma leave_store k u k' : leaveKernelMode k = Ret (u, k') -> store k' = store k.
Proof. unfold leaveKernelMode. intros H. runs. case_match; by runs. Qed.

Lemma hook_store k u k' : resche_leave_kernel_mode_hook k = Ret (u, k') -> store k' = store k.
Proof.
  unfold resche_leave_kernel_mode_hook. intros H. apply bind_Ret_inv in H as (k1 & k2 & H1 & H).
  apply pget_Ret in H1 as [-> ->]. case_match; [by apply resche_store in H|by runs].
Qed.

Lemma syscall_settled X k u k' : real_syscall_handler k = Ret (u, k') -> user_mode X k -> settled k -> settled k'.
Proof.
  unfold real_syscall_handler. intros H Hu Hs.
  apply bind_Ret_inv in H as (u1 & k1 & H1 & H). pose proof (enter_working X k u1 k1 H1 Hu) as Hw1.
  apply enter_store in H1. apply (settled_store _ _ H1) in Hs.
  apply bind_Ret_inv in H as (cur & k2 & H2 & H). apply getCurrentProcess_Ret in H2 as [-> ->].
  rewrite (working_current _ _ _ _ Hw1) in H.
  apply bind_Ret_inv in H as (p & k2 & H2 & H). apply proc_Ret in H2 as [_ ->].
  apply bind_Ret_inv in H as (u3 & k3 & H3 & H). apply bind_Ret_inv in H as (u4 & k4 & H4 & H).
  apply leave_store in H. apply hook_store in H4. apply (settled_store k3); [congruence|].
  case_match; [|done]. destruct (apply_wrapper _ _) as [h|] eqn:Ha; [|by apply mret_Ret in H3 as [_ <-]].
  apply bind_Ret_inv in H3 as (ret & k5 & H5 & H3).
  pose proof (apply_keeps _ _ _ Ha X _ _ _ _ H5 Hw1) as [Hi5 _].
  apply bind_Ret_inv in H3 as (u6 & k6 & H6 & H3). apply syscall_return_store in H3.
  apply (settled_store k6); [done|]. by apply (checkAll_settled X k5 u6).
Qed.

Lemma system_step_settled X k k' : system_step k k' -> user_mode X k -> settled k -> settled k'.
Proof.
  intros [m t|k1 H|flags dpl b k1 H|x] Hu Hs.
  - by apply (settled_store k).
  - by apply (syscall_settled X k tt).
  - apply (settled_store k); [|done]. unfold timer_handler, resche_tick in H. by runs.
  - by apply (settled_store k).
Qed.

(** C3: no wake-up is lost: in every state that the system reaches, a
    semaphore in whose queue a process waits has a count of at most 0 - as
    soon as a system call has raised the count, the processes that can go on
    have been taken out of the queue. *)
Theorem no_lost_wakeup X k0 k :
  user_mode X k0 -> settled k0 -> rtc system_step k0 k ->
  forall pid o x c, waits k pid o -> store k !! o = Some x -> o_base x = BSemaphore c -> c <= 0.
Proof.
  intros Hu Hs Hr. assert (settled k) as Hk.
  { clear -Hu Hs Hr. induction Hr as [k|k1 k2 k3 Hstep Hr IH]; [done|].
    apply IH; [by apply system_step_user with k1|by apply (system_step_settled X k1)]. }
  intros pid o x c (x' & l & Hx' & Hl & Hin) Hx Hc. assert (x' = x) as -> by congruence.
  destruct (Hk o x c l Hx Hc Hl) as [->|]; [|done]. set_solver.
Qed.
End wakeup.

Lemma no_lost_wakeup_witness : waits small_kernel 2 0 /\
  exists x c, store small_kernel !! 0 = Some x /\ o_base x = BSemaphore c /\ c <= 0.
Proof.
  assert (settled small_boot) as Hs by (intros o x c l Hx; by rewrite small_boot_store in Hx).
  assert (exists x, store small_kernel !! 0 = Some x /\ o_base x = BSemaphore 0 /\ o_pending x = Some [PendingRead 2 0 4])
    as (x & Hx & Hb & Hp) by (vm_compute; eauto).
  assert (waits small_kernel 2 0) as Hw by (exists x, [PendingRead 2 0 4]; split; [exact Hx|]; split; [exact Hp|]; left).
  split; [exact Hw|]. exists x, 0. split; [exact Hx|]. split; [exact Hb|].
  exact (no_lost_wakeup (fun _ => 0) small_boot small_kernel small_boot_user Hs small_reached 2 0 x 0 Hw Hx Hb).
Defined.
