(* ===== verification/Termination.v ===== *)
(** * Termination: every system call comes to an end

    The loops of the kernel with a bound of the model - the scan of a string
    in the memory of a program, and the loop of check() - never use it up in a
    well-formed state. *)
From stdpp Require Import gmultiset.
From S2P Require Import Prelude Mem CString Keyboard Kernel Devices UserLib Process Sched Elf.
From S2P Require Import Invariant ProcessInv Syscall SyscallInv.

(** ** Programs that never run out of fuel *)
Definition total {S A} (p : prog S A) : Prop := forall s, p s <> NoFuel.

Create HintDb total discriminated.

Section total.
Context {S : Type}.

Lemma total_ret {A} (a : A) : total (mret (M := prog S) a).
Proof. done. Qed.

Lemma total_bind {A B} (p : prog S A) (f : A -> prog S B) :
  total p -> (forall a, total (f a)) -> total (p ≫= f).
Proof.
  intros Hp Hf s. specialize (Hp s). unfold mbind, prog_bind. destruct (p s) as [[a s']| | |]; try done. apply Hf.
Qed.

(** The same, in one state. *)
Lemma ends_bind {A B} (p : prog S A) (f : A -> prog S B) s :
  p s <> NoFuel -> (forall a s', p s = Ret (a, s') -> f a s' <> NoFuel) -> (p ≫= f) s <> NoFuel.
Proof.
  intros Hp Hf. unfold mbind, prog_bind. destruct (p s) as [[a s']| | |] eqn:E; try done. by apply Hf.
Qed.

Lemma total_fault {A} : total (pfault (S := S) (A := A)).
Proof. done. Qed.
Lemma total_panic {A} msg : total (ppanic (S := S) (A := A) msg).
Proof. done. Qed.
Lemma total_get : total (pget (S := S)).
Proof. done. Qed.
Lemma total_put s : total (pput (S := S) s).
Proof. done. Qed.
Lemma total_modify f : total (pmodify (S := S) f).
Proof. done. Qed.

Lemma total_zoom {T A} (get : T -> S) set (p : prog S A) : total p -> total (zoom get set p).
Proof. intros Hp t. specialize (Hp (get t)). unfold zoom. by destruct (p (get t)) as [[a s]| | |]. Qed.
End total.

#[export] Hint Resolve total_ret total_fault total_panic total_get total_put total_modify : total.

(** [totals] takes a program apart: the commands, then the cases. *)
Ltac totals :=
  repeat first
    [ progress eauto with total
    | apply total_bind; [|intros ?]
    | apply total_zoom
    | case_match ].

(** ** The memory *)
Lemma load8_total a : total (load8 a).
Proof. intros m. unfold load8. by case_match. Qed.
Lemma store8_total a v : total (store8 a v).
Proof. intros m. unfold store8. by case_match. Qed.
#[export] Hint Resolve load8_total store8_total : total.
Lemma load32_total a : total (load32 a).
Proof. unfold load32. totals. Qed.
Lemma store32_total a v : total (store32 a v).
Proof. unfold store32. totals. Qed.
Lemma store16_total a v : total (store16 a v).
Proof. unfold store16. totals. Qed.
#[export] Hint Resolve load32_total store32_total store16_total : total.

Lemma load_bytes_total n a : total (load_bytes n a).
Proof. revert a. induction n as [|n IH]; intros a; cbn; totals. Qed.
Lemma load_string_total n a : total (load_string n a).
Proof. revert a. induction n as [|n IH]; intros a; cbn; totals. Qed.
Lemma store_bytes_total a l : total (store_bytes a l).
Proof. revert a. induction l as [|b l IH]; intros a; cbn; totals. Qed.
Lemma store_string_total a l : total (store_string a l).
Proof. revert a. induction l as [|b l IH]; intros a; cbn; totals. Qed.
#[export] Hint Resolve load_bytes_total load_string_total store_bytes_total store_string_total : total.

Lemma memset_total b c n : total (memset b c n).
Proof.
  unfold memset. apply total_bind; [|intros; totals]. generalize 0.
  induction (Z.to_nat n) as [|k IH]; intros i; cbn; totals.
Qed.
Lemma memcpy_total d s n : total (memcpy d s n).
Proof.
  unfold memcpy. apply total_bind; [|intros; totals]. generalize 0.
  induction (Z.to_nat n) as [|k IH]; intros i; cbn; totals.
Qed.
#[export] Hint Resolve memset_total memcpy_total : total.

(** A string that does not end would map more bytes than there are. *)
Lemma strlen_loop_mapped fuel s cnt m : strlen_loop fuel s cnt m = NoFuel -> mapped m s (Z.of_nat fuel).
Proof.
  revert s cnt. induction fuel as [|fuel IH]; intros s cnt H; [intros x; lia|]. cbn [strlen_loop] in H.
  unfold mbind, prog_bind in H. unfold load8 in H. destruct (m !! s) as [b|] eqn:Hb; [|done].
  case_match; [done|]. apply IH in H. intros x Hx. destruct (Z.eq_dec x s) as [->|]; [by exists b|]. apply H. lia.
Qed.

Lemma strlen_total s : total (strlen s).
Proof.
  intros m H. unfold strlen in H. apply strlen_loop_mapped in H. destruct (mapped_bytes _ _ _ H) as (l & Hl & Hb).
  pose proof (bytes_at_size _ _ _ Hb). unfold mem_fuel in Hl. lia.
Qed.
#[export] Hint Resolve strlen_total : total.

(** ** The kernel *)

(** What the kernel calls of the rest of the system comes to an end: the
    devices and files, and the loops of the file system. *)
Class Ends (W : Type) `{!External W} `{!Files W} := {
  ext_read_ends d b n : total (ext_read d b n);
  ext_write_ends d b n : total (ext_write d b n);
  special_get_ends a : total (special_get a);
  openFile_ends a : total (openFile a);
  file_size_ends d : total (file_size d);
  dir_entries_ends d : total (dir_entries d);
  new_bytes_ends n : total (new_bytes n);
  delete_bytes_ends a : total (delete_bytes a)
}.
#[export] Hint Resolve ext_read_ends ext_write_ends special_get_ends openFile_ends file_size_ends
  dir_entries_ends new_bytes_ends delete_bytes_ends : total.

Section kernel.
Context {W : Type} `{HE : !External W} `{HL : Layout} `{HF : !Files W} `{HT : !Ends W}.
Implicit Types (k : kernel W).

Lemma kmem_total {A} (p : prog mem A) : total p -> total (kmem (W := W) p).
Proof. apply total_zoom. Qed.
Lemma kworld_total {A} (p : prog (mem * W) A) : total p -> total (kworld p).
Proof. apply total_zoom. Qed.
#[local] Hint Resolve kmem_total kworld_total : total.

Lemma getProcess_total pid : total (getProcess (W := W) pid).
Proof. unfold getProcess. totals. Qed.
Lemma getCurrentProcess_total : total (getCurrentProcess (W := W)).
Proof. unfold getCurrentProcess. totals. Qed.
Lemma setCurrentProcess_total pid : total (setCurrentProcess (W := W) pid).
Proof. unfold setCurrentProcess. totals. Qed.
#[local] Hint Resolve getProcess_total getCurrentProcess_total setCurrentProcess_total : total.
Lemma proc_total pid : total (proc (W := W) pid).
Proof. unfold proc. totals. Qed.
Lemma put_proc_total pid p : total (put_proc (W := W) pid p).
Proof. unfold put_proc. totals. Qed.
#[local] Hint Resolve proc_total put_proc_total : total.
Lemma mod_proc_total pid f : total (mod_proc (W := W) pid f).
Proof. unfold mod_proc. totals. Qed.
Lemma obj_total o : total (obj (W := W) o).
Proof. unfold obj. totals. Qed.
Lemma put_obj_total o x : total (put_obj (W := W) o x).
Proof. unfold put_obj. totals. Qed.
#[local] Hint Resolve mod_proc_total obj_total put_obj_total : total.
Lemma addRef_total o : total (addRef (W := W) o).
Proof. unfold addRef. totals. Qed.
Lemma release_total o : total (release (W := W) o).
Proof. unfold release, drop_device. totals. Qed.
#[local] Hint Resolve addRef_total release_total : total.
Lemma with_ref_total {A} o (p : prog (kernel W) A) : total p -> total (with_ref o p).
Proof. intros Hp. unfold with_ref. totals. Qed.
Lemma new_object_total b q : total (new_object (W := W) b q).
Proof. unfold new_object. totals. Qed.
Lemma array_get_total {A} (a : gmap Z A) i : total (array_get (W := W) a i).
Proof. unfold array_get. totals. Qed.
#[local] Hint Resolve with_ref_total new_object_total array_get_total : total.

Lemma base_read_total o b n : total (base_read (W := W) o b n).
Proof. unfold base_read, sem_read, sleep_read, wait_read. totals. Qed.
Lemma dev_write_total o b n : total (dev_write (W := W) o b n).
Proof. unfold dev_write, sem_write, sleep_write, wait_write. totals. Qed.
Lemma pending_of_total o : total (pending_of (W := W) o).
Proof. unfold pending_of. totals. Qed.
Lemma put_pending_total o l : total (put_pending (W := W) o l).
Proof. unfold put_pending. totals. Qed.
#[local] Hint Resolve base_read_total dev_write_total pending_of_total put_pending_total : total.
Lemma do_read_total o p b n : total (do_read (W := W) o p b n).
Proof. unfold do_read. totals. Qed.
#[local] Hint Resolve do_read_total : total.
Lemma dev_read_total o b n : total (dev_read (W := W) o b n).
Proof. unfold dev_read. totals. Qed.
Lemma set_retval_total p r : total (syscall_set_retval (W := W) p r).
Proof. unfold syscall_set_retval. totals. Qed.
Lemma processExit_total p s : total (processExit (W := W) p s).
Proof. unfold processExit. totals. Qed.
#[local] Hint Resolve dev_read_total set_retval_total processExit_total : total.

Lemma remove_object_total pid pos p : total (remove_object (W := W) pid pos p).
Proof. unfold remove_object, onRemovedByOwner. totals. Qed.
#[local] Hint Resolve remove_object_total : total.
Lemma removeObject_total pid pos : total (removeObject (W := W) pid pos).
Proof. unfold removeObject. totals. Qed.
#[local] Hint Resolve removeObject_total : total.
Lemma setObject_total pid pos o : total (setObject (W := W) pid pos o).
Proof. unfold setObject, attach. totals. Qed.
Lemma getObject_total pid pos : total (getObject (W := W) pid pos).
Proof. unfold getObject. totals. Qed.
Lemma addObject_total pid o : total (addObject (W := W) pid o).
Proof. unfold addObject, attach. totals. Qed.
Lemma restore_parent_total p : total (restore_parent (W := W) p).
Proof. unfold restore_parent, restoreStack. totals. Qed.
#[local] Hint Resolve setObject_total getObject_total addObject_total restore_parent_total : total.
Lemma remove_objects_total n pid i p : total (remove_objects (W := W) n pid i p).
Proof. revert i p. induction n as [|n IH]; intros i p; cbn; totals. Qed.
#[local] Hint Resolve remove_objects_total : total.
Lemma deleteProcess_total pid code : total (deleteProcess (W := W) pid code).
Proof. unfold deleteProcess, destroy_process. totals. Qed.
Lemma clone_objects_total n pid c i : total (clone_objects (W := W) n pid c i).
Proof. revert i. induction n as [|n IH]; intros i; cbn; totals. Qed.
#[local] Hint Resolve deleteProcess_total clone_objects_total : total.
Lemma clone_total pid mode code data : total (clone (W := W) pid mode code data).
Proof. unfold clone, clone_stack, new_process. totals. Qed.
#[local] Hint Resolve clone_total : total.

Lemma exec_args_total n a : total (exec_args n a).
Proof. revert a. induction n as [|n IH]; intros a; cbn; totals. Qed.
Lemma exec_remove_total n pid i low high : total (exec_remove (W := W) n pid i low high).
Proof. revert i. induction n as [|n IH]; intros i; cbn; totals. Qed.
Lemma exec_info_total info i t l : total (exec_info info i t l).
Proof. revert i t. induction l as [|s l IH]; intros i t; cbn; totals. Qed.
#[local] Hint Resolve exec_args_total exec_remove_total exec_info_total : total.
Lemma exec_stack_total pid l : total (exec_stack pid l).
Proof. unfold exec_stack. totals. Qed.
Lemma exec_load_total pid l : total (exec_load (W := W) pid l).
Proof. induction l as [|s l IH]; cbn; totals. Qed.
#[local] Hint Resolve exec_stack_total exec_load_total : total.
Lemma exec_total pid args sections e low high : total (Process.exec (W := W) pid args sections e low high).
Proof. unfold Process.exec. totals. Qed.
Lemma bytes_differ_total a l : total (bytes_differ a l).
Proof. revert a. induction l as [|c l IH]; intros a; cbn; totals. Qed.
Lemma elf_loop_total n b ph i num m s : total (elf_loop n b ph i num m s).
Proof. revert i num s. induction n as [|n IH]; intros i num s; cbn; totals. Qed.
#[local] Hint Resolve exec_total bytes_differ_total elf_loop_total : total.
Lemma parse_total b n : total (parseElfSections b n).
Proof. unfold parseElfSections. totals. Qed.
#[local] Hint Resolve parse_total : total.
Lemma exec_or_noexec_total pid args l e low high : total (exec_or_noexec (W := W) pid args l e low high).
Proof.
  intros k. unfold exec_or_noexec. pose proof (exec_total pid args l e low high k) as H.
  destruct (Process.exec _ _ _ _ _ _ k) as [[u k']| |msg|]; try done. by case_match.
Qed.
Lemma add_or_nospc_total pid o : total (add_or_nospc (W := W) pid o).
Proof.
  intros k. unfold add_or_nospc. pose proof (addObject_total pid (Some o) k) as H.
  destruct (addObject pid (Some o) k) as [[u k']| |msg|]; try done. by case_match.
Qed.
#[local] Hint Resolve exec_or_noexec_total add_or_nospc_total : total.
Lemma readdir_loop_total n info l : total (readdir_loop n info l).
Proof. revert info l. induction n as [|n IH]; intros info l; cbn; totals. Qed.
Lemma resche_total : total (resche (W := W)).
Proof. unfold resche. totals. Qed.
#[local] Hint Resolve readdir_loop_total resche_total : total.

(** Every handler of the table. *)
Lemma apply_total callsys t h : apply_wrapper (W := W) callsys t = Some h -> total h.
Proof.
  unfold apply_wrapper. intros H.
  repeat match type of H with (if ?b then _ else _) = _ => destruct b end; try done; (injection H as <-);
    unfold exit_handler, fork_handler, read_handler, write_handler, open_handler, close_handler, exec_handler, execv, exec_image,
      dup2_handler, sched_yield_handler, sem_create_handler, createSemaphore, BlockInputDevice, readdir_handler,
      thread_handler, hlt_handler; totals.
Qed.

(** *** check() *)
Definition short_queue k (o : Z) : Prop := forall x l,
  store k !! o = Some x -> o_pending x = Some l -> Z.of_nat (length l) <= MAX_PROCESS_NUM.

Lemma same_short k k' o : same_shape k k' -> short_queue k o -> short_queue k' o.
Proof.
  intros Hs Hk x l Hx Hl. destruct (same_lookup_Some k k' o x Hs Hx) as (x0 & Hx0 & _ & E).
  apply (Hk x0); congruence.
Qed.

Lemma do_read_short o pid b n k r k' : do_read o pid b n k = Ret (r, k') -> short_queue k o -> short_queue k' o.
Proof.
  unfold do_read. intros H Hk. apply bind_Ret_inv in H as (r1 & k1 & H1 & H). apply base_read_same in H1.
  apply (same_short _ _ _ H1) in Hk. case_match eqn:Hcase; [|by apply mret_Ret in H as [_ <-]].
  apply bind_Ret_inv in H as (l & k2 & H2 & H). apply pending_of_Ret in H2 as (-> & x & Hx & Hl).
  apply bind_Ret_inv in H as (u & k2 & H2 & H). destruct (Z.ltb_spec (Z.of_nat (length l)) MAX_PROCESS_NUM); [|done].
  apply put_pending_Ret in H2 as (x2 & _ & ->). apply bind_Ret_inv in H as (u3 & k3 & H3 & H).
  apply mod_proc_Ret in H3 as (p & _ & ->). apply mret_Ret in H as [_ <-].
  intros x3 l3 Hx3 Hl3. cbn in Hx3. rewrite lookup_insert_eq in Hx3. injection Hx3 as <-. cbn in Hl3.
  injection Hl3 as <-. rewrite length_app. cbn. lia.
Qed.

Lemma check_loop_ends fuel o n k : (n + fuel = 33)%nat -> (n <= 32)%nat -> short_queue k o ->
  check_loop fuel o n k <> NoFuel.
Proof.
  revert n k. induction fuel as [|fuel IH]; intros n k Hf Hn Hk; [lia|]. cbn [check_loop].
  apply ends_bind; [apply pending_of_total|]. intros l k1 H1. apply pending_of_Ret in H1 as (-> & x & Hx & Hl).
  pose proof (Hk x l Hx Hl) as Hlen. destruct (l !! n) as [now|] eqn:Hnow; [|done].
  apply lookup_lt_Some in Hnow. unfold MAX_PROCESS_NUM in Hlen.
  apply ends_bind; [apply base_read_total|]. intros probe k1 H1. apply base_read_same in H1.
  apply (same_short _ _ _ H1) in Hk. clear H1. case_match eqn:Hcase; [done|].
  apply ends_bind; [apply setCurrentProcess_total|]. intros u2 k2 H2. apply pmodify_Ret in H2 as ->.
  apply ends_bind; [apply mod_proc_total|]. intros u3 k3 H3. apply mod_proc_Ret in H3 as (p & _ & ->).
  apply ends_bind; [apply do_read_total|]. intros ret k4 H4.
  apply do_read_short in H4; [|exact Hk].
  apply ends_bind; [apply set_retval_total|]. intros u5 k5 H5. apply mod_proc_Ret in H5 as (q & _ & ->).
  apply IH; [lia|lia|exact H4].
Qed.

Lemma check_ends o k : short_queue k o -> check o k <> NoFuel.
Proof.
  intros Hk. unfold check. apply ends_bind; [apply getCurrentProcess_total|]. intros cur k1 H1.
  apply getCurrentProcess_Ret in H1 as [-> ->]. apply ends_bind; [apply check_loop_ends; [lia|lia|done]|]. intros n k2 _.
  apply ends_bind; [apply pending_of_total|]. intros l k3 _.
  apply ends_bind; [apply put_pending_total|]. intros u k4 _. apply setCurrentProcess_total.
Qed.

Lemma checkAll_ends X k : inv X k -> checkAll k <> NoFuel.
Proof.
  unfold checkAll. generalize (Z.to_nat MAX_BLOCK_INPUT_DEVICE_NUM), 0. intros n.
  revert k. induction n as [|n IH]; intros k i Hi; cbn [checkAll_loop]; [done|].
  apply ends_bind; [done|]. intros k0 k1 H1. apply pget_Ret in H1 as [-> ->].
  apply ends_bind.
  - destruct (devices k !! i); [|done]. apply check_ends. intros x l. by apply inv_queue_length with X.
  - intros u k1 H1. apply IH. destruct (devices k !! i); [by apply (check_inv X _ _ _ _ H1)|].
    by apply mret_Ret in H1 as [_ <-].
Qed.

Lemma enter_total : total (enterKernelMode (W := W)).
Proof. unfold enterKernelMode. totals. Qed.
Lemma leave_total : total (leaveKernelMode (W := W)).
Proof. unfold leaveKernelMode. totals. Qed.
Lemma hook_total : total (resche_leave_kernel_mode_hook (W := W)).
Proof. unfold resche_leave_kernel_mode_hook. totals. Qed.
Lemma syscall_return_total pid ret : total (syscall_return (W := W) pid ret).
Proof. unfold syscall_return. totals. Qed.

(** C4: every system call comes to an end: from a state between two system
    calls, real_syscall_handler returns, stops with a message, or takes an
    undefined step, but no loop goes on for ever - provided the calls of the
    file system and of the devices end. *)
Theorem syscall_terminates X k : user_mode X k -> real_syscall_handler k <> NoFuel.
Proof.
  intros Hu. unfold real_syscall_handler. apply ends_bind; [apply enter_total|].
  intros u1 k1 H1. pose proof (enter_working X k u1 k1 H1 Hu) as Hw1.
  apply ends_bind; [apply getCurrentProcess_total|]. intros cur k2 H2. apply getCurrentProcess_Ret in H2 as [-> ->].
  rewrite (working_current _ _ _ _ Hw1). apply ends_bind; [apply proc_total|]. intros p k2 H2.
  apply proc_Ret in H2 as [_ ->]. apply ends_bind.
  - case_match eqn:Hcase; [|done]. destruct (apply_wrapper _ _) as [h|] eqn:Ha; [|done].
    apply ends_bind; [by apply (apply_total _ _ _ Ha)|]. intros ret k3 H3.
    pose proof (apply_keeps _ _ _ Ha X _ _ _ _ H3 Hw1) as [Hi3 _].
    apply ends_bind; [by apply (checkAll_ends X)|]. intros u4 k4 _. apply syscall_return_total.
  - intros u3 k3 _.
    apply ends_bind; [apply hook_total|]. intros u4 k4 _. apply leave_total.
Qed.
End kernel.

#[local] Existing Instances no_devices small_layout no_files.
Lemma syscall_terminates_witness :
  let k := set_user_tss (regs SYSCALL_WRITE 3 0 4) small_boot in real_syscall_handler k <> NoFuel.
Proof.
  assert (Ends unit) as Hends by (split; done).
  set (k := set_user_tss (regs SYSCALL_WRITE 3 0 4) small_boot).
  assert (user_mode (fun _ => 0) k) as Hu by (apply user_same with small_boot; [by split|apply small_boot_user]).
  exact (syscall_terminates (fun _ => 0) k Hu).
Defined.
