(* ===== verification/ForkExit.v ===== *)
(** * ForkExit: what fork() promises until the child ends

    Without paging the parent and its child share one stack.  fork() saves the
    bytes below which the child works and puts the parent to sleep; the end of
    the child writes them back and wakes the parent. *)
From S2P Require Import Prelude Mem CString Keyboard Kernel Devices UserLib Process Sched Elf.
From S2P Require Import Invariant ProcessInv Syscall SyscallInv.

Section fork.
Context {W : Type} `{HE : !External W} `{HL : Layout}.
Implicit Types (k : kernel W).

(** ** Operations on the objects and the processes leave the memory *)
Definition still {A} (p : prog (kernel W) A) : Prop := forall k a k', p k = Ret (a, k') -> k_mem k' = k_mem k.

Lemma still_ret {A} (a : A) : still (mret a).
Proof. by intros k b k' [= <- <-]. Qed.
Lemma still_bind {A B} (p : prog (kernel W) A) (f : A -> prog (kernel W) B) :
  still p -> (forall a, still (f a)) -> still (p ≫= f).
Proof. intros Hp Hf k b k' (a & k1 & H1 & H2)%bind_Ret_inv. rewrite (Hf _ _ _ _ H2). by apply (Hp k a). Qed.
Lemma still_get : still pget.
Proof. by intros k a k' [= <- <-]. Qed.
Lemma still_modify (f : kernel W -> kernel W) : (forall k, k_mem (f k) = k_mem k) -> still (pmodify f).
Proof. intros Hf k u k' H. apply pmodify_Ret in H as ->. done. Qed.
Lemma still_fault {A} : still (pfault (A := A)).
Proof. done. Qed.
Lemma still_panic {A} msg : still (ppanic (A := A) msg).
Proof. done. Qed.

Create HintDb still discriminated.
#[local] Hint Resolve still_ret still_get still_fault still_panic : still.
Ltac stills :=
  repeat first [ solve [auto with still] | apply still_modify; reflexivity | case_match | apply still_bind; intros ].

Lemma obj_still o : still (obj (W := W) o).
Proof. unfold obj. stills. Qed.
#[local] Hint Resolve obj_still : still.
Lemma put_obj_still o x : still (put_obj (W := W) o x).
Proof. by apply still_modify. Qed.
#[local] Hint Resolve put_obj_still : still.
Lemma addRef_still o : still (addRef (W := W) o).
Proof. unfold addRef. stills. Qed.
#[local] Hint Resolve addRef_still : still.
Lemma release_still o : still (release (W := W) o).
Proof. unfold release, drop_device. stills. Qed.
#[local] Hint Resolve release_still : still.
Lemma onRemoved_still o pid : still (onRemovedByOwner (W := W) o pid).
Proof. unfold onRemovedByOwner. stills. Qed.
#[local] Hint Resolve onRemoved_still : still.
Lemma proc_still pid : still (proc (W := W) pid).
Proof. unfold proc, getProcess. stills. Qed.
#[local] Hint Resolve proc_still : still.
Lemma put_proc_still pid p : still (put_proc (W := W) pid p).
Proof. by apply still_modify. Qed.
#[local] Hint Resolve put_proc_still : still.
Lemma mod_proc_still pid f : still (mod_proc (W := W) pid f).
Proof. unfold mod_proc. stills. Qed.
#[local] Hint Resolve mod_proc_still : still.
Lemma remove_object_still pid pos p : still (remove_object (W := W) pid pos p).
Proof. unfold remove_object. stills. Qed.
#[local] Hint Resolve remove_object_still : still.
Lemma remove_objects_still n pid i p : still (remove_objects (W := W) n pid i p).
Proof. revert i p. induction n as [|n IH]; intros i p; cbn; stills. Qed.
Lemma setObject_still pid pos o : still (setObject (W := W) pid pos o).
Proof. unfold setObject, removeObject, attach. stills. Qed.
#[local] Hint Resolve setObject_still : still.
Lemma clone_objects_still n pid child i : still (clone_objects (W := W) n pid child i).
Proof. revert i. induction n as [|n IH]; intros i; cbn; stills. Qed.
Lemma processExit_still pid status : still (processExit (W := W) pid status).
Proof. unfold processExit, array_get. stills. Qed.

(** ** The bytes of the stack *)
Lemma load_bytes_Ret n a m l m' : load_bytes n a m = Ret (l, m') -> m' = m /\ length l = n /\ bytes_at m a l.
Proof.
  revert a l. induction n as [|n IH]; intros a l H; cbn in H; [by injection H as <- <-|].
  apply bind_Ret_inv in H as (b & m1 & H1 & H). unfold load8 in H1. destruct (m !! a) as [c|] eqn:Ea; [|done].
  injection H1 as <- <-. apply bind_Ret_inv in H as (l' & m1 & H1 & H). apply mret_Ret in H as [<- <-].
  destruct (IH _ _ H1) as (-> & Hl & Hb). cbn. split; [done|]. split; [lia|done].
Qed.

Lemma store_bytes_Ret a l m u m' : store_bytes a l m = Ret (u, m') -> Forall (urange 8) l -> m' = write_bytes m a l.
Proof.
  revert a m. induction l as [|b l IH]; intros a m H Hl; cbn in H; [by injection H as _ <-|].
  apply list.Forall_cons in Hl as [Hb Hl]. apply bind_Ret_inv in H as (u1 & m1 & H1 & H).
  unfold store8 in H1. destruct (m !! a); [|done]. injection H1 as _ <-. rewrite (wrap_small 8) in H by done.
  by apply IH.
Qed.

(** ** fork() *)

(** setObject() into a free entry of another process. *)
Lemma setObject_free child i o k r k' c : setObject child i (Some o) k = Ret (r, k') ->
  process_list k !! child = Some c -> objects c !! i = None -> 0 <= i < PROCESS_MAX_OBJECTS ->
  process_list k' = <[child := set_objects (<[i := o]> (objects c)) c]> (process_list k).
Proof.
  unfold setObject, removeObject, attach. intros H Hc Hi Hr.
  destruct (_ || _) eqn:Eb; [lia|]. apply bind_Ret_inv in H as (u1 & k1 & H1 & H).
  apply bind_Ret_inv in H1 as (c1 & k2 & H2 & H1). apply proc_Ret in H2 as [Hc1 ->]. assert (c1 = c) as -> by congruence.
  apply bind_Ret_inv in H1 as (c2 & k2 & H2 & H1). unfold remove_object in H2.
  replace ((0 <=? i) && (i <? PROCESS_MAX_OBJECTS)) with true in H2 by lia. rewrite Hi in H2.
  apply mret_Ret in H2 as [<- <-]. apply pmodify_Ret in H1 as ->.
  apply bind_Ret_inv in H as (u2 & k2 & H2 & H). apply mret_Ret in H as [_ <-].
  apply bind_Ret_inv in H2 as (u3 & k3 & H3 & H2). unfold addRef in H3. apply bind_Ret_inv in H3 as (x & k4 & H4 & H3).
  apply obj_Ret in H4 as [_ ->]. apply pmodify_Ret in H3 as ->. apply mod_proc_Ret in H2 as (c3 & Hc3 & ->).
  cbn in Hc3 |- *. rewrite lookup_insert_eq in Hc3. injection Hc3 as <-. apply insert_insert_eq.
Qed.

Lemma clone_objects_copies n pid child i k u k' p c : clone_objects n pid child i k = Ret (u, k') -> pid <> child ->
  process_list k !! pid = Some p -> process_list k !! child = Some c ->
  (forall j, i <= j -> objects c !! j = None) -> 0 <= i -> i + Z.of_nat n <= PROCESS_MAX_OBJECTS ->
  exists m, process_list k' = <[child := set_objects m c]> (process_list k) /\
    forall j, m !! j = if decide (i <= j < i + Z.of_nat n) then objects p !! j else objects c !! j.
Proof.
  intros H Hne Hp. revert i k c H Hp. induction n as [|n IH]; intros i k c H Hp Hc Hfree Hi Hn; cbn [clone_objects] in H.
  - apply mret_Ret in H as [_ <-]. exists (objects c). split; [by rewrite set_objects_id, insert_id|].
    intros j. rewrite decide_False by lia. done.
  - apply bind_Ret_inv in H as (p1 & k1 & H1 & H). apply proc_Ret in H1 as [Hp1 ->]. assert (p1 = p) as -> by congruence.
    apply bind_Ret_inv in H as (u1 & k1 & H1 & H).
    assert (exists c1, process_list k1 = <[child := c1]> (process_list k) /\ set_objects ∅ c1 = set_objects ∅ c /\
      forall j, objects c1 !! j = if decide (j = i) then objects p !! i else objects c !! j) as (c1 & E1 & Es & Ho).
    { destruct (objects p !! i) as [o|] eqn:Eo.
      - apply bind_Ret_inv in H1 as (r & k2 & H2 & H1). apply mret_Ret in H1 as [_ <-].
        eexists. split; [apply (setObject_free child i o k r k2 c H2 Hc); [apply Hfree; lia|lia]|]. split; [done|].
        intros j. cbn. destruct (decide (j = i)) as [->|Hj]; [apply lookup_insert_eq|by rewrite lookup_insert_ne].
      - apply mret_Ret in H1 as [_ <-]. exists c. split; [by rewrite insert_id|]. split; [done|].
        intros j. destruct (decide (j = i)) as [->|]; [apply Hfree; lia|done]. }
    destruct (IH (i + 1) k1 c1 H) as (m & Em & Hm).
    + by rewrite E1, lookup_insert_ne.
    + rewrite E1. apply lookup_insert_eq.
    + intros j Hj. rewrite Ho, decide_False by lia. apply Hfree. lia.
    + lia.
    + lia.
    + exists m. split.
      * rewrite Em, E1, insert_insert_eq. f_equal. by destruct c, c1; cbn in Es |- *; injection Es as -> -> -> -> -> ->.
      * intros j. rewrite Hm, Ho. repeat case_decide; subst; done || lia.
Qed.

(** What fork() leaves: the parent asleep with its stack saved, and the child. *)
Lemma fork_spec pid k child k' p : clone pid PROCESS_CLONE_KEEP_STACK 0 0 k = Ret (child, k') ->
  process_list k !! pid = Some p ->
  exists b c, Z.of_nat (length b) = PROCESS_STACK_BACKUP_SIZE /\ bytes_at (k_mem k) (usermode_state p Esp) b /\
    k_mem k' = k_mem k /\ current_process k' = child /\ child <> pid /\ process_list k !! child = None /\
    process_list k' !! pid = Some (fall_asleep (set_backup (usermode_state p Esp) (Some b) p)) /\
    process_list k' !! child = Some c /\
    ppid c = pid /\ process_state c = PROCESS_STATE_RUNNABLE /\ usermode_state c = retval 0 (usermode_state p) /\
    forall i, objects c !! i = if decide (0 <= i < PROCESS_MAX_OBJECTS) then objects p !! i else None.
Proof.
  unfold clone. intros H Hp. apply bind_Ret_inv in H as (p1 & k1 & H1 & H).
  apply proc_Ret in H1 as [Hp1 ->]. assert (p1 = p) as -> by congruence.
  destruct (stack_backup p) as [|] eqn:Hb; [runs|].
  apply bind_Ret_inv in H as (child' & k1 & H1 & H). unfold new_process in H1.
  apply bind_Ret_inv in H1 as (k2 & k3 & H2 & H1). apply pget_Ret in H2 as [-> ->].
  destruct (free_slot _ _ _) as [pid'|] eqn:Ef; [|runs]. apply free_slot_Some in Ef as [Hr Hfree].
  apply bind_Ret_inv in H1 as (u0 & k2 & H2 & H1). apply pmodify_Ret in H2 as ->. apply mret_Ret in H1 as [<- <-].
  assert (pid' <> pid) as Hne by (intros ->; congruence).
  apply bind_Ret_inv in H as (u1 & k2 & H2 & H). apply mod_proc_Ret in H2 as (c & Hc & ->).
  cbn in Hc. rewrite lookup_insert_eq in Hc. injection Hc as <-.
  apply bind_Ret_inv in H as (u2 & k2 & H2 & H). apply bind_Ret_inv in H as (u3 & k3 & H3 & H).
  apply bind_Ret_inv in H as (u4 & k4 & H4 & H). apply pmodify_Ret in H4 as ->. apply mret_Ret in H as [<- <-].
  pose proof (clone_objects_still _ _ _ _ _ _ _ H3) as Hm3.
  unfold clone_stack in H2. apply bind_Ret_inv in H2 as (p2 & k4 & H4 & H2). apply proc_Ret in H4 as [Hp2 ->].
  cbn in Hp2. rewrite !lookup_insert_ne in Hp2 by done. assert (p2 = p) as -> by congruence.
  apply bind_Ret_inv in H2 as (b & k4 & H4 & H2). apply kmem_Ret in H4 as (m & Hload & ->). cbn in Hload.
  apply load_bytes_Ret in Hload as (-> & Hlen & Hbytes).
  apply bind_Ret_inv in H2 as (u5 & k4 & H4 & H2). apply mod_proc_Ret in H4 as (p3 & Hp3 & ->).
  cbn in Hp3. rewrite !lookup_insert_ne in Hp3 by done. assert (p3 = p) as -> by congruence.
  apply bind_Ret_inv in H2 as (u6 & k4 & H4 & H2). apply mod_proc_Ret in H4 as (c1 & Hc1 & ->).
  cbn in Hc1. rewrite lookup_insert_ne, lookup_insert_eq in Hc1 by done. injection Hc1 as <-.
  apply mod_proc_Ret in H2 as (p4 & Hp4 & ->). cbn in Hp4. rewrite lookup_insert_ne, lookup_insert_eq in Hp4 by done.
  injection Hp4 as <-. cbn in Hm3.
  match type of H3 with clone_objects _ _ _ _ ?s = _ => set (k2 := s) in * end.
  eassert (process_list k2 !! pid' = Some _) as Hc2 by (cbn; rewrite lookup_insert_ne, lookup_insert_eq by done; reflexivity).
  eassert (process_list k2 !! pid = Some _) as Hp2' by (cbn; rewrite lookup_insert_eq; reflexivity).
  destruct (clone_objects_copies _ pid pid' 0 k2 u3 k3 _ _ H3 (not_eq_sym Hne) Hp2' Hc2) as (m & Em & Hm);
    [done|done|done|].
  exists b. eexists. split; [rewrite Hlen; reflexivity|]. split; [done|]. split; [done|]. split; [done|]. split; [done|].
  split; [done|]. split.
  { cbn. rewrite Em, lookup_insert_ne by done. exact Hp2'. }
  split; [cbn; rewrite Em; apply lookup_insert_eq|]. split; [done|]. split; [done|]. split; [done|].
  intros j. cbn. by rewrite Hm.
Qed.

(** ** The end of the child *)
Lemma exit_spec X child code k u k' c pid q b : deleteProcess child code k = Ret (u, k') ->
  process_list k !! child = Some c -> ppid c = pid -> pid <> child ->
  process_list k !! pid = Some q -> stack_backup q = Some b -> Forall (urange 8) b ->
  idle_in_queues k child -> inv X k ->
  k_mem k' = write_bytes (k_mem k) (stack_top_backup q) b /\
  process_list k' !! pid = Some (awake q) /\ process_list k' !! child = None /\
  last_exit_code k' !! child = Some code.
Proof.
  unfold deleteProcess. intros H Hc Hpp Hne Hq Hb Hbytes Hno Hi.
  apply bind_Ret_inv in H as (p & k1 & H1 & H). apply getProcess_Ret in H1 as (-> & -> & _).
  apply bind_Ret_inv in H as (u1 & k1 & H1 & H). apply pmodify_Ret in H1 as ->.
  apply bind_Ret_inv in H as (u2 & k2 & H2 & H). rewrite Hc in H2.
  change (set_process_list _ k) with (without child k) in H2.
  unfold destroy_process in H2. apply bind_Ret_inv in H2 as (c' & k3 & H3 & H2).
  destruct (remove_objects_inv X _ child 0 c (without child k) c' k3 H3) as (_ & Hs3 & Hpp' & _).
  { lia. } { unfold PROCESS_MAX_OBJECTS. lia. } { apply lookup_delete_eq. } { apply (inv_extra X k Hi). }
  { by apply inv_take_out. }
  pose proof (remove_objects_still _ _ _ _ _ _ _ H3) as Hm3. cbn in Hm3.
  assert (process_list k3 !! pid = Some q) as Hq3 by (rewrite (procs_list _ _ Hs3); cbn; by rewrite lookup_delete_ne).
  assert (process_list k3 !! child = None) as Hc3 by (rewrite (procs_list _ _ Hs3); apply lookup_delete_eq).
  pose proof (inv_pids X k Hi pid q Hq) as Hpid.
  unfold restore_parent in H2. rewrite Hpp', Hpp in H2. destruct (0 <=? pid) eqn:Epid; [|lia].
  apply bind_Ret_inv in H2 as (q1 & k4 & H4 & H2). apply getProcess_Ret in H4 as (-> & -> & _). rewrite Hq3 in H2.
  unfold restoreStack in H2. apply bind_Ret_inv in H2 as (q1 & k4 & H4 & H2). apply proc_Ret in H4 as [Hq4 ->].
  assert (q1 = q) as -> by congruence. rewrite Hb in H2.
  apply bind_Ret_inv in H2 as (u5 & k5 & H5 & H2). apply kmem_Ret in H5 as (m & H5 & ->).
  apply store_bytes_Ret in H5 as ->; [|done]. apply mod_proc_Ret in H2 as (q2 & Hq2 & ->). cbn in Hq2.
  assert (q2 = q) as -> by congruence.
  pose proof (processExit_still _ _ _ _ _ H) as Hm. pose proof (same_processes _ _ (processExit_same _ _ _ _ _ H)) as Hl.
  cbn in Hm, Hl. rewrite Hm3 in Hm. split; [done|]. split; [by rewrite Hl, lookup_insert_eq|].
  split; [by rewrite Hl, lookup_insert_ne by done|].
  unfold processExit in H. runs. cbn. apply lookup_insert_eq.
Qed.
End fork.

(** ** The property *)
Section theorem.
Context {W : Type} `{HE : !External W} `{HL : Layout}.

(** C5: fork() gives a child with the parent's registers (but a result of 0) and
    its objects; and whatever the programs do to the memory meanwhile, when
    the child ends the parent runs again with the 128 bytes at its stack
    pointer as they were at the fork, everything else in the memory is as it
    was, and the exit code of the child is kept for a waiting process. *)
Theorem fork_exit_roundtrip X pid (k : kernel W) child k1 p :
  mem_wf (k_mem k) -> process_list k !! pid = Some p -> clone pid PROCESS_CLONE_KEEP_STACK 0 0 k = Ret (child, k1) ->
  exists c q, process_list k1 !! child = Some c /\ process_list k1 !! pid = Some q /\
    process_state q = PROCESS_STATE_SLEEPING /\ current_process k1 = child /\ k_mem k1 = k_mem k /\
    ppid c = pid /\ process_state c = PROCESS_STATE_RUNNABLE /\ usermode_state c = retval 0 (usermode_state p) /\
    (forall i, 0 <= i < PROCESS_MAX_OBJECTS -> objects c !! i = objects p !! i) /\
    forall (k2 : kernel W) c2 code k3, process_list k2 !! pid = Some q -> process_list k2 !! child = Some c2 -> ppid c2 = pid ->
      process_state c2 = PROCESS_STATE_RUNNABLE -> inv X k2 -> deleteProcess child code k2 = Ret (tt, k3) ->
      (forall x, k_mem k3 !! x =
         if decide (usermode_state p Esp <= x < usermode_state p Esp + PROCESS_STACK_BACKUP_SIZE)
         then k_mem k !! x else k_mem k2 !! x) /\
      process_list k3 !! child = None /\ last_exit_code k3 !! child = Some code /\
      exists q3, process_list k3 !! pid = Some q3 /\ process_state q3 = PROCESS_STATE_RUNNABLE /\
        stack_backup q3 = None /\ usermode_state q3 = usermode_state p /\ objects q3 = objects p.
Proof.
  intros Hwf Hp Hclone. destruct (fork_spec pid k child k1 p Hclone Hp) as
    (b & c & Hlen & Hb & Hm & Hcur & Hne & _ & Hq & Hc & Hpp & Hrc & Ht & Ho).
  exists c. eexists. split; [done|]. split; [exact Hq|]. split; [done|]. split; [done|]. split; [done|]. split; [done|]. split; [done|]. split; [done|].
  split; [intros i Hi; by rewrite Ho, decide_True|].
  intros k2 c2 code k3 Hq2 Hc2 Hpp2 Hrun Hi Hd.
  assert (idle_in_queues k2 child) as Hno by (apply (runs_idle X); [done|by exists c2]).
  pose proof (bytes_at_range _ _ _ Hwf Hb) as Hr.
  destruct (exit_spec X child code k2 tt k3 c2 pid _ b Hd Hc2 Hpp2 ltac:(congruence) Hq2 eq_refl Hr Hno Hi)
    as (Hm3 & Hq3 & Hc3 & He). cbn in Hm3.
  split; [|split; [done|split; [done|]]].
  - intros x. rewrite Hm3, lookup_write_bytes, Hlen. case_decide as Hx; [|done]. symmetry.
    rewrite bytes_at_lookup in Hb. destruct (lookup_lt_is_Some_2 b (Z.to_nat (x - usermode_state p Esp))) as [v Hv]; [lia|].
    rewrite Hv. specialize (Hb _ _ Hv). by replace (usermode_state p Esp + Z.of_nat (Z.to_nat (x - usermode_state p Esp))) with x in Hb by lia.
  - eexists. split; [exact Hq3|]. done.
Qed.
End theorem.

(** A process with its stack at 1000 forks; the child overwrites the stack. *)
Definition fork_example : kernel unit :=
  set_last_exit_code {[2 := 0]} (set_process_list
    (<[1 := Process (-1) PROCESS_STATE_RUNNABLE PROCESS_SCHE_NORMAL 0 None (regs 0 0 0 0) ∅]> (process_list small_boot))
    small_boot).
Definition scribbled (k : kernel unit) : kernel unit := set_mem (write_bytes (k_mem k) 1000 (repeat 7 128)) k.

Section witness.
#[local] Existing Instance no_devices.
#[local] Existing Instance small_layout.

Lemma fork_exit_roundtrip_witness : exists k1 k3,
  clone 1 PROCESS_CLONE_KEEP_STACK 0 0 fork_example = Ret (2, k1) /\
  k_mem (scribbled k1) !! 1000 = Some 7 /\
  deleteProcess 2 5 (scribbled k1) = Ret (tt, k3) /\ k_mem k3 !! 1000 = Some 0 /\ last_exit_code k3 !! 2 = Some 5.
Proof.
  set (X := fun _ : Z => 0).
  assert (match clone 1 PROCESS_CLONE_KEEP_STACK 0 0 fork_example with
          | Ret (_, k1) => match deleteProcess 2 5 (scribbled k1) with Ret _ => true | _ => false end
          | _ => false end = true) as Hruns by (vm_compute; reflexivity).
  assert (inv X fork_example) as Hi.
  { apply inv_same with (set_process_list (<[1 := Process (-1) PROCESS_STATE_RUNNABLE PROCESS_SCHE_NORMAL 0 None (regs 0 0 0 0) ∅]>
      (process_list small_boot)) small_boot); [by split|].
    apply (inv_put_proc_same X small_boot 1 (Process (-1) PROCESS_STATE_RUNNABLE PROCESS_SCHE_NORMAL 0 None tss_zero ∅));
      [done..|apply small_boot_user]. }
  destruct (clone 1 PROCESS_CLONE_KEEP_STACK 0 0 fork_example) as [[child k1]| | |] eqn:Hc;
    [|discriminate Hruns..].
  assert (child = 2) as -> by (vm_compute in Hc; by injection Hc).
  set (p := Process (-1) PROCESS_STATE_RUNNABLE PROCESS_SCHE_NORMAL 0 None (regs 0 0 0 0) ∅).
  assert (mem_wf (k_mem fork_example)) as Hwf by (apply (bool_decide_eq_true_1 _); vm_compute; reflexivity).
  destruct (fork_exit_roundtrip X 1 fork_example 2 k1 p Hwf eq_refl Hc) as (c & q & Hc1 & Hq & _ & _ & Hm & Hpp & Hrun & _ & _ & Hend).
  assert (idle_in_queues fork_example 1) as Hno.
  { intros o (x & l & Hx & _). change (store fork_example) with (∅ : gmap Z object) in Hx. by rewrite lookup_empty in Hx. }
  destruct (clone_inv X 1 PROCESS_CLONE_KEEP_STACK 0 0 fork_example 2 k1 p Hc eq_refl Hno Hi) as (Hi1 & _).
  assert (inv X (scribbled k1)) as Hi2 by (apply inv_same with k1; [by split|done]).
  destruct (deleteProcess 2 5 (scribbled k1)) as [[[] k3]| | |] eqn:Hd; [|discriminate Hruns..].
  destruct (Hend (scribbled k1) c 5 k3 Hq Hc1 Hpp Hrun Hi2 Hd) as (Hm3 & _ & He & _).
  exists k1, k3. split; [done|]. split; [|split; [done|split; [|done]]].
  - change (k_mem (scribbled k1)) with (write_bytes (k_mem k1) 1000 (repeat 7 128)). by rewrite lookup_write_bytes.
  - rewrite Hm3. vm_compute. reflexivity.
Defined.
End witness.
