(* ===== verification/ExecArgs.v ===== *)
(** * ExecArgs: the arguments of exec(), from the caller to main

    exec() copies the argument strings of the caller, cut to 19 characters,
    into the block that it leaves on the new stack; the entry code of the user
    library turns the block into the [argc] and [argv] of main. *)
From S2P Require Import Prelude Mem CString Kernel Devices UserLib Process.

(** ** Strings as local objects *)
Lemma load_string_spec n m a s : cstr_at m a s -> load_string n a m = Ret (take n s, m).
Proof.
  revert a s. induction n as [|n IH]; intros a s Hs; [by rewrite take_0|]. cbn [load_string].
  destruct s as [|c s].
  - apply cstr_at_nil in Hs. by rewrite (bind_Ret _ _ _ _ _ (load8_at _ _ _ Hs)).
  - apply cstr_at_cons in Hs as (Hc0 & Hc & Hs). rewrite (bind_Ret _ _ _ _ _ (load8_at _ _ _ Hc)).
    unfold is_char in Hc0. rewrite (proj2 (Z.eqb_neq c 0)) by lia. by rewrite (bind_Ret _ _ _ _ _ (IH _ _ Hs)).
Qed.

Lemma store_string_spec m a s : mapped m a (Z.of_nat (length s) + 1) -> Forall is_char s ->
  store_string a s m = Ret (tt, write_bytes m a (s ++ [0])).
Proof.
  revert m a. induction s as [|c s IH]; intros m a Hm Hs; cbn [store_string app write_bytes length] in *.
  - rewrite store8_at by (apply Hm; lia). done.
  - apply list.Forall_cons in Hs as [Hc Hs]. unfold is_char in Hc.
    rewrite (bind_Ret _ _ _ tt (<[a := c]> m)).
    + apply IH; [|done]. apply mapped_insert. intros x Hx. apply Hm. lia.
    + rewrite store8_at by (apply Hm; lia). by rewrite wrap_small by (unfold urange; pow2_literals; lia).
Qed.

(** ** The arguments of the caller *)

(** An array of at most [n] pointers to the strings [strs], ended by NULL when
    there are less. *)
Fixpoint args_at (n : nat) (m : mem) (args : Z) (strs : list (list Z)) : Prop :=
  match n, strs with
  | O, [] => True
  | O, _ => False
  | S n, [] => word_at m args 0
  | S n, s :: strs =>
      (exists p, word_at m args p /\ p <> 0 /\ cstr_at m p s /\ Z.of_nat (length s) < 2 ^ 32) /\
      args_at n m (args + 4) strs
  end.

Lemma exec_args_spec n m args strs : args_at n m args strs -> exec_args n args m = Ret (map (take 19) strs, m).
Proof.
  revert args strs. induction n as [|n IH]; intros args [|s strs] H; cbn [args_at exec_args map] in *; try done.
  - by rewrite (bind_Ret _ _ _ _ _ (load32_at _ _ _ H)).
  - destruct H as [(p & Hp & Hp0 & Hs & Hl) H]. rewrite (bind_Ret _ _ _ _ _ (load32_at _ _ _ Hp)).
    rewrite (proj2 (Z.eqb_neq p 0)) by done. rewrite (bind_Ret _ _ _ _ _ (strlen_spec _ _ _ Hs Hl)).
    rewrite (bind_Ret _ _ _ _ _ (load_string_spec 19 _ _ _ Hs)). by rewrite (bind_Ret _ _ _ _ _ (IH _ _ H)).
Qed.

Lemma args_at_chars n m args strs : args_at n m args strs -> (length strs <= n)%nat /\ Forall (Forall is_char) strs.
Proof.
  revert args strs. induction n as [|n IH]; intros args [|s strs] H; cbn in *; try done; [split; [lia|constructor]|].
  destruct H as [(p & _ & _ & [Hs _] & _) H]. destruct (IH _ _ H). split; [lia|by constructor].
Qed.

(** ** The block *)

(** The offsets of strings that lie one after the other, and their room. *)
Fixpoint offsets (t : Z) (l : list (list Z)) : list Z :=
  match l with [] => [] | s :: l => t :: offsets (t + Z.of_nat (length s) + 1) l end.
Fixpoint room (l : list (list Z)) : Z := match l with [] => 0 | s :: l => Z.of_nat (length s) + 1 + room l end.

Lemma room_nonneg l : 0 <= room l.
Proof. induction l; cbn; lia. Qed.

Lemma offsets_length t l : length (offsets t l) = length l.
Proof. revert t. induction l as [|s l IH]; intros t; cbn; [done|]. by rewrite IH. Qed.

Lemma offsets_range t l : Forall (fun off => t <= off < t + room l) (offsets t l).
Proof.
  revert t. induction l as [|s l IH]; intros t; cbn; [constructor|]. pose proof (room_nonneg l).
  constructor; [lia|]. eapply list.Forall_impl; [apply IH|]. cbn. intros off Hoff. lia.
Qed.

Lemma offsets_room l t j s off : l !! j = Some s -> offsets t l !! j = Some off ->
  t <= off /\ off + Z.of_nat (length s) + 1 <= t + room l.
Proof.
  revert t j. induction l as [|s0 l IH]; intros t [|j] Hj Hoff; cbn in *; try done; pose proof (room_nonneg l).
  - injection Hj as <-. injection Hoff as <-. lia.
  - specialize (IH _ _ Hj Hoff). lia.
Qed.

(** The strings [l] with their offsets from [t] on, at the indices from [i] on. *)
Definition strings_at (m : mem) (info i t : Z) (l : list (list Z)) : Prop :=
  forall j s off, l !! j = Some s -> offsets t l !! j = Some off ->
    half_at m (info_args info + 2 * (i + Z.of_nat j)) off /\ cstr_at m (info_buffer info + off) s.

Lemma half_at_frame m m' a v : half_at m a v -> (forall x, a <= x < a + 2 -> m' !! x = m !! x) -> half_at m' a v.
Proof. intros [Hv Hb] Hf. split; [done|]. by apply (bytes_at_frame m). Qed.

Lemma exec_info_spec l info i t m : Forall (Forall is_char) l -> 0 <= i -> i + Z.of_nat (length l) <= 16 ->
  0 <= t -> t + room l <= sizeof_info_buffer -> mapped m info sizeof_runtime_info ->
  exists m', exec_info info i t l m = Ret (tt, m') /\ strings_at m' info i t l /\
    (forall x, ~ (info_args info + 2 * i <= x < info_args info + 2 * (i + Z.of_nat (length l))) ->
      ~ (info_buffer info + t <= x < info_buffer info + t + room l) -> m' !! x = m !! x) /\
    (forall a n, mapped m a n -> mapped m' a n).
Proof.
  intros Hl. revert i t m. induction Hl as [|s l Hs Hl IH]; intros i t m Hi Hlen Ht Hroom Hm; cbn [exec_info].
  { exists m. split; [done|]. split; [by intros [|j] s off|]. done. }
  cbn [room length foldr] in *. pose proof (room_nonneg l) as Hr.
  assert (sizeof_info_buffer = 492) as Esize by reflexivity.
  rewrite (proj2 (Z.leb_le _ _)) by lia.
  unfold sizeof_runtime_info, info_args, info_buffer, PROCESS_MAX_ARGUMENTS in *.
  set (m1 := write_bytes m (info + 4 + 2 * 16 + t) (s ++ [0])).
  assert (mapped m1 info (4 + 2 * 16 + sizeof_info_buffer)) as Hm1 by by apply mapped_write.
  rewrite (bind_Ret _ _ _ tt m1); [|apply store_string_spec; [intros x Hx; apply Hm; lia|done]].
  set (m2 := write_bytes m1 (info + 4 + 2 * i) [u8 t; u8 (Z.shiftr t 8)]).
  rewrite (bind_Ret _ _ _ tt m2); [|apply store16_at; intros x Hx; apply Hm1; lia].
  destruct (IH (i + 1) (t + Z.of_nat (length s) + 1) m2) as (m3 & Hrun & Hat & Hframe & Hmap); try lia.
  { by apply mapped_write. }
  exists m3. split; [exact Hrun|]. split; [|split; [|by intros a n Ha; apply Hmap, mapped_write, mapped_write]].
  - intros [|j] s' off Hj Hoff; cbn in Hj, Hoff.
    + injection Hj as <-. injection Hoff as <-. unfold info_args, info_buffer, PROCESS_MAX_ARGUMENTS. split.
      * apply (half_at_frame m2); [|intros x Hx; apply Hframe; lia]. rewrite Z.add_0_r.
        split; [unfold urange; pow2_literals; lia|apply bytes_at_write].
      * apply (cstr_at_frame m2); [|intros x Hx; apply Hframe; lia]. apply cstr_at_write_out; [cbn; lia|].
        split; [done|apply bytes_at_write].
    + destruct (Hat j s' off Hj Hoff) as [H1 H2]. split; [|done].
      by replace (i + Z.of_nat (S j)) with (i + 1 + Z.of_nat j) by lia.
  - intros x Hx1 Hx2. rewrite Hframe by lia. unfold m2, m1.
    rewrite lookup_write_out by (cbn; lia). apply lookup_write_out. rewrite length_app. cbn. lia.
Qed.

Lemma strings_at_frame m m' info i t l n : strings_at m info i t l -> 0 <= i -> 0 <= t -> i + Z.of_nat (length l) <= 16 ->
  t + room l <= n -> (forall x, info_args info <= x < info_buffer info + n -> m' !! x = m !! x) -> strings_at m' info i t l.
Proof.
  intros H Hi Ht Hl Hr Hf j s off Hj Hoff. destruct (H j s off Hj Hoff) as [H1 H2].
  pose proof (lookup_lt_Some _ _ _ Hj) as Hlt. pose proof (offsets_room l t j s off Hj Hoff) as Hroom.
  unfold info_args, info_buffer, PROCESS_MAX_ARGUMENTS in *. split.
  - apply (half_at_frame m); [done|]. intros x Hx. apply Hf. lia.
  - apply (cstr_at_frame m); [done|]. intros x Hx. apply Hf. lia.
Qed.

(** The block at the top of the new stack, [info] at [esp]: its address is the
    argument of the entry code, above the word for the alignment. *)
Lemma exec_stack_spec `{L : !Layout} pid sargs m : let esp := u32 (stack_top user_stack_pos pid - sizeof_runtime_info) in
  Forall (Forall is_char) sargs -> (length sargs <= 16)%nat -> room sargs <= sizeof_info_buffer ->
  mapped m (esp - 4) (4 + sizeof_runtime_info) -> 4 <= esp ->
  exists m', exec_stack pid sargs m = Ret (esp - 4, m') /\ word_at m' (esp - 4) 0 /\ word_at m' esp esp /\
    runtime_info_at m' esp (offsets 0 sargs) /\ strings_at m' esp 0 0 sargs /\
    (forall x, ~ (esp - 4 <= x < esp + sizeof_runtime_info) -> m' !! x = m !! x) /\
    forall a n, mapped m a n -> mapped m' a n.
Proof.
  intros esp Hs Hlen Hroom Hm Hesp. assert (sizeof_info_buffer = 492) as Eb by reflexivity.
  assert (sizeof_runtime_info = 528) as Es by reflexivity. rewrite Es, Eb in *.
  assert (urange 32 esp) as Hu by by apply wrap_range.
  unfold exec_stack. fold esp. clearbody esp. set (m1 := write_bytes m (info_args esp) (replicate 32 255)).
  assert (mapped m1 (esp - 4) 532) as Hm1 by by apply mapped_write.
  rewrite (bind_Ret _ _ _ (info_args esp) m1);
    [|apply (memset_spec _ 255); [done|intros x Hx; apply Hm; unfold info_args, PROCESS_MAX_ARGUMENTS in *; lia]].
  destruct (exec_info_spec sargs esp 0 0 m1 Hs) as (m2 & Hinfo & Hat & Hf2 & Hm2); try lia.
  { rewrite Es. intros x Hx. apply Hm1. lia. }
  rewrite (bind_Ret _ _ _ _ _ Hinfo). set (m3 := write_bytes m2 esp (le32 esp)).
  assert (forall a n, mapped m a n -> mapped m2 a n) as Hmm by (intros a n Ha; by apply Hm2, mapped_write).
  apply Hm2 in Hm1. assert (mapped m3 (esp - 4) 532) as Hm3 by by apply mapped_write.
  unfold info_args, info_buffer, PROCESS_MAX_ARGUMENTS in *.
  rewrite (bind_Ret _ _ _ tt m3); [|apply store32_at; intros x Hx; apply Hm1; lia].
  replace (u32 (esp - 4)) with (esp - 4) by (symmetry; apply wrap_small; unfold urange in *; lia).
  set (m4 := write_bytes m3 (esp - 4) (le32 0)).
  assert (forall x, ~ (esp - 4 <= x < esp + 4) -> m4 !! x = m2 !! x) as Hf4.
  { intros x Hx. unfold m4, m3. rewrite !lookup_write_out; [done|cbn; lia|cbn; lia]. }
  exists m4. split; [|split; [|split; [|split; [|split; [|split]]]]].
  - rewrite (bind_Ret _ _ _ tt m4); [done|]. apply store32_at. intros x Hx. apply Hm3. lia.
  - by apply word_at_store.
  - unfold m4. apply word_at_write_out; [cbn; lia|]. by apply word_at_store.
  - split; [by rewrite offsets_length|]. split; [|split].
    + eapply list.Forall_impl; [apply offsets_range|]. cbn. lia.
    + intros i off Hi. destruct (lookup_lt_is_Some_2 sargs i) as [s Hsi].
      { apply lookup_lt_Some in Hi. by rewrite offsets_length in Hi. }
      destruct (Hat i s off Hsi Hi) as [H _]. apply lookup_lt_Some in Hsi. unfold info_args, PROCESS_MAX_ARGUMENTS in *.
      apply (half_at_frame m2); [exact H|]. intros x Hx. apply Hf4. lia.
    + rewrite offsets_length. intros Hl. split; [done|]. apply (bytes_at_frame m1).
      * apply bytes_at_lookup. intros i b Hi. unfold m1. rewrite lookup_write_bytes. unfold info_args, PROCESS_MAX_ARGUMENTS.
        pose proof (lookup_lt_Some _ _ _ Hi) as Hb. cbn in Hb. rewrite decide_True by (rewrite length_replicate; lia).
        rewrite lookup_replicate_2 by lia. destruct i as [|[|i]]; [by injection Hi as <-|by injection Hi as <-|lia].
      * unfold info_args, PROCESS_MAX_ARGUMENTS. cbn [length]. intros x Hx. rewrite Hf4, Hf2 by lia. done.
  - apply (strings_at_frame m2 _ _ _ _ _ 492); try done; try lia.
    unfold info_args, info_buffer, PROCESS_MAX_ARGUMENTS. intros x Hx. apply Hf4. lia.
  - intros x Hx. rewrite Hf4, Hf2 by lia. apply lookup_write_out. rewrite length_replicate. lia.
  - intros a n Ha. by apply mapped_write, mapped_write, Hmm.
Qed.

(** ** From the caller's array to main's *)
Lemma runtime_info_frame m m' info offs : runtime_info_at m info offs ->
  (forall x, info <= x < info + 36 -> m' !! x = m !! x) -> runtime_info_at m' info offs.
Proof.
  intros (Hl & Hr & Ho & He) Hf. split; [done|]. split; [done|]. unfold info_args in *. split.
  - intros i off Hi. apply (half_at_frame m); [by apply Ho|]. apply lookup_lt_Some in Hi. intros x Hx. apply Hf. lia.
  - intros Hlt. apply (half_at_frame m); [by apply He|]. intros x Hx. apply Hf. lia.
Qed.

Lemma room_take l n : (length l <= n)%nat -> room (map (take 19) l) <= 20 * Z.of_nat n.
Proof.
  revert n. induction l as [|s l IH]; intros n Hn; cbn [map room length] in *; [lia|].
  destruct n as [|n]; [lia|]. specialize (IH n ltac:(lia)). rewrite length_take. lia.
Qed.

Lemma Forall_chars_take strs : Forall (Forall is_char) strs -> Forall (Forall is_char) (map (take 19) strs).
Proof. intros H. apply Forall_map. eapply list.Forall_impl; [exact H|]. intros s Hs. by apply Forall_take. Qed.

(** C10: The arguments of exec() arrive: whatever the caller's array and the memory
    in between are, the program that starts on the new stack is called with as
    many arguments as the array has (16 at most), each of them the caller's
    string cut to 19 characters, and with NULL after them. *)
Theorem argv_roundtrip `{L : !Layout} {W} `{!Trap W} pid m args strs : args_at 16 m args strs ->
  let esp := u32 (stack_top user_stack_pos pid - sizeof_runtime_info) in
  exists sargs, exec_args 16 args m = Ret (sargs, m) /\
  forall m1, mapped m1 (esp - 4) (4 + sizeof_runtime_info) -> 4 <= esp -> esp + 2 ^ 17 < 2 ^ 32 ->
  exists m2, exec_stack pid sargs m1 = Ret (esp - 4, m2) /\ word_at m2 (esp - 4) 0 /\ word_at m2 esp esp /\
  (forall a, ~ (esp - 4 <= a < esp + sizeof_runtime_info) -> m2 !! a = m1 !! a) /\
  forall m3 (main : Z -> Z -> prog (mem * W) Z) argv x,
    (forall a, esp <= a < esp + sizeof_runtime_info -> m3 !! a = m2 !! a) -> mapped m3 argv 68 ->
    argv + 68 <= esp \/ esp + sizeof_runtime_info <= argv ->
    exists m4 ptrs, start main argv esp (m3, x) = (main (Z.of_nat (length strs)) argv ≫= UserLib.exit) (m4, x) /\
      words_at m4 argv (ptrs ++ [0]) /\ Forall2 (cstr_at m4) ptrs (map (take 19) strs).
Proof.
  intros Ha esp. destruct (args_at_chars _ _ _ _ Ha) as [Hlen Hch]. exists (map (take 19) strs).
  split; [by apply exec_args_spec|]. intros m1 Hm1 H4 Hmax.
  assert (sizeof_info_buffer = 492) as Eb by reflexivity. assert (sizeof_runtime_info = 528) as Es by reflexivity.
  pose proof (room_take _ _ Hlen) as Hroom.
  destruct (exec_stack_spec pid (map (take 19) strs) m1) as (m2 & Hrun & H0 & Hesp & Hinfo & Hat & Hframe & _); try done.
  { by apply Forall_chars_take. } { by rewrite length_map. } { lia. }
  fold esp in Hrun, H0, Hesp, Hinfo, Hat, Hframe. clearbody esp. exists m2. do 4 (split; [done|]).
  intros m3 main argv x Hsame Hm3 Hd. rewrite Es in *.
  assert (strings_at m3 esp 0 0 (map (take 19) strs)) as Hat3.
  { apply (strings_at_frame m2 _ _ _ _ _ 492); try done; rewrite ?length_map; try lia.
    unfold info_args, info_buffer, PROCESS_MAX_ARGUMENTS. intros a Hx. apply Hsame. lia. }
  assert (runtime_info_at m3 esp (offsets 0 (map (take 19) strs))) as Hinfo3.
  { apply (runtime_info_frame m2); [done|]. intros a Hx. apply Hsame. lia. }
  destruct (start_correct main argv esp _ m3 x Hinfo3 Hm3) as (m4 & Hstart & Hw & Hf); [lia|lia|lia|].
  rewrite offsets_length, length_map in Hstart.
  eexists m4, _. split; [exact Hstart|]. split; [exact Hw|].
  apply Forall2_same_length_lookup_2.
  { by rewrite length_map, offsets_length. }
  intros i p s Hp Hs. rewrite list_lookup_fmap in Hp. apply fmap_Some in Hp as (off & Hoff & ->).
  destruct (Hat3 i s off Hs Hoff) as [_ H]. apply (cstr_at_frame m3); [done|].
  pose proof (offsets_room _ _ _ _ _ Hs Hoff). unfold info_buffer, PROCESS_MAX_ARGUMENTS. intros a Hx. apply Hf. lia.
Qed.

(** ** A process 1 with its stack below 20384: argv[0] is short, argv[1] too long *)
Section small.
#[local] Instance small_layout : Layout := {| USER_SPACE_START := 0x100000; user_stack_pos := 4000; kernel_stack_pos := 50000 |}.
#[local] Instance small_trap : Trap unit := fun n a b c d e => mret 0.

Definition args_example : mem :=
  mem_of [(1000, le32s [1100; 1200; 0]); (1100, chars "echo" ++ [0]); (1200, chars "more than 19 characters" ++ [0]);
          (3000, replicate 68 1); (19852, replicate 532 1)].

Lemma argv_roundtrip_witness : exists m2 m4 p q,
  exec_stack 1 [chars "echo"; chars "more than 19 charac"] args_example = Ret (19852, m2) /\
  start (fun argc argv => mret argc) 3000 19856 (m2, tt) = UserLib.exit 2 (m4, tt) /\
  words_at m4 3000 [p; q; 0] /\ cstr_at m4 p (chars "echo") /\ cstr_at m4 q (chars "more than 19 charac").
Proof.
  assert (args_at 16 args_example 1000 [chars "echo"; chars "more than 19 characters"]) as Ha.
  { assert (forall a v, urange 32 v -> bytes_at args_example a (le32 v) -> word_at args_example a v) as Hw by done.
    cbn [args_at]. split; [exists 1100|split; [exists 1200|]];
      repeat split; try lia; try (by vm_compute); try (by apply bytes_at_compute; vm_compute; reflexivity);
      try (repeat constructor; unfold is_char; lia). }
  destruct (argv_roundtrip 1 args_example 1000 _ Ha) as (sargs & Hargs & Hstack).
  assert (exec_args 16 1000 args_example = Ret ([chars "echo"; chars "more than 19 charac"], args_example)) as Hrun
    by (vm_compute; reflexivity).
  rewrite Hrun in Hargs. apply (f_equal (fun r => match r with Ret (s, _) => s | _ => [] end)) in Hargs. cbn beta iota in Hargs.
  subst sargs.
  destruct (Hstack args_example) as (m2 & Hm2 & _ & _ & Hframe & Hstart); [mem_compute|vm_compute; done|vm_compute; done|].
  destruct (Hstart m2 (fun argc argv => mret argc) 3000 tt) as (m4 & ptrs & H1 & H2 & H3); [done| |left; vm_compute; done|].
  { assert (mapped args_example 3000 68) as Hm by mem_compute. intros x Hx. destruct (Hm x Hx) as [v Hv]. exists v.
    rewrite Hframe; [exact Hv|]. change (~ (19852 <= x < 20384)). lia. }
  inversion H3 as [|p s1 ps ss Hp H4]; subst. inversion H4 as [|q s2 qs ss2 Hq H5]; subst. inversion H5; subst.
  exists m2, m4, p, q. split; [exact Hm2|]. split; [exact H1|]. split; [exact H2|]. split; [exact Hp|exact Hq].
Defined.
End small.
