(* ===== verification/File.v ===== *)
(** * File: src/src/objects/Disk.cpp and File.cpp

    Disks, the files that are a run of sectors, and the files that are a chain
    of clusters of the FAT.  The content of a sector is what the BIOS call
    copies to the buffer, a parameter; files are only read. *)
From S2P Require Import Prelude.

(** ** Disk.cpp *)

(** What interrupt 0x13 of the BIOS reads from a drive. *)
Class Bios := int13 : Z -> Z -> list Z.

Inductive disk := PhysicalDisk (drive_number : Z) | LogicalDisk (parent : disk) (begin_lba : Z).

Section disk.
Context `{!Bios}.

Fixpoint readSector (d : disk) (lba : Z) : list Z :=
  match d with
  | PhysicalDisk drive_number => int13 drive_number lba
  | LogicalDisk parent begin_lba => readSector parent (u32 (lba + begin_lba))
  end.

Definition le16_at (l : list Z) (i : nat) : Z := l !!! i + 256 * l !!! S i.
Definition le32_at (l : list Z) (i : nat) : Z := le16_at l i + 65536 * le16_at l (i + 2).

(** The partition table of the master boot record. *)
Definition lba_start (mbr : list Z) (i : Z) : Z := le32_at mbr (446 + 16 * Z.to_nat i + 8).

(** [seq] is the list of the drive and of its partitions; an entry of the
    table past the fourth is outside it. *)
Definition getBootDisk (seq : list Z) : outcome disk :=
  match seq with
  | [drive; part; sub; _] =>
      if sub =? 0xFF then
        let now := PhysicalDisk drive in
        let buffer := readSector now 0 in
        if part =? 0xFF then Ret now
        else if part <? 4 then Ret (LogicalDisk now (lba_start buffer part)) else Fault
      else Panic "Only support top level partition"
  | _ => Fault
  end.
End disk.

(** ** File.cpp *)
Definition EOF : Z := -1.
Definition SEEK_SET : Z := 0.
Definition SEEK_CUR : Z := 1.
Definition SEEK_END : Z := 2.
Definition F_REG : Z := 0.
Definition F_DIR : Z := 1.
Definition CLUSTER_END : Z := 0xFFF8.

Record FileStat := { stat_size : Z; stat_mode : Z }.

(** What FSInfo of FileSystem.hpp holds of a volume. *)
Record fs_info := {
  sectors_per_cluster : Z;
  total_sectors : Z;
  fat_size : Z;
  root_dir_sectors : Z;
  first_data_sector : Z;
  first_fat_sector : Z;
  data_sectors : Z;
  total_clusters : Z
}.

Record seq_file := SeqFile {
  sf_cursor : Z;
  sf_begin : Z;
  sf_end : Z;
  sf_filesize : Z;
  sf_buffer_pos : Z;
  sf_buffer : list Z
}.

Record cluster_file := ClusFile {
  cf_start : Z;
  cf_cursor : Z;
  cf_cluster_num : Z;
  cf_stat : FileStat;
  cf_clusters : list Z;
  cf_buffer_pos : Z;
  cf_buffer : list Z
}.

Definition sf_seek (c : Z) (f : seq_file) : seq_file :=
  SeqFile c (sf_begin f) (sf_end f) (sf_filesize f) (sf_buffer_pos f) (sf_buffer f).
Definition sf_load (pos : Z) (b : list Z) (f : seq_file) : seq_file :=
  SeqFile (sf_cursor f) (sf_begin f) (sf_end f) (sf_filesize f) pos b.
Definition cf_seek (c : Z) (f : cluster_file) : cluster_file :=
  ClusFile (cf_start f) c (cf_cluster_num f) (cf_stat f) (cf_clusters f) (cf_buffer_pos f) (cf_buffer f).
Definition cf_load (pos : Z) (b : list Z) (f : cluster_file) : cluster_file :=
  ClusFile (cf_start f) (cf_cursor f) (cf_cluster_num f) (cf_stat f) (cf_clusters f) pos b.

(** The loop of both read() functions: the bytes it stores. *)
Fixpoint read_loop {S} (getc : prog S Z) (n : nat) : prog S (list Z) :=
  match n with
  | O => mret []
  | Datatypes.S n =>
      ch ← getc;
      if ch =? EOF then mret [] else l ← read_loop getc n; mret (ch :: l)
  end.

(** The switch of both seek() functions: the new cursor. *)
Definition seek_to (cursor size pos whence : Z) : option Z :=
  if whence =? SEEK_CUR then Some (u32 (cursor + pos))
  else if whence =? SEEK_SET then Some (u32 pos)
  else if whence =? SEEK_END then Some (u32 (size + pos))
  else None.

Section files.
Context `{!Bios}.
Variable d : disk.
Variable info : fs_info.

(** *** SequentialFile *)
Definition createSequentialFile (first last : Z) : seq_file :=
  SeqFile 0 first last (u32 ((last - first) * 512)) (-1) [].

Definition seq_ensureCursorInBuffer (f : seq_file) : seq_file :=
  let cursor_sector := sf_cursor f / 512 in
  if cursor_sector =? sf_buffer_pos f then f
  else sf_load cursor_sector (readSector d (u32 (cursor_sector + sf_begin f))) f.

Definition seq_getc : prog seq_file Z := fun f =>
  if sf_filesize f <=? sf_cursor f then Ret (EOF, f)
  else
    let f := seq_ensureCursorInBuffer f in
    match sf_buffer f !! Z.to_nat (sf_cursor f mod 512) with
    | Some b => Ret (b, sf_seek (u32 (sf_cursor f + 1)) f)
    | None => Fault
    end.

Definition seq_read (size : Z) : prog seq_file (list Z) := read_loop seq_getc (Z.to_nat size).

Definition seq_seek (pos whence : Z) : prog seq_file Z := fun f =>
  match seek_to (sf_cursor f) (sf_filesize f) pos whence with
  | Some c => Ret (0, sf_seek c f)
  | None => Ret (-1, f)
  end.

Definition seq_tell (f : seq_file) : Z := sf_cursor f.
Definition seq_stat (f : seq_file) : FileStat := {| stat_size := sf_filesize f; stat_mode := F_DIR |}.

(** *** ClusterFile *)

(** [fat_file->seek(now_cluster * 2); fat_file->read(&now_cluster, 2)]: a read
    past the end leaves the variable, or its high byte, as it was. *)
Definition next_cluster (now_cluster : Z) : prog seq_file Z :=
  seq_seek (now_cluster * 2) SEEK_SET;;
  l ← seq_read 2;
  mret (match l with
        | [] => now_cluster
        | [b] => now_cluster / 256 * 256 + b
        | b0 :: b1 :: _ => b0 + 256 * b1
        end).

(** The first loop of the constructor: the number of clusters, and the size
    of a directory.  A chain without an end makes it run for ever. *)
Fixpoint count_clusters (fuel : nat) (now_cluster mode size count : Z) : prog seq_file (Z * Z) :=
  match fuel with
  | O => pnofuel
  | S fuel =>
      if now_cluster <? CLUSTER_END then
        let size := if mode =? F_DIR then u32 (size + sectors_per_cluster info * 512) else size in
        next ← next_cluster now_cluster;
        count_clusters fuel next mode size (count + 1)
      else mret (size, count)
  end.

(** The second loop: the array [clusters] from the index [count] on. *)
Fixpoint list_clusters (fuel : nat) (now_cluster size cluster_num count : Z) : prog seq_file (list Z) :=
  match fuel with
  | O => pnofuel
  | S fuel =>
      if (now_cluster <? CLUSTER_END) && (count * sectors_per_cluster info * 512 <? size) then
        if count <? cluster_num then
          next ← next_cluster now_cluster;
          l ← list_clusters fuel next size cluster_num (count + 1);
          mret (now_cluster :: l)
        else ppanic "count < cluster_num"
      else mret []
  end.

(** A chain that ends has fewer clusters than there are 16-bit numbers. *)
Definition chain_fuel : nat := Z.to_nat 65536.

(** The constructor; it works on the file of the FAT. *)
Definition createFileByCluster (start_cluster_pos : Z) (stat : FileStat) : prog seq_file cluster_file :=
  let size := if stat_mode stat =? F_DIR then 0 else stat_size stat in
  '(size, cluster_num) ← count_clusters chain_fuel (u16 start_cluster_pos) (stat_mode stat) size 0;
  let capacity := u32 (cluster_num * sectors_per_cluster info * 512) in
  let size := if size <? capacity then capacity else size in
  clusters ← list_clusters chain_fuel (u16 start_cluster_pos) size cluster_num 0;
  mret (ClusFile start_cluster_pos 0 cluster_num
    {| stat_size := size; stat_mode := stat_mode stat |} clusters (-1) []).

(** An index past the array of clusters is undefined. *)
Definition clus_ensureCursorInBuffer (f : cluster_file) : option cluster_file :=
  let cursor_sector := cf_cursor f / 512 in
  let cursor_cluster_ind := cursor_sector / sectors_per_cluster info in
  cursor_cluster ← cf_clusters f !! Z.to_nat cursor_cluster_ind;
  let cursor_sector := u32 (cursor_sector mod sectors_per_cluster info +
    ((cursor_cluster - 2) * sectors_per_cluster info + first_data_sector info)) in
  Some (if cursor_sector =? cf_buffer_pos f then f
        else cf_load cursor_sector (readSector d cursor_sector) f).

Definition clus_getc : prog cluster_file Z := fun f =>
  if stat_size (cf_stat f) <=? cf_cursor f then Ret (EOF, f)
  else
    match clus_ensureCursorInBuffer f with
    | None => Fault
    | Some f =>
        match cf_buffer f !! Z.to_nat (cf_cursor f mod 512) with
        | Some b => Ret (b, cf_seek (u32 (cf_cursor f + 1)) f)
        | None => Fault
        end
    end.

Definition clus_read (size : Z) : prog cluster_file (list Z) := read_loop clus_getc (Z.to_nat size).

Definition clus_seek (pos whence : Z) : prog cluster_file Z := fun f =>
  match seek_to (cf_cursor f) (stat_size (cf_stat f)) pos whence with
  | Some c => Ret (0, cf_seek c f)
  | None => Ret (-1, f)
  end.

Definition clus_tell (f : cluster_file) : Z := cf_cursor f.

(** *** The virtual functions of File *)
Inductive file := SequentialFile (f : seq_file) | ClusterFile (f : cluster_file).

Definition file_getc : prog file Z := fun f =>
  match f with
  | SequentialFile f => match seq_getc f with
      | Ret (r, f) => Ret (r, SequentialFile f) | Fault => Fault | Panic m => Panic m | NoFuel => NoFuel end
  | ClusterFile f => match clus_getc f with
      | Ret (r, f) => Ret (r, ClusterFile f) | Fault => Fault | Panic m => Panic m | NoFuel => NoFuel end
  end.
Definition file_read (size : Z) : prog file (list Z) := read_loop file_getc (Z.to_nat size).
Definition file_seek (pos whence : Z) : prog file Z := fun f =>
  match f with
  | SequentialFile f => match seq_seek pos whence f with
      | Ret (r, f) => Ret (r, SequentialFile f) | Fault => Fault | Panic m => Panic m | NoFuel => NoFuel end
  | ClusterFile f => match clus_seek pos whence f with
      | Ret (r, f) => Ret (r, ClusterFile f) | Fault => Fault | Panic m => Panic m | NoFuel => NoFuel end
  end.
Definition file_tell (f : file) : Z :=
  match f with SequentialFile f => seq_tell f | ClusterFile f => clus_tell f end.
Definition file_stat (f : file) : FileStat :=
  match f with SequentialFile f => seq_stat f | ClusterFile f => cf_stat f end.
End files.
