(* ===== verification/FileSpec.v ===== *)
(** * FileSpec: what the files of File.v promise

    A file is a stream of bytes: its content is fixed by the disk, and reads
    return it in order from the cursor on. *)
From S2P Require Import Prelude File.

(** ** Streams: the interface between the files and their clients *)
Class Stream {S} (getc : prog S Z) (content : list Z) := {
  st_ok : S -> Prop;
  st_pos : S -> Z;
  st_nonneg s : st_ok s -> 0 <= st_pos s;
  st_bytes : Forall (urange 8) content;
  st_eof s : st_ok s -> Z.of_nat (length content) <= st_pos s -> getc s = Ret (EOF, s);
  st_next s b : st_ok s -> content !! Z.to_nat (st_pos s) = Some b ->
    exists s', getc s = Ret (b, s') /\ st_ok s' /\ st_pos s' = st_pos s + 1
}.

Lemma read_loop_spec {S} (getc : prog S Z) content `{HS : !Stream getc content} n s :
  st_ok s ->
  let l := take n (drop (Z.to_nat (st_pos s)) content) in
  exists s', read_loop getc n s = Ret (l, s') /\ st_ok s' /\ st_pos s' = st_pos s + Z.of_nat (length l).
Proof.
  revert s. induction n as [|n IH]; intros s Hok; cbn [read_loop].
  { exists s. rewrite take_0. split; [done|]. split; [done|]. simpl. lia. }
  pose proof (st_nonneg s Hok) as Hpos.
  destruct (content !! Z.to_nat (st_pos s)) as [b|] eqn:Hb.
  - destruct (st_next s b Hok Hb) as (s1 & Hget & Hok1 & Hpos1).
    assert (0 <= b < 256) as Hr by (by apply (list.Forall_lookup_1 _ _ _ _ st_bytes Hb)).
    rewrite (bind_Ret _ _ _ _ _ Hget). destruct (Z.eqb_spec b EOF) as [->|_]; [unfold EOF in Hr; lia|].
    destruct (IH s1 Hok1) as (s2 & Hread & Hok2 & Hpos2). rewrite (bind_Ret _ _ _ _ _ Hread).
    exists s2. rewrite (drop_S _ _ _ Hb). cbn [take].
    rewrite Hpos1, Z2Nat.inj_add, Nat.add_1_r in * by lia. cbn [length]. split; [done|]. split; [done|lia].
  - apply lookup_ge_None in Hb. rewrite (bind_Ret _ _ _ _ _ (st_eof s Hok ltac:(lia))).
    exists s. rewrite drop_ge by lia. split; [done|]. split; [done|]. rewrite take_nil. simpl. lia.
Qed.

(** ** Lists of blocks of one size *)
Lemma lookup_concat_blocks {A} (k : nat) (ls : list (list A)) i :
  (0 < k)%nat -> Forall (fun l => length l = k) ls ->
  concat ls !! i = l ← ls !! (i / k)%nat; l !! (i mod k)%nat.
Proof.
  intros Hk Hls. revert i. induction Hls as [|l ls Hl _ IH]; intros i; [done|]. cbn [concat].
  destruct (decide (i < k)%nat) as [Hlt|Hge].
  - rewrite lookup_app_l, Nat.div_small, Nat.mod_small by lia. done.
  - rewrite lookup_app_r, IH, Hl by lia. pose proof (Nat.div_add (i - k) 1 k) as Hd.
    pose proof (Nat.Div0.mod_add (i - k) 1 k) as Hm. rewrite Nat.mul_1_l, Nat.sub_add in * by lia.
    rewrite Hd, Hm, Nat.add_1_r by lia. done.
Qed.

Lemma length_concat_blocks {A} (k : nat) (ls : list (list A)) :
  Forall (fun l => length l = k) ls -> length (concat ls) = (length ls * k)%nat.
Proof. induction 1 as [|l ls Hl _ IH]; [done|]. cbn. rewrite length_app. lia. Qed.

Lemma Forall_concat {A} (P : A -> Prop) ls : Forall (Forall P) ls -> Forall P (concat ls).
Proof. induction 1; cbn; [constructor|]. by apply list.Forall_app. Qed.

(** ** The files of a disk whose sectors have 512 bytes *)
Class GoodBios `{HB : Bios} := {
  int13_length drive lba : length (int13 drive lba) = 512%nat;
  int13_bytes drive lba : Forall (urange 8) (int13 drive lba)
}.
Arguments GoodBios : clear implicits.

Section spec.
Context `{HB : !Bios} `{HG : !GoodBios HB}.
Variable d : disk.
Variable info : fs_info.

Lemma readSector_length lba : length (readSector d lba) = 512%nat.
Proof. revert lba. induction d as [drive|p IH b]; intros lba; [apply int13_length|apply IH]. Qed.

Lemma readSector_bytes lba : Forall (urange 8) (readSector d lba).
Proof. revert lba. induction d as [drive|p IH b]; intros lba; [apply int13_bytes|apply IH]. Qed.

Definition sectors_content (lbas : list Z) : list Z := concat (map (readSector d) lbas).

Lemma sectors_blocks lbas : Forall (fun l => length l = 512%nat) (map (readSector d) lbas).
Proof. apply Forall_fmap, Forall_true. intros lba. apply readSector_length. Qed.

Lemma sectors_length lbas : Z.of_nat (length (sectors_content lbas)) = Z.of_nat (length lbas) * 512.
Proof. unfold sectors_content. rewrite (length_concat_blocks 512), length_map by apply sectors_blocks. lia. Qed.

Lemma sectors_bytes lbas : Forall (urange 8) (sectors_content lbas).
Proof. apply Forall_concat, Forall_fmap, Forall_true. intros lba. apply readSector_bytes. Qed.

Lemma sectors_lookup lbas c b : 0 <= c ->
  sectors_content lbas !! Z.to_nat c = Some b ->
  exists lba, lbas !! Z.to_nat (c / 512) = Some lba /\ readSector d lba !! Z.to_nat (c mod 512) = Some b.
Proof.
  intros Hc. unfold sectors_content. rewrite (lookup_concat_blocks 512) by (lia || apply sectors_blocks).
  rewrite list_lookup_fmap. change 512%nat with (Z.to_nat 512).
  rewrite <- Z2Nat.inj_div, <- Z2Nat.inj_mod by lia.
  destruct (lbas !! _) as [lba|]; [|done]. intros Hb. by exists lba.
Qed.

(** *** Sequential files *)
Definition run_of (first last : Z) : list Z := map (fun i => u32 (i + first)) (seqZ 0 (last - first)).

Record seq_ok (first last : Z) (f : seq_file) : Prop := {
  seq_first : sf_begin f = first;
  seq_size : sf_filesize f = (last - first) * 512;
  seq_cursor : urange 32 (sf_cursor f);
  seq_range : first <= last /\ (last - first) * 512 < 2 ^ 32;
  seq_buffer : sf_buffer_pos f = -1 \/
    sf_buffer f = readSector d (u32 (sf_buffer_pos f + first))
}.

Lemma seq_create first last : first <= last -> (last - first) * 512 < 2 ^ 32 ->
  seq_ok first last (createSequentialFile first last).
Proof.
  intros H1 H2. split; cbn; [done| |done|done|by left]. apply wrap_small. unfold urange. lia.
Qed.

Lemma seq_content_length first last : first <= last ->
  Z.of_nat (length (sectors_content (run_of first last))) = (last - first) * 512.
Proof. intros H. rewrite sectors_length. unfold run_of. rewrite length_map, length_seqZ. lia. Qed.

Lemma seq_getc_eof first last f : seq_ok first last f ->
  (last - first) * 512 <= sf_cursor f -> seq_getc d f = Ret (EOF, f).
Proof. intros Hok Hge. unfold seq_getc. rewrite (seq_size _ _ _ Hok). case_match; [done|]. lia. Qed.

Lemma seq_getc_next first last f b : seq_ok first last f ->
  sectors_content (run_of first last) !! Z.to_nat (sf_cursor f) = Some b ->
  exists f', seq_getc d f = Ret (b, f') /\ seq_ok first last f' /\ sf_cursor f' = sf_cursor f + 1.
Proof.
  intros Hok Hb. pose proof (seq_range _ _ _ Hok) as [Hle Hlt]. pose proof (seq_cursor _ _ _ Hok) as Hc.
  unfold urange in Hc. pose proof (lookup_lt_Some _ _ _ Hb) as Hin.
  pose proof (seq_content_length first last Hle) as Hlen.
  apply sectors_lookup in Hb as (lba & Hlba & Hb); [|lia].
  unfold run_of in Hlba. rewrite list_lookup_fmap, lookup_seqZ_lt in Hlba
    by (rewrite Z2Nat.id by (apply Z.div_pos; lia); apply Z.div_lt_upper_bound; lia).
  injection Hlba as <-. rewrite Z.add_0_l, Z2Nat.id in Hb by (apply Z.div_pos; lia).
  unfold seq_getc. rewrite (seq_size _ _ _ Hok).
  destruct (Z.leb_spec ((last - first) * 512) (sf_cursor f)); [lia|].
  set (f1 := seq_ensureCursorInBuffer d f).
  assert (seq_ok first last f1 /\ sf_cursor f1 = sf_cursor f /\
    sf_buffer f1 = readSector d (u32 (sf_cursor f / 512 + first))) as (Hok1 & Hc1 & Hb1).
  { unfold f1, seq_ensureCursorInBuffer. rewrite (seq_first _ _ _ Hok).
    destruct (Z.eqb_spec (sf_cursor f / 512) (sf_buffer_pos f)) as [E|_].
    - split; [done|]. split; [done|]. rewrite E. destruct (seq_buffer _ _ _ Hok) as [E'|]; [|done].
      pose proof (Z.div_pos (sf_cursor f) 512). lia.
    - split; [|done]. destruct Hok. split; cbn; auto. }
  rewrite Hc1, Hb1, Hb. eexists. split; [done|]. cbn.
  assert (u32 (sf_cursor f + 1) = sf_cursor f + 1) as E by (apply wrap_small; unfold urange; lia).
  split; [|done]. destruct Hok1. split; cbn; auto. rewrite E. unfold urange. lia.
Qed.

Lemma seq_seek_set first last c f : seq_ok first last f -> urange 32 c ->
  seq_seek c SEEK_SET f = Ret (0, sf_seek c f) /\ seq_ok first last (sf_seek c f).
Proof.
  intros Hok Hc. unfold seq_seek, seek_to. cbn. rewrite wrap_small by done. split; [done|].
  destruct Hok. by split.
Qed.

#[export] Program Instance seq_stream first last :
  Stream (seq_getc d) (sectors_content (run_of first last)) :=
  {| st_ok := seq_ok first last; st_pos := sf_cursor |}.
Next Obligation. intros first last f Hok. apply (seq_cursor _ _ _ Hok). Qed.
Next Obligation. intros first last. apply sectors_bytes. Qed.
Next Obligation.
  intros first last f Hok Hge. apply (seq_getc_eof first last); [done|].
  rewrite <- seq_content_length; [done|]. apply (seq_range _ _ _ Hok).
Qed.
Next Obligation. intros first last f b. apply seq_getc_next. Qed.

(** *** Cluster files *)
Definition cluster_lbas (c : Z) : list Z :=
  map (fun i => u32 (i + ((c - 2) * sectors_per_cluster info + first_data_sector info)))
    (seqZ 0 (sectors_per_cluster info)).
Definition chain_lbas (cs : list Z) : list Z := concat (map cluster_lbas cs).
Definition capacity (cs : list Z) : Z := Z.of_nat (length cs) * sectors_per_cluster info * 512.

Record clus_ok (cs : list Z) (f : cluster_file) : Prop := {
  clus_list : cf_clusters f = cs;
  clus_size : stat_size (cf_stat f) = capacity cs;
  clus_cursor : urange 32 (cf_cursor f);
  clus_spc : 0 < sectors_per_cluster info;
  clus_range : capacity cs < 2 ^ 32;
  clus_buffer : cf_buffer_pos f = -1 \/ cf_buffer f = readSector d (cf_buffer_pos f)
}.

Lemma chain_lbas_lookup cs i : 0 < sectors_per_cluster info -> 0 <= i ->
  chain_lbas cs !! Z.to_nat i =
    c ← cs !! Z.to_nat (i / sectors_per_cluster info);
    Some (u32 (i mod sectors_per_cluster info + ((c - 2) * sectors_per_cluster info + first_data_sector info))).
Proof.
  intros Hspc Hi. unfold chain_lbas.
  rewrite (lookup_concat_blocks (Z.to_nat (sectors_per_cluster info))).
  - rewrite list_lookup_fmap, <- Z2Nat.inj_div, <- Z2Nat.inj_mod by lia.
    destruct (cs !! _) as [c|]; [|done]. cbn. unfold cluster_lbas.
    pose proof (Z.mod_pos_bound i (sectors_per_cluster info)).
    rewrite list_lookup_fmap, lookup_seqZ_lt by lia. cbn. by rewrite Z.add_0_l, Z2Nat.id by lia.
  - lia.
  - apply Forall_fmap, Forall_true. intros c. unfold cluster_lbas. cbn. by rewrite length_map, length_seqZ.
Qed.

Lemma chain_content_length cs : 0 < sectors_per_cluster info ->
  Z.of_nat (length (sectors_content (chain_lbas cs))) = capacity cs.
Proof.
  intros Hspc. rewrite sectors_length. unfold chain_lbas, capacity.
  rewrite (length_concat_blocks (Z.to_nat (sectors_per_cluster info))), length_map; [lia|].
  apply Forall_fmap, Forall_true. intros c. unfold cluster_lbas. cbn. by rewrite length_map, length_seqZ.
Qed.

Lemma clus_getc_eof cs f : clus_ok cs f -> capacity cs <= cf_cursor f -> clus_getc d info f = Ret (EOF, f).
Proof. intros Hok Hge. unfold clus_getc. rewrite (clus_size _ _ Hok). case_match; [done|]. lia. Qed.

Lemma clus_getc_next cs f b : clus_ok cs f ->
  sectors_content (chain_lbas cs) !! Z.to_nat (cf_cursor f) = Some b ->
  exists f', clus_getc d info f = Ret (b, f') /\ clus_ok cs f' /\ cf_cursor f' = cf_cursor f + 1.
Proof.
  intros Hok Hb. pose proof (clus_cursor _ _ Hok) as Hc. pose proof (clus_spc _ _ Hok) as Hspc.
  pose proof (clus_range _ _ Hok) as Hlt.
  unfold urange in Hc. pose proof (lookup_lt_Some _ _ _ Hb) as Hin.
  pose proof (chain_content_length cs Hspc) as Hlen.
  apply sectors_lookup in Hb as (lba & Hlba & Hb); [|lia].
  rewrite chain_lbas_lookup in Hlba by (done || apply Z.div_pos; lia).
  unfold clus_getc. rewrite (clus_size _ _ Hok).
  destruct (Z.leb_spec (capacity cs) (cf_cursor f)); [lia|].
  unfold clus_ensureCursorInBuffer. rewrite (clus_list _ _ Hok).
  destruct (cs !! _) as [c|]; [|done]. cbn [mbind option_bind] in Hlba |- *. injection Hlba as Hlba. rewrite Hlba.
  set (f1 := if lba =? _ then _ else _).
  assert (clus_ok cs f1 /\ cf_cursor f1 = cf_cursor f /\ cf_buffer f1 = readSector d lba) as (Hok1 & Hc1 & Hb1).
  { unfold f1. destruct (Z.eqb_spec lba (cf_buffer_pos f)) as [E|_].
    - split; [done|]. split; [done|]. rewrite E. destruct (clus_buffer _ _ Hok) as [E'|]; [|done].
      pose proof (wrap_range 32 (cf_cursor f / 512 mod sectors_per_cluster info +
        ((c - 2) * sectors_per_cluster info + first_data_sector info))). unfold urange in *. lia.
    - split; [|done]. destruct Hok. split; cbn; auto. }
  rewrite Hc1, Hb1, Hb. eexists. split; [done|]. cbn.
  assert (u32 (cf_cursor f + 1) = cf_cursor f + 1) as E by (apply wrap_small; unfold urange; lia).
  split; [|done]. destruct Hok1. split; cbn; auto. rewrite E. unfold urange. lia.
Qed.

Lemma clus_seek_set cs c f : clus_ok cs f -> urange 32 c ->
  clus_seek c SEEK_SET f = Ret (0, cf_seek c f) /\ clus_ok cs (cf_seek c f).
Proof.
  intros Hok Hc. unfold clus_seek, seek_to. cbn. rewrite wrap_small by done. split; [done|].
  destruct Hok. by split.
Qed.

#[export] Program Instance clus_stream cs :
  Stream (clus_getc d info) (sectors_content (chain_lbas cs)) :=
  {| st_ok := clus_ok cs; st_pos := cf_cursor |}.
Next Obligation. intros cs f Hok. apply (clus_cursor _ _ Hok). Qed.
Next Obligation. intros cs. apply sectors_bytes. Qed.
Next Obligation.
  intros cs f Hok Hge. apply (clus_getc_eof cs); [done|].
  rewrite <- chain_content_length; [done|]. apply (clus_spc _ _ Hok).
Qed.
Next Obligation. intros cs f b. apply clus_getc_next. Qed.

(** *** The chain of a file in the FAT *)
Variables fat_first fat_last : Z.
Definition fat : list Z := sectors_content (run_of fat_first fat_last).

Inductive chain : Z -> list Z -> Prop :=
  | chain_end c : CLUSTER_END <= c -> chain c []
  | chain_next c cs : 0 <= c < CLUSTER_END -> 2 * c + 1 < Z.of_nat (length fat) ->
      chain (le16_at fat (Z.to_nat (2 * c))) cs -> chain c (c :: cs).

Lemma chain_fun c cs cs' : chain c cs -> chain c cs' -> cs = cs'.
Proof.
  intros H. revert cs'. induction H as [c Hc|c cs Hc Hlen _ IH]; intros cs' H'; inversion H'; subst; try lia; [done|].
  f_equal. by apply IH.
Qed.

Lemma chain_suffix c cs c' cs1 cs2 : chain c cs -> cs = cs1 ++ c' :: cs2 -> chain c' (c' :: cs2).
Proof.
  intros H. revert cs1. induction H as [c Hc|c cs Hc Hlen Hch IH]; intros cs1 E; [by destruct cs1|].
  destruct cs1 as [|c1 cs1]; [|injection E as -> E; by apply (IH cs1)].
  injection E as -> ->. by constructor.
Qed.

Lemma chain_NoDup c cs : chain c cs -> NoDup cs /\ Forall (fun c => 0 <= c < CLUSTER_END) cs.
Proof.
  induction 1 as [c Hc|c cs Hc Hlen Hch [IH1 IH2]]; [split; constructor|].
  split; [|by constructor]. constructor; [|done]. intros Hin.
  apply list_elem_of_split in Hin as (cs1 & cs2 & E).
  assert (chain c (c :: cs)) as H1 by (by constructor).
  pose proof (chain_suffix _ _ _ (c :: cs1) cs2 H1 ltac:(by rewrite E)) as H2.
  pose proof (chain_fun _ _ _ H1 H2) as E'. injection E' as E'. apply (f_equal length) in E', E.
  rewrite length_app in E. simpl in E. lia.
Qed.

(** A chain that ends is shorter than the fuel. *)
Lemma chain_length c cs : chain c cs -> Z.of_nat (length cs) <= CLUSTER_END.
Proof.
  intros [Hnd Hr]%chain_NoDup.
  assert (cs ⊆ seqZ 0 CLUSTER_END) as Hsub.
  { intros x Hx. apply elem_of_seqZ. rewrite list.Forall_forall in Hr. by apply Hr in Hx. }
  pose proof (submseteq_length _ _ (NoDup_submseteq _ _ Hnd Hsub)) as Hl.
  rewrite length_seqZ in Hl. unfold CLUSTER_END in *. lia.
Qed.

Lemma next_cluster_spec c f : seq_ok fat_first fat_last f ->
  0 <= c < CLUSTER_END -> 2 * c + 1 < Z.of_nat (length fat) ->
  exists f', next_cluster d c f = Ret (le16_at fat (Z.to_nat (2 * c)), f') /\ seq_ok fat_first fat_last f'.
Proof.
  intros Hok Hc Hlen. unfold next_cluster, CLUSTER_END in *.
  destruct (seq_seek_set fat_first fat_last (c * 2) f Hok) as [Hseek Hok1]; [unfold urange; lia|].
  rewrite (bind_Ret _ _ _ _ _ Hseek). unfold seq_read.
  destruct (read_loop_spec (seq_getc d) fat (HS := seq_stream fat_first fat_last) (Z.to_nat 2) _ Hok1) as (f2 & Hread & Hok2 & _).
  rewrite (bind_Ret _ _ _ _ _ Hread). exists f2. split; [|done]. cbn.
  replace (c * 2) with (2 * c) by lia.
  destruct (lookup_lt_is_Some_2 fat (Z.to_nat (2 * c))) as [b0 H0]; [lia|].
  destruct (lookup_lt_is_Some_2 fat (S (Z.to_nat (2 * c)))) as [b1 H1]; [lia|].
  unfold le16_at. rewrite (drop_S _ _ _ H0), (drop_S _ _ _ H1). cbn.
  by rewrite !list_lookup_total_alt, H0, H1.
Qed.

Lemma count_clusters_spec fuel c cs mode size count f :
  chain c cs -> (length cs < fuel)%nat -> seq_ok fat_first fat_last f -> urange 32 size ->
  exists f', count_clusters d info fuel c mode size count f =
      Ret ((if mode =? F_DIR then u32 (size + capacity cs) else size, count + Z.of_nat (length cs)), f') /\
    seq_ok fat_first fat_last f'.
Proof.
  intros Hch. revert fuel size count f. induction Hch as [c Hc|c cs Hc Hlen _ IH]; intros fuel size count f Hf Hok Hs;
    (destruct fuel as [|fuel]; [simpl in Hf; lia|]); cbn [count_clusters].
  - rewrite (proj2 (Z.ltb_ge _ _)) by lia. exists f. split; [|done].
    unfold capacity. cbn. rewrite !Z.add_0_r, wrap_small by done. by destruct (mode =? F_DIR).
  - rewrite (proj2 (Z.ltb_lt _ _)) by lia.
    destruct (next_cluster_spec c f Hok Hc Hlen) as (f1 & Hnext & Hok1).
    rewrite (bind_Ret _ _ _ _ _ Hnext). simpl in Hf.
    edestruct (IH fuel) as (f2 & Hrun & Hok2); [lia|exact Hok1| |rewrite Hrun; exists f2; split; [|done]].
    { case_match; [by apply wrap_range|done]. }
    unfold capacity. cbn [length]. rewrite Nat2Z.inj_succ.
    replace (count + 1 + Z.of_nat (length cs)) with (count + Z.succ (Z.of_nat (length cs))) by lia.
    destruct (mode =? F_DIR); [rewrite wrap_add_l|done].
    by replace (size + sectors_per_cluster info * 512 + Z.of_nat (length cs) * sectors_per_cluster info * 512)
      with (size + Z.succ (Z.of_nat (length cs)) * sectors_per_cluster info * 512) by lia.
Qed.

Lemma list_clusters_spec fuel c cs size num count f :
  chain c cs -> (length cs < fuel)%nat -> seq_ok fat_first fat_last f -> 0 <= count -> 0 < sectors_per_cluster info ->
  count + Z.of_nat (length cs) = num -> num * sectors_per_cluster info * 512 <= size ->
  exists f', list_clusters d info fuel c size num count f = Ret (cs, f') /\ seq_ok fat_first fat_last f'.
Proof.
  intros Hch. revert fuel count f. induction Hch as [c Hc|c cs Hc Hlen _ IH]; intros fuel count f Hf Hok H0 Hspc Hn Hs;
    (destruct fuel as [|fuel]; [simpl in Hf; lia|]); cbn [list_clusters].
  - rewrite (proj2 (Z.ltb_ge _ _)) by lia. by exists f.
  - cbn [length] in Hn, Hf. rewrite (proj2 (Z.ltb_lt c _)), (proj2 (Z.ltb_lt _ size)), (proj2 (Z.ltb_lt _ num)) by nia.
    cbn [andb]. destruct (next_cluster_spec c f Hok Hc Hlen) as (f1 & Hnext & Hok1).
    rewrite (bind_Ret _ _ _ _ _ Hnext).
    destruct (IH fuel (count + 1) f1) as (f2 & Hrun & Hok2); try done; try lia.
    rewrite (bind_Ret _ _ _ _ _ Hrun). by exists f2.
Qed.

Lemma create_spec start stat cs f :
  chain (u16 start) cs -> seq_ok fat_first fat_last f -> 0 < sectors_per_cluster info ->
  capacity cs < 2 ^ 32 -> 0 <= stat_size stat <= capacity cs ->
  exists f' g, createFileByCluster d info start stat f = Ret (g, f') /\ seq_ok fat_first fat_last f' /\
    clus_ok cs g /\ cf_cursor g = 0 /\ cf_stat g = {| stat_size := capacity cs; stat_mode := stat_mode stat |}.
Proof.
  intros Hch Hok Hspc Hcap Hsize. unfold createFileByCluster.
  assert (length cs < chain_fuel)%nat as Hfuel.
  { pose proof (chain_length _ _ Hch). unfold chain_fuel, CLUSTER_END in *. lia. }
  assert (0 <= capacity cs) as Hpos by lia.
  edestruct count_clusters_spec as (f1 & H1 & Hok1); [exact Hch|exact Hfuel|exact Hok| |].
  2: { rewrite (bind_Ret _ _ _ _ _ H1). cbn [fst snd].
  rewrite Z.add_0_l. fold (capacity cs). rewrite (wrap_small 32 (capacity cs)) by (unfold urange; lia).
  set (size1 := if _ =? F_DIR then _ else _).
  assert ((if size1 <? capacity cs then capacity cs else size1) = capacity cs) as ->.
  { unfold size1. destruct (stat_mode stat =? F_DIR).
    - rewrite Z.add_0_l, wrap_small by (unfold urange; lia). by destruct (_ <? _).
    - destruct (Z.ltb_spec (stat_size stat) (capacity cs)); lia. }
  destruct (list_clusters_spec chain_fuel (u16 start) cs (capacity cs) (Z.of_nat (length cs)) 0 f1)
    as (f2 & H2 & Hok2); try done.
  rewrite (bind_Ret _ _ _ _ _ H2). do 2 eexists. split; [done|]. split; [done|]. cbn.
  split; [|done]. split; cbn; try done. by left. }
  destruct (stat_mode stat =? F_DIR); unfold urange; lia.
Qed.
End spec.
