(* ===== verification/Directory.v ===== *)
(** * Directory: src/src/objects/Directory.cpp and FileSystem.cpp

    Directories, paths, and the volume of a FAT16 file system.  A C string is
    the list of its characters; a local array keeps its bounds. *)
From S2P Require Import Prelude Ctype File.

(** ** Directory.cpp *)
Definition READ_ONLY : Z := 0x01.
Definition HIDDEN : Z := 0x02.
Definition SYSTEM : Z := 0x04.
Definition VOLUME_ID : Z := 0x08.
Definition DIRECTORY : Z := 0x10.

(** The fields of a FileEntry that the code uses. *)
Record FileEntry := {
  fe_filename : list Z;
  fe_extname : list Z;
  fe_attr : Z;
  fe_cluster_high : Z;
  fe_cluster_low : Z;
  fe_size : Z
}.
Definition sizeof_FileEntry : Z := 32.
Definition file_entry (b : list Z) : FileEntry := {|
  fe_filename := take 8 b;
  fe_extname := take 3 (drop 8 b);
  fe_attr := b !!! 11%nat;
  fe_cluster_high := le16_at b 20;
  fe_cluster_low := le16_at b 26;
  fe_size := le32_at b 28
|}.

Record FileInfo := {
  fi_filename : list Z;
  fi_directory : bool;
  fi_size : Z;
  fi_cluster : Z
}.

(** The loops over the name and the extension: they stop at a NUL or a space. *)
Fixpoint name_part (l : list Z) : list Z :=
  match l with
  | c :: l => if (c =? 0) || (c =? 32) then [] else c :: name_part l
  | [] => []
  end.

Definition entry_name (e : FileEntry) : list Z :=
  name_part (fe_filename e) ++
  match name_part (fe_extname e) with [] => [] | ext => 46 :: ext end.

(** [!(attr & VOLUME_ID || attr & HIDDEN || filename[0] == '\xe5')] *)
Definition is_listed (e : FileEntry) : bool :=
  negb (negb (Z.land (fe_attr e) VOLUME_ID =? 0) || negb (Z.land (fe_attr e) HIDDEN =? 0) ||
        (fe_filename e !!! 0%nat =? 0xE5)).

Definition entry_info (e : FileEntry) : FileInfo := {|
  fi_filename := entry_name e;
  fi_directory := negb (Z.land (fe_attr e) DIRECTORY =? 0);
  fi_size := fe_size e;
  fi_cluster := u32 (Z.shiftl (fe_cluster_high e) 16 + fe_cluster_low e)
|}.

Record directory := Dir { dir_file : file; dir_infos : list FileInfo }.
Definition dir_size (dir : directory) : Z := Z.of_nat (length (dir_infos dir)).

Section directory.
Context `{!Bios}.
Variable d : disk.
Variable info : fs_info.

(** [file->read(&entry, 32) == 32], and not the end mark. *)
Definition next_entry : prog file (option FileEntry) :=
  b ← file_read d info sizeof_FileEntry;
  mret (if Z.of_nat (length b) =? sizeof_FileEntry then
          if b !!! 0%nat =? 0 then None else Some (file_entry b)
        else None).

(** The first loop of init(). *)
Fixpoint count_entries (fuel : nat) (count : Z) : prog file Z :=
  match fuel with
  | O => pnofuel
  | S fuel =>
      e ← next_entry;
      match e with
      | None => mret count
      | Some e => count_entries fuel (if is_listed e then count + 1 else count)
      end
  end.

(** The second loop: [infos] from the index [count] on. *)
Fixpoint list_entries (fuel : nat) (file_num count : Z) : prog file (list FileInfo) :=
  match fuel with
  | O => pnofuel
  | S fuel =>
      e ← next_entry;
      match e with
      | None => mret []
      | Some e =>
          if is_listed e then
            if count <? file_num then
              l ← list_entries fuel file_num (count + 1);
              mret (entry_info e :: l)
            else ppanic "count < file_num"
          else list_entries fuel file_num count
      end
  end.

(** Each turn reads 32 bytes of the file. *)
Definition entry_fuel (f : file) : nat := S (Z.to_nat (stat_size (file_stat f) / sizeof_FileEntry)).

Definition init (f : file) : outcome directory :=
  match
    (file_seek 0 SEEK_SET;;
     file_num ← count_entries (entry_fuel f) 0;
     file_seek 0 SEEK_SET;;
     list_entries (entry_fuel f) file_num 0) f
  with
  | Ret (infos, f) => Ret (Dir f infos)
  | Fault => Fault
  | Panic m => Panic m
  | NoFuel => NoFuel
  end.

(** fromFile(): the exception of the constructor is a null pointer. *)
Definition fromFile (f : file) : outcome (option directory) :=
  if stat_mode (file_stat f) =? F_DIR then
    match init f with
    | Ret dir => Ret (Some dir)
    | Fault => Fault
    | Panic m => Panic m
    | NoFuel => NoFuel
    end
  else Ret None.

(** [strcasecmp(a, b) == 0] of two strings. *)
Definition same_name (a b : list Z) : bool := bool_decide (map tolower a = map tolower b).

Fixpoint find_name (name : list Z) (infos : list FileInfo) : option FileInfo :=
  match infos with
  | [] => None
  | i :: infos => if same_name (fi_filename i) name then Some i else find_name name infos
  end.

(** openFile() of a directory; the state is the file of the FAT. *)
Definition dir_openFile (dir : directory) (name : list Z) : prog seq_file (option file) :=
  match find_name name (dir_infos dir) with
  | Some i =>
      f ← createFileByCluster d info (fi_cluster i)
        {| stat_size := fi_size i; stat_mode := if fi_directory i then F_DIR else F_REG |};
      mret (Some (ClusterFile f))
  | None => mret None
  end.

(** ** FileSystem.cpp *)
Definition MAX_FILENAME_LENGTH : Z := 15.

Definition getRootDirectory : outcome directory :=
  init (SequentialFile
    (createSequentialFile (u32 (first_data_sector info - root_dir_sectors info)) (first_data_sector info))).

Fixpoint skip_slashes (l : list Z) : list Z :=
  match l with c :: l' => if c =? 47 then skip_slashes l' else l | [] => [] end.

(** The characters up to the next slash, and the rest. *)
Fixpoint path_name (l : list Z) : list Z * list Z :=
  match l with
  | c :: l' => if c =? 47 then ([], l) else let '(name, rest) := path_name l' in (c :: name, rest)
  | [] => ([], [])
  end.

(** The loop of openFile(): [file] is the file of the directory when the path
    ends after a slash.  [filename] has room for 15 characters. *)
Fixpoint open_path (fuel : nat) (scwd : directory) (f : file) (cursor : list Z) : prog seq_file (option file) :=
  match fuel with
  | O => pnofuel
  | S fuel =>
      match cursor with
      | [] => mret (Some f)
      | _ =>
          let '(name, rest) := path_name cursor in
          if MAX_FILENAME_LENGTH <? Z.of_nat (length name) then pfault
          else
            file ← dir_openFile scwd name;
            match file with
            | None => mret None
            | Some f =>
                match rest with
                | [] => mret (Some f)
                | _ =>
                    dir ← plift (fromFile f);
                    match dir with
                    | None => mret None
                    | Some scwd => open_path fuel scwd (dir_file scwd) (skip_slashes rest)
                    end
                end
            end
      end
  end.

(** openFile() without a current directory, the only use the kernel makes. *)
Definition openFile (path : list Z) : prog seq_file (option file) :=
  scwd ← plift getRootDirectory;
  open_path (S (length path)) scwd (dir_file scwd) (skip_slashes path).
End directory.

(** *** The volume *)
Definition sizeof_PartitionBootRecord : nat := 36.

Definition fat16_info (buffer : list Z) : outcome fs_info :=
  let bytes_per_sector := le16_at buffer 11 in
  let sectors_per_cluster := buffer !!! 13%nat in
  let fat_num := buffer !!! 16%nat in
  let root_directory_entry_num := le16_at buffer 17 in
  let pbr_total_sectors := le16_at buffer 19 in
  let sectors_per_fat := le16_at buffer 22 in
  let hidden_sectors := le32_at buffer 28 in
  let large_total_sectors := le32_at buffer 32 in
  let boot_signature := buffer !!! (sizeof_PartitionBootRecord + 2)%nat in
  if negb (bytes_per_sector =? 512) then Panic "info.pbr.bytes_per_sector == 512"
  else if negb ((boot_signature =? 0x28) || (boot_signature =? 0x29)) then
    Panic "info.feb.boot_signature == 0x28 || info.feb.boot_signature == 0x29"
  else if sectors_per_fat =? 0 then Panic "info.pbr.sectors_per_fat"
  else
    let total_sectors := if pbr_total_sectors =? 0 then large_total_sectors else pbr_total_sectors in
    let fat_size := sectors_per_fat in
    let root_dir_sectors := (root_directory_entry_num * 32 + (bytes_per_sector - 1)) / bytes_per_sector in
    let first_data_sector := u32 (hidden_sectors + fat_num * fat_size + root_dir_sectors) in
    let data_sectors := u32 (total_sectors - (hidden_sectors + sectors_per_fat * fat_size + root_dir_sectors)) in
    if sectors_per_cluster =? 0 then Fault
    else
      let total_clusters := data_sectors / sectors_per_cluster in
      if (4085 <=? total_clusters) && (total_clusters <? 65525) then
        Ret {| File.sectors_per_cluster := sectors_per_cluster;
               File.total_sectors := total_sectors;
               File.fat_size := fat_size;
               File.root_dir_sectors := root_dir_sectors;
               File.first_data_sector := first_data_sector;
               File.first_fat_sector := hidden_sectors;
               File.data_sectors := data_sectors;
               File.total_clusters := total_clusters |}
      else Panic "info.total_clusters >= 4085 && info.total_clusters < 65525".

(** The constructor: the volume and the file of its FAT. *)
Definition Fat16FileSystem `{!Bios} (d : disk) : outcome (fs_info * seq_file) :=
  match fat16_info (readSector d 0) with
  | Ret info => Ret (info, createSequentialFile (first_fat_sector info) (u32 (first_fat_sector info + fat_size info)))
  | Fault => Fault
  | Panic m => Panic m
  | NoFuel => NoFuel
  end.
