(* ===== verification/DirectorySpec.v ===== *)
(** * DirectorySpec: directories and paths against their contents

    The listing of a directory as a function of its bytes, the resolution of a
    path as a relation on listings, and the proof that the code implements
    both. *)
From S2P Require Import Prelude Ctype Strtok File FileSpec Directory.

(** ** References *)

(** The entries of a directory: blocks of 32 bytes up to the end mark. *)
Fixpoint entries (n : nat) (b : list Z) : list FileEntry :=
  match n with
  | O => []
  | S n =>
      if decide (length b < 32)%nat then []
      else if b !!! 0%nat =? 0 then [] else file_entry (take 32 b) :: entries n (drop 32 b)
  end.
Definition dir_entries_of (b : list Z) : list FileEntry := entries (S (length b / 32)) b.
Definition listing (b : list Z) : list FileInfo := entry_info <$> filter (fun e => is_listed e = true) (dir_entries_of b).

Section spec.
Context `{HB : !Bios} `{HG : !GoodBios HB}.
Variable d : disk.
Variable info : fs_info.

(** ** Files of both kinds as streams *)
Inductive file_ok (content : list Z) : file -> Prop :=
  | ok_seq first last f : seq_ok d first last f -> content = sectors_content d (run_of first last) ->
      file_ok content (SequentialFile f)
  | ok_clus cs f : clus_ok d info cs f -> content = sectors_content d (chain_lbas info cs) ->
      file_ok content (ClusterFile f).

Lemma file_size content f : file_ok content f -> stat_size (file_stat f) = Z.of_nat (length content).
Proof.
  intros [first last g Hg ->|cs g Hg ->]; cbn.
  - rewrite seq_content_length by apply (seq_range _ _ _ _ Hg). apply (seq_size _ _ _ _ Hg).
  - rewrite chain_content_length by apply (clus_spc _ _ _ _ Hg). apply (clus_size _ _ _ _ Hg).
Qed.

Lemma file_rewind content f : file_ok content f ->
  exists f', file_seek 0 SEEK_SET f = Ret (0, f') /\ file_ok content f' /\ file_tell f' = 0 /\
    file_stat f' = file_stat f.
Proof.
  intros [first last g Hg ->|cs g Hg ->]; cbn [file_seek].
  - destruct (seq_seek_set d first last 0 g Hg) as [-> Hok]; [done|]. eexists. split; [done|].
    split; [by econstructor|done].
  - destruct (clus_seek_set d info cs 0 g Hg) as [-> Hok]; [done|]. eexists. split; [done|].
    split; [by econstructor|done].
Qed.

#[export] Program Instance file_stream (content : list Z) (Hb : Forall (urange 8) content) :
  Stream (file_getc d info) content := {| st_ok := file_ok content; st_pos := file_tell |}.
Next Obligation.
  intros content Hb f [first last g Hg _|cs g Hg _]; cbn;
    [apply (seq_cursor _ _ _ _ Hg)|apply (clus_cursor _ _ _ _ Hg)].
Qed.
Next Obligation. done. Qed.
Next Obligation.
  intros content Hb f [first last g Hg ->|cs g Hg ->] Hge; cbn [file_tell file_getc] in *.
  - by rewrite (st_eof (Stream := seq_stream d first last) g Hg Hge).
  - by rewrite (st_eof (Stream := clus_stream d info cs) g Hg Hge).
Qed.
Next Obligation.
  intros content Hb f b [first last g Hg ->|cs g Hg ->] Hn; cbn [file_tell file_getc] in *.
  - destruct (st_next (Stream := seq_stream d first last) g b Hg Hn) as (g' & -> & Hok & Hpos).
    eexists. split; [done|]. split; [by apply (ok_seq _ first last)|done].
  - destruct (st_next (Stream := clus_stream d info cs) g b Hg Hn) as (g' & -> & Hok & Hpos).
    eexists. split; [done|]. split; [by apply (ok_clus _ cs)|done].
Qed.

(** ** The listing *)
Section listing.
Variable content : list Z.
Hypothesis Hbytes : Forall (urange 8) content.

Definition rest_of (f : file) : list Z := drop (Z.to_nat (file_tell f)) content.

Lemma next_entry_spec f : file_ok content f ->
  exists f', next_entry d info f = Ret (head (entries 1 (rest_of f)), f') /\ file_ok content f' /\
    (head (entries 1 (rest_of f)) <> None -> rest_of f' = drop 32 (rest_of f)).
Proof.
  intros Hok. unfold next_entry, file_read.
  pose proof (st_nonneg (Stream := file_stream content Hbytes) f Hok) as Hpos. cbn [st_pos file_stream] in Hpos.
  destruct (read_loop_spec (HS := file_stream content Hbytes) _ _ (Z.to_nat sizeof_FileEntry) f Hok)
    as (f' & Hread & Hok' & Hpos'). cbn [st_pos st_ok file_stream] in *.
  rewrite (bind_Ret _ _ _ _ _ Hread). exists f'. fold (rest_of f) in *.
  change (Z.to_nat sizeof_FileEntry) with 32%nat in *. rewrite length_take in *. cbn [entries].
  unfold sizeof_FileEntry. destruct (decide (length (rest_of f) < 32)%nat) as [Hlt|Hge].
  - rewrite (proj2 (Z.eqb_neq _ _)) by lia. split; [done|]. split; [done|]. done.
  - rewrite (proj2 (Z.eqb_eq _ _)) by lia. rewrite lookup_total_take by lia.
    split; [by destruct (_ =? 0)|]. split; [done|]. intros _. unfold rest_of at 1. rewrite Hpos'.
    rewrite Nat.min_l, Z2Nat.inj_add by lia. unfold rest_of. rewrite drop_drop. reflexivity.
Qed.

(** A turn of the loops, against the reference. *)
Lemma entries_step n b :
  match head (entries 1 b) with
  | None => entries (S n) b = []
  | Some e => entries (S n) b = e :: entries n (drop 32 b) /\ (32 <= length b)%nat
  end.
Proof. cbn [entries]. destruct (decide _); [done|]. destruct (_ =? 0); cbn [head]; [done|]. split; [done|lia]. Qed.

Definition listed (n : nat) (b : list Z) : list FileEntry := filter (fun e => is_listed e = true) (entries n b).

Lemma listed_cons e l : filter (fun e => is_listed e = true) (e :: l) =
  if is_listed e then e :: filter (fun e => is_listed e = true) l else filter (fun e => is_listed e = true) l.
Proof. rewrite filter_cons. by destruct (is_listed e). Qed.

Lemma count_entries_spec n count f : file_ok content f -> (length (rest_of f) < 32 * n)%nat ->
  exists f', count_entries d info n count f = Ret (count + Z.of_nat (length (listed n (rest_of f))), f') /\
    file_ok content f'.
Proof.
  revert count f. induction n as [|n IH]; intros count f Hok Hlen; [lia|]. cbn [count_entries].
  destruct (next_entry_spec f Hok) as (f1 & Hnext & Hok1 & Hrest). rewrite (bind_Ret _ _ _ _ _ Hnext).
  unfold listed. pose proof (entries_step n (rest_of f)) as Hstep.
  destruct (head (entries 1 (rest_of f))) as [e|].
  - destruct Hstep as [-> Hge]. rewrite <- Hrest by done. rewrite listed_cons.
    edestruct (IH (if is_listed e then count + 1 else count) f1 Hok1) as (f2 & Hrun & Hok2).
    { rewrite Hrest, length_drop by done. lia. }
    exists f2. rewrite Hrun. split; [|done]. unfold listed. destruct (is_listed e); [|done].
    cbn [length]. ret_lia.
  - rewrite Hstep. exists f1. split; [|done]. cbn. by rewrite Z.add_0_r.
Qed.

Lemma list_entries_spec n num count f : file_ok content f -> (length (rest_of f) < 32 * n)%nat ->
  count + Z.of_nat (length (listed n (rest_of f))) <= num ->
  exists f', list_entries d info n num count f = Ret (entry_info <$> listed n (rest_of f), f') /\
    file_ok content f'.
Proof.
  revert count f. induction n as [|n IH]; intros count f Hok Hlen Hnum; [lia|]. cbn [list_entries].
  destruct (next_entry_spec f Hok) as (f1 & Hnext & Hok1 & Hrest). rewrite (bind_Ret _ _ _ _ _ Hnext).
  unfold listed in *. pose proof (entries_step n (rest_of f)) as Hstep.
  destruct (head (entries 1 (rest_of f))) as [e|].
  - destruct Hstep as [Heq Hge]. rewrite Heq in *. rewrite <- Hrest in * by done. rewrite listed_cons in *.
    assert (length (rest_of f1) < 32 * n)%nat as Hlen1 by (rewrite Hrest, length_drop by done; lia).
    destruct (is_listed e).
    + cbn [length] in Hnum. rewrite (proj2 (Z.ltb_lt _ _)) by lia.
      destruct (IH (count + 1) f1 Hok1 Hlen1) as (f2 & Hrun & Hok2); [lia|].
      rewrite (bind_Ret _ _ _ _ _ Hrun). by exists f2.
    + by apply IH.
  - rewrite Hstep. by exists f1.
Qed.

Lemma init_spec f : file_ok content f ->
  exists f', init d info f = Ret (Dir f' (listing content)) /\ file_ok content f'.
Proof.
  intros Hok. unfold init. pose proof (file_size content f Hok) as Hsize.
  destruct (file_rewind content f Hok) as (f1 & Hseek & Hok1 & Hpos1 & _). rewrite (bind_Ret _ _ _ _ _ Hseek).
  assert (entry_fuel f = S (length content / 32)) as ->.
  { unfold entry_fuel, sizeof_FileEntry. rewrite Hsize. change 32 with (Z.of_nat 32).
    by rewrite <- Nat2Z.inj_div, Nat2Z.id. }
  assert (forall f, file_tell f = 0 -> rest_of f = content) as Hall.
  { intros g Hg. unfold rest_of. by rewrite Hg. }
  assert (length content < 32 * S (length content / 32))%nat as Hfuel by (apply Nat.mul_succ_div_gt; lia).
  destruct (count_entries_spec (S (length content / 32)) 0 f1 Hok1) as (f2 & Hcount & Hok2); [by rewrite Hall|].
  rewrite (bind_Ret _ _ _ _ _ Hcount), Hall by done.
  destruct (file_rewind content f2 Hok2) as (f3 & Hseek3 & Hok3 & Hpos3 & _). rewrite (bind_Ret _ _ _ _ _ Hseek3).
  edestruct (list_entries_spec (S (length content / 32))) as (f4 & Hlist & Hok4); [exact Hok3| |
    |rewrite Hlist; exists f4; rewrite Hall by done; by split]; rewrite Hall by done; [done|].
  apply Z.le_refl.
Qed.
End listing.

(** ** Paths *)
Section path.
Variables fat_first fat_last : Z.

(** The clusters of the file that an entry of a directory designates. *)
Definition file_at (i : FileInfo) (cs : list Z) : Prop :=
  chain d fat_first fat_last (u16 (fi_cluster i)) cs /\ capacity info cs < 2 ^ 32 /\
  0 <= fi_size i <= capacity info cs.
Definition content_of (cs : list Z) : list Z := sectors_content d (chain_lbas info cs).

(** What the names of a path lead to from a directory with these entries. *)
Inductive opens : list FileInfo -> list (list Z) -> option (FileInfo * list Z) -> Prop :=
  | opens_none infos name names : find_name name infos = None -> opens infos (name :: names) None
  | opens_last infos name i cs : find_name name infos = Some i -> file_at i cs ->
      opens infos [name] (Some (i, cs))
  | opens_notdir infos name n names i cs : find_name name infos = Some i -> file_at i cs ->
      fi_directory i = false -> opens infos (name :: n :: names) None
  | opens_dir infos name n names i cs r : find_name name infos = Some i -> file_at i cs ->
      fi_directory i = true -> opens (listing (content_of cs)) (n :: names) r ->
      opens infos (name :: n :: names) r.

(** An open file, before the first read. *)
Record opened (i : FileInfo) (cs : list Z) (g : cluster_file) : Prop := {
  opened_ok : clus_ok d info cs g;
  opened_cursor : cf_cursor g = 0;
  opened_mode : stat_mode (cf_stat g) = if fi_directory i then F_DIR else F_REG
}.

Lemma dir_openFile_spec dir name i cs f : find_name name (dir_infos dir) = Some i -> file_at i cs ->
  0 < sectors_per_cluster info -> seq_ok d fat_first fat_last f ->
  exists g f', dir_openFile d info dir name f = Ret (Some (ClusterFile g), f') /\
    seq_ok d fat_first fat_last f' /\ opened i cs g.
Proof.
  intros Hfind (Hch & Hcap & Hsize) Hspc Hok. unfold dir_openFile. rewrite Hfind.
  edestruct (create_spec d info fat_first fat_last (fi_cluster i)) as (f' & g & Hrun & Hok' & Hg & Hc & Hs);
    [exact Hch|exact Hok|done|done| |rewrite (bind_Ret _ _ _ _ _ Hrun)]; [done|].
  exists g, f'. split; [done|]. split; [done|]. split; [done|done|]. by rewrite Hs.
Qed.

Lemma fromFile_spec i cs g : opened i cs g ->
  if fi_directory i
  then exists f', fromFile d info (ClusterFile g) = Ret (Some (Dir f' (listing (content_of cs))))
  else fromFile d info (ClusterFile g) = Ret None.
Proof.
  intros [Hok _ Hmode]. unfold fromFile. cbn [file_stat]. rewrite Hmode. destruct (fi_directory i); [|done].
  destruct (init_spec (content_of cs) (sectors_bytes d _) (ClusterFile g)) as (f' & -> & _); [by apply (ok_clus _ cs)|].
  by exists f'.
Qed.

Lemma path_name_app tok rest : Forall (.∉ [47]) tok -> (forall c, rest !! 0%nat = Some c -> c ∈ [47]) ->
  path_name (tok ++ rest) = (tok, rest).
Proof.
  intros Htok Hrest. induction Htok as [|c tok Hc _ IH]; cbn [app path_name].
  - destruct rest as [|c rest]; [done|]. specialize (Hrest c eq_refl). apply list_elem_of_singleton in Hrest as ->. done.
  - destruct (Z.eqb_spec c 47) as [->|_]; [by destruct Hc; left|]. by rewrite IH.
Qed.

Lemma skip_slashes_lead l : exists lead, l = lead ++ skip_slashes l /\ Forall (.∈ [47]) lead.
Proof.
  induction l as [|c l (lead & IH & Hl)]; [by exists []|]. cbn [skip_slashes].
  destruct (Z.eqb_spec c 47) as [->|_]; [|by exists []].
  exists (47 :: lead). split; [by rewrite IH at 1|]. constructor; [by left|done].
Qed.

Lemma skip_slashes_stop l c : skip_slashes l !! 0%nat = Some c -> c <> 47.
Proof.
  induction l as [|c' l IH]; [done|]. cbn [skip_slashes]. destruct (Z.eqb_spec c' 47); [done|].
  cbn. by intros [= ->].
Qed.

(** The shape of what is left of a path: a name, and nothing or slashes and
    the next name. *)
Lemma path_cases l name names : (forall c, l !! 0%nat = Some c -> c <> 47) -> list.last l <> Some 47 ->
  split_tokens [47] l = name :: names ->
  l <> [] /\
  exists rest, path_name l = (name, rest) /\
    match names with
    | [] => rest = []
    | _ => rest <> [] /\ (length (skip_slashes rest) < length l)%nat /\
        list.last (skip_slashes rest) <> Some 47 /\ split_tokens [47] (skip_slashes rest) = names
    end.
Proof.
  intros Hhead Hlast Hsplit. destruct (split_cases [47] l) as [Hall|(lead & c & tok & rest & -> & Hlead & Htok & Hrest)].
  { by rewrite split_tokens_none in Hsplit. }
  destruct Hlead as [|c' lead Hc' _]; [|specialize (Hhead c' eq_refl); set_solver]. cbn [app] in *.
  pose proof (split_tokens_found [47] [] c tok rest (Forall_nil_2 _) Htok Hrest) as Hs. cbn [app] in Hs.
  rewrite Hs in Hsplit. injection Hsplit as <- Hnames. split; [done|]. exists rest.
  pose proof (path_name_app (c :: tok) rest Htok Hrest) as Hname. cbn [app] in Hname. split; [exact Hname|].
  destruct rest as [|c1 rest]; [by subst names|]. cbn [tail] in Hnames.
  pose proof (Hrest c1 eq_refl) as Hc1. apply list_elem_of_singleton in Hc1 as ->.
  cbn [skip_slashes]. change (47 =? 47) with true. cbn iota.
  destruct (skip_slashes_lead rest) as (lead & E & Hlead).
  assert (split_tokens [47] (skip_slashes rest) = names) as Hn.
  { rewrite <- Hnames. rewrite E at 2. by rewrite split_lead. }
  assert (list.last (c :: tok ++ 47 :: rest) = list.last (47 :: rest)) as Hl.
  { rewrite app_comm_cons, last_app_cons. done. }
  rewrite Hl in Hlast. destruct names as [|n names].
  - exfalso. apply Hlast. destruct (split_cases [47] rest) as [Hall|(l1 & c1 & t1 & r1 & E1 & Hl1 & Ht1 & Hr1)].
    + destruct (list.last rest) as [x|] eqn:Ex.
      * rewrite last_cons, Ex. apply last_Some_elem_of in Ex. rewrite list.Forall_forall in Hall.
        apply Hall in Ex. apply list_elem_of_singleton in Ex as ->. done.
      * by rewrite last_cons, Ex.
    + rewrite E1, split_tokens_found in Hnames by done. done.
  - split; [done|]. split.
    { rewrite E at 2. rewrite length_cons, length_app. cbn [length]. rewrite length_app. lia. }
    split; [|done]. intros Hx. apply Hlast. rewrite E, app_comm_cons.
    destruct (skip_slashes rest) as [|y ys]; [done|]. by rewrite last_app_cons.
Qed.

Definition found (r : option (FileInfo * list Z)) (o : option file) : Prop :=
  match r with
  | None => o = None
  | Some (i, cs) => exists g, o = Some (ClusterFile g) /\ opened i cs g
  end.

Lemma open_path_spec infos names r : opens infos names r ->
  forall fuel scwd file0 path f, dir_infos scwd = infos -> split_tokens [47] path = names ->
    (forall c, path !! 0%nat = Some c -> c <> 47) -> list.last path <> Some 47 ->
    Forall (fun n => Z.of_nat (length n) <= MAX_FILENAME_LENGTH) names -> (length path < fuel)%nat ->
    0 < sectors_per_cluster info -> seq_ok d fat_first fat_last f ->
    exists o f', open_path d info fuel scwd file0 path f = Ret (o, f') /\ found r o /\ seq_ok d fat_first fat_last f'.
Proof.
  induction 1 as [infos name names Hn|infos name i cs Hn Hi|infos name n names i cs Hn Hi Hd
    |infos name n names i cs r Hn Hi Hd _ IH]; intros fuel scwd file0 path f Hinfos Hsplit Hhead Hlast Hlen Hf Hspc Hok;
    (destruct (path_cases path _ _ Hhead Hlast Hsplit) as (Hne & rest & Hname & Hrest));
    (destruct fuel as [|fuel]; [lia|]); (destruct path as [|c path]; [done|]); cbn [open_path]; rewrite Hname;
    (apply list.Forall_cons in Hlen as [Hlen1 Hlen]); rewrite (proj2 (Z.ltb_ge _ _)) by done.
  - exists None, f. split; [|done]. unfold dir_openFile. by rewrite Hinfos, Hn.
  - destruct (dir_openFile_spec scwd name i cs f) as (g & f1 & Hrun & Hok1 & Hg); try done; [by rewrite Hinfos|].
    rewrite (bind_Ret _ _ _ _ _ Hrun), Hrest. exists (Some (ClusterFile g)), f1. split; [done|]. split; [by exists g|done].
  - destruct (dir_openFile_spec scwd name i cs f) as (g & f1 & Hrun & Hok1 & Hg); try done; [by rewrite Hinfos|].
    rewrite (bind_Ret _ _ _ _ _ Hrun). destruct Hrest as [Hr _]. destruct rest as [|c1 rest]; [done|].
    pose proof (fromFile_spec i cs g Hg) as Hfrom. rewrite Hd in Hfrom. unfold plift.
    exists None, f1. split; [|done]. unfold mbind at 1, prog_bind at 1. by rewrite Hfrom.
  - destruct (dir_openFile_spec scwd name i cs f) as (g & f1 & Hrun & Hok1 & Hg); try done; [by rewrite Hinfos|].
    rewrite (bind_Ret _ _ _ _ _ Hrun). destruct Hrest as (Hr & Hshort & Hl & Hs). destruct rest as [|c1 rest]; [done|].
    pose proof (fromFile_spec i cs g Hg) as Hfrom. rewrite Hd in Hfrom. destruct Hfrom as [f2 Hfrom].
    edestruct (IH fuel (Dir f2 (listing (content_of cs))) f2 (skip_slashes (c1 :: rest)) f1)
      as (o & f3 & Hopen & Hfound & Hok3); try done.
    { intros c2 Hc2. by apply skip_slashes_stop in Hc2. }
    { lia. }
    exists o, f3. split; [|done]. unfold mbind at 1, prog_bind at 1, plift. rewrite Hfrom. exact Hopen.
Qed.
End path.
End spec.

(** ** The volume *)
Section volume.
Context `{HB : !Bios} `{HG : !GoodBios HB}.
Variable d : disk.

Lemma byte_at l i : Forall (urange 8) l -> 0 <= l !!! i < 256.
Proof.
  intros Hl. rewrite list_lookup_total_alt. destruct (l !! i) as [b|] eqn:E; cbn; [|lia].
  by apply (list.Forall_lookup_1 _ _ _ _ Hl E).
Qed.

Lemma le16_range l i : Forall (urange 8) l -> 0 <= le16_at l i < 65536.
Proof. intros Hl. unfold le16_at. pose proof (byte_at l i Hl). pose proof (byte_at l (S i) Hl). lia. Qed.

Lemma le32_range_at l i : Forall (urange 8) l -> 0 <= le32_at l i < 2 ^ 32.
Proof. intros Hl. unfold le32_at. pose proof (le16_range l i Hl). pose proof (le16_range l (i + 2) Hl). lia. Qed.

(** What the constructor establishes. *)
Record volume_ok (info : fs_info) : Prop := {
  vol_spc : 0 < sectors_per_cluster info < 256;
  vol_fat : 0 <= first_fat_sector info /\ 0 < fat_size info < 65536;
  vol_root : 0 <= root_dir_sectors info <= 4096;
  vol_data : 0 <= first_data_sector info < 2 ^ 32;
  vol_clusters : 4085 <= total_clusters info < 65525
}.

Lemma fat16_info_ok b info : Forall (urange 8) b -> fat16_info b = Ret info -> volume_ok info.
Proof.
  intros Hb. unfold fat16_info. pose proof (byte_at b 13 Hb). pose proof (le16_range b 17 Hb).
  pose proof (le16_range b 22 Hb). pose proof (le32_range_at b 28 Hb).
  destruct (Z.eqb_spec (le16_at b 11) 512) as [->|]; [cbn [negb]|done].
  case_match; [done|]. destruct (Z.eqb_spec (le16_at b 22) 0); [done|].
  destruct (Z.eqb_spec (b !!! 13%nat) 0); [done|].
  match goal with |- (if ?c then _ else _) = _ -> _ => destruct c eqn:E end; [|done].
  apply andb_true_iff in E as [E1%Z.leb_le E2%Z.ltb_lt]. intros [= <-].
  split; cbn; [lia|lia| |apply wrap_range; lia|exact (conj E1 E2)].
  split; [apply Z.div_pos; lia|]. apply Z.lt_succ_r, Z.div_lt_upper_bound; lia.
Qed.

Lemma Fat16_ok info fat : Fat16FileSystem d = Ret (info, fat) -> first_fat_sector info + fat_size info < 2 ^ 32 ->
  volume_ok info /\ seq_ok d (first_fat_sector info) (first_fat_sector info + fat_size info) fat.
Proof.
  unfold Fat16FileSystem. intros H Hlt. destruct (fat16_info _) as [info1| | |] eqn:E; try done.
  injection H as <- <-. apply fat16_info_ok in E; [|apply readSector_bytes]. split; [done|].
  pose proof (vol_fat _ E). rewrite wrap_small by (unfold urange; lia). apply seq_create; lia.
Qed.

(** The entries of the root directory. *)
Definition root_listing (info : fs_info) : list FileInfo :=
  listing (sectors_content d
    (run_of (first_data_sector info - root_dir_sectors info) (first_data_sector info))).

Lemma root_ok info : volume_ok info -> root_dir_sectors info <= first_data_sector info ->
  exists f, getRootDirectory d info = Ret (Dir f (root_listing info)).
Proof.
  intros Hv Hle. pose proof (vol_root _ Hv). pose proof (vol_data _ Hv). unfold getRootDirectory.
  rewrite wrap_small by (unfold urange; lia).
  destruct (init_spec d info (sectors_content d
    (run_of (first_data_sector info - root_dir_sectors info) (first_data_sector info))) (sectors_bytes d _)
    (SequentialFile (createSequentialFile (first_data_sector info - root_dir_sectors info) (first_data_sector info))))
    as (f & Hrun & _); [|by exists f].
  eapply ok_seq; [|done]. apply seq_create; lia.
Qed.

(** openFile() on the file of the FAT, wherever its cursor is. *)
Lemma openFile_spec info fat path r :
  volume_ok info -> seq_ok d (first_fat_sector info) (first_fat_sector info + fat_size info) fat ->
  root_dir_sectors info <= first_data_sector info ->
  opens d info (first_fat_sector info) (first_fat_sector info + fat_size info)
    (root_listing info) (split_tokens [47] path) r ->
  Forall (fun n => Z.of_nat (length n) <= MAX_FILENAME_LENGTH) (split_tokens [47] path) ->
  list.last path <> Some 47 ->
  exists o fat', openFile d info path fat = Ret (o, fat') /\ found d info r o /\
    seq_ok d (first_fat_sector info) (first_fat_sector info + fat_size info) fat'.
Proof.
  intros Hv Hok Hroot Hopens Hnames Hlast.
  destruct (root_ok info Hv Hroot) as [f0 Hdir]. destruct (skip_slashes_lead path) as (lead & E & Hlead).
  assert (split_tokens [47] (skip_slashes path) = split_tokens [47] path) as Hs
    by (rewrite E at 2; by rewrite split_lead).
  edestruct (open_path_spec d info _ _ _ _ _ Hopens (S (length path)) (Dir f0 (root_listing info)) f0
    (skip_slashes path) fat) as (o & fat' & Hrun & Hfound & Hfat); try done.
  { intros c Hc. by apply skip_slashes_stop in Hc. }
  { intros Hx. apply Hlast. rewrite E. destruct (skip_slashes path) as [|y ys]; [done|]. by rewrite last_app_cons. }
  { rewrite E at 2. rewrite length_app. lia. }
  { apply (vol_spc _ Hv). }
  exists o, fat'. split; [|done]. unfold openFile. unfold mbind at 1, prog_bind at 1, plift. rewrite Hdir. exact Hrun.
Qed.

(** C11: openFile() resolves a path as the directories of the volume say: it
    follows the names, without regard to case, through the listings of the
    directories; when the file does not exist, or a name before the last is
    not a directory, the result is null; otherwise reading the opened file
    returns the bytes of the clusters of its chain, in order. *)
Theorem openFile_correct info fat path r :
  Fat16FileSystem d = Ret (info, fat) ->
  first_fat_sector info + fat_size info < 2 ^ 32 -> root_dir_sectors info <= first_data_sector info ->
  opens d info (first_fat_sector info) (first_fat_sector info + fat_size info)
    (root_listing info) (split_tokens [47] path) r ->
  Forall (fun n => Z.of_nat (length n) <= MAX_FILENAME_LENGTH) (split_tokens [47] path) ->
  list.last path <> Some 47 ->
  exists o fat', openFile d info path fat = Ret (o, fat') /\
    match r with
    | None => o = None
    | Some (i, cs) => exists g, o = Some (ClusterFile g) /\
        stat_size (cf_stat g) = capacity info cs /\
        forall n, exists g', clus_read d info n g = Ret (take (Z.to_nat n) (content_of d info cs), g')
    end.
Proof.
  intros Hfs Hfat Hroot Hopens Hnames Hlast. destruct (Fat16_ok info fat Hfs Hfat) as [Hv Hok].
  destruct (openFile_spec info fat path r) as (o & fat' & Hrun & Hfound & _); try done.
  exists o, fat'. split; [done|].
  destruct r as [[i cs]|]; [|done]. destruct Hfound as (g & -> & [Hg Hc _]). exists g. split; [done|].
  split; [apply (clus_size _ _ _ _ Hg)|]. intros n.
  destruct (read_loop_spec (HS := clus_stream d info cs) _ _ (Z.to_nat n) g Hg) as (g' & Hread & _).
  exists g'. cbn [st_pos clus_stream] in Hread. by rewrite Hc in Hread.
Qed.
End volume.

(** ** Directories *)
Lemma name_part_spec l : (length (name_part l) <= length l)%nat /\ Forall (fun c => c <> 0 /\ c <> 32) (name_part l).
Proof.
  induction l as [|c l [IH1 IH2]]; [split; [done|constructor]|]. cbn [name_part].
  destruct (Z.eqb_spec c 0); [split; [simpl; lia|constructor]|].
  destruct (Z.eqb_spec c 32); [split; [simpl; lia|constructor]|]. cbn. split; [lia|by constructor].
Qed.

Lemma entry_name_spec b : let name := entry_name (file_entry b) in
  (length name <= 12)%nat /\ Forall (fun c => c <> 0 /\ c <> 32) name.
Proof.
  unfold entry_name. cbn [fe_filename fe_extname file_entry].
  pose proof (name_part_spec (take 8 b)) as [H1 H2]. pose proof (name_part_spec (take 3 (drop 8 b))) as [H3 H4].
  rewrite length_take in H1, H3. rewrite length_app, list.Forall_app.
  destruct (name_part (take 3 (drop 8 b))) as [|c ext]; cbn [length] in *; [split; [lia|by split; [|constructor]]|].
  split; [lia|]. split; [done|]. constructor; [done|done].
Qed.

Lemma entries_blocks n b : Forall (fun e => exists b, e = file_entry b) (entries n b).
Proof.
  revert b. induction n as [|n IH]; intros b; cbn [entries]; [constructor|].
  destruct (decide _); [constructor|]. destruct (_ =? 0); [constructor|]. constructor; [by eexists|apply IH].
Qed.

(** C21: init() of a directory, whatever the bytes of its file are, ends after
    as many turns as the file has entries, its assertion holds and no index
    leaves the array: the entries that are not deleted, hidden or labels, up
    to the end mark, in order.  Each name fits the arrays it is copied to, of
    16 and of 15 characters with the NUL, and has no space or NUL. *)
Theorem directory_init_correct `{HB : !Bios} `{HG : !GoodBios HB} d info content f :
  Forall (urange 8) content -> file_ok d info content f ->
  (exists f', init d info f = Ret (Dir f' (listing content)) /\ file_ok d info content f') /\
  Forall (fun i => (length (fi_filename i) < 15)%nat /\ Forall (fun c => c <> 0 /\ c <> 32) (fi_filename i) /\
    urange 32 (fi_cluster i)) (listing content).
Proof.
  intros Hb Hok. split; [by apply init_spec|]. unfold listing. apply Forall_fmap.
  apply (list.Forall_impl (fun e => exists b, e = file_entry b)).
  - pose proof (entries_blocks (S (length content / 32)) content) as He. rewrite list.Forall_forall in He |- *.
    intros e [_ Hin]%list_elem_of_filter. by apply He.
  - intros e [b ->]. destruct (entry_name_spec b) as [Hl Hc]. unfold compose.
    cbn [fi_filename fi_cluster entry_info]. split; [lia|]. split; [done|]. by apply wrap_range.
Qed.

(** ** A small volume

    One file, BIN/SH.ELF, of two clusters. *)
Section example.
Definition pad (n : nat) (c : Z) (l : list Z) : list Z := l ++ repeat c (n - length l).
Definition entry_bytes (name ext : string) (attr cluster size : Z) : list Z :=
  pad 8 32 (chars name) ++ pad 3 32 (chars ext) ++ attr :: repeat 0 14 ++ [cluster; 0] ++ [size mod 256; size / 256; 0; 0].
Definition boot_bytes (spc spf total : Z) : list Z :=
  repeat 0 11 ++ [0; 2; spc; 1; 0; 1; 16; 0; total mod 256; total / 256; 0; spf mod 256; spf / 256; 0; 0; 0; 0;
    1; 0; 0; 0; 0; 0; 0; 0; 0; 0; 0x29].
Definition small_sector (lba : Z) : list Z :=
  if lba =? 0 then pad 512 0 (boot_bytes 1 1 5000)
  else if lba =? 1 then pad 512 0 [0xF8; 0xFF; 0xFF; 0xFF; 0xFF; 0xFF; 4; 0; 0xFF; 0xFF]
  else if lba =? 2 then pad 512 0 (entry_bytes "BIN" "" DIRECTORY 2 0)
  else if lba =? 3 then pad 512 0 (entry_bytes "HIDDEN" "TXT" HIDDEN 3 600 ++ entry_bytes "SH" "ELF" 0x20 3 600)
  else if lba =? 4 then repeat 1 512
  else if lba =? 5 then repeat 2 512
  else repeat 0 512.
#[local] Instance small_bios : Bios := fun _ lba => small_sector lba.

Definition check_sector (l : list Z) : bool :=
  (length l =? 512)%nat && forallb (fun b => (0 <=? b) && (b <? 256)) l.

Lemma check_sector_ok l : check_sector l = true -> length l = 512%nat /\ Forall (urange 8) l.
Proof.
  unfold check_sector. rewrite andb_true_iff, Nat.eqb_eq, forallb_forall. intros [Hl Hb]. split; [done|].
  apply list.Forall_forall. intros b Hin. apply list_elem_of_In in Hin. specialize (Hb b Hin).
  unfold urange. change (2 ^ 8) with 256. lia.
Qed.

#[local] Instance small_bios_good : GoodBios small_bios.
Proof.
  assert (forall lba, check_sector (small_sector lba) = true) as H.
  { intros lba. unfold small_sector. repeat match goal with |- context [if ?b then _ else _] => destruct b end;
      vm_compute; reflexivity. }
  split; intros drive lba; apply (check_sector_ok _ (H lba)).
Qed.

Definition small_disk : disk := PhysicalDisk 0x80.
Definition small_info : fs_info := {|
  sectors_per_cluster := 1; total_sectors := 5000; fat_size := 1; root_dir_sectors := 1; first_data_sector := 3;
  first_fat_sector := 1; data_sectors := 4997; total_clusters := 4997 |}.
Definition small_fat : seq_file := createSequentialFile 1 2.

Lemma small_volume : Fat16FileSystem small_disk = Ret (small_info, small_fat).
Proof. vm_compute. reflexivity. Qed.

Lemma small_chain c n cs : le16_at (fat small_disk 1 2) (Z.to_nat (2 * c)) = n -> 0 <= c < 200 ->
  chain small_disk 1 2 n cs -> chain small_disk 1 2 c (c :: cs).
Proof.
  intros <- Hc Hch. constructor; [unfold CLUSTER_END; lia| |done].
  change (Z.of_nat (length (fat small_disk 1 2))) with 512. lia.
Qed.

Lemma small_end : chain small_disk 1 2 65535 [].
Proof. constructor. done. Qed.

Definition sh_info : FileInfo := {|
  fi_filename := chars "SH.ELF"; fi_directory := false; fi_size := 600; fi_cluster := 3 |}.

Lemma small_opens :
  opens small_disk small_info 1 2 (root_listing small_disk small_info) (split_tokens [47] (chars "/bin//Sh.elf"))
    (Some (sh_info, [3; 4])).
Proof.
  assert (split_tokens [47] (chars "/bin//Sh.elf") = [chars "bin"; chars "Sh.elf"]) as -> by reflexivity.
  set (bin := {| fi_filename := chars "BIN"; fi_directory := true; fi_size := 0; fi_cluster := 2 |}).
  apply opens_dir with (i := bin) (cs := [2]).
  - vm_compute. reflexivity.
  - split; [|split; vm_compute; done]. change (chain small_disk 1 2 2 [2]).
    apply small_chain with 65535; [vm_compute; reflexivity|lia|apply small_end].
  - done.
  - apply opens_last; [vm_compute; reflexivity|]. split; [|split; vm_compute; done].
    change (chain small_disk 1 2 3 [3; 4]). apply small_chain with 4; [vm_compute; reflexivity|lia|].
    apply small_chain with 65535; [vm_compute; reflexivity|lia|apply small_end].
Qed.

Lemma openFile_correct_witness :
  exists o fat', openFile small_disk small_info (chars "/bin//Sh.elf") small_fat = Ret (o, fat') /\
    exists g, o = Some (ClusterFile g) /\ stat_size (cf_stat g) = 1024.
Proof.
  assert (first_fat_sector small_info + fat_size small_info < 2 ^ 32) as H1 by (cbn; lia).
  assert (root_dir_sectors small_info <= first_data_sector small_info) as H2 by (cbn; lia).
  assert (Forall (fun n => Z.of_nat (length n) <= MAX_FILENAME_LENGTH) (split_tokens [47] (chars "/bin//Sh.elf"))) as H3
    by (repeat constructor; vm_compute; done).
  assert (list.last (chars "/bin//Sh.elf") <> Some 47) as H4 by (vm_compute; done).
  destruct (openFile_correct small_disk small_info small_fat _ _ small_volume H1 H2 small_opens H3 H4)
    as (o & fat' & Hrun & g & Ho & Hs & _).
  exists o, fat'. split; [exact Hrun|]. exists g. split; [exact Ho|exact Hs].
Defined.

Lemma directory_init_correct_witness :
  exists f', init small_disk small_info (SequentialFile (createSequentialFile 3 4)) = Ret (Dir f' [sh_info]).
Proof.
  assert (Forall (urange 8) (sectors_content small_disk (run_of 3 4))) as H1 by apply sectors_bytes.
  assert (file_ok small_disk small_info (sectors_content small_disk (run_of 3 4))
    (SequentialFile (createSequentialFile 3 4))) as H2.
  { eapply ok_seq; [|reflexivity]. apply seq_create; lia. }
  destruct (directory_init_correct small_disk small_info _ _ H1 H2) as [(f' & Hrun & _) _].
  assert (listing (sectors_content small_disk (run_of 3 4)) = [sh_info]) as E by (vm_compute; reflexivity).
  exists f'. rewrite Hrun, E. reflexivity.
Defined.
End example.

(** ** Which volumes the constructor mounts *)





