(* ===== verification/Terminal.v ===== *)
(** * Terminal: the line discipline and the two terminals

    src/inc/objects/LineBufferedIOMixin.hpp over a device that reads and writes
    characters, and the devices it is used with: the keyboard and the screen
    of src/src/objects/VGATextIODevice.cpp with the early output of
    src/inc/objects/EarlyStageOutputDevice.hpp, and the serial line of
    src/src/objects/SerialIODevice.cpp. *)
From S2P Require Import Prelude Mem CString Keyboard Pic Kernel File.

(** ** Ring buffers: an array, a start and an end *)
Record ring := Ring { r_buf : list Z; r_start : Z; r_end : Z }.

Definition ring_empty (r : ring) : bool := r_start r =? r_end r.
Definition ring_full (n : Z) (r : ring) : bool := (r_end r + 1) mod n =? r_start r.
Definition ring_push (n c : Z) (r : ring) : ring :=
  Ring (<[Z.to_nat (r_end r) := c]> (r_buf r)) (r_start r) ((r_end r + 1) mod n).
Definition ring_first (r : ring) : Z := r_buf r !!! Z.to_nat (r_start r).
Definition ring_pop (n : Z) (r : ring) : ring := Ring (r_buf r) ((r_start r + 1) mod n) (r_end r).
Definition ring_unpush (n : Z) (r : ring) : ring := Ring (r_buf r) (r_start r) ((r_end r - 1 + n) mod n).
Definition ring_clear (r : ring) : ring := Ring (r_buf r) 0 0.
Definition ring_new (n : Z) : ring := Ring (replicate (Z.to_nat n) 0) 0 0.

(** ** LineBufferedIOMixin.hpp *)
Definition BUFFER_SIZE : Z := 256.

(** What the mixin requires of its base class: [read(&ch, 1)], which is
    positive when there is a character, [write] and [backspace]. *)
Class LineBase (S : Type) := {
  base_getc : prog S (option Z);
  base_write : list Z -> prog S unit;
  base_backspace : prog S unit
}.

(** The members of the mixin; [committed] stands for [buffer_committed]. *)
Record line_buffer := LineBuffer { lb_eof : bool; buffer : ring; committed : ring }.

Definition line_buffer_new : line_buffer := LineBuffer false (ring_new BUFFER_SIZE) (ring_new BUFFER_SIZE).

(** The loop of commit(); a turn takes a character out of [buffer]. *)
Fixpoint commit_loop (fuel : nat) (b c : ring) : option (ring * ring) :=
  match fuel with
  | O => None
  | S fuel =>
      if ring_empty b || ring_full BUFFER_SIZE c then Some (b, c)
      else commit_loop fuel (ring_pop BUFFER_SIZE b) (ring_push BUFFER_SIZE (ring_first b) c)
  end.

Section line_buffered.
Context {S : Type} `{!LineBase S}.
Abbreviation lprog := (prog (line_buffer * S)).

Definition on_base {A} (p : prog S A) : lprog A := zoom snd (fun s x => (x.1, s)) p.
Definition get_lb : lprog line_buffer := x ← pget; mret x.1.
Definition put_lb (lb : line_buffer) : lprog unit := pmodify (fun x => (lb, x.2)).

Definition commit : lprog unit :=
  lb ← get_lb;
  match commit_loop 257 (buffer lb) (committed lb) with
  | Some (b, c) => put_lb (LineBuffer (lb_eof lb) (ring_clear b) c)
  | None => pnofuel
  end.

(** The loop of read(): [true] when read() returns 0 at once.  It ends when
    the device has no more characters. *)
Fixpoint read_chars (fuel : nat) (size : Z) : lprog bool :=
  match fuel with
  | O => pnofuel
  | Datatypes.S fuel =>
      ch ← on_base base_getc;
      match ch with
      | None => mret false
      | Some ch =>
          lb ← get_lb;
          if 128 <=? ch then read_chars fuel size
          else if ch =? 4 then
            if ring_empty (buffer lb) && ring_empty (committed lb) then
              put_lb (LineBuffer (size =? 0) (buffer lb) (committed lb));; mret true
            else commit;; mret false
          else if ch =? 8 then
            (if ring_empty (buffer lb) then mret tt
             else
               on_base base_backspace;;
               put_lb (LineBuffer (lb_eof lb) (ring_unpush BUFFER_SIZE (buffer lb)) (committed lb)));;
            read_chars fuel size
          else if ring_full BUFFER_SIZE (buffer lb) then read_chars fuel size
          else
            put_lb (LineBuffer (lb_eof lb) (ring_push BUFFER_SIZE ch (buffer lb)) (committed lb));;
            (if ch =? 10 then commit else mret tt);;
            on_base (base_write [ch]);;
            read_chars fuel size
      end
  end.

(** The last loop of read(): the bytes it stores. *)
Fixpoint take_committed (n : nat) (c : ring) : list Z * ring :=
  match n with
  | O => ([], c)
  | Datatypes.S n =>
      if ring_empty c then ([], c)
      else let '(l, c') := take_committed n (ring_pop BUFFER_SIZE c) in (ring_first c :: l, c')
  end.

(** read(): the result and the bytes stored. *)
Definition line_read (fuel : nat) (size : Z) : lprog (Z * list Z) :=
  lb ← get_lb;
  if lb_eof lb then put_lb (LineBuffer (size =? 0) (buffer lb) (committed lb));; mret (0, [])
  else
    stop ← read_chars fuel size;
    if stop : bool then mret (0, [])
    else
      lb ← get_lb;
      if ring_empty (committed lb) then mret (- EAGAIN, [])
      else
        let '(l, c) := take_committed (Z.to_nat size) (committed lb) in
        put_lb (LineBuffer (lb_eof lb) (buffer lb) c);; mret (Z.of_nat (length l), l).
End line_buffered.

(** ** EarlyStageOutputDevice.hpp *)
Section early.
Variable VGA_TEXT_BASE : Z.

(** The loop that scrolls; the cursor moves back by a line in each turn. *)
Fixpoint scroll (fuel : nat) (cursor : Z) : prog mem Z :=
  match fuel with
  | O => pnofuel
  | Datatypes.S fuel =>
      if VGA_TEXT_BASE + 80 * 25 * 2 <=? cursor then
        memcpy VGA_TEXT_BASE (VGA_TEXT_BASE + 2 * 80) (80 * 24 * 2);;
        memset (VGA_TEXT_BASE + 80 * 24 * 2) 0 (80 * 2);;
        scroll fuel (cursor - 80 * 2)
      else mret cursor
  end.

(** write(): the new cursor.  One turn of the scrolling loop is enough, since
    the cursor is at most at the end of the screen. *)
Fixpoint early_write (l : list Z) (cursor : Z) : prog mem Z :=
  match l with
  | [] => mret cursor
  | ch :: l =>
      cursor ← scroll 2 cursor;
      store8 cursor ch;;
      store8 (cursor + 1) 4;;
      early_write l (cursor + 2)
  end.
End early.

(** ** VGATextIODevice.cpp *)
Definition KBD_BUFFER_SIZE : Z := 64.

(** The state: the keyboard decoder, its ring, the cursor of the early output
    and the machine. *)
Record vga (S : Type) := Vga { kbd_shift : Z; kbd_buffer : ring; text_cursor : Z; vga_devices : S }.
Arguments Vga {S} _ _ _ _.
Arguments kbd_shift {S} _.
Arguments kbd_buffer {S} _.
Arguments text_cursor {S} _.
Arguments vga_devices {S} _.

(** The BIOS call 0x10 with the value of [ax]; whether its task is busy; the
    memory, in which the text screen is. *)
Class VgaMachine (S : Type) := {
  int10 : Z -> prog S unit;
  v8086_busy : S -> bool;
  machine_mem : S -> mem;
  machine_set_mem : mem -> S -> S;
  VGA_TEXT_BASE : Z
}.

Section vga.
Context {S : Type} `{!PortIO S} `{!VgaMachine S}.
Abbreviation vprog := (prog (vga S)).

Definition on_devices {A} (p : prog S A) : vprog A :=
  zoom vga_devices (fun s v => Vga (kbd_shift v) (kbd_buffer v) (text_cursor v) s) p.
Definition on_kbd {A} (p : prog (Z * S) A) : vprog A :=
  zoom (fun v => (kbd_shift v, vga_devices v))
    (fun x v => Vga x.1 (kbd_buffer v) (text_cursor v) x.2) p.
Definition put_kbd (r : ring) : vprog unit :=
  pmodify (fun v => Vga (kbd_shift v) r (text_cursor v) (vga_devices v)).

(** The loop of the interrupt handler; it ends when the keyboard has no more
    scan codes, or one that makes no character. *)
Fixpoint irq1_loop (fuel : nat) : vprog unit :=
  match fuel with
  | O => pnofuel
  | Datatypes.S fuel =>
      ch ← on_kbd kbd_raw_getc;
      if 0 <? ch then
        v ← pget;
        (if ring_full KBD_BUFFER_SIZE (kbd_buffer v) then mret tt
         else put_kbd (ring_push KBD_BUFFER_SIZE (u8 ch) (kbd_buffer v)));;
        irq1_loop fuel
      else mret tt
  end.
Definition irq1_handler (fuel : nat) : vprog unit := irq1_loop fuel;; on_devices (PIC_sendEOI 1).

(** [(0x0e << 8) + ch] with a signed [char]. *)
Definition vga_putc0 (ch : Z) : vprog unit := on_devices (int10 (u16 (Z.shiftl 0x0e 8 + s8 ch))).

(** The loop of write() while the v8086 task is free. *)
Fixpoint vga_put_all (l : list Z) : vprog unit :=
  match l with
  | [] => mret tt
  | c :: l => (if c =? 10 then vga_putc0 13 else mret tt);; vga_putc0 c;; vga_put_all l
  end.

Definition vga_write (l : list Z) : vprog unit :=
  v ← pget;
  if v8086_busy (vga_devices v) then
    cursor ← on_devices (zoom machine_mem machine_set_mem (early_write VGA_TEXT_BASE l (text_cursor v)));
    pmodify (fun v => Vga (kbd_shift v) (kbd_buffer v) cursor (vga_devices v))
  else vga_put_all l.

Definition vga_backspace : vprog unit := vga_write [8; 32; 8].

Definition vga_empty : vprog bool := v ← pget; mret (ring_empty (kbd_buffer v)).

Definition vga_getc0 : vprog Z :=
  v ← pget;
  if ring_empty (kbd_buffer v) then mret EOF
  else
    let ch := ring_first (kbd_buffer v) in
    put_kbd (ring_pop KBD_BUFFER_SIZE (kbd_buffer v));;
    mret (if ch =? 13 then 10 else ch).

(** read(): [None] for -EAGAIN, and else the bytes stored. *)
Definition vga_read (size : Z) : vprog (option (list Z)) :=
  e ← vga_empty;
  if e : bool then mret None else l ← read_loop vga_getc0 (Z.to_nat size); mret (Some l).

#[export] Instance vga_line_base : LineBase (vga S) := {
  base_getc := l ← vga_read 1; mret (match l with Some (ch :: _) => Some ch | _ => None end);
  base_write := vga_write;
  base_backspace := vga_backspace
}.
End vga.

(** ** SerialIODevice.cpp *)
Section serial.
Context {S : Type} `{!PortIO S}.
Variable port : Z.

Definition SerialIODevice : prog S unit :=
  outb (port + 1) 0x00;;
  outb (port + 3) 0x80;;
  outb (port + 0) 0x01;;
  outb (port + 1) 0x00;;
  outb (port + 3) 0x03;;
  outb (port + 2) 0xC7;;
  outb (port + 4) 0x0B;;
  outb (port + 4) 0x0F.

Definition serial_empty : prog S bool := st ← inb (port + 5); mret (Z.land st 1 =? 0).

Definition serial_getc : prog S Z :=
  e ← serial_empty;
  if e : bool then mret EOF
  else ret ← inb port; mret (if ret =? 13 then 10 else ret).

Definition serial_read (size : Z) : prog S (option (list Z)) :=
  e ← serial_empty;
  if e : bool then mret None else l ← read_loop serial_getc (Z.to_nat size); mret (Some l).

Definition is_transmit_empty : prog S bool := st ← inb (port + 5); mret (Z.land st 0x20 =? 0).

(** The loop waits for the line; [fuel] bounds the polls. *)
Fixpoint serial_putc0 (fuel : nat) (ch : Z) : prog S unit :=
  match fuel with
  | O => pnofuel
  | Datatypes.S fuel =>
      busy ← is_transmit_empty;
      if busy : bool then serial_putc0 fuel ch else outb port ch
  end.

Definition serial_putc (fuel : nat) (ch : Z) : prog S unit :=
  (if ch =? 10 then serial_putc0 fuel 13 else mret tt);; serial_putc0 fuel ch.

Fixpoint serial_write (fuel : nat) (l : list Z) : prog S unit :=
  match l with
  | [] => mret tt
  | c :: l => serial_putc fuel c;; serial_write fuel l
  end.

Definition serial_backspace (fuel : nat) : prog S unit := serial_write fuel [8; 32; 8].
End serial.
