(* ===== verification/TerminalSpec.v ===== *)
(** * TerminalSpec: the line discipline against queues

    A ring buffer holds a queue; on queues, read() of the mixin is a function
    of the characters that have been typed. *)
From S2P Require Import Prelude Mem CString Keyboard Pic Kernel File Terminal.

(** ** Rings *)
Lemma mod_once n a : 0 <= a < 2 * n -> a mod n = if a <? n then a else a - n.
Proof.
  intros Ha. destruct (Z.ltb_spec a n) as [H|H]; [apply Z.mod_small; lia|].
  symmetry. apply Z.mod_unique with 1; lia.
Qed.

Record ring_ok (n : Z) (r : ring) (l : list Z) : Prop := {
  ring_length : length (r_buf r) = Z.to_nat n;
  ring_start : 0 <= r_start r < n;
  ring_len : Z.of_nat (length l) < n;
  ring_end : r_end r = (r_start r + Z.of_nat (length l)) mod n;
  ring_items i x : l !! i = Some x -> r_buf r !! Z.to_nat ((r_start r + Z.of_nat i) mod n) = Some x
}.

Section ring.
Variable n : Z.
Implicit Types (r : ring) (l : list Z).

Lemma ring_new_ok : 0 < n -> ring_ok n (ring_new n) [].
Proof.
  intros Hn. split; cbn; [apply length_replicate|lia|lia|by rewrite Z.mod_0_l by lia|done].
Qed.

Lemma ring_empty_ok r l : ring_ok n r l -> ring_empty r = match l with [] => true | _ => false end.
Proof.
  intros [_ Hs Hl He _]. unfold ring_empty. rewrite He, mod_once by lia.
  destruct l as [|x l]; cbn [length] in *.
  - rewrite Z.add_0_r. destruct (Z.ltb_spec (r_start r) n); [apply Z.eqb_refl|lia].
  - apply Z.eqb_neq. destruct (Z.ltb_spec (r_start r + Z.of_nat (S (length l))) n); lia.
Qed.

Lemma ring_full_ok r l : ring_ok n r l -> ring_full n r = (n - 1 <=? Z.of_nat (length l)).
Proof.
  intros [_ Hs Hl He _]. unfold ring_full. rewrite He, Zplus_mod_idemp_l.
  apply eq_iff_eq_true. rewrite Z.eqb_eq, Z.leb_le, <- Z.add_assoc.
  destruct (decide (Z.of_nat (length l) = n - 1)) as [E|Hne].
  - rewrite E. replace (r_start r + (n - 1 + 1)) with (r_start r + 1 * n) by lia.
    rewrite Z.mod_add, Z.mod_small by lia. lia.
  - rewrite mod_once by lia. destruct (Z.ltb_spec (r_start r + (Z.of_nat (length l) + 1)) n); lia.
Qed.

Lemma ring_push_ok r l c : ring_ok n r l -> ring_full n r = false -> ring_ok n (ring_push n c r) (l ++ [c]).
Proof.
  intros Hok Hfull. rewrite (ring_full_ok r l Hok) in Hfull. apply Z.leb_gt in Hfull.
  destruct Hok as [Hlen Hs Hl He Hi]. split; cbn.
  - by rewrite length_insert.
  - done.
  - rewrite length_app. cbn. lia.
  - rewrite He, Zplus_mod_idemp_l, length_app. cbn. f_equal. lia.
  - intros i x Hx. pose proof (Z.mod_pos_bound (r_start r + Z.of_nat (length l)) n ltac:(lia)).
    pose proof (Z.mod_pos_bound (r_start r + Z.of_nat i) n ltac:(lia)).
    destruct (decide (i = length l)) as [->|Hne].
    + rewrite lookup_app_r, Nat.sub_diag in Hx by lia. injection Hx as <-. rewrite He.
      apply list_lookup_insert_eq. lia.
    + pose proof (lookup_lt_Some _ _ _ Hx) as Hlt. rewrite length_app in Hlt. cbn in Hlt.
      rewrite lookup_app_l in Hx by lia. rewrite list_lookup_insert_ne; [by apply Hi|].
      rewrite He. intros E. apply Z2Nat.inj in E; [|lia..]. rewrite !mod_once in E by lia.
      destruct (Z.ltb_spec (r_start r + Z.of_nat (length l)) n), (Z.ltb_spec (r_start r + Z.of_nat i) n); lia.
Qed.

Lemma ring_pop_ok r x l : ring_ok n r (x :: l) -> ring_first r = x /\ ring_ok n (ring_pop n r) l.
Proof.
  intros [Hlen Hs Hl He Hi]. cbn [length] in *. split.
  - unfold ring_first. specialize (Hi 0%nat x eq_refl). rewrite Z.add_0_r, Z.mod_small in Hi by lia.
    by apply list_lookup_total_correct.
  - split; cbn; [done|apply Z.mod_pos_bound; lia|lia| |].
    + rewrite He, Zplus_mod_idemp_l. f_equal. lia.
    + intros i y Hy. specialize (Hi (S i) y Hy). rewrite Zplus_mod_idemp_l.
      by replace (r_start r + 1 + Z.of_nat i) with (r_start r + Z.of_nat (S i)) by lia.
Qed.

Lemma ring_unpush_ok r l x : ring_ok n r (l ++ [x]) -> ring_ok n (ring_unpush n r) l.
Proof.
  intros [Hlen Hs Hl He Hi]. rewrite length_app in *. cbn [length] in *. split; cbn; [done|done|lia| |].
  - rewrite He. replace ((r_start r + Z.of_nat (length l + 1)) mod n - 1 + n)
      with ((r_start r + Z.of_nat (length l + 1)) mod n + (n - 1)) by lia.
    rewrite Zplus_mod_idemp_l.
    replace (r_start r + Z.of_nat (length l + 1) + (n - 1)) with (r_start r + Z.of_nat (length l) + 1 * n) by lia.
    apply Z.mod_add. lia.
  - intros i y Hy. apply Hi. rewrite lookup_app_l; [done|]. by apply lookup_lt_Some in Hy.
Qed.

Lemma ring_clear_ok r l : ring_ok n r l -> ring_ok n (ring_clear r) [].
Proof.
  intros [Hlen Hs Hl He Hi]. split; cbn; [done|lia|lia|by rewrite Z.mod_0_l by lia|done].
Qed.
End ring.

(** ** The line discipline on queues *)

(** commit(): what fits the second queue is moved, and the rest is dropped. *)
Definition commit_spec (pending done : list Z) : list Z := done ++ take (255 - length done) pending.

(** What the loop of read() does with the characters that have been typed. *)
Record turn := Turn {
  t_eof : bool;
  t_rest : list Z;
  t_pending : list Z;
  t_done : list Z;
  t_shown : list Z
}.
Definition show (l : list Z) (t : turn) : turn :=
  Turn (t_eof t) (t_rest t) (t_pending t) (t_done t) (l ++ t_shown t).

Fixpoint type_chars (input pending done : list Z) : turn :=
  match input with
  | [] => Turn false [] pending done []
  | ch :: rest =>
      if 128 <=? ch then type_chars rest pending done
      else if ch =? 4 then
        match pending, done with
        | [], [] => Turn true rest [] [] []
        | _, _ => Turn false rest [] (commit_spec pending done) []
        end
      else if ch =? 8 then
        match pending with
        | [] => type_chars rest [] done
        | _ => show [8; 32; 8] (type_chars rest (removelast pending) done)
        end
      else if 255 <=? Z.of_nat (length pending) then type_chars rest pending done
      else if ch =? 10 then show [ch] (type_chars rest [] (commit_spec (pending ++ [ch]) done))
      else show [ch] (type_chars rest (pending ++ [ch]) done)
  end.

(** What a base class promises: it hands out the characters that have been
    typed, in order, and shows what it is given. *)
Class LineBaseOk (S : Type) `{!LineBase S} := {
  base_ok : S -> Prop;
  typed : S -> list Z;
  shown : S -> list Z;
  as_shown : list Z -> list Z;
  base_getc_nil s : base_ok s -> typed s = [] -> base_getc s = Ret (None, s);
  base_getc_cons s c cs : base_ok s -> typed s = c :: cs ->
    exists s', base_getc s = Ret (Some c, s') /\ base_ok s' /\ typed s' = cs /\ shown s' = shown s;
  base_write_ok l s : base_ok s ->
    exists s', base_write l s = Ret (tt, s') /\ base_ok s' /\ typed s' = typed s /\ shown s' = shown s ++ as_shown l;
  base_backspace_ok s : base_ok s ->
    exists s', base_backspace s = Ret (tt, s') /\ base_ok s' /\ typed s' = typed s /\
      shown s' = shown s ++ as_shown [8; 32; 8];
  as_shown_nil : as_shown [] = [];
  as_shown_app l1 l2 : as_shown (l1 ++ l2) = as_shown l1 ++ as_shown l2
}.

Lemma commit_loop_spec fuel b c p q : ring_ok BUFFER_SIZE b p -> ring_ok BUFFER_SIZE c q ->
  (length p < fuel)%nat ->
  exists b' c', commit_loop fuel b c = Some (b', c') /\ ring_ok BUFFER_SIZE c' (commit_spec p q) /\
    exists p', ring_ok BUFFER_SIZE b' p'.
Proof.
  revert b c p q. induction fuel as [|fuel IH]; intros b c p q Hb Hc Hf; [lia|]. cbn [commit_loop].
  rewrite (ring_empty_ok _ _ _ Hb). unfold commit_spec.
  destruct p as [|x p]; cbn [orb].
  { exists b, c. rewrite take_nil, app_nil_r. split; [done|]. split; [done|]. by exists []. }
  destruct (ring_full BUFFER_SIZE c) eqn:Hfull.
  - exists b, c. split; [done|]. split; [|by exists (x :: p)].
    rewrite (ring_full_ok _ _ _ Hc) in Hfull. apply Z.leb_le in Hfull. unfold BUFFER_SIZE in Hfull.
    replace (255 - length q)%nat with 0%nat by lia. by rewrite take_0, app_nil_r.
  - destruct (ring_pop_ok _ _ _ _ Hb) as [-> Hb']. pose proof (ring_push_ok _ _ _ x Hc Hfull) as Hc'.
    rewrite (ring_full_ok _ _ _ Hc) in Hfull. apply Z.leb_gt in Hfull. unfold BUFFER_SIZE in Hfull.
    destruct (IH _ _ p _ Hb' Hc') as (b' & c' & Hrun & Hok & Hp); [simpl in Hf; lia|].
    exists b', c'. split; [done|]. split; [|done]. unfold commit_spec in Hok.
    rewrite length_app, <- app_assoc in Hok. cbn [length app] in Hok.
    destruct (255 - length q)%nat as [|k] eqn:Ek; [lia|]. cbn [take].
    by replace (255 - (length q + 1))%nat with k in Hok by lia.
Qed.

Section line.
Context {S : Type} `{HB : !LineBase S} `{HO : !LineBaseOk S}.
Implicit Types (s : S) (lb : line_buffer).

Definition lb_ok (lb : line_buffer) (pending done : list Z) : Prop :=
  ring_ok BUFFER_SIZE (buffer lb) pending /\ ring_ok BUFFER_SIZE (committed lb) done.

Lemma commit_ok lb s p q : lb_ok lb p q ->
  exists lb', commit (lb, s) = Ret (tt, (lb', s)) /\ lb_ok lb' [] (commit_spec p q) /\ lb_eof lb' = lb_eof lb.
Proof.
  intros [Hb Hc]. pose proof (ring_len _ _ _ Hb) as Hlen. unfold BUFFER_SIZE in Hlen.
  destruct (commit_loop_spec 257 _ _ _ _ Hb Hc) as (b' & c' & Hrun & Hok & p' & Hp); [lia|].
  exists (LineBuffer (lb_eof lb) (ring_clear b') c'). split; [|split; [|done]].
  - unfold commit, get_lb. prog_norm. cbn [fst]. by rewrite Hrun.
  - split; cbn; [by apply (ring_clear_ok _ _ p')|done].
Qed.

Lemma on_base_ok {A} (p : prog S A) lb s a s' : p s = Ret (a, s') -> on_base p (lb, s) = Ret (a, (lb, s')).
Proof. intros H. unfold on_base, zoom. cbn. by rewrite H. Qed.

(** The loop of read(). *)
Lemma read_chars_ok fuel size lb s p q : lb_ok lb p q -> base_ok s -> (length (typed s) < fuel)%nat ->
  let t := type_chars (typed s) p q in
  exists lb' s', read_chars fuel size (lb, s) = Ret (t_eof t, (lb', s')) /\
    lb_ok lb' (t_pending t) (t_done t) /\ lb_eof lb' = (if t_eof t then size =? 0 else lb_eof lb) /\
    base_ok s' /\ typed s' = t_rest t /\ shown s' = shown s ++ as_shown (t_shown t).
Proof.
  revert lb s p q. induction fuel as [|fuel IH]; intros lb s p q Hlb Hs Hf; [lia|]. cbn [read_chars].
  destruct (typed s) as [|ch cs] eqn:Ht; cbn [type_chars].
  { rewrite (bind_Ret _ _ _ _ _ (on_base_ok _ lb s _ _ (base_getc_nil s Hs Ht))).
    exists lb, s. cbn. by rewrite as_shown_nil, app_nil_r. }
  destruct (base_getc_cons s ch cs Hs Ht) as (s1 & Hget & Hs1 & Ht1 & Hsh1).
  rewrite (bind_Ret _ _ _ _ _ (on_base_ok _ lb s _ _ Hget)). unfold get_lb at 1. prog_norm. cbn [fst].
  assert (length (typed s1) < fuel)%nat as Hf1 by (rewrite Ht1; simpl in Hf; lia).
  destruct Hlb as [Hb Hc]. rewrite (ring_empty_ok _ _ _ Hb), (ring_empty_ok _ _ _ Hc), (ring_full_ok _ _ _ Hb).
  rewrite <- Hsh1, <- Ht1. destruct (128 <=? ch); [by apply IH|].
  destruct (ch =? 4).
  { assert (exists lb' s', (commit;; mret false) (lb, s1) = Ret (false, (lb', s')) /\
      lb_ok lb' [] (commit_spec p q) /\ lb_eof lb' = lb_eof lb /\ base_ok s' /\ typed s' = typed s1 /\
      shown s' = shown s1 ++ as_shown []) as Hcommit.
    { destruct (commit_ok lb s1 p q (conj Hb Hc)) as (lb1 & Hcom & Hlb1 & Heof).
      exists lb1, s1. rewrite (bind_Ret _ _ _ _ _ Hcom), as_shown_nil, app_nil_r. by split_and!. }
    destruct p as [|x p], q as [|y q]; cbn [andb]; try exact Hcommit.
    eexists _, s1. split; [reflexivity|]. cbn. rewrite as_shown_nil, app_nil_r. by split_and!. }
  destruct (ch =? 8).
  { destruct p as [|x p].
    - rewrite mret_bind. by apply IH.
    - prog_norm. destruct (base_backspace_ok s1 Hs1) as (s2 & Hbs & Hs2 & Ht2 & Hsh2).
      rewrite (bind_Ret _ _ _ _ _ (on_base_ok _ lb s1 _ _ Hbs)). unfold put_lb.
      destruct (exists_last (l := x :: p) ltac:(done)) as (p' & y & E).
      rewrite E in Hb |- *. rewrite removelast_last. pose proof (ring_unpush_ok _ _ _ _ Hb) as Hb'.
      edestruct (IH (LineBuffer (lb_eof lb) (ring_unpush BUFFER_SIZE (buffer lb)) (committed lb)) s2 p' q)
        as (lb3 & s3 & Hrun & Hlb3 & Heof & Hs3 & Ht3 & Hsh3); [done|done|by rewrite Ht2|].
      exists lb3, s3. rewrite Ht2 in *. split; [exact Hrun|]. cbn.
      split; [done|]. split; [done|]. split; [done|]. split; [done|].
      rewrite Hsh3, Hsh2, <- app_assoc. by rewrite <- (as_shown_app [8; 32; 8]). }
  change (BUFFER_SIZE - 1) with 255. destruct (255 <=? Z.of_nat (length p)) eqn:Hfull; [by apply IH|].
  assert (ring_full BUFFER_SIZE (buffer lb) = false) as Hnf by (by rewrite (ring_full_ok _ _ _ Hb)).
  pose proof (ring_push_ok _ _ _ ch Hb Hnf) as Hb'.
  set (lb1 := LineBuffer _ _ _). assert (lb_ok lb1 (p ++ [ch]) q) as Hlb1 by (by split).
  rewrite (bind_Ret (put_lb lb1) _ (lb, s1) tt (lb1, s1)) by reflexivity.
  assert (exists lb2, (if ch =? 10 then commit else mret tt) (lb1, s1) = Ret (tt, (lb2, s1)) /\
    lb_eof lb2 = lb_eof lb /\
    if ch =? 10 then lb_ok lb2 [] (commit_spec (p ++ [ch]) q) else lb_ok lb2 (p ++ [ch]) q)
    as (lb2 & Hrun2 & Heof2 & Hlb2).
  { destruct (ch =? 10); [|by exists lb1].
    destruct (commit_ok lb1 s1 _ _ Hlb1) as (lb2 & Hcom & Hok & Heof). exists lb2. by split_and!. }
  rewrite (bind_Ret _ _ _ _ _ Hrun2). destruct (base_write_ok [ch] s1 Hs1) as (s2 & Hw & Hs2 & Ht2 & Hsh2).
  rewrite (bind_Ret _ _ _ _ _ (on_base_ok _ lb2 s1 _ _ Hw)).
  set (p2 := if ch =? 10 then [] else p ++ [ch]). set (q2 := if ch =? 10 then commit_spec (p ++ [ch]) q else q).
  assert (lb_ok lb2 p2 q2) as Hlb2' by (unfold p2, q2; by destruct (ch =? 10)).
  destruct (IH lb2 s2 p2 q2 Hlb2' Hs2) as (lb3 & s3 & Hrun3 & Hlb3 & Heof3 & Hs3 & Ht3 & Hsh3); [by rewrite Ht2|].
  rewrite Ht2, Heof2 in *.
  assert ((if ch =? 10 then show [ch] (type_chars (typed s1) [] (commit_spec (p ++ [ch]) q))
           else show [ch] (type_chars (typed s1) (p ++ [ch]) q)) = show [ch] (type_chars (typed s1) p2 q2)) as ->
    by (unfold p2, q2; by destruct (ch =? 10)).
  exists lb3, s3. split; [exact Hrun3|]. cbn. split_and!; try done.
  rewrite Hsh3, Hsh2, <- app_assoc. by rewrite <- (as_shown_app [ch]).
Qed.

(** read() on queues: the result, the bytes stored, and the line buffer. *)
Definition line_read_spec (size : Z) (eof : bool) (input pending done : list Z) :
    (Z * list Z) * (bool * turn) :=
  if eof then ((0, []), (size =? 0, Turn false input pending done []))
  else
    let t := type_chars input pending done in
    if t_eof t then ((0, []), (size =? 0, t))
    else
      match t_done t with
      | [] => ((- EAGAIN, []), (false, t))
      | _ =>
          let l := take (Z.to_nat size) (t_done t) in
          ((Z.of_nat (length l), l),
           (false, Turn false (t_rest t) (t_pending t) (drop (Z.to_nat size) (t_done t)) (t_shown t)))
      end.

Lemma take_committed_ok n c q : ring_ok BUFFER_SIZE c q ->
  exists c', take_committed n c = (take n q, c') /\ ring_ok BUFFER_SIZE c' (drop n q).
Proof.
  revert c q. induction n as [|n IH]; intros c q Hc; cbn [take_committed].
  { exists c. by rewrite take_0, drop_0. }
  rewrite (ring_empty_ok _ _ _ Hc). destruct q as [|x q]; [by exists c|].
  destruct (ring_pop_ok _ _ _ _ Hc) as [Hx Hc']. destruct (IH _ _ Hc') as (c' & -> & Hok).
  exists c'. by rewrite Hx.
Qed.

Lemma line_read_ok fuel size lb s p q : lb_ok lb p q -> base_ok s -> (length (typed s) < fuel)%nat ->
  let '(r, (eof, t)) := line_read_spec size (lb_eof lb) (typed s) p q in
  exists lb' s', line_read fuel size (lb, s) = Ret (r, (lb', s')) /\
    lb_ok lb' (t_pending t) (t_done t) /\ lb_eof lb' = eof /\
    base_ok s' /\ typed s' = t_rest t /\ shown s' = shown s ++ as_shown (t_shown t).
Proof.
  intros Hlb Hs Hf. unfold line_read, line_read_spec. rewrite (bind_Ret get_lb _ (lb, s) lb (lb, s)) by reflexivity.
  destruct (lb_eof lb) eqn:Heof.
  { eexists _, s. split; [reflexivity|]. cbn. rewrite as_shown_nil, app_nil_r. by split_and!. }
  destruct (read_chars_ok fuel size lb s p q Hlb Hs Hf) as (lb1 & s1 & Hrun & Hlb1 & Heof1 & Hs1 & Ht1 & Hsh1).
  rewrite (bind_Ret _ _ _ _ _ Hrun). destruct (t_eof _) eqn:Ht.
  { exists lb1, s1. by split_and!. }
  rewrite (bind_Ret get_lb _ (lb1, s1) lb1 (lb1, s1)) by reflexivity.
  destruct Hlb1 as [Hb1 Hc1]. rewrite (ring_empty_ok _ _ _ Hc1).
  rewrite Heof in Heof1. destruct (t_done _) as [|x q1] eqn:Hq.
  { exists lb1, s1. split_and!; try done. split; [done|by rewrite Hq]. }
  destruct (take_committed_ok (Z.to_nat size) _ _ Hc1) as (c' & -> & Hc').
  eexists _, s1. split; [reflexivity|]. cbn [t_pending t_done t_rest t_shown lb_eof]. by split_and!.
Qed.
End line.

(** ** Lines *)

(** The text of a line in which 8 erases the last character. *)
Definition edit (text cs : list Z) : list Z :=
  foldl (fun l c => if c =? 8 then removelast l else l ++ [c]) text cs.

Lemma length_removelast {A} (l : list A) : (length (removelast l) <= length l)%nat.
Proof. induction l as [|x [|y l] IH]; cbn in *; lia. Qed.

Lemma edit_length cs text : (length (edit text cs) <= length text + length cs)%nat.
Proof.
  revert text. induction cs as [|c cs IH]; intros text; cbn; [lia|].
  specialize (IH (if c =? 8 then removelast text else text ++ [c])).
  pose proof (length_removelast text). destruct (c =? 8); [|rewrite length_app in IH; cbn in IH]; unfold edit in *; lia.
Qed.

Definition plain (c : Z) : Prop := c < 128 /\ c <> 4 /\ c <> 10.

Lemma type_line cs p q : Forall plain cs -> (length p + length cs < 255)%nat ->
  exists out, type_chars (cs ++ [10]) p q = Turn false [] [] (commit_spec (edit p cs ++ [10]) q) out.
Proof.
  intros Hcs. revert p. induction Hcs as [|c cs (H128 & H4 & H10) _ IH]; intros p Hlen; cbn [app type_chars].
  - cbn. rewrite (proj2 (Z.leb_gt _ _)) by (simpl in Hlen; lia). by eexists.
  - cbn [length] in Hlen. rewrite (proj2 (Z.leb_gt 128 c)), (proj2 (Z.eqb_neq c 4)), (proj2 (Z.eqb_neq c 10)) by done.
    rewrite (proj2 (Z.leb_gt 255 _)) by lia.
    destruct (c =? 8) eqn:E8.
    + pose proof (length_removelast p). destruct (IH (removelast p)) as [out E]; [lia|].
      assert (edit p (c :: cs) = edit (removelast p) cs) as -> by (unfold edit; cbn; by rewrite E8).
      destruct p as [|x p]; [change (removelast []) with (@nil Z) in E|]; rewrite E; by eexists.
    + destruct (IH (p ++ [c])) as [out E]; [rewrite length_app; cbn; lia|].
      assert (edit p (c :: cs) = edit (p ++ [c]) cs) as -> by (unfold edit; cbn; by rewrite E8).
      rewrite E. by eexists.
Qed.

Lemma type_line_empty cs : Forall plain cs -> (length cs < 255)%nat ->
  exists out, type_chars (cs ++ [10]) [] [] = Turn false [] [] (edit [] cs ++ [10]) out.
Proof.
  intros Hcs Hlen. destruct (type_line cs [] []) as [out E]; [done|simpl; lia|]. exists out. rewrite E.
  unfold commit_spec. cbn [app length]. rewrite take_ge; [done|]. rewrite length_app.
  pose proof (edit_length cs []). cbn in *. lia.
Qed.

Lemma Forall_removelast {A} (P : A -> Prop) l : Forall P l -> Forall P (removelast l).
Proof. induction 1 as [|x [|y l] Hx Hl IH]; [constructor..|]. cbn in *. by constructor. Qed.

Lemma edit_Forall (P : Z -> Prop) cs text : Forall P cs -> Forall P text -> Forall P (edit text cs).
Proof.
  intros Hcs. revert text. induction Hcs as [|c cs Hc _ IH]; intros text Ht; [done|]. cbn. apply IH.
  destruct (c =? 8); [by apply Forall_removelast|]. apply list.Forall_app. split; [done|]. by constructor.
Qed.

(** ** The keyboard and the screen as a base class *)
Definition ring_list (n : Z) (r : ring) : list Z :=
  map (fun i => r_buf r !!! Z.to_nat ((r_start r + i) mod n)) (seqZ 0 ((r_end r - r_start r) mod n)).

Lemma ring_list_ok n r l : ring_ok n r l -> ring_list n r = l.
Proof.
  intros Hok. pose proof (ring_start _ _ _ Hok) as Hs. pose proof (ring_len _ _ _ Hok) as Hl.
  assert ((r_end r - r_start r) mod n = Z.of_nat (length l)) as E.
  { rewrite (ring_end _ _ _ Hok), Zminus_mod_idemp_l.
    replace (r_start r + Z.of_nat (length l) - r_start r) with (Z.of_nat (length l)) by lia. apply Z.mod_small. lia. }
  unfold ring_list. rewrite E. apply list_eq. intros i. destruct (decide (i < length l)%nat) as [Hi|Hi].
  - destruct (lookup_lt_is_Some_2 l i Hi) as [x Hx]. rewrite Hx, list_lookup_fmap, lookup_seqZ_lt by lia. cbn.
    f_equal. apply list_lookup_total_correct. rewrite Z.add_0_l. by apply (ring_items _ _ _ Hok).
  - rewrite !lookup_ge_None_2; [done|lia|]. rewrite length_map, length_seqZ. lia.
Qed.

(** The machine shows the characters in the order of the BIOS calls. *)
Class Screen (S : Type) `{!VgaMachine S} := {
  calls_of : S -> list Z;
  int10_ok ax s : v8086_busy s = false ->
    exists s', int10 ax s = Ret (tt, s') /\ v8086_busy s' = false /\ calls_of s' = calls_of s ++ [ax]
}.

Section vga.
Context {S : Type} `{HP : !PortIO S} `{HV : !VgaMachine S} `{HS : !Screen S}.
Implicit Types v : vga S.

Definition teletype (c : Z) : Z := u16 (Z.shiftl 0x0e 8 + s8 c).
Definition crlf (c : Z) : list Z := (if c =? 10 then [teletype 13] else []) ++ [teletype c].
Definition key (c : Z) : Z := if c =? 13 then 10 else c.

Definition vga_ok v : Prop :=
  v8086_busy (vga_devices v) = false /\ exists l, ring_ok KBD_BUFFER_SIZE (kbd_buffer v) l /\ Forall (fun c => 0 <= c) l.

Lemma putc0_ok c v : v8086_busy (vga_devices v) = false ->
  exists s', vga_putc0 c v = Ret (tt, Vga (kbd_shift v) (kbd_buffer v) (text_cursor v) s') /\
    v8086_busy s' = false /\ calls_of s' = calls_of (vga_devices v) ++ [teletype c].
Proof.
  intros Hb. destruct (int10_ok (teletype c) _ Hb) as (s' & Hrun & Hb' & Hc). exists s'. split; [|done].
  unfold vga_putc0, on_devices, zoom. fold (teletype c). by rewrite Hrun.
Qed.

Lemma put_all_ok l v : v8086_busy (vga_devices v) = false ->
  exists s', vga_put_all l v = Ret (tt, Vga (kbd_shift v) (kbd_buffer v) (text_cursor v) s') /\
    v8086_busy s' = false /\ calls_of s' = calls_of (vga_devices v) ++ concat (map crlf l).
Proof.
  revert v. induction l as [|c l IH]; intros v Hb; cbn [vga_put_all].
  { exists (vga_devices v). cbn. rewrite app_nil_r. by destruct v. }
  assert (exists s1, (if c =? 10 then vga_putc0 13 else mret tt) v =
      Ret (tt, Vga (kbd_shift v) (kbd_buffer v) (text_cursor v) s1) /\ v8086_busy s1 = false /\
      calls_of s1 = calls_of (vga_devices v) ++ (if c =? 10 then [teletype 13] else [])) as (s1 & H1 & Hb1 & Hc1).
  { destruct (c =? 10); [by apply putc0_ok|]. exists (vga_devices v). rewrite app_nil_r. by destruct v. }
  rewrite (bind_Ret _ _ _ _ _ H1). destruct (putc0_ok c (Vga (kbd_shift v) (kbd_buffer v) (text_cursor v) s1) Hb1) as (s2 & H2 & Hb2 & Hc2).
  rewrite (bind_Ret _ _ _ _ _ H2).
  destruct (IH (Vga (kbd_shift v) (kbd_buffer v) (text_cursor v) s2) Hb2) as (s3 & H3 & Hb3 & Hc3).
  exists s3. split; [exact H3|]. split; [done|]. cbn in *. unfold crlf. by rewrite Hc3, Hc2, Hc1, <- !app_assoc.
Qed.

Lemma vga_write_ok l v : vga_ok v ->
  exists v', vga_write l v = Ret (tt, v') /\ vga_ok v' /\ kbd_buffer v' = kbd_buffer v /\
    calls_of (vga_devices v') = calls_of (vga_devices v) ++ concat (map crlf l).
Proof.
  intros [Hb Hr]. destruct (put_all_ok l v Hb) as (s' & Hrun & Hb' & Hc).
  exists (Vga (kbd_shift v) (kbd_buffer v) (text_cursor v) s'). split; [|by split_and!].
  unfold vga_write. prog_norm. by rewrite Hb.
Qed.

#[export] Program Instance vga_line_base_ok : LineBaseOk (vga S) := {|
  base_ok := vga_ok;
  typed v := map key (ring_list KBD_BUFFER_SIZE (kbd_buffer v));
  shown v := calls_of (vga_devices v);
  as_shown l := concat (map crlf l)
|}.
Next Obligation.
  intros v [_ (l & Hl & _)] Ht. rewrite (ring_list_ok _ _ _ Hl) in Ht. destruct l; [|done].
  cbn [base_getc vga_line_base]. unfold vga_read, vga_empty. prog_norm. by rewrite (ring_empty_ok _ _ _ Hl).
Qed.
Next Obligation.
  intros v c cs [Hb (l & Hl & Hpos)] Ht. rewrite (ring_list_ok _ _ _ Hl) in Ht.
  destruct l as [|x l]; [done|]. injection Ht as Hc Hcs.
  destruct (ring_pop_ok _ _ _ _ Hl) as [Hx Hl']. apply list.Forall_cons in Hpos as [Hx0 Hpos']. subst c cs.
  exists (Vga (kbd_shift v) (ring_pop KBD_BUFFER_SIZE (kbd_buffer v)) (text_cursor v) (vga_devices v)).
  split_and!; [|split; [done|by exists l]|cbn; by rewrite (ring_list_ok _ _ _ Hl')|done].
  cbn [base_getc vga_line_base]. unfold vga_read, vga_empty. prog_norm. rewrite (ring_empty_ok _ _ _ Hl).
  change (Z.to_nat 1) with 1%nat. cbn [read_loop]. unfold vga_getc0 at 1. prog_norm. rewrite (ring_empty_ok _ _ _ Hl).
  unfold put_kbd. cbn. rewrite Hx. unfold key. destruct (x =? 13); [reflexivity|].
  assert (x =? EOF = false) as Heof by (apply Z.eqb_neq; unfold EOF; lia).
  rewrite bind_assoc. unfold mbind, prog_bind, pmodify, mret, prog_ret. by rewrite Heof.
Qed.
Next Obligation.
  intros l v Hok. destruct (vga_write_ok l v Hok) as (v' & Hrun & Hok' & Hk & Hc). exists v'. by rewrite Hk.
Qed.
Next Obligation.
  intros v Hok. destruct (vga_write_ok [8; 32; 8] v Hok) as (v' & Hrun & Hok' & Hk & Hc). exists v'. by rewrite Hk.
Qed.
Next Obligation. done. Qed.
Next Obligation. intros l1 l2. cbn beta. by rewrite map_app, concat_app. Qed.
End vga.

(** ** Properties *)

(** C20: read() of the line discipline refines its specification on queues,
    for every device that hands out the typed characters in order: the two
    rings hold the pending text and the committed text, the loop ends when the
    typed characters are used up, and the result, the bytes stored, the
    characters left, the echo and the pending end of file are those of the
    specification. *)
Theorem line_read_refines {S} `{HB : !LineBase S} `{HO : !LineBaseOk S} fuel size (lb : line_buffer) (s : S) pending done_ :
  lb_ok lb pending done_ -> base_ok s -> (length (typed s) < fuel)%nat ->
  let '(result, (eof, t)) := line_read_spec size (lb_eof lb) (typed s) pending done_ in
  exists lb' s', line_read fuel size (lb, s) = Ret (result, (lb', s')) /\
    lb_ok lb' (t_pending t) (t_done t) /\ lb_eof lb' = eof /\
    base_ok s' /\ typed s' = t_rest t /\ shown s' = shown s ++ as_shown (t_shown t).
Proof. apply line_read_ok. Qed.

(** when a line of plain characters and backspaces, of fewer than 255 in
    all, and a newline have been typed on an empty terminal, a read of [size]
    bytes returns the first [size] bytes of the edited line with its newline,
    and the rest of the line stays for the next reads. *)
Theorem typed_line {S} `{HB : !LineBase S} `{HO : !LineBaseOk S} fuel size (lb : line_buffer) (s : S) cs :
  lb_ok lb [] [] -> lb_eof lb = false -> base_ok s -> typed s = cs ++ [10] -> Forall plain cs ->
  (length cs < 255)%nat -> (length cs + 1 < fuel)%nat -> 0 <= size ->
  let line := edit [] cs ++ [10] in
  exists lb' s', line_read fuel size (lb, s) =
      Ret ((Z.min size (Z.of_nat (length line)), take (Z.to_nat size) line), (lb', s')) /\
    lb_ok lb' [] (drop (Z.to_nat size) line) /\ lb_eof lb' = false /\ typed s' = [].
Proof.
  intros Hlb Heof Hs Ht Hcs Hlen Hfuel Hsize line.
  pose proof (line_read_ok fuel size lb s [] [] Hlb Hs) as H. rewrite Ht, length_app in H.
  specialize (H ltac:(cbn; lia)). destruct (type_line_empty cs Hcs Hlen) as [out E]. fold line in E.
  unfold line_read_spec in H. rewrite Heof, E in H. cbn [t_eof t_done t_rest t_pending t_shown] in H.
  destruct line as [|x l] eqn:El; [by destruct (edit [] cs)|]. rewrite <- El in *.
  destruct H as (lb' & s' & Hrun & Hlb' & Heof' & _ & Ht' & _). exists lb', s'.
  split; [|by split_and!]. rewrite Hrun, length_take. do 4 f_equal. lia.
Qed.

(** ** The early output *)
Section early.
Variable base : Z.
Definition screen : Z := 80 * 25 * 2.

(** [m'] differs from [m] on the screen only. *)
Definition on_screen (m m' : mem) : Prop := forall x, ~ base <= x < base + screen -> m' !! x = m !! x.

Lemma on_screen_write m a l : base <= a -> a + Z.of_nat (length l) <= base + screen -> on_screen m (write_bytes m a l).
Proof. intros H1 H2 x Hx. apply lookup_write_out. lia. Qed.

Lemma on_screen_trans m1 m2 m3 : on_screen m1 m2 -> on_screen m2 m3 -> on_screen m1 m3.
Proof. intros H1 H2 x Hx. by rewrite H2, H1. Qed.

Lemma scroll_ok m cursor : mapped m base screen -> mem_wf m -> base <= cursor <= base + screen ->
  exists m' cursor', scroll base 2 cursor m = Ret (cursor', m') /\ mapped m' base screen /\ mem_wf m' /\
    on_screen m m' /\ base <= cursor' < base + screen /\ (cursor' = cursor \/ cursor' = cursor - 160).
Proof.
  intros Hm Hwf Hc. unfold screen in *. cbn [scroll]. change (base + 80 * 25 * 2) with (base + 4000).
  change (80 * 25 * 2) with 4000 in *. change (80 * 24 * 2) with 3840. change (80 * 2) with 160. change (2 * 80) with 160.
  destruct (Z.leb_spec (base + 4000) cursor) as [Hge|Hlt].
  - destruct (mapped_bytes m (base + 160) 3840) as (l & Hl & Hb); [eapply mapped_sub; [exact Hm|lia|lia]|].
    assert (Forall (urange 8) l) as Hr by (by apply (bytes_at_range m (base + 160))).
    assert (memcpy base (base + 160) 3840 m = Ret (base, write_bytes m base l)) as Hcpy.
    { replace 3840 with (Z.of_nat (length l)) by (rewrite Hl; lia).
      apply memcpy_spec; [done|done| |lia]. rewrite Hl. eapply mapped_sub; [exact Hm|lia|lia]. }
    rewrite (bind_Ret _ _ _ _ _ Hcpy). set (m1 := write_bytes m base l).
    assert (mapped m1 base 4000) as Hm1 by (by apply mapped_write).
    assert (memset (base + 3840) 0 160 m1 = Ret (base + 3840, write_bytes m1 (base + 3840) (replicate 160 0))) as Hset.
    { rewrite memset_spec; [done|lia|]. eapply mapped_sub; [exact Hm1|lia|lia]. }
    rewrite (bind_Ret _ _ _ _ _ Hset). rewrite (proj2 (Z.leb_gt _ _)) by lia. do 2 eexists. split; [reflexivity|].
    split; [by apply mapped_write|]. split.
    { apply mem_wf_write; [by apply mem_wf_write|]. apply list.Forall_replicate. done. }
    split; [|lia]. apply on_screen_trans with m1; apply on_screen_write; unfold screen;
      rewrite ?length_replicate, ?Hl; lia.
  - exists m, cursor. split; [done|]. by split_and!; try lia.
Qed.

(** C36: the early output stays on the screen: whatever the text, from a cursor
    on a cell or at the end of the screen, write() ends with such a cursor,
    and no byte of the memory outside the 4000 bytes of the screen changes. *)
Theorem early_write_in_bounds l m cursor : mapped m base screen -> mem_wf m ->
  base <= cursor <= base + screen -> (cursor - base) mod 2 = 0 ->
  exists m' cursor', early_write base l cursor m = Ret (cursor', m') /\ on_screen m m' /\
    base <= cursor' <= base + screen /\ (cursor' - base) mod 2 = 0.
Proof.
  revert m cursor. induction l as [|c l IH]; intros m cursor Hm Hwf Hc Heven; cbn [early_write].
  { exists m, cursor. by split_and!; try lia. }
  destruct (scroll_ok m cursor Hm Hwf Hc) as (m1 & c1 & Hrun & Hm1 & Hwf1 & Hon1 & Hc1 & Hcase).
  rewrite (bind_Ret _ _ _ _ _ Hrun).
  assert ((c1 - base) mod 2 = 0) as Heven1.
  { destruct Hcase as [->| ->]; [done|]. replace (cursor - 160 - base) with (cursor - base + (-80) * 2) by lia.
    by rewrite Z.mod_add. }
  assert (c1 + 1 < base + screen) as Hlt.
  { destruct (Z.eq_dec (c1 + 1) (base + screen)) as [E|]; [exfalso|lia].
    replace (c1 - base) with (1 + 1999 * 2) in Heven1 by (unfold screen in E; lia).
    rewrite Z.mod_add in Heven1 by lia. done. }
  rewrite (bind_Ret _ _ _ _ _ (store8_at m1 c1 c (Hm1 c1 ltac:(lia)))).
  assert (mapped (<[c1 := u8 c]> m1) base screen) as Hm2 by (by apply mapped_insert).
  rewrite (bind_Ret _ _ _ _ _ (store8_at _ (c1 + 1) 4 (Hm2 (c1 + 1) ltac:(lia)))).
  edestruct (IH (<[c1 + 1 := u8 4]> (<[c1 := u8 c]> m1)) (c1 + 2)) as (m3 & c3 & Hrun3 & Hon3 & Hc3 & He3).
  - by apply mapped_insert.
  - apply (mem_wf_write _ (c1 + 1) [u8 4]); [|by constructor]. apply (mem_wf_write _ c1 [u8 c]); [done|].
    constructor; [by apply wrap_range|constructor].
  - lia.
  - replace (c1 + 2 - base) with (c1 - base + 1 * 2) by lia. by rewrite Z.mod_add.
  - exists m3, c3. split; [exact Hrun3|]. split; [|done].
    intros x Hx. rewrite Hon3 by done. rewrite !lookup_insert_ne by lia. by apply Hon1.
Qed.
End early.

(** ** A terminal on which a line has been typed *)
Section example.
(** The machine is the list of its BIOS calls. *)
#[local] Instance log_ports : PortIO (list Z) := { inb _ := mret 0; outb _ _ := mret tt }.
#[local] Instance log_machine : VgaMachine (list Z) := {
  int10 ax := pmodify (fun l => l ++ [ax]);
  v8086_busy _ := false;
  machine_mem _ := ∅;
  machine_set_mem _ l := l;
  VGA_TEXT_BASE := 0xB8000
}.
#[local] Program Instance log_screen : Screen (list Z) := {| calls_of l := l |}.
Next Obligation. intros ax s _. eexists. split; [reflexivity|]. done. Defined.

(** The keys l, x, backspace, s and return. *)
Definition small_vga : vga (list Z) :=
  Vga 0 (foldl (fun r c => ring_push KBD_BUFFER_SIZE c r) (ring_new KBD_BUFFER_SIZE) [108; 120; 8; 115; 13]) 0xB8000 [].

Lemma line_buffer_new_ok : lb_ok line_buffer_new [] [].
Proof. split; apply ring_new_ok; unfold BUFFER_SIZE; lia. Qed.

Lemma small_vga_ok : vga_ok small_vga.
Proof.
  split; [done|]. exists [108; 120; 8; 115; 13]. split; [|repeat constructor; lia].
  pose proof (ring_new_ok KBD_BUFFER_SIZE ltac:(unfold KBD_BUFFER_SIZE; lia)) as H0.
  pose proof (ring_push_ok _ _ _ 108 H0 eq_refl) as H1. pose proof (ring_push_ok _ _ _ 120 H1 eq_refl) as H2.
  pose proof (ring_push_ok _ _ _ 8 H2 eq_refl) as H3. pose proof (ring_push_ok _ _ _ 115 H3 eq_refl) as H4.
  exact (ring_push_ok _ _ _ 13 H4 eq_refl).
Qed.

Lemma line_read_refines_witness :
  exists lb' s', line_read 10 2 (line_buffer_new, small_vga) = Ret ((2, [108; 115]), (lb', s')).
Proof.
  assert (length (typed small_vga) < 10)%nat as Hf by (vm_compute; lia).
  pose proof (line_read_refines 10 2 line_buffer_new small_vga [] [] line_buffer_new_ok small_vga_ok Hf) as H.
  assert (line_read_spec 2 (lb_eof line_buffer_new) (typed small_vga) [] [] =
    ((2, [108; 115]), (false, Turn false [] [] [10] [108; 120; 8; 32; 8; 115; 10]))) as E by (vm_compute; reflexivity).
  rewrite E in H. destruct H as (lb' & s' & Hrun & _). exists lb', s'. exact Hrun.
Defined.

Lemma typed_line_witness :
  exists lb' s', line_read 10 100 (line_buffer_new, small_vga) = Ret ((3, [108; 115; 10]), (lb', s')).
Proof.
  assert (typed small_vga = [108; 120; 8; 115] ++ [10]) as Ht by (vm_compute; reflexivity).
  assert (Forall plain [108; 120; 8; 115]) as Hp by (repeat constructor; lia).
  assert (length [108; 120; 8; 115] < 255)%nat as Hl by (cbn; lia).
  assert (length [108; 120; 8; 115] + 1 < 10)%nat as Hf by (cbn; lia).
  assert (0 <= 100) as H0 by lia.
  assert (base_ok small_vga) as Hok by exact small_vga_ok.
  destruct (typed_line 10 100 line_buffer_new small_vga _ line_buffer_new_ok eq_refl Hok Ht Hp Hl Hf H0)
    as (lb' & s' & Hrun & _).
  exists lb', s'. exact Hrun.
Defined.

Lemma early_write_in_bounds_witness :
  exists m' cursor', early_write 0 [65; 66] 4000 (mem_of [(0, repeat 0 4000); (5000, [7])]) = Ret (cursor', m') /\
    m' !! 5000 = Some 7.
Proof.
  set (m := mem_of _).
  assert (mapped m 0 screen) as Hm by (apply mapped_compute; vm_compute; reflexivity).
  assert (mem_wf m) as Hwf.
  { apply (mem_wf_write _ 0 (repeat 0 4000)); [apply (mem_wf_write _ 5000 [7])|].
    - apply map_Forall_empty.
    - constructor; [done|constructor].
    - apply list.Forall_forall. intros x Hx%list_elem_of_In%repeat_spec. by subst. }
  assert (0 <= 4000 <= 0 + screen) as Hc by (unfold screen; lia).
  destruct (early_write_in_bounds 0 [65; 66] m 4000 Hm Hwf Hc eq_refl) as (m' & c' & Hrun & Hon & _).
  exists m', c'. split; [exact Hrun|]. rewrite Hon by (unfold screen; lia). vm_compute. reflexivity.
Defined.
End example.
