(* ===== verification/ProtectedMode.v ===== *)
(** * ProtectedMode: descriptor tables and the virtual 8086 mode

    src/src/protected_mode.cpp, intr.cpp and v8086.cpp with the structures of
    src/inc/protected_mode.hpp: the segments and gates that initialize_gdt()
    and initialize_intr() set up, as the descriptors the processor reads, and
    the monitor that emulates the two instructions of the BIOS stubs. *)
From S2P Require Import Prelude Mem CString Kernel Process.

(** ** The global descriptor table *)
Definition GDT_ENTRY_NUM : Z := 9.

Record gdt_entry := GdtEntry {
  limit_low : Z;
  base_low : Z;
  accessed : Z;
  read_write : Z;
  conforming_expand_down : Z;
  code : Z;
  code_data_segment : Z;
  DPL : Z;
  present : Z;
  limit_high : Z;
  available : Z;
  long_mode : Z;
  big : Z;
  gran : Z;
  base_high : Z
}.

Definition gdt_null : gdt_entry := GdtEntry 0 0 0 0 0 0 0 0 0 0 0 0 0 0 0.
Definition gdt_kernel_code : gdt_entry := GdtEntry 0xFFFF 0 0 1 0 1 1 0 1 0xF 1 0 1 1 0.
Definition gdt_kernel_data : gdt_entry :=
  let '(GdtEntry ll bl a rw _ _ s d p lh v l b g bh) := gdt_kernel_code in
  GdtEntry ll bl a rw 0 0 s d p lh v l b g bh.
Definition gdt_user_code : gdt_entry :=
  let '(GdtEntry ll bl a rw c x s _ p lh v l b g bh) := gdt_kernel_code in
  GdtEntry ll bl a rw c x s 3 p lh v l b g bh.
Definition gdt_user_data : gdt_entry :=
  let '(GdtEntry _ bl a rw _ _ s d p _ v l b g bh) := gdt_user_code in
  GdtEntry 0x1fff bl a rw 1 0 s d p 0 v l b g bh.

(** The descriptor of a task state segment; the assignments to the bit fields
    cut their values. *)
Definition gdt_tss (addr size dpl : Z) : gdt_entry :=
  GdtEntry (wrap 16 size) (wrap 24 addr) 1 0 0 1 0 dpl 1
    (wrap 4 (Z.shiftr (Z.land size (Z.shiftl 0xf 16)) 16)) 0 0 0 0
    (wrap 8 (Z.shiftr (Z.land addr (Z.shiftl 0xff 24)) 24)).

Definition sizeof_tss_with_io : Z := sizeof_tss + 65536 / 8 + 1.

(** [tss_array] is what [new] returned for each task state segment. *)
Definition initialize_gdt (tss_array : Z -> Z) : list gdt_entry :=
  [gdt_null; gdt_kernel_code; gdt_kernel_data; gdt_user_code; gdt_user_data;
   gdt_tss (tss_array SEG_INIT_TSS) sizeof_tss 0;
   gdt_tss (tss_array SEG_USER_TSS) sizeof_tss 3;
   gdt_tss (tss_array SEG_SYSCALL_TSS) sizeof_tss 0;
   gdt_tss (tss_array SEG_V8086_TSS) sizeof_tss_with_io 0].

(** The eight bytes of the packed structure, as one number. *)
Definition gdt_bits (e : gdt_entry) : Z :=
  limit_low e + Z.shiftl (base_low e) 16 + Z.shiftl (accessed e) 40 + Z.shiftl (read_write e) 41 +
  Z.shiftl (conforming_expand_down e) 42 + Z.shiftl (code e) 43 + Z.shiftl (code_data_segment e) 44 +
  Z.shiftl (DPL e) 45 + Z.shiftl (present e) 47 + Z.shiftl (limit_high e) 48 + Z.shiftl (available e) 52 +
  Z.shiftl (long_mode e) 53 + Z.shiftl (big e) 54 + Z.shiftl (gran e) 55 + Z.shiftl (base_high e) 56.

(** initialize_tss(): the registers of the task that serves the system calls;
    [stack] is its new stack of 8192 bytes. *)
Definition syscall_tss (syscall_handler stack : Z) : tss :=
  let data := SEGMENT_SELECTOR SEG_KERNEL_DATA 0 0 in
  let t := tss_set Iomap_base sizeof_tss tss_zero in
  let t := tss_set Cs (SEGMENT_SELECTOR SEG_KERNEL_CODE 0 0) t in
  let t := tss_set Ds data (tss_set Es data (tss_set Fs data (tss_set Gs data (tss_set Ss data t)))) in
  let t := tss_set Eip syscall_handler t in
  let t := tss_set Esp (u32 (stack + 8192)) t in
  tss_set Eflags (Z.lor (t Eflags) (Z.shiftl 1 9)) t.

(** ** The interrupt descriptor table *)
Definition IDT_TASK : Z := 0x5.
Definition IDT_INTERRUPT_32 : Z := 0xe.

Record idt_entry := IdtEntry {
  isr_low : Z;
  kernel_cs : Z;
  idt_reserved : Z;
  idt_type : Z;
  idt_zero : Z;
  idt_dpl : Z;
  idt_present : Z;
  isr_high : Z
}.

Definition idt : Type := Z -> idt_entry.
Definition idt_empty : idt := fun _ => IdtEntry 0 0 0 0 0 0 0 0.

Definition idt_set_descriptor (vector segsel isr present dpl type : Z) (t : idt) : idt := fun v =>
  if v =? u8 vector then
    IdtEntry (Z.land (u32 isr) 0xFFFF) (u16 segsel) 0 (wrap 4 type) 0 (wrap 2 dpl) (wrap 1 present)
      (u16 (Z.shiftr (u32 isr) 16))
  else t v.

(** exception_infos[]: the names, the numbers and who has an error code. *)
Definition exception_infos : list (string * Z * bool) :=
  [("Divide-by-zero Error", 0, false); ("Debug", 1, false); ("falsen-maskable Interrupt", 2, false);
   ("Breakpoint", 3, false); ("Overflow", 4, false); ("Bound Range Exceeded", 5, false);
   ("Invalid Opcode", 6, false); ("Device falset Available", 7, false); ("Double Fault", 8, true);
   ("Coprocessor Segment Overrun", 9, false); ("Invalid TSS", 10, true); ("Segment falset Present", 11, true);
   ("Stack-Segment Fault", 12, true); ("General Protection Fault", 13, true); ("Page Fault", 14, true);
   ("Reserved", 15, false); ("x87 Floating-Point Exception", 16, false); ("Alignment Check", 17, true);
   ("Machine Check", 18, false); ("SIMD Floating-Point Exception", 19, false);
   ("Virtualization Exception", 20, false); ("Control Protection Exception", 21, true); ("Reserved", 22, false);
   ("Reserved", 23, false); ("Reserved", 24, false); ("Reserved", 25, false); ("Reserved", 26, false);
   ("Reserved", 27, false); ("Hypervisor Injection Exception", 28, false); ("VMM Communication Exception", 29, true);
   ("Security Exception", 30, true); ("Reserved", 31, false)]%string.

Definition has_error_code (n : Z) : bool :=
  match exception_infos !! Z.to_nat n with Some (_, _, e) => e | None => false end.

Section idt.
(** The addresses of the handlers: the template instances by their number. *)
Variables trap_handler trap_handler_with_error_code : Z -> Z.
Variable gp_handler : Z.

Definition SetDefaultISR1 (n : Z) (t : idt) : idt :=
  idt_set_descriptor n (SEGMENT_SELECTOR SEG_KERNEL_CODE 0 0)
    (if (n <? 32) && has_error_code n then trap_handler_with_error_code n else trap_handler n)
    1 0 IDT_INTERRUPT_32 t.

(** [SetDefaultISR<N>::set()] *)
Fixpoint SetDefaultISR (n : nat) (t : idt) : idt :=
  match n with
  | O => idt_set_descriptor 0 (SEGMENT_SELECTOR SEG_KERNEL_CODE 0 0) (trap_handler 0) 1 0 IDT_INTERRUPT_32 t
  | S n' => SetDefaultISR n' (SetDefaultISR1 (Z.of_nat n) t)
  end.

Definition initialize_intr (t : idt) : idt :=
  let t := SetDefaultISR 255 t in
  let t := idt_set_descriptor 13 (SEGMENT_SELECTOR SEG_KERNEL_CODE 0 0) gp_handler 1 0 IDT_INTERRUPT_32 t in
  idt_set_descriptor 0x80 (SEGMENT_SELECTOR SEG_SYSCALL_TSS 0 0) 0 1 3 IDT_TASK t.
End idt.

(** ** The virtual 8086 mode *)
Record interrupt_frame := Frame { fr_eip : Z; fr_cs : Z; fr_eflags : Z; fr_esp : Z; fr_ss : Z }.

Definition load16 (a : Z) : prog mem Z := b0 ← load8 a; b1 ← load8 (a + 1); mret (b0 + 256 * b1).

(** The monitor: [None] leaves the mode, [Some] resumes it at the frame. *)
Definition v8086_gp_handler (frame : interrupt_frame) : prog mem (option interrupt_frame) :=
  let addr := u32 (fr_cs frame * 16 + fr_eip frame) in
  let stack := u32 (fr_ss frame * 16 + fr_esp frame) in
  opcode ← load8 addr;
  if opcode =? 0xF4 then mret None
  else if opcode =? 0xCD then
    intno ← load8 (addr + 1);
    int_cs ← load16 (2 * (2 * intno + 1));
    int_ip ← load16 (2 * (2 * intno));
    store16 (stack - 2) (fr_eflags frame);;
    store16 (stack - 4) (fr_cs frame);;
    store16 (stack - 6) (fr_eip frame + 2);;
    mret (Some (Frame int_ip int_cs (fr_eflags frame) (fr_esp frame - 6) (fr_ss frame)))
  else ppanic "GP occured in v8086 mode".

(** The task that v8086_call() prepares; [cr3] and [flags] are read from the
    processor. *)
Definition v8086_task (cr3 flags func code16_source_start CODE16 CODE16STACKTOP : Z)
    (ax bx cx dx si di ds es : Z) (t : tss) : tss :=
  let t := tss_set Prev_tss 0 t in
  let t := tss_set Cr3 cr3 t in
  let t := tss_set Eflags (Z.lor flags 0x23000) t in
  let t := tss_set Eip (u32 (func - code16_source_start + CODE16)) (tss_set Cs 0 t) in
  let t := tss_set Esp CODE16STACKTOP (tss_set Ss 0 t) in
  let t := tss_set Es (u16 es) (tss_set Ds (u16 ds) t) in
  let t := tss_set Edx (u16 dx) (tss_set Ecx (u16 cx) (tss_set Ebx (u16 bx) (tss_set Eax (u16 ax) t))) in
  let t := tss_set Edi (u16 di) (tss_set Esi (u16 si) t) in
  tss_set Iomap_base sizeof_tss (tss_set Ldt 0 (tss_set Prev_tss 0 t)).

Definition v8086_init (code16_source_start code16_source_end CODE16 CODE16END : Z) : prog mem unit :=
  if CODE16END - CODE16 <? code16_source_end - code16_source_start then ppanic "16bit code too large"
  else memcpy CODE16 code16_source_start (code16_source_end - code16_source_start);; mret tt.

(** ** What the processor reads from a descriptor *)
Definition field (lo w d : Z) : Z := (d / 2 ^ lo) mod 2 ^ w.

Definition desc_base (d : Z) : Z := field 16 24 d + 2 ^ 24 * field 56 8 d.
Definition desc_limit (d : Z) : Z := field 0 16 d + 2 ^ 16 * field 48 4 d.
Definition desc_dpl (d : Z) : Z := field 45 2 d.
Definition desc_code (d : Z) : bool := field 43 1 d =? 1.
(** A segment of memory, present, of 32 bits, readable code or writable data. *)
Definition desc_memory (d : Z) : bool := (field 44 1 d =? 1) && (field 47 1 d =? 1) && (field 54 1 d =? 1) && (field 41 1 d =? 1).
Definition desc_expand_down (d : Z) : bool := negb (desc_code d) && (field 42 1 d =? 1).

(** The last offset of the limit, and the offsets that a segment admits. *)
Definition desc_last (d : Z) : Z := if field 55 1 d =? 1 then desc_limit d * 4096 + 4095 else desc_limit d.
Definition admits (d x : Z) : bool :=
  if desc_expand_down d then (desc_last d <? x) && (x <? (if field 54 1 d =? 1 then 2 ^ 32 else 2 ^ 16))
  else (0 <=? x) && (x <=? desc_last d).

(** A descriptor as its base and the rest. *)
Definition flat (ll bl mid bh : Z) : Z := ll + 2 ^ 16 * bl + 2 ^ 40 * mid + 2 ^ 56 * bh.

Lemma flat_fields ll bl mid bh : urange 16 ll -> urange 24 bl -> urange 16 mid -> urange 8 bh ->
  field 0 16 (flat ll bl mid bh) = ll /\ field 16 24 (flat ll bl mid bh) = bl /\
  field 56 8 (flat ll bl mid bh) = bh /\
  forall lo w, 0 <= lo -> 0 <= w -> lo + w <= 16 -> field (40 + lo) w (flat ll bl mid bh) = field lo w mid.
Proof.
  unfold urange, field, flat. pow2_literals. intros H1 H2 H3 H4.
  change (2 ^ 40) with 1099511627776. change (2 ^ 56) with 72057594037927936. change (2 ^ 0) with 1.
  split; [|split; [|split]].
  - rewrite Z.div_1_r. symmetry.
    apply (Z.mod_unique _ _ (bl + 16777216 * mid + 1099511627776 * bh)); lia.
  - replace (_ / 65536) with (bl + 16777216 * mid + 1099511627776 * bh) by (apply (Z.div_unique _ _ _ ll); lia).
    symmetry. apply (Z.mod_unique _ _ (mid + 65536 * bh)); lia.
  - replace (_ / 72057594037927936) with bh by (apply (Z.div_unique _ _ _ (ll + 65536 * bl + 1099511627776 * mid)); lia).
    apply Z.mod_small. lia.
  - intros lo w Hlo Hw Hle. rewrite Z.pow_add_r by lia. change (2 ^ 40) with 1099511627776.
    assert (0 < 2 ^ lo) by (apply Z.pow_pos_nonneg; lia). assert (0 < 2 ^ w) by (apply Z.pow_pos_nonneg; lia).
    rewrite <- Zdiv_Zdiv by lia.
    replace (_ / 1099511627776) with (mid + 65536 * bh) by (apply (Z.div_unique _ _ _ (ll + 65536 * bl)); lia).
    assert (65536 = 2 ^ (16 - lo - w) * 2 ^ w * 2 ^ lo) as ->
      by (rewrite <- !Z.pow_add_r by lia; replace (16 - lo - w + w + lo) with 16 by lia; reflexivity).
    replace (mid + 2 ^ (16 - lo - w) * 2 ^ w * 2 ^ lo * bh) with (mid + bh * 2 ^ (16 - lo - w) * 2 ^ w * 2 ^ lo) by lia.
    rewrite Z.div_add by lia. apply Z_mod_plus_full.
Qed.

(** The shifts and powers of numerals by their values. *)
Ltac closed_powers :=
  repeat match goal with
  | |- context [Z.shiftl (Zpos ?a) ?b] => let v := eval vm_compute in (Z.shiftl (Zpos a) b) in change (Z.shiftl (Zpos a) b) with v
  | |- context [Z.shiftl 0 ?b] => change (Z.shiftl 0 b) with 0
  | |- context [2 ^ (Zpos ?b)] => let v := eval vm_compute in (2 ^ (Zpos b)) in change (2 ^ (Zpos b)) with v
  end.

Lemma gdt_tss_bits addr size dpl : urange 32 addr -> urange 16 size -> (dpl = 0 \/ dpl = 3) ->
  gdt_bits (gdt_tss addr size dpl) = flat size (addr mod 2 ^ 24) (0x89 + 32 * dpl) (addr / 2 ^ 24).
Proof.
  unfold urange. pow2_literals. intros Ha Hs Hd. unfold gdt_bits, gdt_tss, flat. cbn [limit_low base_low accessed
    read_write conforming_expand_down code code_data_segment DPL present limit_high available long_mode big gran base_high].
  assert (wrap 4 (Z.shiftr (Z.land size (Z.shiftl 15 16)) 16) = 0) as ->.
  { rewrite Z.shiftr_land, (Z.shiftr_div_pow2 size) by lia. change (2 ^ 16) with 65536.
    rewrite (Z.div_small size) by lia. reflexivity. }
  assert (wrap 8 (Z.shiftr (Z.land addr (Z.shiftl 255 24)) 24) = addr / 2 ^ 24) as ->.
  { rewrite Z.shiftr_land, (Z.shiftr_div_pow2 addr) by lia. change (Z.shiftr (Z.shiftl 255 24) 24) with (Z.ones 8).
    rewrite Z.land_ones by lia. unfold wrap. rewrite Z.mod_mod by lia. apply Z.mod_small.
    pow2_literals. split; [apply Z.div_pos; lia|apply Z.div_lt_upper_bound; lia]. }
  rewrite (wrap_small 16 size) by (unfold urange; lia). unfold wrap.
  rewrite (Z.shiftl_mul_pow2 (addr mod _)), (Z.shiftl_mul_pow2 (addr / _)) by lia.
  destruct Hd as [-> | ->]; closed_powers; lia.
Qed.

Lemma gdt_tss_read addr size dpl : urange 32 addr -> urange 16 size -> (dpl = 0 \/ dpl = 3) ->
  let d := gdt_bits (gdt_tss addr size dpl) in desc_base d = addr /\ desc_limit d = size /\ desc_dpl d = dpl.
Proof.
  intros Ha Hsz Hdpl. cbn zeta. rewrite gdt_tss_bits by done. unfold urange in Ha. pow2_literals.
  destruct (flat_fields size (addr mod 16777216) (0x89 + 32 * dpl) (addr / 16777216))
    as (F1 & F2 & F3 & F4); [done|apply Z.mod_pos_bound; pow2_literals; lia|unfold urange; pow2_literals; lia| |].
  { unfold urange. pow2_literals. split; [apply Z.div_pos; lia|apply Z.div_lt_upper_bound; lia]. }
  unfold desc_base, desc_limit, desc_dpl. pow2_literals. rewrite F1, F2, F3.
  change 48 with (40 + 8). change 45 with (40 + 5). rewrite !F4 by lia.
  assert (field 8 4 (137 + 32 * dpl) = 0 /\ field 5 2 (137 + 32 * dpl) = dpl) as [-> ->]
    by (destruct Hdpl as [-> | ->]; split; reflexivity).
  pose proof (Z.div_mod addr 16777216 ltac:(lia)). lia.
Qed.

Lemma admits_all e x : e ∈ [gdt_kernel_code; gdt_kernel_data; gdt_user_code] ->
  admits (gdt_bits e) x = true <-> 0 <= x < 2 ^ 32.
Proof.
  intros He. unfold admits. assert (desc_expand_down (gdt_bits e) = false /\ desc_last (gdt_bits e) = 0xFFFFFFFF) as [-> ->].
  { repeat (apply elem_of_cons in He as [->|He]; [by split|]). by apply elem_of_nil in He. }
  pow2_literals. rewrite andb_true_iff. lia.
Qed.

Lemma admits_user_data x : admits (gdt_bits gdt_user_data) x = true <-> 0x2000000 <= x < 2 ^ 32.
Proof.
  unfold admits. change (desc_expand_down (gdt_bits gdt_user_data)) with true.
  change (desc_last (gdt_bits gdt_user_data)) with 0x1FFFFFF. change (field 54 1 (gdt_bits gdt_user_data) =? 1) with true.
  cbn iota. pow2_literals. rewrite andb_true_iff. lia.
Qed.

(** ** The properties *)

(** C25: The descriptors that the processor reads: the four code and data
    segments have base 0, so an offset is an address; they are present, of 32
    bits and of the right kind (executable and readable, or writable); every
    code segment and the kernel's data admit the whole address space, the
    user's data segment exactly the addresses from 32 MiB on; each task state
    segment has its address and size; and only the user's code, data and task
    have privilege 3. *)
Theorem gdt_correct tss_array : (forall s, urange 32 (tss_array s)) ->
  let gdt := initialize_gdt tss_array in
  length gdt = Z.to_nat GDT_ENTRY_NUM /\
  (forall seg, seg ∈ [SEG_KERNEL_CODE; SEG_KERNEL_DATA; SEG_USER_CODE; SEG_USER_DATA] ->
     exists e, gdt !! Z.to_nat seg = Some e /\ desc_base (gdt_bits e) = 0 /\ desc_memory (gdt_bits e) = true /\
       desc_code (gdt_bits e) = bool_decide (seg ∈ [SEG_KERNEL_CODE; SEG_USER_CODE])) /\
  (exists e, gdt !! Z.to_nat SEG_USER_DATA = Some e /\ forall x, admits (gdt_bits e) x = true <-> 0x2000000 <= x < 2 ^ 32) /\
  (forall seg, seg ∈ [SEG_KERNEL_CODE; SEG_KERNEL_DATA; SEG_USER_CODE] -> exists e, gdt !! Z.to_nat seg = Some e /\
     forall x, admits (gdt_bits e) x = true <-> 0 <= x < 2 ^ 32) /\
  (forall seg, seg ∈ [SEG_INIT_TSS; SEG_USER_TSS; SEG_SYSCALL_TSS; SEG_V8086_TSS] -> exists e, gdt !! Z.to_nat seg = Some e /\
     desc_base (gdt_bits e) = tss_array seg /\
     desc_limit (gdt_bits e) = if seg =? SEG_V8086_TSS then sizeof_tss_with_io else sizeof_tss) /\
  (forall i e, gdt !! i = Some e ->
     desc_dpl (gdt_bits e) = 3 <-> Z.of_nat i ∈ [SEG_USER_CODE; SEG_USER_DATA; SEG_USER_TSS]).
Proof.
  intros Ht gdt. split; [done|]. split; [|split; [|split; [|split]]].
  - intros seg Hin. repeat (apply elem_of_cons in Hin as [->|Hin];
      [eexists; split; [reflexivity|]; split_and!; vm_compute; reflexivity|]). by apply elem_of_nil in Hin.
  - exists gdt_user_data. split; [done|]. apply admits_user_data.
  - intros seg Hin. repeat (apply elem_of_cons in Hin as [->|Hin];
      [eexists; split; [reflexivity|]; intros x; apply admits_all; set_solver|]). by apply elem_of_nil in Hin.
  - intros seg Hin. repeat (apply elem_of_cons in Hin as [->|Hin];
      [eexists; split; [reflexivity|]; edestruct gdt_tss_read as (? & ? & _); [apply Ht| | |by split]; [done|auto]|]).
    by apply elem_of_nil in Hin.
  - intros i e Hi. unfold gdt, initialize_gdt in Hi.
    assert (forall size dpl, urange 16 size -> (dpl = 0 \/ dpl = 3) -> forall seg,
      desc_dpl (gdt_bits (gdt_tss (tss_array seg) size dpl)) = dpl) as Hd by (intros; by apply gdt_tss_read).
    do 9 (destruct i as [|i]; [cbn in Hi; injection Hi as <-; rewrite ?Hd by (done || auto);
      apply (bool_decide_eq_true_1 _); vm_compute; reflexivity|]). done.
Qed.

Lemma gdt_correct_witness : exists e, initialize_gdt (fun s => 4096 * u16 s) !! 6%nat = Some e /\
  desc_base (gdt_bits e) = 24576 /\ desc_dpl (gdt_bits e) = 3.
Proof.
  destruct (gdt_correct (fun s => 4096 * u16 s)) as (_ & _ & _ & _ & Ht & Hd).
  { intros s. pose proof (wrap_range 16 s ltac:(lia)). unfold urange in *. pow2_literals. lia. }
  destruct (Ht SEG_USER_TSS ltac:(set_solver)) as (e & He & Hb & _). exists e. split; [exact He|]. split; [exact Hb|].
  apply (Hd 6%nat e He). set_solver.
Defined.

(** *** The gates *)
Section gates.
Variables trap_handler trap_handler_with_error_code : Z -> Z.
Variable gp_handler : Z.

(** The handler of a vector. *)
Definition default_handler (v : Z) : Z :=
  if (v <? 32) && has_error_code v then trap_handler_with_error_code v else trap_handler v.
Definition gate (v : Z) : idt_entry :=
  IdtEntry (Z.land (u32 (default_handler v)) 0xFFFF) (u16 (SEGMENT_SELECTOR SEG_KERNEL_CODE 0 0)) 0
    (wrap 4 IDT_INTERRUPT_32) 0 (wrap 2 0) (wrap 1 1) (u16 (Z.shiftr (u32 (default_handler v)) 16)).

Lemma SetDefaultISR_spec n t v : (n < 256)%nat -> 0 <= v ->
  SetDefaultISR trap_handler trap_handler_with_error_code n t v = if v <=? Z.of_nat n then gate v else t v.
Proof.
  revert t. induction n as [|n IH]; intros t Hn Hv; cbn [SetDefaultISR].
  - unfold idt_set_descriptor. change (u8 0) with 0. case_cmp; case_cmp; try lia; [|done]. subst v. reflexivity.
  - rewrite IH by lia. unfold SetDefaultISR1, idt_set_descriptor.
    rewrite (wrap_small 8) by (unfold urange; pow2_literals; lia).
    destruct (Z.leb_spec v (Z.of_nat n)), (Z.leb_spec v (Z.of_nat (S n))), (Z.eqb_spec v (Z.of_nat (S n))) as [->|];
      try lia; done.
Qed.

Lemma isr_split a : Z.land (u32 a) 0xFFFF + 2 ^ 16 * u16 (Z.shiftr (u32 a) 16) = u32 a.
Proof.
  change 0xFFFF with (Z.ones 16). rewrite Z.land_ones, Z.shiftr_div_pow2 by lia.
  pose proof (wrap_range 32 a ltac:(lia)) as Hr. unfold urange in Hr. unfold wrap at 2. pow2_literals.
  rewrite (Z.mod_small (u32 a / 65536)) by (split; [apply Z.div_pos; lia|apply Z.div_lt_upper_bound; lia]).
  pose proof (Z.div_mod (u32 a) 65536 ltac:(lia)). lia.
Qed.

(** C26: After initialize_intr() the only gate that a user program can enter is
    [int 0x80], a task gate to the task of the system calls; every other
    vector is an interrupt gate of the kernel to its own handler, the one with
    an error code exactly for the exceptions that push one. *)
Theorem idt_correct v t : 0 <= v < 256 ->
  let e := initialize_intr trap_handler trap_handler_with_error_code gp_handler t v in
  idt_present e = 1 /\ (idt_dpl e = 3 <-> v = 0x80) /\
  (v = 0x80 -> idt_type e = IDT_TASK /\ kernel_cs e = SEGMENT_SELECTOR SEG_SYSCALL_TSS 0 0) /\
  (v <> 0x80 -> idt_type e = IDT_INTERRUPT_32 /\ idt_dpl e = 0 /\ kernel_cs e = SEGMENT_SELECTOR SEG_KERNEL_CODE 0 0 /\
     isr_low e + 2 ^ 16 * isr_high e = u32 (if v =? 13 then gp_handler
       else if decide (v ∈ [8; 10; 11; 12; 14; 17; 21; 29; 30]) then trap_handler_with_error_code v
       else trap_handler v)).
Proof.
  intros Hv e. unfold e, initialize_intr, idt_set_descriptor. change (u8 128) with 128. change (u8 13) with 13.
  destruct (Z.eqb_spec v 128) as [->|H80]; [by split|]. destruct (Z.eqb_spec v 13) as [->|H13].
  - cbn [idt_present idt_dpl idt_type kernel_cs isr_low isr_high]. rewrite isr_split. done.
  - change (Z.pos 128) with 128. rewrite SetDefaultISR_spec by lia.
    destruct (Z.leb_spec v (Z.of_nat 255)); [|lia]. cbn [gate idt_present idt_dpl idt_type kernel_cs isr_low isr_high].
    rewrite isr_split. split; [done|]. split; [done|]. split; [done|]. intros _. split; [done|]. split; [done|]. split; [done|].
    f_equal. unfold default_handler. clear e.
    destruct (Z.ltb_spec v 32) as [H32|H32]; cbn [andb].
    + assert (v ∈ seqZ 0 32) as Hin by (apply elem_of_seqZ; lia).
      assert (has_error_code v = bool_decide (v = 13 \/ v ∈ [8; 10; 11; 12; 14; 17; 21; 29; 30])) as ->.
      { change (seqZ 0 32) with [0;1;2;3;4;5;6;7;8;9;10;11;12;13;14;15;16;17;18;19;20;21;22;23;24;25;26;27;28;29;30;31] in Hin.
        repeat (apply elem_of_cons in Hin as [->|Hin]; [reflexivity|]). by apply elem_of_nil in Hin. }
      case_bool_decide as H1; case_decide; tauto.
    + case_decide as H1; [|done]. exfalso. repeat (apply elem_of_cons in H1 as [->|H1]; [lia|]). by apply elem_of_nil in H1.
Qed.
End gates.

Lemma idt_correct_witness :
  let e := initialize_intr (fun v => 1000 + v) (fun v => 2000 + v) 3000 idt_empty 14 in
  idt_dpl e = 0 /\ isr_low e + 2 ^ 16 * isr_high e = 2014.
Proof.
  destruct (idt_correct (fun v => 1000 + v) (fun v => 2000 + v) 3000 14 idt_empty ltac:(lia)) as (_ & _ & _ & H).
  destruct (H ltac:(lia)) as (_ & Hd & _ & Ha). split; [exact Hd|exact Ha].
Defined.

(** *** The emulated [int] *)

(** The processor's [iret] in the 16-bit mode. *)
Definition iret16 (frame : interrupt_frame) : prog mem interrupt_frame :=
  let stack := u32 (fr_ss frame * 16 + fr_esp frame) in
  ip ← load16 stack;
  cs ← load16 (stack + 2);
  flags ← load16 (stack + 4);
  mret (Frame ip cs flags (fr_esp frame + 6) (fr_ss frame)).

Lemma load_half_at m a v : urange 16 v -> bytes_at m a [u8 v; u8 (Z.shiftr v 8)] -> load16 a m = Ret (v, m).
Proof.
  intros Hv (H0 & H1 & _). unfold load16. do 2 mem_step. unfold mret, prog_ret. do 3 f_equal.
  unfold urange, wrap in *. rewrite Z.shiftr_div_pow2 by lia. pow2_literals.
  rewrite (Z.mod_small (v / 256)) by (split; [apply Z.div_pos; lia|apply Z.div_lt_upper_bound; lia]).
  pose proof (Z.div_mod v 256 ltac:(lia)). lia.
Qed.

Lemma load8_mapped m a : is_Some (m !! a) -> exists b, load8 a m = Ret (b, m).
Proof. intros [b Hb]. exists b. by apply load8_at. Qed.

Lemma load16_mapped m a : mapped m a 2 -> exists v, load16 a m = Ret (v, m).
Proof.
  intros H. destruct (H a ltac:(lia)) as [b0 H0]. destruct (H (a + 1) ltac:(lia)) as [b1 H1].
  exists (b0 + 256 * b1). unfold load16. do 2 mem_step. done.
Qed.

(** C24: The monitor resumes an [int n] of a BIOS stub at the handler in the
    real-mode vector table, with the flags, the segment and the address of the
    next instruction pushed: the [iret] of that handler continues after the
    [int] with the same flags and stack.  Only the 6 bytes below the stack
    pointer change. *)
Theorem v8086_int_iret m frame n :
  let stack := fr_ss frame * 16 + fr_esp frame in
  0 <= fr_eip frame < 65534 -> urange 16 (fr_cs frame) -> urange 16 (fr_eflags frame) ->
  6 <= stack < 2 ^ 32 -> 0 <= n < 256 ->
  bytes_at m (fr_cs frame * 16 + fr_eip frame) [0xCD; n] -> mapped m (4 * n) 4 -> mapped m (stack - 6) 6 ->
  exists frame' m', v8086_gp_handler frame m = Ret (Some frame', m') /\
    load16 (4 * n) m = Ret (fr_eip frame', m) /\ load16 (4 * n + 2) m = Ret (fr_cs frame', m) /\
    iret16 frame' m' =
      Ret (Frame (fr_eip frame + 2) (fr_cs frame) (fr_eflags frame) (fr_esp frame) (fr_ss frame), m') /\
    forall x, ~ (stack - 6 <= x < stack) -> m' !! x = m !! x.
Proof.
  intros stack Hip Hcs Hfl Hst Hn (Hop & Hno & _) Hvec Hstack.
  destruct (load16_mapped m (4 * n)) as [ip Eip]; [eapply mapped_le; [exact Hvec|lia]|].
  destruct (load16_mapped m (4 * n + 2)) as [cs Ecs]; [eapply mapped_sub; [exact Hvec|lia|lia]|].
  set (w v := [u8 v; u8 (Z.shiftr v 8)]).
  set (m1 := write_bytes m (stack - 2) (w (fr_eflags frame))).
  set (m2 := write_bytes m1 (stack - 4) (w (fr_cs frame))).
  set (m3 := write_bytes m2 (stack - 6) (w (fr_eip frame + 2))).
  assert (urange 16 (fr_eip frame + 2)) as Hip2 by (unfold urange; pow2_literals; lia).
  exists (Frame ip cs (fr_eflags frame) (fr_esp frame - 6) (fr_ss frame)), m3. split; [|split; [done|split; [done|split]]].
  - unfold v8086_gp_handler. rewrite (wrap_small 32 (fr_cs frame * 16 + fr_eip frame)) by
      (unfold urange in *; pow2_literals; lia). fold stack. rewrite (wrap_small 32 stack) by (unfold urange; lia).
    mem_step. cbn [Z.eqb Pos.eqb]. mem_step.
    replace (2 * (2 * n + 1)) with (4 * n + 2) by lia. replace (2 * (2 * n)) with (4 * n) by lia.
    rewrite (bind_Ret _ _ _ _ _ Ecs), (bind_Ret _ _ _ _ _ Eip).
    rewrite (bind_Ret _ _ _ _ _ (store16_at m (stack - 2) _ ltac:(eapply mapped_sub; [exact Hstack|lia|lia]))).
    rewrite (bind_Ret _ _ _ _ _ (store16_at m1 (stack - 4) _ ltac:(apply mapped_write; eapply mapped_sub; [exact Hstack|lia|lia]))).
    rewrite (bind_Ret _ _ _ _ _ (store16_at m2 (stack - 6) _
      ltac:(do 2 apply mapped_write; eapply mapped_sub; [exact Hstack|lia|lia]))). done.
  - unfold iret16. cbn [fr_ss fr_esp fr_eip fr_cs fr_eflags].
    replace (fr_ss frame * 16 + (fr_esp frame - 6)) with (stack - 6) by (unfold stack; lia).
    rewrite (wrap_small 32) by (unfold urange; lia).
    rewrite (bind_Ret _ _ _ _ _ (load_half_at m3 (stack - 6) _ Hip2 (bytes_at_write _ _ _))).
    replace (stack - 6 + 2) with (stack - 4) by lia. replace (stack - 6 + 4) with (stack - 2) by lia.
    assert (bytes_at m3 (stack - 4) (w (fr_cs frame))) as B1
      by (apply bytes_at_write_out; [cbn; lia|apply bytes_at_write]).
    assert (bytes_at m3 (stack - 2) (w (fr_eflags frame))) as B2
      by (do 2 (apply bytes_at_write_out; [cbn; lia|]); apply bytes_at_write).
    rewrite (bind_Ret _ _ _ _ _ (load_half_at m3 _ _ Hcs B1)), (bind_Ret _ _ _ _ _ (load_half_at m3 _ _ Hfl B2)).
    by replace (fr_esp frame - 6 + 6) with (fr_esp frame) by lia.
  - intros x Hx. unfold m3, m2, m1. rewrite !lookup_write_out; [done|cbn; lia..].
Qed.

(** The stub of interrupt 0x10 at 0:0x800, its stack below 0x7000. *)
Definition v8086_example : mem :=
  mem_of [(0x800, [0xCD; 0x10; 0xF4]); (0x40, [0x34; 0x12; 0x00; 0xF0]); (0x6FF0, repeat 0 16)].

Lemma v8086_int_iret_witness : exists frame' m',
  v8086_gp_handler (Frame 0x800 0 0x3202 0x7000 0) v8086_example = Ret (Some frame', m') /\
  fr_eip frame' = 0x1234 /\ fr_cs frame' = 0xF000 /\
  iret16 frame' m' = Ret (Frame 0x802 0 0x3202 0x7000 0, m').
Proof.
  destruct (v8086_int_iret v8086_example (Frame 0x800 0 0x3202 0x7000 0) 0x10) as (f' & m' & H1 & H2 & H3 & H4 & _).
  - cbn. lia.
  - unfold urange. cbn. lia.
  - unfold urange. cbn. lia.
  - cbn. lia.
  - lia.
  - mem_compute.
  - mem_compute.
  - mem_compute.
  - exists f', m'. split; [exact H1|]. split; [|split; [|exact H4]].
    + assert (load16 (4 * 0x10) v8086_example = Ret (0x1234, v8086_example)) as E by (vm_compute; reflexivity).
      rewrite E in H2. by injection H2.
    + assert (load16 (4 * 0x10 + 2) v8086_example = Ret (0xF000, v8086_example)) as E by (vm_compute; reflexivity).
      rewrite E in H3. by injection H3.
Defined.
