(* ===== verification/Trap.v ===== *)
(** * Trap: the exception handlers of src/src/intr.cpp

    What the default handlers print before they halt the machine, and when
    the handler of general protection faults goes to the monitor of the
    virtual 8086 mode instead. *)
From stdpp Require Import pretty.
From S2P Require Import Prelude Mem CString Printf RoundTrip Stdio ProtectedMode.

(** ** Definitions *)
Definition exception_name (n : Z) : string :=
  if n <? 32 then (exception_infos !!! Z.to_nat n).1.1 else "Unknown".

(** The format strings, the last one panic()'s. *)
Definition exception_format : string := "Exception %s(%d) occured
".
Definition exception_code_format : string := "Exception %s(%d) with error code %x occured
".
Definition frame_format : string := "CS: %08x
IP: %08x
EFLAGS: %08x
ESP: %08x
SS: %08x
".
Definition panic_format : string := "Kernel panic: %s

System halted
".

Section handlers.
Context {W : Type} (as_output : Z -> option (Z -> Z -> prog (mem * W) Z)).
Context (stderr : Z) (lit : string -> Z) (typeid_name : Z) (buffer : nat -> Z).
Abbreviation fprintf := (fprintf as_output stderr lit typeid_name buffer).

Definition print_frame (frame : interrupt_frame) : prog (mem * W) Z :=
  fprintf stderr (lit frame_format) [fr_cs frame; fr_eip frame; fr_eflags frame; fr_esp frame; fr_ss frame].

Definition trap_report (n : Z) (frame : interrupt_frame) : prog (mem * W) Z :=
  fprintf stderr (lit exception_format) [lit (exception_name n); n];;
  print_frame frame.

Definition trap_report_with_error_code (n : Z) (frame : interrupt_frame) (error_code : Z) : prog (mem * W) Z :=
  fprintf stderr (lit exception_code_format) [lit (exception_name n); n; error_code];;
  print_frame frame.

(** [halt]: the processor that panic() stops, see Stdio.v. *)
Definition trap_handler {A} (halt : prog (mem * W) A) (n : Z) (frame : interrupt_frame) : prog (mem * W) A :=
  trap_report n frame;; panic as_output stderr lit typeid_name buffer halt (lit "Exception occured").

Definition trap_handler_with_error_code {A} (halt : prog (mem * W) A) (n : Z) (frame : interrupt_frame) (error_code : Z) : prog (mem * W) A :=
  trap_report_with_error_code n frame error_code;;
  panic as_output stderr lit typeid_name buffer halt (lit "Exception occured").

(** The VM flag of the saved EFLAGS tells where the fault comes from. *)
Definition gp_handler (halt : prog (mem * W) (option interrupt_frame)) (frame : interrupt_frame) (error_code : Z) :
    prog (mem * W) (option interrupt_frame) :=
  if negb (Z.land (fr_eflags frame) 0x20000 =? 0) then on_mem (v8086_gp_handler frame)
  else trap_handler_with_error_code halt 13 frame error_code.
End handlers.

(** ** Eight hexadecimal digits *)
Definition hex_digit (v i : Z) : Z := digit_char lcdigits ((v / 16 ^ i) mod 16).
Definition hex8 (v : Z) : list Z := map (hex_digit v) [7; 6; 5; 4; 3; 2; 1; 0].

Lemma digits_rev_app tbl base k j v : 0 < base ->
  digits_rev tbl base (k + j) v = digits_rev tbl base k v ++ digits_rev tbl base j (v / base ^ Z.of_nat k).
Proof.
  intros Hb. revert v. induction k as [|k IH]; intros v; [by rewrite Z.div_1_r|].
  cbn [Nat.add digits_rev app]. rewrite IH, Nat2Z.inj_succ, Z.pow_succ_r, Z.div_div by (try apply Z.pow_pos_nonneg; lia).
  done.
Qed.

Lemma digits_rev_zero tbl base k : 0 < base -> digits_rev tbl base k 0 = replicate k (digit_char tbl 0).
Proof. intros Hb. induction k as [|k IH]; [done|]. cbn. by rewrite Z.mod_0_l, Z.div_0_l, IH by lia. Qed.

Lemma rev_replicate {A} n (x : A) : rev (replicate n x) = replicate n x.
Proof. induction n as [|n IH]; [done|]. cbn [replicate rev]. by rewrite IH, replicate_cons_app. Qed.

(** The digits that an unsigned number below [2^32] prints. *)
Definition hex_count (v : Z) : Z := if v =? 0 then 1 else ndigits_of 16 v.

Lemma hex_count_range v : urange 32 v -> 1 <= hex_count v <= 8 /\ v < 16 ^ hex_count v.
Proof.
  intros [Hv1 Hv2]. unfold hex_count. destruct (Z.eqb_spec v 0) as [->|Hne]; [done|].
  pose proof (ndigits_of_range 16 v) as [_ Hlo]. specialize (Hlo Hne).
  pose proof (count_digits_upper 64 v 16 0 8 ltac:(lia) ltac:(lia) ltac:(lia)) as Hhi.
  split; [unfold ndigits_of in *; lia|]. apply ndigits_of_spec; lia.
Qed.

Lemma hex_body v fl : urange 32 v -> fl = 0 \/ fl = FL_ZERO ->
  int_body v fl 16 (-1) = rev (digits_rev lcdigits 16 (Z.to_nat (hex_count v)) v).
Proof.
  intros Hv Hfl. pose proof (hex_count_range v Hv). unfold int_body, int_layout_of.
  assert (has fl FL_SIGNED = false /\ has fl FL_HASH = false /\ has fl FL_TICK = false /\ has fl FL_UPPER = false)
    as (-> & -> & -> & H4) by (by destruct Hfl as [->| ->]).
  unfold digit_table. rewrite H4. cbn [andb il_count il_abs].
  pose proof (ndigits_of_range 16 v) as [Hr _].
  replace (ndigits_of 16 v <? -1) with false by lia. fold (hex_count v).
  by rewrite ticks_rev_none by (rewrite digits_rev_length; lia).
Qed.

Lemma hex_char_is_char v : is_char (digit_char lcdigits (v mod 16)).
Proof.
  pose proof (Z.mod_pos_bound v 16 ltac:(lia)).
  assert (forallb (fun i => (0 <? digit_char lcdigits i) && (digit_char lcdigits i <? 256)) (seqZ 0 16) = true) as Hc
    by (vm_compute; reflexivity).
  rewrite forallb_forall in Hc. specialize (Hc (v mod 16)). unfold is_char.
  assert (In (v mod 16) (seqZ 0 16)) as Hin by (apply list_elem_of_In, elem_of_seqZ; lia). specialize (Hc Hin). lia.
Qed.

(** [%08x] writes the eight digits, [%x] those without the leading zeros. *)
Lemma hex8_text v : urange 32 v -> fmt_int v FL_ZERO 16 8 (-1) = hex8 v.
Proof.
  intros Hv. pose proof (hex_count_range v Hv) as [Hc Hlt]. unfold fmt_int. rewrite hex_body by auto.
  assert (int_sign v FL_ZERO 16 (-1) = []) as -> by done. change (int_prefix FL_ZERO 16) with (@nil Z).
  change (has FL_ZERO FL_MINUS) with false. change (has FL_ZERO FL_ZERO) with true. cbv beta iota zeta. rewrite !app_nil_l.
  unfold pad. rewrite length_rev, digits_rev_length, Z2Nat.id by lia.
  transitivity (rev (digits_rev lcdigits 16 8 v)).
  - replace 8%nat with (Z.to_nat (hex_count v) + Z.to_nat (8 - hex_count v))%nat by lia.
    rewrite digits_rev_app by lia. rewrite Z2Nat.id by lia.
    rewrite (Z.div_small v) by (unfold urange in Hv; lia).
    rewrite digits_rev_zero, rev_app_distr by lia. by rewrite rev_replicate.
  - cbn [digits_rev rev app]. unfold hex8, hex_digit. cbn [map]. rewrite !Z.div_div by lia.
    rewrite Z.div_1_r. done.
Qed.

Definition hex_text (v : Z) : list Z := rev (digits_rev lcdigits 16 (Z.to_nat (hex_count v)) v).

Lemma hex_plain_text v : urange 32 v -> fmt_int v 0 16 0 (-1) = hex_text v.
Proof.
  intros Hv. unfold fmt_int. rewrite hex_body by auto.
  assert (int_sign v 0 16 (-1) = []) as -> by done. change (int_prefix 0 16) with (@nil Z).
  change (has 0 FL_MINUS) with false. change (has 0 FL_ZERO) with false. cbv beta iota zeta. unfold pad.
  by replace (Z.to_nat (0 - _)) with 0%nat by lia.
Qed.

Lemma length_hex_text v : urange 32 v -> (length (hex_text v) <= 8)%nat.
Proof.
  intros Hv. pose proof (hex_count_range v Hv). unfold hex_text. rewrite length_rev, digits_rev_length. lia.
Qed.

Lemma hex_text_chars k v : Forall is_char (rev (digits_rev lcdigits 16 k v)).
Proof.
  apply Forall_rev. revert v. induction k as [|k IH]; intros v; constructor; [|apply IH].
  apply hex_char_is_char.
Qed.

(** ** The texts *)
Definition frame_text (f : interrupt_frame) : list Z :=
  chars "CS: " ++ hex8 (fr_cs f) ++ [10] ++ chars "IP: " ++ hex8 (fr_eip f) ++ [10] ++
  chars "EFLAGS: " ++ hex8 (fr_eflags f) ++ [10] ++ chars "ESP: " ++ hex8 (fr_esp f) ++ [10] ++
  chars "SS: " ++ hex8 (fr_ss f) ++ [10].
Definition number_text (n : Z) : list Z := chars (pretty n).
Definition exception_text (n : Z) : list Z :=
  chars "Exception " ++ chars (exception_name n) ++ chars "(" ++ number_text n ++ chars ") occured" ++ [10].
Definition exception_text_with_code (n code : Z) : list Z :=
  chars "Exception " ++ chars (exception_name n) ++ chars "(" ++ number_text n ++ chars ") with error code " ++
  hex_text code ++ chars " occured" ++ [10].
Definition panic_text : list Z := chars "Kernel panic: Exception occured" ++ [10; 10] ++ chars "System halted" ++ [10].

(** The numbers and names of the exceptions, by evaluation. *)
Lemma exception_facts n : 0 <= n < 256 ->
  fmt_int (u64 (s32 n)) FL_SIGNED 10 0 (-1) = number_text n /\
  (length (chars (exception_name n)) <= 30 /\ length (number_text n) <= 3)%nat /\
  Forall is_char (chars (exception_name n) ++ number_text n).
Proof.
  intros Hn. assert (forallb (fun n => bool_decide (fmt_int (u64 (s32 n)) FL_SIGNED 10 0 (-1) = number_text n /\
    (length (chars (exception_name n)) <= 30 /\ length (number_text n) <= 3)%nat /\
    Forall is_char (chars (exception_name n) ++ number_text n))) (seqZ 0 256) = true) as H.
  { vm_compute. reflexivity. }
  rewrite forallb_forall in H. specialize (H n). rewrite bool_decide_eq_true in H. apply H.
  apply list_elem_of_In, elem_of_seqZ. lia.
Qed.

(** ** Rendering, item by item *)
Section items.
Variable str : Z -> option (list Z).

Lemma item_d fuel l n args out : 0 <= n < 256 -> render str fuel l args = Some out ->
  render str (S fuel) (37 :: 100 :: l) (n :: args) = Some (number_text n ++ out).
Proof.
  intros Hn Hr. destruct (exception_facts n Hn) as (<- & _).
  cbn -[fmt_int wrap sgn]. rewrite Hr. by rewrite (wrap_small 32) by (unfold urange; lia).
Qed.

Lemma item_x fuel l v args out : urange 32 v -> render str fuel l args = Some out ->
  render str (S fuel) (37 :: 120 :: l) (v :: args) = Some (hex_text v ++ out).
Proof. intros Hv Hr. cbn -[fmt_int wrap]. rewrite wrap_small, Hr by done. cbn -[fmt_int]. by rewrite hex_plain_text. Qed.

Lemma item_08x fuel l v args out : urange 32 v -> render str fuel l args = Some out ->
  render str (S fuel) (37 :: 48 :: 56 :: 120 :: l) (v :: args) = Some (hex8 v ++ out).
Proof. intros Hv Hr. cbn -[fmt_int wrap hex8]. rewrite wrap_small, Hr by done. cbn -[fmt_int hex8]. by rewrite hex8_text. Qed.
End items.

Ltac item_literal := apply item_lit; [by repeat constructor|cbn; lia|cbn [length Nat.sub]].

Lemma render_frame str f : urange 32 (fr_cs f) -> urange 32 (fr_eip f) -> urange 32 (fr_eflags f) ->
  urange 32 (fr_esp f) -> urange 32 (fr_ss f) ->
  render_format str (chars frame_format) [fr_cs f; fr_eip f; fr_eflags f; fr_esp f; fr_ss f] = Some (frame_text f).
Proof.
  intros H1 H2 H3 H4 H5. unfold render_format, frame_text.
  change (chars frame_format) with (chars "CS: " ++ 37 :: 48 :: 56 :: 120 :: [10] ++ chars "IP: " ++ 37 :: 48 :: 56 :: 120 :: [10] ++
    chars "EFLAGS: " ++ 37 :: 48 :: 56 :: 120 :: [10] ++ chars "ESP: " ++ 37 :: 48 :: 56 :: 120 :: [10] ++
    chars "SS: " ++ 37 :: 48 :: 56 :: 120 :: [10]).
  do 4 (item_literal; apply item_08x; [done|]; item_literal). item_literal. apply item_08x; [done|].
  apply (item_lit str [10] _ [] [] []); [by repeat constructor|cbn; lia|done].
Qed.

Lemma render_exception str n p : 0 <= n < 256 -> urange 32 p -> p <> 0 -> str p = Some (chars (exception_name n)) ->
  render_format str (chars exception_format) [p; n] = Some (exception_text n).
Proof.
  intros Hn Hp Hne Hs. unfold render_format, exception_text.
  change (chars exception_format) with (chars "Exception " ++ 37 :: 115 :: chars "(" ++ 37 :: 100 :: chars ") occured" ++ [10]).
  item_literal. apply item_s; [done..|]. item_literal. apply item_d; [done|]. item_literal.
  apply (item_lit str [10] _ [] [] []); [by repeat constructor|cbn; lia|done].
Qed.

Lemma render_exception_with_code str n p code : 0 <= n < 256 -> urange 32 p -> p <> 0 ->
  str p = Some (chars (exception_name n)) -> urange 32 code ->
  render_format str (chars exception_code_format) [p; n; code] = Some (exception_text_with_code n code).
Proof.
  intros Hn Hp Hne Hs Hc. unfold render_format, exception_text_with_code.
  change (chars exception_code_format) with (chars "Exception " ++ 37 :: 115 :: chars "(" ++ 37 :: 100 :: chars ") with error code " ++ 37 :: 120 ::
    chars " occured" ++ [10]).
  item_literal. apply item_s; [done..|]. item_literal. apply item_d; [done|]. item_literal. apply item_x; [done|].
  item_literal. apply (item_lit str [10] _ [] [] []); [by repeat constructor|cbn; lia|done].
Qed.

Lemma render_panic str p : urange 32 p -> p <> 0 -> str p = Some (chars "Exception occured") ->
  render_format str (chars panic_format) [p] = Some panic_text.
Proof.
  intros Hp Hne Hs. unfold render_format, panic_text.
  change (chars panic_format) with (chars "Kernel panic: " ++ 37 :: 115 :: [10; 10] ++ chars "System halted" ++ [10]).
  change (chars "Kernel panic: Exception occured") with (chars "Kernel panic: " ++ chars "Exception occured").
  rewrite <- app_assoc.
  item_literal. apply item_s; [done..|]. item_literal. item_literal.
  apply (item_lit str [10] _ [] [] []); [by repeat constructor|cbn; lia|done].
Qed.

(** All of the texts fit the buffer of vfprintf. *)
Definition fits_buffer (out : list Z) : Prop := Forall is_char out /\ (length out <= 127)%nat.

Lemma hex8_chars v : Forall is_char (hex8 v).
Proof. unfold hex8. apply Forall_map. repeat constructor; apply hex_char_is_char. Qed.

Lemma frame_text_fits f : fits_buffer (frame_text f).
Proof.
  split; [|cbn -[Nat.le]; lia]. unfold frame_text. rewrite !Forall_app.
  repeat split; try apply hex8_chars; mem_compute.
Qed.

Lemma exception_text_fits n : 0 <= n < 256 -> fits_buffer (exception_text n).
Proof.
  intros Hn. destruct (exception_facts n Hn) as (_ & [H1 H2] & [H3 H4]%Forall_app). unfold exception_text. split.
  - rewrite !Forall_app. repeat split; try done; mem_compute.
  - rewrite !length_app. cbn [length chars] in *. simpl. lia.
Qed.

Lemma exception_text_with_code_fits n code : 0 <= n < 256 -> urange 32 code -> fits_buffer (exception_text_with_code n code).
Proof.
  intros Hn Hc. destruct (exception_facts n Hn) as (_ & [H1 H2] & [H3 H4]%Forall_app).
  pose proof (length_hex_text code Hc). unfold exception_text_with_code. split.
  - rewrite !Forall_app. repeat split; try done; try mem_compute. apply hex_text_chars.
  - rewrite !length_app. simpl. lia.
Qed.

Lemma panic_text_fits : fits_buffer panic_text.
Proof. split; [mem_compute|cbn; lia]. Qed.

(** ** The handlers *)
Ltac words_ok := repeat (apply List.Forall_cons; [by auto|]); apply List.Forall_nil.

Lemma land_bit a i : 0 <= i -> (Z.land a (2 ^ i) =? 0) = negb (Z.testbit a i).
Proof.
  intros Hi. destruct (Z.testbit a i) eqn:E; cbn [negb].
  - apply Z.eqb_neq. intros H. assert (Z.testbit (Z.land a (2 ^ i)) i = true) as Ht
      by by rewrite Z.land_spec, E, Z.pow2_bits_true.
    by rewrite H, Z.bits_0 in Ht.
  - apply Z.eqb_eq, Z.bits_inj'. intros j Hj. rewrite Z.land_spec, Z.pow2_bits_eqb, Z.bits_0 by done.
    destruct (Z.eqb_spec i j) as [<-|]; [by rewrite E|apply andb_false_r].
Qed.

Section report.
Context {W : Type} (as_output : Z -> option (Z -> Z -> prog (mem * W) Z)).
Context (stderr : Z) (lit : string -> Z) (typeid_name : Z) (buffer : nat -> Z) (emit : W -> list Z -> W).
Context (write : Z -> Z -> prog (mem * W) Z).
Hypothesis Hdev : as_output stderr = Some write.
Hypothesis Hcon : console emit write.
Abbreviation fprintf := (fprintf as_output stderr lit typeid_name buffer).

(** The string literal [s] lies in the memory, away from the buffer. *)
Definition literal (m : mem) (s : string) : Prop :=
  cstr_at m (lit s) (chars s) /\ urange 32 (lit s) /\ lit s <> 0 /\
  (lit s + Z.of_nat (length (chars s)) < buffer 2 \/ buffer 2 + 128 <= lit s).

(** What the argument of [%s] denotes. *)
Definition only_string (s : string) (a : Z) : option (list Z) := if a =? lit s then Some (chars s) else None.

Lemma only_string_at s : only_string s (lit s) = Some (chars s).
Proof. unfold only_string. by rewrite Z.eqb_refl. Qed.

Definition trap_literals (n : Z) : list string :=
  [exception_format; exception_code_format; frame_format; panic_format; "Exception occured"; exception_name n]%string.

Record trap_ready (n : Z) (m : mem) : Prop := {
  tr_literals : Forall (literal m) (trap_literals n);
  tr_buffer : mapped m (buffer 2) 128
}.

Lemma literal_frame m m' s : literal m s -> (forall x, x < buffer 2 \/ buffer 2 + 128 <= x -> m' !! x = m !! x) -> literal m' s.
Proof.
  intros (Hs & Hr & H0 & Ho) Hf. split; [|done]. apply (cstr_at_frame m); [done|]. intros x Hx. apply Hf. lia.
Qed.

(** The memory outside the buffer of vfprintf stays as it is. *)
Definition buffer_only (m m' : mem) : Prop := forall x, x < buffer 2 \/ buffer 2 + 128 <= x -> m' !! x = m !! x.

Lemma buffer_only_trans m1 m2 m3 : buffer_only m1 m2 -> buffer_only m2 m3 -> buffer_only m1 m3.
Proof. intros H1 H2 x Hx. by rewrite H2, H1. Qed.

(** One line of the report: it leaves everything ready for the next. *)
Lemma report_line n m x s p args out : trap_ready n m -> s ∈ trap_literals n -> p ∈ trap_literals n ->
  Forall (urange 32) args -> fits_buffer out ->
  render_format (only_string p) (chars s) args = Some out ->
  exists m', fprintf stderr (lit s) args (m, x) = Ret (Z.of_nat (length out), (m', emit x out)) /\ trap_ready n m' /\ buffer_only m m'.
Proof.
  intros [Hl Hb] Hs Hp Hargs [Hch Hlen] Hr. rewrite list.Forall_forall in Hl.
  destruct (Hl s Hs) as (Hs1 & Hs2 & Hs3 & Hs4). destruct (Hl p Hp) as (Hp1 & Hp2 & Hp3 & Hp4).
  assert (Z.of_nat (length (chars p)) < 2 ^ 31) as Hpl.
  { apply (list.Forall_forall (fun p => Z.of_nat (length (chars p)) < 2 ^ 31) (trap_literals n)); [|done].
    repeat constructor; unfold exception_name. destruct (_ <? _); [|done].
    destruct (exception_infos !! Z.to_nat n) as [e|] eqn:E; [|by rewrite list_lookup_total_alt, E].
    rewrite (list_lookup_total_correct _ _ _ E).
    apply (list.Forall_forall (fun e : string * Z * bool => Z.of_nat (length (chars e.1.1)) < 2 ^ 31) exception_infos);
      [by repeat constructor|by apply list_elem_of_lookup_2 with (Z.to_nat n)]. }
  assert (printable m (buffer 2) (lit s) args out) as Hpr.
  { exists (only_string p), (chars s). split_and!; try done; [|lia].
    intros a t. unfold only_string. destruct (Z.eqb_spec a (lit p)) as [->|]; [|done]. intros [= <-]. done. }
  exists (formatted m (buffer 2) out). split.
  - unfold Stdio.fprintf, vfprintf.
    rewrite (vfprintf_console as_output stderr lit typeid_name buffer emit 1 2 stderr write _ _ _ x _ Hdev Hcon Hpr).
    rewrite firstn_all2 by done. by rewrite Z.min_r by lia.
  - split; [|intros y; apply formatted_outside]. split.
    + apply list.Forall_forall. intros t Ht. apply (literal_frame m); [by apply Hl|]. apply formatted_outside.
    + by apply mapped_write.
Qed.

Definition frame_ok (f : interrupt_frame) : Prop :=
  urange 32 (fr_cs f) /\ urange 32 (fr_eip f) /\ urange 32 (fr_eflags f) /\ urange 32 (fr_esp f) /\ urange 32 (fr_ss f).

(** The registers and the last words of the kernel, after any first line. *)
Lemma report_end {A} (halt : prog (mem * W) A) n m x f : frame_ok f -> trap_ready n m ->
  exists m', (print_frame as_output stderr lit typeid_name buffer f;;
    panic as_output stderr lit typeid_name buffer halt (lit "Exception occured")) (m, x) =
  halt (m', emit (emit x (frame_text f)) panic_text) /\ buffer_only m m'.
Proof.
  intros (H1 & H2 & H3 & H4 & H5) Hr.
  destruct (report_line n m x frame_format "Exception occured"
    [fr_cs f; fr_eip f; fr_eflags f; fr_esp f; fr_ss f] _ Hr ltac:(do 2 right; left) ltac:(do 4 right; left)
    ltac:(words_ok) (frame_text_fits f) (render_frame _ f H1 H2 H3 H4 H5)) as (m1 & E1 & Hr1 & Hf1).
  pose proof (tr_literals _ _ Hr1) as Hl. rewrite list.Forall_forall in Hl.
  destruct (Hl "Exception occured"%string ltac:(do 4 right; left)) as (_ & Hp & H0 & _).
  destruct (report_line n m1 (emit x (frame_text f)) panic_format "Exception occured" [lit "Exception occured"] _ Hr1
    ltac:(do 3 right; left) ltac:(do 4 right; left) ltac:(words_ok) panic_text_fits
    (render_panic _ _ Hp H0 (only_string_at _))) as (m2 & E2 & _ & Hf2).
  exists m2. split; [|by apply (buffer_only_trans m m1)]. unfold print_frame, panic, panic_message. rewrite (bind_Ret _ _ _ _ _ E1).
  unfold panic_format in E2. by rewrite (bind_Ret _ _ _ _ _ E2).
Qed.

Lemma report_first {A} (halt : prog (mem * W) A) n m x f p args out : trap_ready n m -> p ∈ trap_literals n -> frame_ok f ->
  Forall (urange 32) args -> fits_buffer out ->
  render_format (only_string (exception_name n)) (chars p) args = Some out ->
  exists m', ((fprintf stderr (lit p) args;; print_frame as_output stderr lit typeid_name buffer f);;
    panic as_output stderr lit typeid_name buffer halt (lit "Exception occured")) (m, x) =
  halt (m', emit (emit (emit x out) (frame_text f)) panic_text) /\ buffer_only m m'.
Proof.
  intros Hr Hin Hf Ha Hfit Hren.
  destruct (report_line n m x p (exception_name n) args out Hr Hin ltac:(do 5 right; left) Ha Hfit Hren) as (m1 & E1 & Hr1 & Hf1).
  destruct (report_end halt n m1 (emit x out) f Hf Hr1) as (m2 & E2 & Hf2). exists m2.
  split; [|by apply (buffer_only_trans m m1)]. by rewrite bind_assoc, (bind_Ret _ _ _ _ _ E1).
Qed.

(** The two handlers, each in the state in which it stops. *)
Lemma trap_handler_spec {A} (halt : prog (mem * W) A) n f m x : 0 <= n < 256 -> frame_ok f -> trap_ready n m ->
  exists m', trap_handler as_output stderr lit typeid_name buffer halt n f (m, x) =
    halt (m', emit (emit (emit x (exception_text n)) (frame_text f)) panic_text) /\ buffer_only m m'.
Proof.
  intros Hn Hf Hr. pose proof (tr_literals _ _ Hr) as Hl. rewrite list.Forall_forall in Hl.
  destruct (Hl (exception_name n) ltac:(do 5 right; left)) as (_ & Hp & H0 & _).
  assert (urange 32 n) as Hn32 by (unfold urange; lia).
  apply (report_first halt n m x f exception_format [lit (exception_name n); n] _ Hr ltac:(left) Hf
    ltac:(words_ok) (exception_text_fits n Hn) (render_exception _ n _ Hn Hp H0 (only_string_at _))).
Qed.

Lemma trap_handler_with_error_code_spec {A} (halt : prog (mem * W) A) n code f m x : 0 <= n < 256 -> urange 32 code ->
  frame_ok f -> trap_ready n m ->
  exists m', trap_handler_with_error_code as_output stderr lit typeid_name buffer halt n f code (m, x) =
    halt (m', emit (emit (emit x (exception_text_with_code n code)) (frame_text f)) panic_text) /\ buffer_only m m'.
Proof.
  intros Hn Hc Hf Hr. pose proof (tr_literals _ _ Hr) as Hl. rewrite list.Forall_forall in Hl.
  destruct (Hl (exception_name n) ltac:(do 5 right; left)) as (_ & Hp & H0 & _).
  assert (urange 32 n) as Hn32 by (unfold urange; lia).
  apply (report_first halt n m x f exception_code_format [lit (exception_name n); n; code] _ Hr ltac:(right; left) Hf
    ltac:(words_ok) (exception_text_with_code_fits n code Hn Hc) (render_exception_with_code _ n _ code Hn Hp H0 (only_string_at _) Hc)).
Qed.

(** C27: every handler, whatever becomes of the processor it stops.  An
    exception stops it exactly in the state in which its name and its number (and
    the error code in hexadecimal where the processor pushes one), the five
    registers of the frame in eight digits each and the kernel's last words have
    been printed, in this order, complete and nothing else; the memory has
    changed in the buffer of vfprintf only.  A protection fault in the virtual
    8086 mode goes to the monitor and prints nothing; elsewhere it is exception
    13. *)
Theorem trap_correct (halt : prog (mem * W) (option interrupt_frame)) n code f m x :
  0 <= n < 256 -> urange 32 code -> frame_ok f -> trap_ready n m ->
  (exists m', trap_handler as_output stderr lit typeid_name buffer halt n f (m, x) =
     halt (m', emit (emit (emit x (exception_text n)) (frame_text f)) panic_text) /\ buffer_only m m') /\
  (exists m', trap_handler_with_error_code as_output stderr lit typeid_name buffer halt n f code (m, x) =
     halt (m', emit (emit (emit x (exception_text_with_code n code)) (frame_text f)) panic_text) /\ buffer_only m m') /\
  (if Z.testbit (fr_eflags f) 17
   then gp_handler as_output stderr lit typeid_name buffer halt f code (m, x) = on_mem (v8086_gp_handler f) (m, x)
   else trap_ready 13 m ->
     exists m', gp_handler as_output stderr lit typeid_name buffer halt f code (m, x) =
       halt (m', emit (emit (emit x (exception_text_with_code 13 code)) (frame_text f)) panic_text) /\ buffer_only m m').
Proof.
  intros Hn Hc Hf Hr. split; [by apply trap_handler_spec|]. split; [by apply trap_handler_with_error_code_spec|].
  unfold gp_handler. change 0x20000 with (2 ^ 17). rewrite land_bit by lia. destruct (Z.testbit _ _); [done|].
  intros Hr13. by apply trap_handler_with_error_code_spec.
Qed.
End report.

(** ** A page fault on the log of Stdio.v *)
Definition trap_lit (s : string) : Z :=
  if bool_decide (s = exception_format) then 3000 else if bool_decide (s = exception_code_format) then 3100
  else if bool_decide (s = frame_format) then 3200 else if bool_decide (s = panic_format) then 3300
  else if bool_decide (s = "Exception occured"%string) then 3400 else 3500.
Definition trap_example : mem :=
  mem_of [(2000, replicate 128 0); (3000, chars exception_format ++ [0]); (3100, chars exception_code_format ++ [0]);
    (3200, chars frame_format ++ [0]); (3300, chars panic_format ++ [0]); (3400, chars "Exception occured" ++ [0]);
    (3500, chars "Page Fault" ++ [0])].
Definition trap_frame : interrupt_frame := Frame 0x401000 8 0x202 0x1f00000 16.

Lemma trap_example_ready : trap_ready trap_lit (fun _ => 2000) 14 trap_example.
Proof.
  split; [|mem_compute]. repeat (apply List.Forall_cons; [|]); [..|apply List.Forall_nil];
    (split; [mem_compute|split; [by vm_compute|split; [by vm_compute|right; by vm_compute]]]).
Qed.

(** The processor that stops shows the state it stops in. *)
Lemma trap_correct_witness :
  exists m', trap_handler_with_error_code log_output 1 trap_lit 0 (fun _ => 2000) (mret (@None interrupt_frame)) 14 trap_frame 0x2a (trap_example, []) =
  Ret (None, (m', chars "Exception Page Fault(14) with error code 2a occured" ++ [10] ++
    chars "CS: 00000008" ++ [10] ++ chars "IP: 00401000" ++ [10] ++ chars "EFLAGS: 00000202" ++ [10] ++
    chars "ESP: 01f00000" ++ [10] ++ chars "SS: 00000010" ++ [10] ++
    chars "Kernel panic: Exception occured" ++ [10; 10] ++ chars "System halted" ++ [10])).
Proof.
  assert (frame_ok trap_frame) as Hf by by vm_compute.
  destruct (trap_correct log_output 1 trap_lit 0 (fun _ => 2000) app log_write eq_refl log_console (mret (@None interrupt_frame)) 14 0x2a trap_frame
    trap_example [] ltac:(lia) ltac:(by vm_compute) Hf trap_example_ready) as (_ & (m' & H & _) & _).
  exists m'. rewrite H. vm_compute. reflexivity.
Defined.
