(* ===== verification/SpecialPath.v ===== *)
(** * SpecialPath: the named devices and the default devices

    src/src/objects/SpecialPathManager.cpp, the static shared pointers of
    InputDevice.cpp, OutputDevice.cpp and of the [getInstance] functions, and
    the assignment of src/inc/shared_ptr.hpp.  The statics are a part of the
    state around the kernel; each counts a reference to its object. *)
From S2P Require Import Prelude Mem Kernel Directory Devices Invariant ProcessInv.

(** ** The state *)
Definition MAX_SPECIAL_PATH_NUM : Z := 16.

(** The static shared pointers; [SpecialObj i] is [devices[i].obj]. *)
Inductive static :=
  | DefaultInput | DefaultOutput | ErrorOutput
  | VgaDevice | WaitInstance | SleepInstance
  | SpecialObj (i : Z).

#[global] Instance static_eq_dec : EqDecision static.
Proof. solve_decision. Defined.

(** [special_names] are the strings [devices[i].name]. *)
Record globals := Globals { special_names : list (list Z); statics : static -> option Z }.

Definition set_static (s : static) (v : option Z) (g : globals) : globals :=
  Globals (special_names g) (fun s' => if decide (s = s') then v else statics g s').
Definition set_name (i : nat) (n : list Z) (g : globals) : globals :=
  Globals (<[i := n]> (special_names g)) (statics g).

(** SpecialPathManager(), and the null pointers of the start. *)
Definition no_globals : globals := Globals (replicate (Z.to_nat MAX_SPECIAL_PATH_NUM) []) (fun _ => None).

Section special.
Context {W : Type}.
Abbreviation kprog := (prog (kernel (globals * W))).

Definition get_globals : kprog globals := k ← pget; mret (k_ext k).1.
Definition put_globals (g : globals) : kprog unit :=
  pmodify (fun k => set_world (k_mem k, (g, (k_ext k).2)) k).

(** ** shared_ptr.hpp: copies, destruction and assignment *)
Definition copy (v : option Z) : kprog unit := match v with Some o => addRef o | None => mret tt end.
Definition destroy (v : option Z) : kprog unit := match v with Some o => release o | None => mret tt end.
Definition assign (s : static) (new : option Z) : kprog unit :=
  g ← get_globals; destroy (statics g s);; copy new;; put_globals (set_static s new g).

(** ** SpecialPathManager.cpp *)
Definition special_find (path : list Z) (g : globals) : option nat :=
  fst <$> list_find (fun n => same_name n path = true) (special_names g).
Definition special_free (g : globals) : option nat :=
  fst <$> list_find (fun n => n = []) (special_names g).

Definition special_removeObject (path : list Z) : kprog Z :=
  g ← get_globals;
  match special_find path g with
  | Some i => put_globals (set_name i [] g);; assign (SpecialObj (Z.of_nat i)) None;; mret 0
  | None => mret ENOENT
  end.

(** The parameter [obj] is a copy. *)
Definition registerObject (path : list Z) (o : option Z) : kprog Z :=
  copy o;;
  special_removeObject path;;
  g ← get_globals;
  r ← (match special_free g with
       | Some i => put_globals (set_name i (take 15 path) g);; assign (SpecialObj (Z.of_nat i)) o;; mret 0
       | None => mret ENOSPC
       end);
  destroy o;;
  mret r.

Definition special_path_get (path : list Z) (g : globals) : option Z :=
  match special_find path g with Some i => statics g (SpecialObj (Z.of_nat i)) | None => None end.

(** ** InputDevice.cpp, OutputDevice.cpp *)
Definition set_default (s : static) (device : option Z) : kprog (option Z) :=
  copy device;;
  g ← get_globals;
  let ret := statics g s in
  copy ret;; assign s device;; destroy device;; mret ret.

Definition setDefaultInputDevice : option Z -> kprog (option Z) := set_default DefaultInput.
Definition setDefaultOutputDevice : option Z -> kprog (option Z) := set_default DefaultOutput.
Definition setErrorOutputDevice : option Z -> kprog (option Z) := set_default ErrorOutput.

(** The [getInstance] of a class with one object. *)
Definition get_instance (s : static) (make : kprog Z) : kprog Z :=
  g ← get_globals;
  (match statics g s with
   | Some _ => mret tt
   | None => o ← make; assign s (Some o);; release o
   end);;
  g ← get_globals;
  match statics g s with Some o => addRef o;; mret o | None => pfault end.
End special.

(** ** References from the statics *)
Definition all_statics : list static :=
  [DefaultInput; DefaultOutput; ErrorOutput; VgaDevice; WaitInstance; SleepInstance] ++
  (SpecialObj <$> seqZ 0 MAX_SPECIAL_PATH_NUM).

Definition refs_in (l : list static) (g : globals) (o : Z) : Z :=
  Z.of_nat (length (filter (fun s => statics g s = Some o) l)).
Definition refs (g : globals) (o : Z) : Z := refs_in all_statics g o.

(** [d] more references to the object of [v]. *)
Definition plus (d : Z) (v : option Z) (X : Z -> Z) : Z -> Z :=
  match v with Some o => extra d o X | None => X end.

Lemma plus_0 v X o : plus (-1) v (plus 1 v X) o = X o.
Proof. destruct v; cbn; [|done]. unfold extra. case_decide; lia. Qed.

Lemma plus_add d v (A B : Z -> Z) o : plus d v A o + B o = plus d v (fun o => A o + B o) o.
Proof. destruct v; cbn; [|done]. unfold extra. case_decide; lia. Qed.

Lemma all_statics_NoDup : NoDup all_statics.
Proof. by apply (bool_decide_unpack (NoDup all_statics)). Qed.

Lemma special_static i : 0 <= i < MAX_SPECIAL_PATH_NUM -> SpecialObj i ∈ all_statics.
Proof. intros Hi. apply elem_of_app. right. apply list_elem_of_fmap_2, elem_of_seqZ. lia. Qed.

Lemma refs_in_cons s l g o :
  refs_in (s :: l) g o = (if decide (statics g s = Some o) then 1 else 0) + refs_in l g o.
Proof. unfold refs_in. rewrite filter_cons. case_decide; cbn [length]; lia. Qed.

Lemma refs_in_out l g s v o : s ∉ l -> refs_in l (set_static s v g) o = refs_in l g o.
Proof.
  induction l as [|s' l IH]; intros Hs; [done|]. apply not_elem_of_cons in Hs as [Hne Hs].
  rewrite !refs_in_cons, IH by done. cbn. by rewrite (decide_False (P := s = s')).
Qed.

Lemma refs_in_set l g s v o : NoDup l -> s ∈ l ->
  refs_in l (set_static s v g) o = plus 1 v (plus (-1) (statics g s) (refs_in l g)) o.
Proof.
  induction 1 as [|s' l Hs' _ IH]; intros Hs; [by apply elem_of_nil in Hs|].
  rewrite refs_in_cons. apply elem_of_cons in Hs as [->|Hs].
  - rewrite refs_in_out by done. cbn. rewrite (decide_True (P := s' = s')) by done.
    destruct v as [w|], (statics g s') as [u|] eqn:E; cbn; unfold extra;
      repeat case_decide; simplify_eq; rewrite refs_in_cons, E; repeat case_decide; simplify_eq; lia.
  - rewrite IH by done. cbn. rewrite (decide_False (P := s = s')) by (intros ->; done).
    destruct v as [w|], (statics g s) as [u|]; cbn; unfold extra; rewrite ?refs_in_cons; repeat case_decide; lia.
Qed.

Lemma refs_set g s v o : s ∈ all_statics ->
  refs (set_static s v g) o = plus 1 v (plus (-1) (statics g s) (refs g)) o.
Proof. apply refs_in_set, all_statics_NoDup. Qed.

Lemma refs_pos g s o : s ∈ all_statics -> statics g s = Some o -> 0 < refs g o.
Proof.
  intros Hs Hg. unfold refs, refs_in.
  assert (s ∈ filter (fun s => statics g s = Some o) all_statics) as Hin by by apply list_elem_of_filter.
  destruct (filter _ _); [by apply elem_of_nil in Hin|cbn; lia].
Qed.

Lemma refs_nonneg g o : 0 <= refs g o.
Proof. unfold refs, refs_in. lia. Qed.

(** ** The invariant with the statics *)
Section booting.
Context {W : Type}.
Implicit Types (k : kernel (globals * W)).

(** [X] counts the references of local variables. *)
Definition booting (X : Z -> Z) k : Prop := (forall o, 0 <= X o) /\ inv (fun o => refs (k_ext k).1 o + X o) k.

Lemma addRef_ext o k u k' : addRef o k = Ret (u, k') -> k_ext k' = k_ext k.
Proof. unfold addRef. intros H. by runs. Qed.
Lemma release_ext o k u k' : release o k = Ret (u, k') -> k_ext k' = k_ext k.
Proof. unfold release, drop_device. intros H. runs. case_match; [case_match|]; by runs. Qed.

(** An operation on references keeps the processes and the statics. *)
Record quiet k k' : Prop := { quiet_procs : same_procs k k'; quiet_ext : k_ext k' = k_ext k }.
Lemma quiet_trans k1 k2 k3 : quiet k1 k2 -> quiet k2 k3 -> quiet k1 k3.
Proof. intros [A1 B1] [A2 B2]. split; [by apply same_procs_trans with k2|congruence]. Qed.
Lemma quiet_refl k : quiet k k.
Proof. by split; [split|]. Qed.

Lemma copy_inv Y v k u k' : copy v k = Ret (u, k') -> inv Y k -> inv (plus 1 v Y) k' /\ quiet k k'.
Proof.
  intros H Hi. destruct v as [o|]; cbn in *; [|apply mret_Ret in H as [_ <-]; auto using quiet_refl].
  destruct (addRef_inv _ o k u k' H Hi) as (Hi' & Hp & Hc & Hw). split; [done|].
  split; [by split|by apply (addRef_ext o k u)].
Qed.

Lemma destroy_inv Y v k u k' : destroy v k = Ret (u, k') -> (forall o, v = Some o -> 0 < Y o) ->
  inv Y k -> inv (plus (-1) v Y) k' /\ quiet k k'.
Proof.
  intros H Hv Hi. destruct v as [o|]; cbn in *; [|apply mret_Ret in H as [_ <-]; auto using quiet_refl].
  destruct (release_inv _ o k u k' H (Hv o eq_refl) Hi) as [Hi' Hs]. split; [done|].
  split; [done|by apply (release_ext o k u)].
Qed.

Lemma plus_sum d v (A B : Z -> Z) o : plus d v (fun o => A o + B o) o = A o + plus d v B o.
Proof. destruct v; cbn; [|done]. unfold extra. case_decide; lia. Qed.

Lemma plus_pos v X o : (forall o, 0 <= X o) -> 0 <= plus 1 v X o.
Proof. intros HX. specialize (HX o). destruct v; cbn; [|done]. unfold extra. case_decide; lia. Qed.

Lemma plus_some v X o : v = Some o -> (forall o, 0 <= X o) -> 0 < plus 1 v X o.
Proof. intros -> HX. specialize (HX o). cbn. unfold extra. case_decide; [lia|done]. Qed.

Lemma copy_quiet X v k u k' : copy v k = Ret (u, k') -> booting X k -> booting (plus 1 v X) k' /\ quiet k k'.
Proof.
  intros H [HX Hi]. destruct (copy_inv _ v k u k' H Hi) as [Hi' Hq]. split; [|done].
  split; [intros o; by apply plus_pos|]. rewrite (quiet_ext _ _ Hq).
  eapply inv_ext; [|exact Hi']. intros o. apply plus_sum.
Qed.

Lemma destroy_quiet X v k u k' : destroy v k = Ret (u, k') -> booting (plus 1 v X) k -> (forall o, 0 <= X o) ->
  booting X k' /\ quiet k k'.
Proof.
  intros H [_ Hi] HX.
  assert (forall o, v = Some o -> 0 < refs (k_ext k).1 o + plus 1 v X o) as Hv.
  { intros o Hv. pose proof (refs_nonneg (k_ext k).1 o). pose proof (plus_some v X o Hv HX). lia. }
  destruct (destroy_inv _ v k u k' H Hv Hi) as [Hi' Hq].
  split; [|done]. split; [done|]. rewrite (quiet_ext _ _ Hq).
  eapply inv_ext; [|exact Hi']. intros o. by rewrite plus_sum, plus_0.
Qed.

Lemma booting_ext X Y k : (forall o, X o = Y o) -> booting X k -> booting Y k.
Proof.
  intros E [HX Hi]. split; [intros o; by rewrite <- E|]. eapply inv_ext; [|exact Hi]. intros o. cbn. by rewrite E.
Qed.

(** What an operation on the statics does to the rest of the kernel. *)
Record moves (f : globals -> globals) k k' : Prop := {
  moves_procs : same_procs k k';
  moves_ext : k_ext k' = (f (k_ext k).1, (k_ext k).2)
}.


Lemma get_globals_Ret k g k' : get_globals k = Ret (g, k') -> g = (k_ext k).1 /\ k' = k.
Proof.
  unfold get_globals. intros H. apply bind_Ret_inv in H as (k1 & k2 & H1 & H).
  apply pget_Ret in H1 as [-> ->]. by apply mret_Ret in H as [<- <-].
Qed.

Lemma put_globals_moves g k u k' : put_globals g k = Ret (u, k') -> moves (fun _ => g) k k' /\ same_shape k k'.
Proof. intros H. apply pmodify_Ret in H as ->. by split; [split; [split|]|]. Qed.

Lemma quiet_moves f k1 k2 k3 : quiet k1 k2 -> moves f k2 k3 -> moves f k1 k3.
Proof. intros [A1 B1] [A2 B2]. split; [by apply same_procs_trans with k2|by rewrite B2, B1]. Qed.
Lemma moves_quiet f k1 k2 k3 : moves f k1 k2 -> quiet k2 k3 -> moves f k1 k3.
Proof. intros [A1 B1] [A2 B2]. split; [by apply same_procs_trans with k2|by rewrite B2, B1]. Qed.
Lemma moves_trans f g k1 k2 k3 : moves f k1 k2 -> moves g k2 k3 -> moves (fun x => g (f x)) k1 k3.
Proof. intros [A1 B1] [A2 B2]. split; [by apply same_procs_trans with k2|by rewrite B2, B1]. Qed.

Lemma assign_spec X s new k u k' : assign s new k = Ret (u, k') -> s ∈ all_statics -> booting X k ->
  booting X k' /\ moves (set_static s new) k k'.
Proof.
  unfold assign. intros H Hs [HX Hi].
  apply bind_Ret_inv in H as (g & k1 & H1 & H). apply get_globals_Ret in H1 as [-> ->].
  apply bind_Ret_inv in H as (u1 & k1 & H1 & H). apply bind_Ret_inv in H as (u2 & k2 & H2 & H).
  apply put_globals_moves in H as [[Hm He] Hsh].
  set (g := (k_ext k).1) in *. set (old := statics g s) in *.
  assert (forall o, old = Some o -> 0 < refs g o + X o) as Hold.
  { intros o Ho. pose proof (refs_pos g s o Hs Ho). specialize (HX o). lia. }
  destruct (destroy_inv _ old k u1 k1 H1 Hold Hi) as [Hi1 Hq1].
  destruct (copy_inv _ new k1 u2 k2 H2 Hi1) as [Hi2 Hq2]. pose proof (quiet_trans _ _ _ Hq1 Hq2) as Hq.
  split; [split; [done|]|].
  - apply (inv_same _ k2); [done|]. eapply inv_ext; [|exact Hi2]. intros o. rewrite He. cbn.
    fold g. rewrite refs_set by done. fold old. unfold plus. destruct new, old; unfold extra; repeat case_decide; lia.
  - apply (quiet_moves _ k k2); [done|]. split; [done|]. by rewrite He, (quiet_ext _ _ Hq).
Qed.

(** ** The operations return

    [returns p k Q]: the program [p] returns, with [Q] of its result. *)
Definition returns {A} (p : prog (kernel (globals * W)) A) k (Q : A -> kernel (globals * W) -> Prop) : Prop :=
  exists a k', p k = Ret (a, k') /\ Q a k'.

Lemma returns_bind {A B} (p : prog (kernel (globals * W)) A) (f : A -> prog (kernel (globals * W)) B) k Q :
  returns p k (fun a k1 => returns (f a) k1 Q) -> returns (p ≫= f) k Q.
Proof. intros (a & k1 & H1 & b & k2 & H2 & HQ). exists b, k2. by rewrite (bind_Ret _ _ _ _ _ H1). Qed.

Lemma returns_mret {A} (a : A) k (Q : A -> kernel (globals * W) -> Prop) : Q a k -> returns (mret a) k Q.
Proof. intros HQ. by exists a, k. Qed.

Lemma returns_get_globals k (Q : globals -> kernel (globals * W) -> Prop) :
  Q (k_ext k).1 k -> returns get_globals k Q.
Proof. intros HQ. by exists (k_ext k).1, k. Qed.

Lemma returns_weaken {A} (p : prog (kernel (globals * W)) A) k (P Q : A -> kernel (globals * W) -> Prop) :
  returns p k P -> (forall a k', P a k' -> Q a k') -> returns p k Q.
Proof. intros (a & k' & H & HP) HPQ. exists a, k'. auto. Qed.

Lemma inv_present Y o k : inv Y k -> 0 < Y o -> is_Some (store k !! o).
Proof. intros Hi HY. pose proof (inv_refs Y k Hi o) as Hr. destruct (store k !! o); [done|lia]. Qed.

Lemma copy_runs v k : (forall o, v = Some o -> is_Some (store k !! o)) -> exists k', copy v k = Ret (tt, k').
Proof.
  intros Hv. destruct v as [o|]; [|by eexists]. destruct (Hv o eq_refl) as [x Hx].
  unfold copy, addRef, obj, mbind, prog_bind, pget. cbn. rewrite Hx. by eexists.
Qed.

Lemma destroy_runs v k : (forall o, v = Some o -> is_Some (store k !! o)) -> exists k', destroy v k = Ret (tt, k').
Proof.
  intros Hv. destruct v as [o|]; [|by eexists]. destruct (Hv o eq_refl) as [x Hx].
  unfold destroy, release, obj, mbind, prog_bind, pget. cbn. rewrite Hx. cbn.
  destruct (o_ref x - 1 =? 0); [destruct (o_pending x)|]; by eexists.
Qed.

(** The object of [v] is held by a local variable. *)
Definition held (X : Z -> Z) (v : option Z) : Prop := forall o, v = Some o -> 0 < X o.

Lemma copy_spec X v k : booting X k -> held X v ->
  returns (copy v) k (fun _ k' => booting (plus 1 v X) k' /\ quiet k k').
Proof.
  intros Hb Hv. destruct (copy_runs v k) as [k' H].
  - intros o Ho. eapply inv_present; [exact (proj2 Hb)|]. pose proof (refs_nonneg (k_ext k).1 o).
    specialize (Hv o Ho). cbn. lia.
  - exists tt, k'. split; [done|]. by apply (copy_quiet X v k tt).
Qed.

Lemma destroy_spec X v k : booting (plus 1 v X) k -> (forall o, 0 <= X o) ->
  returns (destroy v) k (fun _ k' => booting X k' /\ quiet k k').
Proof.
  intros Hb HX. destruct (destroy_runs v k) as [k' H].
  - intros o Ho. eapply inv_present; [exact (proj2 Hb)|]. pose proof (refs_nonneg (k_ext k).1 o).
    pose proof (plus_some v X o Ho HX). cbn. lia.
  - exists tt, k'. split; [done|]. by apply (destroy_quiet X v k tt).
Qed.

Lemma assign_runs X s new k : s ∈ all_statics -> booting X k -> held X new ->
  returns (assign s new) k (fun _ k' => booting X k' /\ moves (set_static s new) k k').
Proof.
  intros Hs Hb Hv. enough (exists k', assign s new k = Ret (tt, k')) as [k' H].
  { exists tt, k'. split; [done|]. by apply (assign_spec X s new k tt). }
  destruct Hb as [HX Hi]. set (g := (k_ext k).1) in *.
  assert (forall o, statics g s = Some o -> 0 < refs g o + X o) as Hold.
  { intros o Ho. pose proof (refs_pos g s o Hs Ho). specialize (HX o). lia. }
  destruct (destroy_runs (statics g s) k) as [k1 H1].
  { intros o Ho. eapply inv_present; [exact Hi|]. by apply Hold. }
  destruct (destroy_inv _ (statics g s) k tt k1 H1 Hold Hi) as [Hi1 Hq1].
  destruct (copy_runs new k1) as [k2 H2].
  { intros o Ho. eapply inv_present; [exact Hi1|]. specialize (Hv o Ho). pose proof (refs_nonneg g o).
    destruct (statics g s) as [u|] eqn:E; cbn; unfold extra; [case_decide as E'; [subst u|]|]; try lia.
    pose proof (refs_pos g s o Hs E). lia. }
  eexists. unfold assign, get_globals. rewrite bind_assoc, pget_bind, mret_bind.
  fold g. rewrite (bind_Ret _ _ _ _ _ H1), (bind_Ret _ _ _ _ _ H2). reflexivity.
Qed.

(** ** The named devices *)
Definition removed (path : list Z) (g : globals) : globals :=
  match special_find path g with
  | Some i => set_static (SpecialObj (Z.of_nat i)) None (set_name i [] g)
  | None => g
  end.
Definition registered (path : list Z) (v : option Z) (g : globals) : globals :=
  match special_free (removed path g) with
  | Some i => set_static (SpecialObj (Z.of_nat i)) v (set_name i (take 15 path) (removed path g))
  | None => removed path g
  end.

Definition all_names (g : globals) : Prop := Z.of_nat (length (special_names g)) = MAX_SPECIAL_PATH_NUM.

Lemma find_static {P : list Z -> Prop} `{!forall n, Decision (P n)} g i :
  all_names g -> fst <$> list_find P (special_names g) = Some i -> SpecialObj (Z.of_nat i) ∈ all_statics.
Proof.
  intros Hg Hfind. apply fmap_Some in Hfind as ([j n] & Hf & ->). apply list_find_Some in Hf as [Hj _].
  apply lookup_lt_Some in Hj. apply special_static. cbn. unfold all_names in Hg. lia.
Qed.

Lemma removed_names path g : all_names g -> all_names (removed path g).
Proof. unfold all_names, removed. destruct (special_find path g); cbn; by rewrite ?length_insert. Qed.

(** Setting a name and the object that goes with it. *)
Lemma rename_spec X i n v k : all_names (k_ext k).1 -> SpecialObj (Z.of_nat i) ∈ all_statics -> held X v ->
  booting X k ->
  returns (put_globals (set_name i n (k_ext k).1);; assign (SpecialObj (Z.of_nat i)) v;; mret 0) k
    (fun r k' => r = 0 /\ booting X k' /\
      moves (fun g => set_static (SpecialObj (Z.of_nat i)) v (set_name i n g)) k k').
Proof.
  intros Hg Hi Hv [HX Hb]. apply returns_bind. eexists tt, _. split; [reflexivity|].
  set (k1 := set_world _ k). assert (booting X k1) as Hb1.
  { split; [done|]. apply inv_same with k; [by split|]. exact Hb. }
  apply returns_bind. eapply returns_weaken; [by apply (assign_runs X)|]. intros u k2 [Hb2 [Hp He]].
  apply returns_mret. split; [done|]. split; [done|]. split; [split; apply Hp|done].
Qed.

Lemma special_removeObject_spec X path k : all_names (k_ext k).1 -> booting X k ->
  returns (special_removeObject path) k (fun r k' => booting X k' /\ moves (removed path) k k').
Proof.
  intros Hg Hb. unfold special_removeObject. apply returns_bind, returns_get_globals.
  destruct (special_find path (k_ext k).1) as [i|] eqn:Ef.
  - eapply returns_weaken; [apply (rename_spec X); [done|by eapply find_static|done|done]|].
    intros r k' (_ & Hb' & [Hp He]). split; [done|]. split; [done|]. unfold removed. by rewrite Ef.
  - apply returns_mret. split; [done|]. split; [by split|]. unfold removed. rewrite Ef. by destruct (k_ext k).
Qed.

Lemma registerObject_spec X path v k : all_names (k_ext k).1 -> held X v -> booting X k ->
  returns (registerObject path v) k (fun r k' => booting X k' /\ moves (registered path v) k k' /\
    r = if special_free (removed path (k_ext k).1) is Some _ then 0 else ENOSPC).
Proof.
  intros Hg Hv Hb. pose proof (proj1 Hb) as HX. unfold registerObject.
  apply returns_bind. eapply returns_weaken; [by apply (copy_spec X)|]. intros u1 k1 [Hb1 Hq1].
  pose proof (quiet_ext _ _ Hq1) as He1.
  apply returns_bind. eapply returns_weaken; [apply (special_removeObject_spec (plus 1 v X) path k1); [by rewrite He1|done]|].
  intros r1 k2 [Hb2 Hm2]. pose proof (moves_ext _ _ _ Hm2) as He2. rewrite He1 in He2.
  apply returns_bind, returns_get_globals. rewrite He2. cbn [fst].
  set (g := removed path (k_ext k).1) in *. assert (all_names g) as Hg2 by by apply removed_names.
  apply returns_bind. eapply (returns_weaken _ _ (fun r k3 => booting (plus 1 v X) k3 /\
    moves (registered path v) k k3 /\ r = if special_free g is Some _ then 0 else ENOSPC)).
  - destruct (special_free g) as [i|] eqn:Ef.
    + pose proof (rename_spec (plus 1 v X) i (take 15 path) v k2) as Hr. rewrite He2 in Hr. cbn [fst] in Hr.
      eapply returns_weaken; [apply Hr; [done|by eapply find_static| |done]|].
      { intros o Ho. by apply plus_some. }
      intros r k3 (-> & Hb3 & Hm3). split; [done|]. split; [|done].
      split; [eapply same_procs_trans; [apply Hq1|]; eapply same_procs_trans; [apply Hm2|apply Hm3]|].
      rewrite (moves_ext _ _ _ Hm3), He2. cbn. unfold registered. fold g. by rewrite Ef.
    + apply returns_mret. split; [done|]. split; [|done].
      split; [eapply same_procs_trans; [apply Hq1|apply Hm2]|]. unfold registered. fold g. rewrite Ef. done.
  - intros r k3 (Hb3 & Hm3 & Hr). apply returns_bind.
    eapply returns_weaken; [by apply (destroy_spec X)|]. intros u4 k4 [Hb4 Hq4]. apply returns_mret.
    split; [done|]. split; [|done]. by apply (moves_quiet _ k k3).
Qed.

(** ** The default devices *)
Lemma set_default_spec X s device k : s ∈ all_statics -> held X device -> booting X k ->
  returns (set_default s device) k (fun r k' => r = statics (k_ext k).1 s /\
    booting (plus 1 r X) k' /\ moves (set_static s device) k k').
Proof.
  intros Hs Hv Hb. pose proof (proj1 Hb) as HX. unfold set_default.
  apply returns_bind. eapply returns_weaken; [by apply (copy_spec X)|]. intros u1 k1 [Hb1 Hq1].
  pose proof (quiet_ext _ _ Hq1) as He1.
  apply returns_bind, returns_get_globals. rewrite He1. set (ret := statics (k_ext k).1 s).
  apply returns_bind. destruct (copy_runs ret k1) as [k2 H2].
  { intros o Ho. eapply inv_present; [exact (proj2 Hb1)|]. rewrite He1.
    pose proof (refs_pos _ s o Hs Ho). pose proof (plus_pos device X o HX). cbn. lia. }
  exists tt, k2. split; [done|]. destruct (copy_quiet _ ret k1 tt k2 H2 Hb1) as [Hb2 Hq2].
  apply returns_bind. eapply returns_weaken; [apply (assign_runs _ s device k2 Hs Hb2)|].
  { intros o Ho. pose proof (plus_some device X o Ho HX). unfold plus at 1. destruct ret; [|done].
    unfold extra. case_decide; lia. }
  intros u3 k3 [Hb3 Hm3]. apply returns_bind. eapply returns_weaken; [apply (destroy_spec (plus 1 ret X) device k3)|].
  { eapply booting_ext; [|exact Hb3]. intros o. unfold plus, extra. destruct ret, device; repeat case_decide; lia. }
  { intros o. by apply plus_pos. }
  intros u4 k4 [Hb4 Hq4]. apply returns_mret. split; [done|]. split; [done|].
  apply (moves_quiet _ k k3); [|done]. apply (quiet_moves _ k k2); [|done]. by apply quiet_trans with k1.
Qed.
End booting.

(** ** The table of the names *)

(** Names are compared without regard to case. *)
Lemma same_name_iff a b : same_name a b = true <-> map Ctype.tolower a = map Ctype.tolower b.
Proof. unfold same_name. apply bool_decide_eq_true. Qed.

Lemma same_name_sym a b : same_name a b = same_name b a.
Proof. unfold same_name. apply bool_decide_ext. split; congruence. Qed.

Lemma same_name_nil a : same_name a [] = true <-> a = [].
Proof. rewrite same_name_iff. destruct a; cbn; naive_solver. Qed.

Record names_ok (g : globals) : Prop := {
  ok_length : all_names g;
  ok_short : forall i n, special_names g !! i = Some n -> (length n <= 15)%nat;
  ok_distinct : forall i j a b, special_names g !! i = Some a -> special_names g !! j = Some b ->
    a <> [] -> same_name a b = true -> i = j;
  ok_free : forall i, special_names g !! i = Some [] -> statics g (SpecialObj (Z.of_nat i)) = None
}.

Lemma special_find_iff g n i : names_ok g -> n <> [] ->
  special_find n g = Some i <-> exists a, special_names g !! i = Some a /\ same_name a n = true.
Proof.
  intros Hg Hn. unfold special_find. rewrite fmap_Some. split.
  - intros ([j a] & Hf & ->). apply list_find_Some in Hf as (Hj & Ha & _). eauto.
  - intros (a & Ha & Hs). destruct (list_find (fun x => same_name x n = true) (special_names g)) as [[j b]|] eqn:Hf.
    + apply list_find_Some in Hf as (Hj & Hb & _). exists (j, b). split; [done|]. cbn.
      apply (ok_distinct g Hg i j a b); [done|done| |].
      * intros ->. rewrite same_name_sym, same_name_nil in Hs. done.
      * rewrite same_name_iff in *. congruence.
    + apply list_find_None in Hf. rewrite list.Forall_forall in Hf. destruct (Hf a); [|done].
      by apply list_elem_of_lookup_2 with i.
Qed.

Lemma special_free_Some g i : special_free g = Some i -> special_names g !! i = Some [].
Proof.
  unfold special_free. rewrite fmap_Some. intros ([j a] & Hf & ->).
  by apply list_find_Some in Hf as (Hj & -> & _).
Qed.

(** Renaming a free slot, or freeing one. *)
Lemma names_ok_rename g i old n v : names_ok g -> special_names g !! i = Some old -> (length n <= 15)%nat ->
  (n = [] -> v = None) ->
  (forall j b, special_names g !! j = Some b -> n <> [] -> same_name n b = true -> i = j) ->
  names_ok (set_static (SpecialObj (Z.of_nat i)) v (set_name i n g)).
Proof.
  intros [Hl Hs Hd Hf] Hi Hn Hv Hfresh. split; unfold all_names in *; cbn.
  - by rewrite length_insert.
  - intros j a. rewrite list_lookup_insert_Some. intros [(_ & <- & _)|[_ Hj]]; eauto.
  - intros j1 j2 a b. rewrite !list_lookup_insert_Some.
    intros [(<- & <- & _)|[Hne1 H1]] [(<- & <- & _)|[Hne2 H2]] Ha Hab; [done| | |by eapply Hd].
    + by apply (Hfresh j2 b).
    + symmetry. apply (Hfresh j1 a); [done| |by rewrite same_name_sym]. intros ->. by apply same_name_nil in Hab.
  - intros j. rewrite list_lookup_insert_Some. intros [(<- & -> & _)|[Hne H]].
    + rewrite decide_True by done. auto.
    + rewrite decide_False by (intros [=]; lia). auto.
Qed.

Lemma removed_ok path g : names_ok g -> names_ok (removed path g).
Proof.
  intros Hg. unfold removed. destruct (special_find path g) as [i|] eqn:Ef; [|done].
  unfold special_find in Ef. apply fmap_Some in Ef as ([j a] & Hf & ->). apply list_find_Some in Hf as (Hj & _ & _).
  apply (names_ok_rename g j a); [done|done|cbn; lia|done|done].
Qed.

Lemma removed_absent path g j b : names_ok g -> path <> [] ->
  special_names (removed path g) !! j = Some b -> same_name path b = false.
Proof.
  intros Hg Hp Hb. apply not_true_iff_false. intros Hs. unfold removed in Hb.
  destruct (special_find path g) as [i|] eqn:Ef.
  - cbn in Hb. apply list_lookup_insert_Some in Hb as [(_ & <- & _)|[Hne Hb]]; [by apply same_name_nil in Hs|].
    assert (special_find path g = Some j) as E by (apply special_find_iff; [done|done|]; rewrite same_name_sym in Hs; eauto).
    congruence.
  - enough (special_find path g = Some j) by congruence.
    apply special_find_iff; [done|done|]. rewrite same_name_sym in Hs. eauto.
Qed.

Lemma get_removed path g n : names_ok g -> path <> [] -> n <> [] ->
  special_path_get n (removed path g) = if same_name path n then None else special_path_get n g.
Proof.
  intros Hg Hp Hn. pose proof (removed_ok path g Hg) as Hg'. unfold special_path_get.
  destruct (same_name path n) eqn:Hs.
  - destruct (special_find n (removed path g)) as [i|] eqn:Ef; [|done].
    apply special_find_iff in Ef as (a & Ha & Hsa); [|done..].
    pose proof (removed_absent path g i a Hg Hp Ha) as Hna. rewrite <- not_true_iff_false in Hna.
    rewrite same_name_iff in *. congruence.
  - assert (special_find n (removed path g) = special_find n g) as E.
    { apply option_eq. intros i. rewrite !special_find_iff by done. unfold removed.
      destruct (special_find path g) as [r|] eqn:Er; [|done]. apply special_find_iff in Er as (c & Hc & Hsc); [|done..].
      cbn. setoid_rewrite list_lookup_insert_Some. split.
      - intros (a & [(<- & <- & _)|[_ Ha]] & Hsa); [|eauto]. rewrite same_name_sym in Hsa. by apply same_name_nil in Hsa.
      - intros (a & Ha & Hsa). exists a. split; [right; split; [|done]|done]. intros ->.
        assert (a = c) as -> by congruence. rewrite <- not_true_iff_false, same_name_iff in *. congruence. }
    rewrite E. destruct (special_find n g) as [i|] eqn:Ei; [|done]. apply special_find_iff in Ei as (a & Ha & Hsa); [|done..].
    unfold removed. destruct (special_find path g) as [r|] eqn:Er; [|done].
    apply special_find_iff in Er as (c & Hc & Hsc); [|done..]. cbn. rewrite decide_False; [done|].
    intros [= E']. assert (r = i) as -> by lia. assert (a = c) as -> by congruence.
    rewrite <- not_true_iff_false, same_name_iff in *. congruence.
Qed.

Lemma get_added path v g n i : names_ok g -> (forall j b, special_names g !! j = Some b -> same_name path b = false) ->
  path <> [] -> (length path <= 15)%nat -> n <> [] -> special_names g !! i = Some [] ->
  let g' := set_static (SpecialObj (Z.of_nat i)) v (set_name i (take 15 path) g) in
  names_ok g' /\ special_path_get n g' = if same_name path n then v else special_path_get n g.
Proof.
  intros Hg Hnew Hp Hlen Hn Hi g'. assert (take 15 path = path) as Et by (apply take_ge; lia).
  assert (names_ok g') as Hg'.
  { unfold g'. rewrite Et. apply (names_ok_rename g i []); try done.
    intros j b Hb _ Hs. rewrite (Hnew j b Hb) in Hs. done. }
  split; [done|]. pose proof (lookup_lt_Some _ _ _ Hi) as Hlt. unfold special_path_get. destruct (same_name path n) eqn:Hs.
  - assert (special_find n g' = Some i) as ->.
    { apply special_find_iff; [done|done|]. exists path. unfold g'. rewrite Et. cbn. by rewrite list_lookup_insert_eq. }
    unfold g'. cbn. by rewrite decide_True.
  - assert (special_find n g' = special_find n g) as ->.
    { apply option_eq. intros j. rewrite !special_find_iff by done. unfold g'. rewrite Et. cbn.
      setoid_rewrite list_lookup_insert_Some. split.
      - intros (a & [(<- & <- & _)|[_ Ha]] & Hsa); [congruence|eauto].
      - intros (a & Ha & Hsa). exists a. split; [right; split; [|done]|done]. intros ->.
        assert (a = []) as -> by congruence. rewrite same_name_sym in Hsa. by apply same_name_nil in Hsa. }
    destruct (special_find n g) as [j|] eqn:Ej; [|done]. apply special_find_iff in Ej as (a & Ha & Hsa); [|done..].
    unfold g'. cbn. rewrite decide_False; [done|]. intros [= E']. assert (j = i) as -> by lia.
    assert (a = []) as -> by congruence. rewrite same_name_sym in Hsa. by apply same_name_nil in Hsa.
Qed.

(** ** The start: no objects and no processes *)
Section blank.
Context {W : Type}.

Record blank (k : kernel (globals * W)) : Prop := {
  blank_processes : process_list k = ∅;
  blank_store : store k = ∅;
  blank_devices : devices k = ∅;
  blank_globals : (k_ext k).1 = no_globals
}.

Lemma refs_none o : refs no_globals o = 0.
Proof. reflexivity. Qed.

Lemma blank_booting k : blank k -> booting (fun _ => 0) k.
Proof.
  intros [Hp Hs Hd Hg]. split; [done|]. rewrite Hg.
  assert (forall pid o, ~ waits k pid o) as Hw by (intros pid o (x & l & H & _); by rewrite Hs in H).
  split; rewrite ?Hp, ?Hd; try done.
  - intros o. rewrite Hs, lookup_empty, refs_none. done.
  - intros o x. by rewrite Hs.
  - intros o x l. by rewrite Hs.
  - intros pid o H. by apply Hw in H.
  - intros pid o o' H. by apply Hw in H.
  - intros o x l. by rewrite Hs.
Qed.

Lemma no_globals_ok : names_ok no_globals.
Proof.
  split; [done|..]; cbn [special_names no_globals].
  - intros i n Hi. apply lookup_replicate in Hi as [-> _]. cbn. lia.
  - intros i j a b Hi _ Ha. by apply lookup_replicate in Hi as [-> _].
  - done.
Qed.
End blank.

(** *** The property *)
Section theorem.
Context {W : Type}.

(** C22: registerObject() of a name of at most 15 characters replaces what the
    name stood for, or takes a free slot, and keeps every other name; it fails
    only when the name is new and all slots are taken.  The counts of the
    objects stay the number of the references. *)
Theorem registerObject_correct X path o (k : kernel (globals * W)) :
  names_ok (k_ext k).1 -> booting X k -> 0 < X o -> path <> [] -> (length path <= 15)%nat ->
  returns (registerObject path (Some o)) k (fun r k' =>
    names_ok (k_ext k').1 /\ booting X k' /\ same_procs k k' /\
    (r = 0 -> forall n, n <> [] -> special_path_get n (k_ext k').1 =
       if same_name path n then Some o else special_path_get n (k_ext k).1) /\
    (r <> 0 -> r = ENOSPC /\ special_free (k_ext k).1 = None /\ special_find path (k_ext k).1 = None /\
       k_ext k' = k_ext k)).
Proof.
  intros Hg Hb Ho Hp Hlen.
  assert (held X (Some o)) as Hh by by intros o' [= <-].
  eapply returns_weaken; [apply (registerObject_spec X); [apply Hg|done|done]|].
  intros r k' (Hb' & [Hpr He] & ->). rewrite He. cbn [fst]. set (g := (k_ext k).1) in *.
  pose proof (removed_ok path g Hg) as Hg1. unfold registered.
  destruct (special_free (removed path g)) as [i|] eqn:Ef.
  - apply special_free_Some in Ef.
    assert (forall j b, special_names (removed path g) !! j = Some b -> same_name path b = false) as Hnew.
    { intros j b. by apply removed_absent. }
    destruct (get_added path (Some o) (removed path g) path i Hg1 Hnew Hp Hlen Hp Ef) as [Hok _].
    split; [done|]. split; [done|]. split; [done|]. split; [|done]. intros _ n Hn.
    destruct (get_added path (Some o) (removed path g) n i Hg1 Hnew Hp Hlen Hn Ef) as [_ ->].
    destruct (same_name path n) eqn:Hs; [done|]. rewrite get_removed by done. by rewrite Hs.
  - split; [done|]. split; [done|]. split; [done|]. split; [done|]. intros _. split; [done|].
    unfold removed in *. destruct (special_find path g) as [r|] eqn:Er; [|by destruct (k_ext k)].
    apply special_find_iff in Er as (a & Ha & _); [|done..].
    unfold special_free in Ef. apply fmap_None, list_find_None in Ef. rewrite list.Forall_forall in Ef.
    destruct (Ef []); [|done]. apply list_elem_of_lookup_2 with r. cbn. apply list_lookup_insert_eq.
    by apply lookup_lt_Some in Ha.
Qed.
End theorem.

(** The name [:CON] for the only object of a kernel. *)
Definition special_example : kernel (globals * unit) :=
  Kernel ∅ (no_globals, tt) 0 ∅ ∅ 0 ∅ ∅ ∅ ∅ 0 0 tss_zero.

Lemma registerObject_correct_witness : exists k' k'',
  new_object (BExt 7) None special_example = Ret (0, k') /\
  registerObject (chars ":CON") (Some 0) k' = Ret (0, k'') /\
  special_path_get (chars ":con") (k_ext k'').1 = Some 0.
Proof.
  destruct (new_object (BExt 7) None special_example) as [[o k']| | |] eqn:E; try (vm_compute in E; discriminate).
  assert (booting (fun _ => 0) special_example) as [_ Hi] by by apply blank_booting.
  destruct (new_object_inv _ _ _ _ _ E Hi) as (Ho & Hi' & _).
  assert (k_ext k' = (no_globals, tt)) as Hext by (injection E as _ <-; reflexivity).
  assert (booting (extra 1 0 (fun _ => 0)) k') as Hb.
  { split; [intros x; unfold extra; by case_decide|]. rewrite Hext. eapply inv_ext; [|exact Hi'].
    intros x. cbn. subst o. cbn. unfold extra. case_decide; lia. }
  destruct (registerObject_correct (extra 1 0 (fun _ => 0)) (chars ":CON") 0 k') as (r & k'' & Hr & _ & _ & _ & H0 & H1).
  - rewrite Hext. apply no_globals_ok.
  - exact Hb.
  - done.
  - done.
  - vm_compute. lia.
  - assert (r = 0) as ->.
    { destruct (decide (r = 0)) as [|Hne]; [done|]. destruct (H1 Hne) as (_ & Hf & _). by rewrite Hext in Hf. }
    exists k', k''. subst o. split; [done|]. split; [exact Hr|]. rewrite (H0 eq_refl); [|done]. reflexivity.
Defined.
