(* ===== verification/Cmdline.v ===== *)
(** * Cmdline: parse_cmdline of src/src/main.cpp

    The kernel's command line is cut in place into the words between its
    spaces: the path of the first program is the last word, or, when a word
    [--] precedes it, the word before the [--] and the words after it are its
    arguments. *)
From S2P Require Import Prelude Mem CString Strtok UserLib.

(** kernel_cmdline has 512 bytes: no loop makes more turns. *)
Definition cmdline_fuel : nat := 512.

Section parse.
(** The address of the literal ["--"]. *)
Variable dashes : Z.

(** [while ( *p && *p == ' ') *(p++) = 0] *)
Fixpoint blank_spaces (fuel : nat) (p : Z) : prog mem Z :=
  match fuel with
  | O => pnofuel
  | S fuel => c ← load8 p; if c =? 32 then store8 p 0;; blank_spaces fuel (p + 1) else mret p
  end.

(** [while ( *now_end && *now_end != ' ') now_end++] *)
Fixpoint find_word_end (fuel : nat) (p : Z) : prog mem Z :=
  match fuel with
  | O => pnofuel
  | S fuel => c ← load8 p; if (c =? 0) || (c =? 32) then mret p else find_word_end fuel (p + 1)
  end.

(** The variables [begin_args], [init_path] and [now_arg_ind]. *)
Record cmd_state := CmdState { begin_args : bool; cmd_init_path : Z; now_arg_ind : Z }.

(** [args[now_arg_ind++] = v] *)
Definition push_arg (args v : Z) (st : cmd_state) : prog mem cmd_state :=
  store32 (args + 4 * now_arg_ind st) v;;
  mret (CmdState (begin_args st) (cmd_init_path st) (now_arg_ind st + 1)).

Definition take_word (args now_start : Z) (st : cmd_state) : prog mem cmd_state :=
  d ← (if begin_args st then mret 1 else strcmp now_start dashes);
  if d =? 0 then push_arg args (cmd_init_path st) (CmdState true (cmd_init_path st) (now_arg_ind st))
  else if begin_args st then
    if now_arg_ind st <? PROCESS_MAX_ARGUMENTS then push_arg args now_start st else mret st
  else mret (CmdState false now_start (now_arg_ind st)).

(** The loop; the condition [!begin_args && !strcmp(now_start, "--")]. *)
Fixpoint cmd_loop (fuel : nat) (args now_start : Z) (st : cmd_state) : prog mem cmd_state :=
  match fuel with
  | O => pnofuel
  | S fuel =>
      now_end ← find_word_end cmdline_fuel now_start;
      c ← load8 now_end;
      if c =? 0 then take_word args now_start st
      else
        next ← blank_spaces cmdline_fuel now_end;
        st ← take_word args now_start st;
        c ← load8 next;
        if c =? 0 then mret st else cmd_loop fuel args next st
  end.

(** The result is [init_path], an out parameter of the source. *)
Definition parse_cmdline (cmdline init_path args : Z) : prog mem Z :=
  now_start ← blank_spaces cmdline_fuel cmdline;
  st ← cmd_loop cmdline_fuel args now_start (CmdState false init_path 0);
  st ← (if begin_args st then mret st else push_arg args (cmd_init_path st) st);
  mret (cmd_init_path st).
End parse.

(** ** The words of a line *)
Fixpoint skip_spaces (l : list Z) : list Z :=
  match l with c :: l' => if c =? 32 then skip_spaces l' else l | [] => [] end.

Fixpoint span_word (l : list Z) : list Z * list Z :=
  match l with
  | c :: l' => if c =? 32 then ([], l) else let '(w, r) := span_word l' in (c :: w, r)
  | [] => ([], [])
  end.

(** The words of [l], which lies at [p] and starts with one, with their places. *)
Fixpoint words_at (fuel : nat) (p : Z) (l : list Z) : list (Z * list Z) :=
  match fuel with
  | O => []
  | S fuel =>
      let '(w, r) := span_word l in
      (p, w) ::
      match skip_spaces r with
      | [] => []
      | r' => words_at fuel (p + Z.of_nat (length l - length r')) r'
      end
  end.

(** A line without a word has the empty word at its end. *)
Definition cmd_words (p : Z) (s : list Z) : list (Z * list Z) :=
  let s' := skip_spaces s in
  words_at (S (length s)) (p + Z.of_nat (length s - length s')) s'.

(** The state after a word: whether [--] was seen, the path, the arguments. *)
Definition spec_word (st : bool * Z * list Z) (pw : Z * list Z) : bool * Z * list Z :=
  let '(b, ip, l) := st in
  if b : bool then (b, ip, if Z.of_nat (length l) <? PROCESS_MAX_ARGUMENTS then l ++ [pw.1] else l)
  else if decide (pw.2 = chars "--") then (true, ip, l ++ [ip])
  else (false, pw.1, l).
Definition spec_cmd (ws : list (Z * list Z)) (default : Z) : Z * list Z :=
  let '(b, ip, l) := foldl spec_word (false, default, []) ws in
  (ip, if b : bool then l else l ++ [ip]).

Lemma skip_spaces_spec l : exists k, l = replicate k 32 ++ skip_spaces l /\ hd 0 (skip_spaces l) <> 32.
Proof.
  induction l as [|c l (k & E & Hh)]; [by exists 0%nat|]. cbn. destruct (Z.eqb_spec c 32) as [->|Hc].
  - exists (S k). cbn. by rewrite <- E.
  - by exists 0%nat.
Qed.

Lemma span_word_spec l : l = (span_word l).1 ++ (span_word l).2 /\ Forall (fun c => c <> 32) (span_word l).1 /\
  ((span_word l).2 = [] \/ hd 0 (span_word l).2 = 32).
Proof.
  induction l as [|c l (E & Hw & Hr)]; [by repeat constructor; left|]. cbn. destruct (Z.eqb_spec c 32) as [->|Hc].
  - split; [done|]. split; [constructor|]. by right.
  - destruct (span_word l) as [w r]. cbn in *. split; [by rewrite <- E|]. split; [by constructor|done].
Qed.

(** ** The loops *)
Definition cut (l : list Z) : list Z := map (fun c => if c =? 32 then 0 else c) l.

Lemma cut_app l1 l2 : cut (l1 ++ l2) = cut l1 ++ cut l2.
Proof. apply map_app. Qed.
Lemma cut_word w : Forall (fun c => c <> 32) w -> cut w = w.
Proof. unfold cut. induction 1 as [|c w Hc _ IH]; [done|]. cbn. rewrite IH. by destruct (Z.eqb_spec c 32). Qed.
Lemma cut_spaces k : cut (replicate k 32) = replicate k 0.
Proof. unfold cut. induction k as [|k IH]; [done|]. cbn. by rewrite IH. Qed.

Lemma blank_spaces_spec k fuel p r m :
  bytes_at m p (replicate k 32 ++ r ++ [0]) -> hd 0 r <> 32 -> (k < fuel)%nat ->
  blank_spaces fuel p m = Ret (p + Z.of_nat k, write_bytes m p (replicate k 0)).
Proof.
  revert fuel p m. induction k as [|k IH]; intros [|fuel] p m Hm Hr Hf; try lia; cbn [blank_spaces].
  - destruct r as [|c r]; cbn in Hm; destruct Hm as [Hc _]; mem_step; cbn in Hr.
    + cbn. ret_lia.
    + destruct (Z.eqb_spec c 32); [done|]. ret_lia.
  - cbn in Hm. destruct Hm as [Hc Hm]. mem_step. cbn. rewrite (bind_Ret _ _ _ _ _ (store8_at m p 0 (mk_is_Some _ _ Hc))).
    change (u8 0) with 0. rewrite IH; [|change (<[p := 0]> m) with (write_bytes m p [0]); apply bytes_at_write_out; [cbn; lia|done]|done|lia].
    replace (p + 1 + Z.of_nat k) with (p + Z.of_nat (S k)) by lia. done.
Qed.

Lemma find_word_end_spec w r fuel p m :
  bytes_at m p (w ++ r ++ [0]) -> Forall is_char w -> Forall (fun c => c <> 32) w -> (r = [] \/ hd 0 r = 32) ->
  (length w < fuel)%nat ->
  find_word_end fuel p m = Ret (p + Z.of_nat (length w), m).
Proof.
  revert fuel p. induction w as [|c w IH]; intros [|fuel] p Hm Hc Hw Hr Hf; cbn in Hf; try lia; cbn [find_word_end].
  - assert (exists c, m !! p = Some c /\ (c =? 0) || (c =? 32) = true) as (c & H1 & H2).
    { destruct Hr as [->|Hr]; [exists 0; cbn in Hm; tauto|]. destruct r as [|c r]; cbn in Hr; [done|]. exists c.
      cbn in Hm. subst. tauto. }
    mem_step. rewrite H2. cbn. ret_lia.
  - cbn in Hm. destruct Hm as [H1 Hm]. mem_step. apply list.Forall_cons in Hc as [Hc0 Hc], Hw as [Hw0 Hw].
    unfold is_char in Hc0. destruct (Z.eqb_spec c 0); [lia|]. destruct (Z.eqb_spec c 32); [done|]. cbn [orb].
    rewrite IH by (done || lia). by replace (p + 1 + Z.of_nat (length w)) with (p + Z.of_nat (length (c :: w))) by (cbn; lia).
Qed.

(** After a word and the spaces that follow it. *)
Lemma take_split (s : list Z) n w k r : (n <= length s)%nat -> drop n s = w ++ replicate k 32 ++ r ->
  take (n + length w + k) s = take n s ++ w ++ replicate k 32 /\ drop (n + length w + k) s = r.
Proof.
  intros Hn E. assert (s = (take n s ++ w ++ replicate k 32) ++ r) as Es.
  { rewrite <- (take_drop n s) at 1. rewrite E, !app_assoc. done. }
  assert (length (take n s ++ w ++ replicate k 32) = (n + length w + k)%nat) as El.
  { rewrite !length_app, length_take, length_replicate. lia. }
  split; [rewrite Es at 1; by rewrite take_app_length'|rewrite Es at 1; by rewrite drop_app_length'].
Qed.

(** ** The words in the line *)
Lemma words_at_in fuel p l q w : (q, w) ∈ words_at fuel p l ->
  exists pre r, l = pre ++ w ++ r /\ q = p + Z.of_nat (length pre) /\ Forall (fun c => c <> 32) w /\
    (r = [] \/ hd 0 r = 32).
Proof.
  revert p l. induction fuel as [|fuel IH]; intros p l Hin; [by apply elem_of_nil in Hin|]. cbn [words_at] in Hin.
  destruct (span_word_spec l) as (E & Hw & Hr). destruct (span_word l) as [w0 r0]. cbn [fst snd] in *.
  apply elem_of_cons in Hin as [[= -> ->]|Hin]; [exists [], r0; split; [done|split; [cbn; lia|done]]|].
  destruct (skip_spaces_spec r0) as (k & Er & _). destruct (skip_spaces r0) as [|c r'] eqn:Es; [by apply elem_of_nil in Hin|].
  apply IH in Hin as (pre & r & E' & -> & Hw' & Hr').
  exists (w0 ++ replicate k 32 ++ pre), r. split; [rewrite E, Er, E', !app_assoc; done|]. split; [|done].
  rewrite E at 1. rewrite !length_app, Er, length_app. lia.
Qed.

Lemma cmd_words_in p s q w : (q, w) ∈ cmd_words p s ->
  exists pre r, s = pre ++ w ++ r /\ q = p + Z.of_nat (length pre) /\ Forall (fun c => c <> 32) w /\
    (r = [] \/ hd 0 r = 32).
Proof.
  unfold cmd_words. intros Hin. destruct (skip_spaces_spec s) as (k & E & _).
  apply words_at_in in Hin as (pre & r & E' & -> & Hw & Hr). exists (replicate k 32 ++ pre), r.
  split; [rewrite E, E', !app_assoc; done|]. split; [|done]. rewrite E at 1. rewrite !length_app. lia.
Qed.

(** A word of the cut line is a C string. *)
Lemma cut_word_string m a s q w : Forall is_char s -> bytes_at m a (cut s ++ [0]) -> (q, w) ∈ cmd_words a s ->
  cstr_at m q w.
Proof.
  intros Hs Hm Hin. apply cmd_words_in in Hin as (pre & r & -> & -> & Hw & Hr).
  apply list.Forall_app in Hs as [_ Hs]. apply list.Forall_app in Hs as [Hs _]. split; [done|].
  rewrite !cut_app, (cut_word w Hw), <- !app_assoc in Hm. apply bytes_at_app in Hm as [_ Hm].
  unfold cut in Hm at 1. rewrite length_map in Hm. rewrite app_assoc in Hm.
  destruct Hr as [->|Hr]; [by rewrite app_nil_r in Hm|]. destruct r as [|c r]; [done|]. cbn in Hr. subst c.
  rewrite <- app_assoc in Hm. apply bytes_at_app in Hm as [H1 H2]. apply bytes_at_app. split; [done|].
  cbn in H2. by destruct H2 as [H2 _].
Qed.

(** ** The invariant of the loop *)
Section loop.
Variables (m0 : mem) (s : list Z) (dashes cmdline args : Z).
Let len := Z.of_nat (length s).
Hypothesis Hs : Forall is_char s.
Hypothesis Hlen : (length s < 512)%nat.
Hypothesis Hcmd : 0 <= cmdline /\ cmdline + len < 2 ^ 32.
Hypothesis Hdash : cstr_at m0 dashes (chars "--").
Hypothesis Hapart : args + 68 <= cmdline \/ cmdline + len + 1 <= args.
Hypothesis Hdapart : (dashes + 3 <= cmdline \/ cmdline + len + 1 <= dashes) /\ (dashes + 3 <= args \/ args + 68 <= dashes).

(** Neither in the line nor in the array, filled with the arguments [l]. *)
Definition elsewhere (l : list Z) (x : Z) : Prop :=
  ~ (cmdline <= x < cmdline + len + 1) /\ ~ (args <= x < args + 4 * Z.of_nat (length l)).

(** The line is cut up to [n], and [l] are the arguments so far. *)
Record cut_to (n : nat) (l : list Z) (m : mem) : Prop := {
  cut_line : bytes_at m cmdline (cut (take n s) ++ drop n s ++ [0]);
  cut_args : forall i p, l !! i = Some p -> word_at m (args + 4 * Z.of_nat i) p;
  cut_room : mapped m args 68;
  cut_count : (length l <= 16)%nat;
  cut_out : forall x, elsewhere l x -> m !! x = m0 !! x
}.

Lemma cut_length n : length (cut (take n s) ++ drop n s ++ [0]) = S (length s).
Proof. unfold cut. rewrite !length_app, length_map, length_take, length_drop. cbn. lia. Qed.

Lemma cut_dashes n l m : cut_to n l m -> cstr_at m dashes (chars "--").
Proof.
  intros Hc. destruct Hdash as [Hd1 Hd2]. split; [done|]. rewrite bytes_at_lookup in *. intros i b Hi.
  rewrite (cut_out _ _ _ Hc); [by apply Hd2|]. pose proof (cut_count _ _ _ Hc).
  apply lookup_lt_Some in Hi. cbn in Hi. unfold elsewhere. lia.
Qed.

(** One more argument. *)
Lemma push_arg_spec n l m v b ip : cut_to n l m -> (length l < 16)%nat -> urange 32 v ->
  exists m', push_arg args v (CmdState b ip (Z.of_nat (length l))) m =
    Ret (CmdState b ip (Z.of_nat (length (l ++ [v]))), m') /\ cut_to n (l ++ [v]) m'.
Proof.
  intros [Hc Ha Hr _ Ho] Hl Hv. set (a := args + 4 * Z.of_nat (length l)).
  exists (write_bytes m a (le32 v)). split.
  - unfold push_arg. cbn [now_arg_ind begin_args cmd_init_path]. fold a.
    rewrite (bind_Ret _ _ _ _ _ (store32_at m a v ltac:(eapply mapped_sub; [exact Hr|lia|lia]))).
    by replace (Z.of_nat (length l) + 1) with (Z.of_nat (length (l ++ [v]))) by (rewrite length_app; cbn; lia).
  - split.
    + apply bytes_at_write_out; [|done]. rewrite cut_length. cbn. unfold a, len in *. lia.
    + intros i p Hi. apply lookup_app_Some in Hi as [Hi|[Hi1 Hi2]].
      * apply word_at_write_out; [|by apply Ha]. apply lookup_lt_Some in Hi. unfold a. lia.
      * apply list_lookup_singleton_Some in Hi2 as [Hi2 <-]. replace (args + 4 * Z.of_nat i) with a by (unfold a; lia).
        by apply word_at_store.
    + by apply mapped_write.
    + rewrite length_app. cbn. lia.
    + intros x [Hx1 Hx2]. rewrite length_app in Hx2. cbn in Hx2. rewrite lookup_write_out by (cbn; unfold a; lia).
      apply Ho. split; [done|lia].
Qed.

Definition fits (st : bool * Z * list Z) : Prop :=
  let '(b, ip, l) := st in urange 32 ip /\ (length l <= 16)%nat /\ (b = false -> l = []).
Definition to_state (st : bool * Z * list Z) : cmd_state :=
  let '(b, ip, l) := st in CmdState b ip (Z.of_nat (length l)).

Lemma take_word_spec n st m p w : cut_to n st.2 m -> fits st -> cstr_at m p w -> urange 32 p ->
  exists m', take_word dashes args p (to_state st) m = Ret (to_state (spec_word st (p, w)), m') /\
    cut_to n (spec_word st (p, w)).2 m' /\ fits (spec_word st (p, w)).
Proof.
  intros Hc Hf Hw Hp. destruct st as [[b ip] l]. destruct Hf as (Hip & Hl & Hb). cbn in Hc.
  unfold take_word, to_state, spec_word. cbn [begin_args cmd_init_path now_arg_ind fst snd].
  unfold PROCESS_MAX_ARGUMENTS. destruct b.
  - rewrite mret_bind. cbn [Z.eqb]. case_cmp.
    + destruct (push_arg_spec n l m p true ip Hc ltac:(lia) Hp) as (m' & H1 & H2).
      exists m'. split; [done|]. split; [done|]. split; [done|]. split; [rewrite length_app; cbn; lia|done].
    + exists m. done.
  - specialize (Hb eq_refl) as ->.
    assert (strcmp p dashes m = Ret (first_diff cid (w ++ [0]) (chars "--" ++ [0]), m)) as E.
    { unfold strcmp. apply strcmp_loop_spec; [done|by apply (cut_dashes n [] m)|by apply cstr_at_fuel in Hw]. }
    rewrite (bind_Ret _ _ _ _ _ E). clear E. pose proof (first_diff_strings w (chars "--")) as Hd.
    destruct Hw as [Hw _]. specialize (Hd Hw ltac:(mem_compute)). destruct (Z.eqb_spec (first_diff cid (w ++ [0]) (chars "--" ++ [0])) 0) as [E|E]; case_decide as E'; try tauto.
    + destruct (push_arg_spec n [] m ip true ip Hc ltac:(cbn; lia) Hip) as (m' & H1 & H2).
      exists m'. split; [done|]. split; [done|]. split; [done|]. split; [cbn; lia|done].
    + exists m. split; [done|]. split; [done|]. split; [done|]. split; [cbn; lia|done].
Qed.

Lemma cut_same n n' l m : cut_to n l m ->
  cut (take n' s) ++ drop n' s ++ [0] = cut (take n s) ++ drop n s ++ [0] -> cut_to n' l m.
Proof. intros [Hc ? ? ? ?] E. split; [by rewrite E|done..]. Qed.

(** The parts of the line at a position in it. *)
Lemma cut_line_at n l m : cut_to n l m -> (n <= length s)%nat ->
  bytes_at m cmdline (cut (take n s)) /\ bytes_at m (cmdline + Z.of_nat n) (drop n s ++ [0]).
Proof.
  intros [Hc _ _ _ _] Hn. apply bytes_at_app in Hc as [H1 H2].
  unfold cut in H2 at 1. rewrite length_map, length_take, Nat.min_l in H2 by done. done.
Qed.

Lemma cut_blank n l m w k r : cut_to n l m -> (n <= length s)%nat -> drop n s = w ++ replicate k 32 ++ r ->
  Forall (fun c => c <> 32) w ->
  cut_to (n + length w + k) l (write_bytes m (cmdline + Z.of_nat n + Z.of_nat (length w)) (replicate k 0)).
Proof.
  intros Hc Hn E Hw. destruct (cut_line_at n l m Hc Hn) as [H1 H2]. rewrite E in H2.
  destruct (take_split s n w k r Hn E) as [Et Ed]. set (a := cmdline + Z.of_nat n + Z.of_nat (length w)).
  pose proof (f_equal length E) as El. rewrite length_drop, !length_app, length_replicate in El.
  rewrite <- !app_assoc in H2. apply bytes_at_app in H2 as [H2 H3]. apply bytes_at_app in H3 as [H3 H4].
  fold a in H3, H4. rewrite length_replicate in H4.
  assert (length (cut (take n s)) = n) as Ec by (unfold cut; rewrite length_map, length_take; lia).
  destruct Hc as [_ Ha Hr Hcount Ho]. split; [| | |done|].
  - rewrite Et, Ed, !cut_app, (cut_word w Hw), cut_spaces, <- !app_assoc.
    apply bytes_at_app. split; [apply bytes_at_write_out; [rewrite Ec; unfold a; lia|done]|].
    rewrite Ec. apply bytes_at_app. split; [apply bytes_at_write_out; [unfold a; lia|done]|].
    fold a. apply bytes_at_app. split; [apply bytes_at_write|]. rewrite length_replicate.
    apply bytes_at_write_out; [rewrite length_replicate; lia|done].
  - intros i p Hi. apply word_at_write_out; [|by apply Ha]. apply lookup_lt_Some in Hi.
    rewrite length_replicate. unfold a, len in *. lia.
  - by apply mapped_write.
  - intros x Hx. rewrite lookup_write_out; [by apply Ho|]. rewrite length_replicate.
    destruct Hx as [Hx _]. unfold a, len in *. lia.
Qed.

(** The loop from a position at which a word starts. *)
Lemma cmd_loop_spec fuel fuel' n st m : cut_to n st.2 m -> fits st -> (n <= length s)%nat ->
  hd 0 (drop n s) <> 32 -> (length s - n < fuel)%nat -> (length s - n < fuel')%nat ->
  let st' := foldl spec_word st (words_at fuel' (cmdline + Z.of_nat n) (drop n s)) in
  exists m', cmd_loop dashes fuel args (cmdline + Z.of_nat n) (to_state st) m = Ret (to_state st', m') /\
    cut_to (length s) st'.2 m' /\ fits st'.
Proof.
  revert fuel' n st m. induction fuel as [|fuel IH]; intros [|fuel'] n st m Hc Hf Hn Hh Hfuel Hfuel'; try lia.
  cbn [cmd_loop words_at]. destruct (cut_line_at n _ m Hc Hn) as [_ Hl].
  destruct (span_word_spec (drop n s)) as (E & Hw & Hr). destruct (span_word (drop n s)) as [w r]. cbn [fst snd] in *.
  destruct (skip_spaces_spec r) as (k & Er & Hr'). set (r' := skip_spaces r) in *.
  pose proof (f_equal length E) as El. rewrite length_drop, length_app in El.
  assert (Forall is_char (drop n s)) as Hsn by by apply list.Forall_drop.
  assert (Forall is_char w) as Hwc by (rewrite E in Hsn; by apply list.Forall_app in Hsn as [? _]).
  assert (urange 32 (cmdline + Z.of_nat n)) as Hp by (unfold urange, len in *; lia).
  assert (bytes_at m (cmdline + Z.of_nat n) (w ++ r ++ [0])) as Hl' by by rewrite app_assoc, <- E.
  rewrite (bind_Ret _ _ _ _ _ (find_word_end_spec w r cmdline_fuel _ m Hl' Hwc Hw Hr ltac:(unfold cmdline_fuel; lia))).
  pose proof Hl' as [_ Hr0]%bytes_at_app.
  destruct k as [|k]; cbn in Er.
  - assert (r = []) as Hnil by (destruct Hr as [|Hr]; [done|by rewrite Er in Hr]).
    assert (r' = []) as Hnil' by congruence. rewrite Hnil' in *. subst r.
    cbn in Hr0. destruct Hr0 as [Hz _]. mem_step. cbn [Z.eqb foldl].
    assert (n + length w = length s)%nat as Hend by (cbn in El; lia).
    apply (take_word_spec (length s)); [|done|split; [done|exact Hl']|done].
    apply (cut_same n); [done|]. rewrite app_nil_r in E.
    assert (cut s = cut (take n s) ++ w) as Ecut.
    { rewrite <- (take_drop n s) at 1. by rewrite cut_app, E, (cut_word w Hw). }
    rewrite drop_all, firstn_all, Ecut, E. by rewrite <- app_assoc.
  - assert (hd 0 r = 32) as H32 by by rewrite Er.
    rewrite Er in Hr0. cbn in Hr0. destruct Hr0 as [Hc32 Hr0]. mem_step. cbn [Z.eqb].
    set (a := cmdline + Z.of_nat n + Z.of_nat (length w)) in *.
    assert (bytes_at m a (replicate (S k) 32 ++ r' ++ [0])) as Hb by by rewrite app_assoc.
    assert (length r = S k + length r')%nat as Elr by (rewrite Er; cbn; rewrite length_app, length_replicate; lia).
    rewrite (bind_Ret _ _ _ _ _ (blank_spaces_spec (S k) cmdline_fuel a r' m Hb Hr' ltac:(unfold cmdline_fuel; lia))).
    set (n1 := (n + length w + S k)%nat). set (m1 := write_bytes m a (replicate (S k) 0)).
    assert (drop n s = w ++ replicate (S k) 32 ++ r') as E1 by (rewrite E, Er; done).
    assert (cut_to n1 st.2 m1) as Hc1 by by apply (cut_blank n st.2 m w (S k) r').
    destruct (take_split s n w (S k) r' Hn E1) as [_ Ed1]. fold n1 in Ed1.
    assert (cstr_at m1 (cmdline + Z.of_nat n) w) as Hwm.
    { split; [done|]. apply bytes_at_app. unfold m1. split.
      - apply bytes_at_write_out; [unfold a; lia|]. by apply bytes_at_app in Hl' as [? _].
      - fold a. pose proof (bytes_at_write m a (replicate (S k) 0)) as [Hz _]. by split. }
    destruct (take_word_spec n1 st m1 _ w Hc1 Hf Hwm Hp) as (m2 & H2 & Hc2 & Hf2).
    rewrite (bind_Ret _ _ _ _ _ H2). cbn [foldl].
    set (st2 := spec_word st (cmdline + Z.of_nat n, w)) in *.
    destruct (cut_line_at n1 _ m2 Hc2 ltac:(unfold n1; lia)) as [_ Hn1]. rewrite Ed1 in Hn1.
    replace (a + Z.of_nat (S k)) with (cmdline + Z.of_nat n1) by (unfold a, n1; lia).
    destruct r' as [|c r''] eqn:Er''.
    + cbn in Hn1. destruct Hn1 as [Hz _]. mem_step. cbn [Z.eqb]. exists m2. split; [done|]. split; [|done].
      assert (n1 = length s) as <- by (unfold n1; cbn in Elr; lia). done.
    + assert (is_char c) as Hcc.
      { assert (Forall is_char (c :: r'')) as Hf' by (rewrite <- Ed1; by apply list.Forall_drop). by inversion Hf'. }
      unfold is_char in Hcc. cbn in Hn1. destruct Hn1 as [Hc' _]. mem_step. destruct (Z.eqb_spec c 0); [lia|].
      replace (cmdline + Z.of_nat n + Z.of_nat (length (drop n s) - length (c :: r''))) with (cmdline + Z.of_nat n1)
        by (unfold n1; rewrite length_drop; cbn in Elr |- *; lia).
      rewrite <- Ed1. apply IH; [done|done|unfold n1; cbn in Elr; lia|by rewrite Ed1|unfold n1; cbn in Elr; lia..].
Qed.

(** parse_cmdline() from the start of the line to its end. *)
Lemma parse_cmdline_spec default :
  bytes_at m0 cmdline (s ++ [0]) -> urange 32 default -> mapped m0 args 68 ->
  let '(path, argv) := spec_cmd (cmd_words cmdline s) default in
  exists m', parse_cmdline dashes cmdline default args m0 = Ret (path, m') /\ cut_to (length s) argv m'.
Proof.
  intros Hm Hdef Hr. destruct (skip_spaces_spec s) as (k & E & Hh).
  set (s' := skip_spaces s) in *. pose proof (f_equal length E) as El. rewrite length_app, length_replicate in El.
  assert (cut_to 0 [] m0) as H0 by (split; [exact Hm|done|done|cbn; lia|done]).
  assert (bytes_at m0 cmdline (replicate k 32 ++ s' ++ [0])) as Hb by by rewrite app_assoc, <- E.
  pose proof (blank_spaces_spec k cmdline_fuel cmdline s' m0 Hb Hh ltac:(unfold cmdline_fuel; lia)) as Hbl.
  pose proof (cut_blank 0 [] m0 [] k s' H0 ltac:(lia) E ltac:(constructor)) as H1.
  cbn [length Z.of_nat Nat.add] in H1. rewrite !Z.add_0_r in H1. set (m1 := write_bytes m0 cmdline (replicate k 0)) in *.
  destruct (take_split s 0 [] k s' ltac:(lia) E) as [_ Ed]. cbn [length Nat.add] in Ed.
  set (st0 := (false, default, [] : list Z)).
  destruct (cmd_loop_spec cmdline_fuel (S (length s)) k st0 m1) as (m2 & H2 & Hc2 & Hf2).
  { exact H1. } { split; [done|]. split; [cbn; lia|done]. } { lia. } { by rewrite Ed. } { unfold cmdline_fuel. lia. } { lia. }
  assert (words_at (S (length s)) (cmdline + Z.of_nat k) (drop k s) = cmd_words cmdline s) as Ew
    by (rewrite Ed; unfold cmd_words; fold s'; by replace (length s - length s')%nat with k by lia).
  rewrite Ew in H2, Hc2, Hf2. unfold spec_cmd. fold st0.
  destruct (foldl spec_word st0 (cmd_words cmdline s)) as [[b ip] l] eqn:Est. destruct Hf2 as (Hip & Hl & Hb0). cbn in Hc2.
  unfold parse_cmdline. rewrite (bind_Ret _ _ _ _ _ Hbl), (bind_Ret _ _ _ _ _ H2). cbn [to_state begin_args].
  destruct b; [by exists m2|]. rewrite (Hb0 eq_refl) in *. cbn [cmd_init_path].
  destruct (push_arg_spec (length s) [] m2 ip false ip Hc2 ltac:(cbn; lia) Hip) as (m3 & H3 & Hc3).
  exists m3. split; [|done]. by rewrite (bind_Ret _ _ _ _ _ H3).
Qed.

(** The words of the line that was cut are C strings in it. *)
Lemma cut_words_strings l m p w : cut_to (length s) l m -> (p, w) ∈ cmd_words cmdline s -> cstr_at m p w.
Proof.
  intros [Hline _ _ _ _]. rewrite drop_all, firstn_all in Hline. by apply (cut_word_string m cmdline s).
Qed.
End loop.

(** ** The property *)

(** C23: parse_cmdline() cuts a line of at most 511 characters into its words: the
    path is the last one, or, with a word [--], the one before it (the default
    when there is none) and the arguments are the path and the words after the
    [--], at most 16 in all; each is a C string in the line, and nothing but
    the line and the entries of the arguments changes. *)
Theorem parse_cmdline_correct m s dashes cmdline args default :
  cstr_at m cmdline s -> (length s < 512)%nat -> 0 <= cmdline -> cmdline + Z.of_nat (length s) < 2 ^ 32 ->
  urange 32 default -> cstr_at m dashes (chars "--") -> mapped m args 68 ->
  args + 68 <= cmdline \/ cmdline + Z.of_nat (length s) + 1 <= args ->
  dashes + 3 <= cmdline \/ cmdline + Z.of_nat (length s) + 1 <= dashes ->
  dashes + 3 <= args \/ args + 68 <= dashes ->
  let '(path, argv) := spec_cmd (cmd_words cmdline s) default in
  exists m', parse_cmdline dashes cmdline default args m = Ret (path, m') /\
    (length argv <= 16)%nat /\
    (forall i p, argv !! i = Some p -> word_at m' (args + 4 * Z.of_nat i) p) /\
    (forall p w, (p, w) ∈ cmd_words cmdline s -> cstr_at m' p w) /\
    (forall x, elsewhere s cmdline args argv x -> m' !! x = m !! x).
Proof.
  intros [Hs Hm] Hlen Hc0 Hc1 Hdef Hd Hr Ha Hda1 Hda2.
  pose proof (parse_cmdline_spec m s dashes cmdline args Hs Hlen (conj Hc0 Hc1) Hd Ha (conj Hda1 Hda2) default Hm Hdef Hr) as Hp.
  destruct (spec_cmd _ _) as [path argv]. destruct Hp as (m' & Hrun & Hc). exists m'.
  pose proof Hc as [_ Hargs _ Hcount Hout]. split; [done|]. split; [done|]. split; [done|]. split; [|done].
  intros p w. by apply (cut_words_strings m s cmdline args Hs argv).
Qed.

(** A line with a kernel path, a program and two arguments. *)
Definition cmdline_example : mem :=
  mem_of [(100, chars "--" ++ [0]); (200, chars "/k  /bin/sh -- -c  x " ++ [0]); (300, repeat 0 68)].

Lemma parse_cmdline_correct_witness :
  spec_cmd (cmd_words 200 (chars "/k  /bin/sh -- -c  x ")) 150 = (204, [204; 215; 219]) /\
  exists m', parse_cmdline 100 200 150 300 cmdline_example = Ret (204, m') /\
    cstr_at m' 204 (chars "/bin/sh") /\ cstr_at m' 215 (chars "-c") /\ cstr_at m' 219 (chars "x").
Proof.
  split; [reflexivity|].
  assert (cstr_at cmdline_example 200 (chars "/k  /bin/sh -- -c  x ")) as H1 by mem_compute.
  assert (cstr_at cmdline_example 100 (chars "--")) as H2 by mem_compute.
  assert (mapped cmdline_example 300 68) as H3 by mem_compute.
  destruct (parse_cmdline_correct cmdline_example (chars "/k  /bin/sh -- -c  x ") 100 200 300 150 H1
    ltac:(vm_compute; lia) ltac:(lia) eq_refl ltac:(unfold urange; lia) H2 H3
    ltac:(right; vm_compute; discriminate) ltac:(left; lia) ltac:(left; lia)) as (m' & Hm & _ & _ & Hw & _).
  exists m'. split; [exact Hm|]. split; [|split]; apply Hw; apply (bool_decide_eq_true_1 _); vm_compute; reflexivity.
Defined.

(** Without a word in it the line replaces the default path by an empty one. *)
Example parse_cmdline_empty cmdline default : spec_cmd (cmd_words cmdline []) default = (cmdline + 0, [cmdline + 0]).
Proof. reflexivity. Qed.
