(* ===== verification/Boot.v ===== *)
(** * Boot: src/src/main.cpp and the object that crt_init() makes

    The devices, the special paths and the first process.  The descriptor
    tables, the interrupt controllers, the clock and the volume are set up by
    the definitions of ProtectedMode.v, Pic.v, Sched.v and Directory.v; they
    share no state with the objects. *)
From S2P Require Import Prelude Mem CString Kernel Devices UserLib Process Sched Elf Syscall.
From S2P Require Import SpecialPath Invariant ProcessInv SyscallInv Cmdline.

(** A static array of MAX_PROCESS_NUM elements. *)
Definition process_array {A} (v : A) : gmap Z A :=
  list_to_map ((fun i => (i, v)) <$> seqZ 0 MAX_PROCESS_NUM).

Section boot.
Context {W : Type} {HE : External (globals * W)} {HL : Layout} {HF : Files (globals * W)}.
Abbreviation kprog := (prog (kernel (globals * W))).

(** The devices behind the interface [External]. *)
Variables early com1 con : Z.
(** What the memory of [last_exit_code] held before: its constructor leaves it. *)
Variable garbage : gmap Z Z.

Definition discard (p : kprog (option Z)) : kprog unit := r ← p; destroy r.

(** The part of crt_init() about the first output device. *)
Definition crt_init : kprog unit :=
  device ← new_object (BExt early) None;
  discard (setDefaultOutputDevice (Some device));;
  discard (setErrorOutputDevice (Some device));;
  release device.

(** make_shared of the four devices. *)
Definition createSerialIODevice : kprog Z := BlockInputDevice (BExt com1).
Definition VGATextIODevice_getInstance : kprog Z := get_instance VgaDevice (BlockInputDevice (BExt con)).
Definition ProcessWait_getInstance : kprog Z := get_instance WaitInstance (
  pmodify (fun k => set_last_exit_code garbage (set_reqs (process_array (0, 0)) k));;
  BlockInputDevice BProcessWait).
Definition SleepDevice_getInstance : kprog Z := get_instance SleepInstance (
  pmodify (set_sleep_until (process_array 0));;
  BlockInputDevice BSleep).

Definition use_console (device : Z) (path : list Z) : kprog unit :=
  discard (setDefaultInputDevice (Some device));;
  discard (setDefaultOutputDevice (Some device));;
  discard (setErrorOutputDevice (Some device));;
  registerObject path (Some device);;
  release device.

Definition init_devices : kprog unit :=
  device ← createSerialIODevice; use_console device (chars ":COM1");;
  device ← VGATextIODevice_getInstance; use_console device (chars ":CON");;
  device ← ProcessWait_getInstance;
  registerObject (chars ":WAITPID") (Some device);; release device;;
  device ← SleepDevice_getInstance;
  registerObject (chars ":SLEEP") (Some device);; release device.

(** ** enter_init() *)

(** [if (getDefault...Device()) init_process->setObject(pos, ...)] *)
Definition stdio_object (pid pos : Z) (device : option Z) : kprog unit :=
  match device with
  | Some o => with_ref o (setObject pid pos (Some o));; mret tt
  | None => mret tt
  end.

(** [hlt] is the address of ["/bin/hlt.elf"]. *)
Definition enter_init (hlt args : Z) : kprog unit :=
  pid ← new_process None;
  g ← get_globals;
  stdio_object pid 0 (statics g DefaultInput);;
  stdio_object pid 1 (statics g DefaultOutput);;
  stdio_object pid 2 (statics g ErrorOutput);;
  r ← execv pid hlt args 0x7 0x0;
  if r =? 0 then
    mod_proc pid (set_sche_type PROCESS_SCHE_IDLE);;
    run pid;;
    leaveKernelMode
  else ppanic "Init process start failed".

(** [args[i] = nullptr] *)
Fixpoint clear_args (n : nat) (args : Z) : prog mem unit :=
  match n with
  | O => mret tt
  | S n => store32 args 0;; clear_args n (args + 4)
  end.

(** main(), from the devices on. *)
Definition main (dashes cmdline default_init hlt args : Z) : kprog unit :=
  init_devices;;
  kmem (clear_args (Z.to_nat (PROCESS_MAX_ARGUMENTS + 1)) args);;
  kmem (parse_cmdline dashes cmdline default_init args);;
  enter_init hlt args.

Definition boot (dashes cmdline default_init hlt args : Z) : kprog unit :=
  crt_init;; main dashes cmdline default_init hlt args.
End boot.

(** ** The devices *)
Section stages.
Context {W : Type}.
Implicit Types (k : kernel (globals * W)).

(** No process yet; [X] counts the references of local variables. *)
Record stage (X : Z -> Z) k : Prop := {
  stage_booting : booting X k;
  stage_names : all_names (k_ext k).1;
  stage_list : process_list k = ∅;
  stage_current : current_process k = 0
}.

Lemma stage_nonneg X k o : stage X k -> 0 <= X o.
Proof. intros [[HX _] _ _ _]. apply HX. Qed.

Lemma stage_moves X Y f k k' : stage X k -> booting Y k' -> moves f k k' -> (forall g, all_names g -> all_names (f g)) ->
  stage Y k'.
Proof.
  intros [_ Hn Hl Hc] Hb [[Hp Hc' _] He] Hf. split; [done| |congruence|congruence].
  rewrite He. cbn. by apply Hf.
Qed.

Lemma stage_quiet X Y k k' : stage X k -> booting Y k' -> quiet k k' -> stage Y k'.
Proof. intros [_ Hn Hl Hc] Hb [[Hp Hc' _] He]. split; [done|by rewrite He|congruence|congruence]. Qed.

Lemma stage_ext X Y k : (forall o, X o = Y o) -> stage X k -> stage Y k.
Proof. intros E [Hb Hn Hl Hc]. split; [by apply booting_ext with X|done..]. Qed.

Lemma returned {A} (p : prog (kernel (globals * W)) A) k Q a k' : p k = Ret (a, k') -> returns p k Q -> Q a k'.
Proof. intros H (b & k1 & H1 & HQ). rewrite H in H1. by injection H1 as <- <-. Qed.

Lemma registered_names path v g : all_names g -> all_names (registered path v g).
Proof.
  intros Hg. apply (removed_names path) in Hg. unfold registered, all_names in *.
  destruct (special_free _); cbn; by rewrite ?length_insert.
Qed.

(** A new object, held by a local variable. *)
Lemma stage_new X k o k' (p : prog (kernel (globals * W)) Z) :
  p k = Ret (o, k') ->
  (forall Y, inv Y k -> o = next_object k /\ inv (extra 1 o Y) k' /\ same_procs k k') -> k_ext k' = k_ext k ->
  stage X k -> stage (plus 1 (Some o) X) k'.
Proof.
  intros H Hp He Hs. destruct Hs as [[HX Hi] Hn Hl Hc]. destruct (Hp _ Hi) as (_ & Hi' & [Hl' Hc' _]).
  split; [split| |congruence|congruence].
  - intros o'. by apply plus_pos.
  - rewrite He. eapply inv_ext; [|exact Hi']. intros o'. cbn. unfold extra. case_decide; lia.
  - by rewrite He.
Qed.

Lemma stage_object X b k o k' : new_object b None k = Ret (o, k') -> stage X k -> stage (plus 1 (Some o) X) k'.
Proof.
  intros H. apply stage_new with (1 := H); [intros Y; by apply new_object_inv with b|].
  unfold new_object in H. by runs.
Qed.

Lemma stage_device X b k o k' : BlockInputDevice b k = Ret (o, k') -> stage X k -> stage (plus 1 (Some o) X) k'.
Proof.
  intros H. apply stage_new with (1 := H); [intros Y; by apply BlockInputDevice_inv with b|].
  unfold BlockInputDevice, new_object in H. runs. destruct (free_device _ _ _); by runs.
Qed.

Lemma stage_release X o k u k' : release o k = Ret (u, k') -> stage (plus 1 (Some o) X) k -> (forall o, 0 <= X o) ->
  stage X k'.
Proof.
  intros H Hs HX. destruct (destroy_quiet X (Some o) k u k' H (stage_booting _ _ Hs) HX) as [Hb Hq].
  by apply stage_quiet with (1 := Hs).
Qed.

Lemma stage_default X s o k u k' : discard (set_default s (Some o)) k = Ret (u, k') -> s ∈ all_statics -> 0 < X o ->
  stage X k -> stage X k'.
Proof.
  unfold discard. intros H Hin Ho Hs. apply bind_Ret_inv in H as (r & k1 & H1 & H).
  assert (held X (Some o)) as Hh by by intros o' [= <-].
  destruct (returned _ _ _ _ _ H1 (set_default_spec X s (Some o) k Hin Hh (stage_booting _ _ Hs))) as (_ & Hb & Hm).
  assert (stage (plus 1 r X) k1) as Hs1 by by apply stage_moves with (1 := Hs) (3 := Hm).
  destruct (destroy_quiet X r k1 u k' H Hb) as [Hb' Hq]; [intros o'; by apply stage_nonneg with k|].
  by apply stage_quiet with (1 := Hs1).
Qed.

Lemma stage_register X path o k r k' : registerObject path (Some o) k = Ret (r, k') -> 0 < X o -> stage X k -> stage X k'.
Proof.
  intros H Ho Hs. assert (held X (Some o)) as Hh by by intros o' [= <-].
  destruct (returned _ _ _ _ _ H (registerObject_spec X path (Some o) k (stage_names _ _ Hs) Hh (stage_booting _ _ Hs)))
    as (Hb & Hm & _).
  apply stage_moves with (1 := Hs) (3 := Hm); [done|]. intros g. apply registered_names.
Qed.

(** getInstance() of a class whose constructor [make] gives a new object. *)
Lemma stage_instance X s make k o k' :
  get_instance s make k = Ret (o, k') -> s ∈ all_statics -> stage X k ->
  (forall o1 k1, make k = Ret (o1, k1) -> stage (plus 1 (Some o1) X) k1) ->
  stage (plus 1 (Some o) X) k'.
Proof.
  unfold get_instance. intros H Hin Hs Hmake.
  apply bind_Ret_inv in H as (g & k1 & H1 & H). apply get_globals_Ret in H1 as [-> ->].
  apply bind_Ret_inv in H as (u1 & k1 & H1 & H). assert (stage X k1) as Hs1.
  { destruct (statics _ s); [by apply mret_Ret in H1 as [_ <-]|].
    apply bind_Ret_inv in H1 as (o1 & k2 & H2 & H1). pose proof (Hmake o1 k2 H2) as Hs2.
    apply bind_Ret_inv in H1 as (u3 & k3 & H3 & H1).
    destruct (assign_spec _ s (Some o1) k2 u3 k3 H3 Hin (stage_booting _ _ Hs2)) as [Hb3 Hm3].
    apply (stage_release X o1 k3 u1 k1 H1); [|intros o'; by apply stage_nonneg with k].
    by apply stage_moves with (1 := Hs2) (3 := Hm3). }
  apply bind_Ret_inv in H as (g & k2 & H2 & H). apply get_globals_Ret in H2 as [-> ->].
  destruct (statics (k_ext k1).1 s) as [o1|]; [|runs]. apply bind_Ret_inv in H as (u3 & k3 & H3 & H).
  apply mret_Ret in H as [-> <-]. destruct (copy_quiet X (Some o) k1 u3 k3 H3 (stage_booting _ _ Hs1)) as [Hb3 Hq3].
  by apply stage_quiet with (1 := Hs1).
Qed.

Lemma stage_console X o path k u k' : use_console o path k = Ret (u, k') -> (forall o, 0 <= X o) ->
  stage (plus 1 (Some o) X) k -> stage X k'.
Proof.
  unfold use_console. intros H HX Hs. pose proof (plus_some (Some o) X o eq_refl HX) as Ho.
  apply bind_Ret_inv in H as (u1 & k1 & H1 & H). apply (stage_default (plus 1 (Some o) X)) in H1; [|set_solver|done..].
  apply bind_Ret_inv in H as (u2 & k2 & H2 & H). apply (stage_default (plus 1 (Some o) X)) in H2; [|set_solver|done..].
  apply bind_Ret_inv in H as (u3 & k3 & H3 & H). apply (stage_default (plus 1 (Some o) X)) in H3; [|set_solver|done..].
  apply bind_Ret_inv in H as (u4 & k4 & H4 & H). apply (stage_register (plus 1 (Some o) X)) in H4; [|done..].
  by apply stage_release with (1 := H).
Qed.
End stages.

(** ** The invariant at the start of the first program *)
Section boot_inv.
Context {W : Type} {HE : External (globals * W)} {HL : Layout} {HF : Files (globals * W)}.
Variables early com1 con : Z.
Variable garbage : gmap Z Z.
Implicit Types (k : kernel (globals * W)).

(** The state when crt_init() is entered. *)
Record power_on k : Prop := {
  on_blank : blank k;
  on_current : current_process k = 0;
  on_next : next_object k = 0
}.

Lemma crt_init_stage k u k' : crt_init early k = Ret (u, k') -> power_on k -> stage (fun _ => 0) k'.
Proof.
  unfold crt_init. intros H [Hb Hc _].
  assert (stage (fun _ => 0) k) as Hs.
  { split; [by apply blank_booting|by rewrite (blank_globals _ Hb)|apply Hb|done]. }
  apply bind_Ret_inv in H as (o & k1 & H1 & H). pose proof (stage_object _ _ _ _ _ H1 Hs) as Hs1.
  pose proof (plus_some (Some o) (fun _ => 0) o eq_refl (fun _ => Z.le_refl 0)) as Ho.
  apply bind_Ret_inv in H as (u2 & k2 & H2 & H). apply (stage_default (plus 1 (Some o) (fun _ => 0))) in H2; [|set_solver|done..].
  apply bind_Ret_inv in H as (u3 & k3 & H3 & H). apply (stage_default (plus 1 (Some o) (fun _ => 0))) in H3; [|set_solver|done..].
  by apply stage_release with (1 := H).
Qed.

Lemma init_devices_stage k u k' : init_devices com1 con garbage k = Ret (u, k') -> stage (fun _ => 0) k -> stage (fun _ => 0) k'.
Proof.
  unfold init_devices. intros H Hs. set (X := fun _ : Z => 0) in *. assert (forall o, 0 <= X o) as HX by done.
  apply bind_Ret_inv in H as (o & k1 & H1 & H). pose proof (stage_device _ _ _ _ _ H1 Hs) as Hs1.
  apply bind_Ret_inv in H as (u2 & k2 & H2 & H). pose proof (stage_console _ _ _ _ _ _ H2 HX Hs1) as Hs2.
  apply bind_Ret_inv in H as (o3 & k3 & H3 & H).
  apply (stage_instance X) in H3; [|set_solver|done|intros ? ? ?; by eapply stage_device].
  apply bind_Ret_inv in H as (u4 & k4 & H4 & H). pose proof (stage_console _ _ _ _ _ _ H4 HX H3) as Hs4.
  apply bind_Ret_inv in H as (o5 & k5 & H5 & H).
  apply (stage_instance X) in H5; [|set_solver|done|].
  2:{ intros o1 k'' H6. apply bind_Ret_inv in H6 as (u6 & k6 & H6 & H7). apply pmodify_Ret in H6 as ->.
      eapply stage_device; [exact H7|]. destruct Hs4 as [[? Hi] ? ? ?]. split; [split; [done|]|done..].
      by apply inv_same with k4; [split|]. }
  apply bind_Ret_inv in H as (u6 & k6 & H6 & H). apply (stage_register (plus 1 (Some o5) X)) in H6; [|by apply plus_some|done].
  apply bind_Ret_inv in H as (u7 & k7 & H7 & H). pose proof (stage_release _ _ _ _ _ H7 H6 HX) as Hs7.
  apply bind_Ret_inv in H as (o8 & k8 & H8 & H).
  apply (stage_instance X) in H8; [|set_solver|done|].
  2:{ intros o1 k'' H9. apply bind_Ret_inv in H9 as (u9 & k9 & H9 & H10). apply pmodify_Ret in H9 as ->.
      eapply stage_device; [exact H10|]. destruct Hs7 as [[? Hi] ? ? ?]. split; [split; [done|]|done..].
      by apply inv_same with k7; [split|]. }
  apply bind_Ret_inv in H as (u9 & k9 & H9 & H). apply (stage_register (plus 1 (Some o8) X)) in H9; [|by apply plus_some|done].
  by apply stage_release with (1 := H).
Qed.

(** The devices and their names: the calls return. *)
Definition device_names : list (list Z) := [chars ":COM1"; chars ":CON"; chars ":WAITPID"; chars ":SLEEP"].
Definition named k (path : list Z) : bool :=
  match special_path_get path (k_ext k).1 with Some o => bool_decide (is_Some (store k !! o)) | None => false end.

Lemma init_devices_runs k : power_on k -> exists k',
  (crt_init early;; init_devices com1 con garbage) k = Ret (tt, k') /\
  forall path, path ∈ device_names ->
     exists o x, special_path_get path (k_ext k').1 = Some o /\ store k' !! o = Some x.
Proof.
  intros [[Hp Hs Hd Hg] Hc Hn]. destruct k as [m [g w] c l s n d l1 l2 l3 t r u]. cbn in *. subst.
  set (p := _ ≫= _). set (k := Kernel _ _ _ _ _ _ _ _ _ _ _ _ _).
  assert (match p k with Ret (_, kd) => forallb (named kd) device_names | _ => false end = true) as H
    by (vm_compute; reflexivity).
  clearbody p k. destruct (p k) as [[[] kd]| | |]; try discriminate H. exists kd. split; [done|].
  rewrite forallb_forall in H. intros path Hin%list_elem_of_In. specialize (H path Hin). unfold named in H.
  destruct (special_path_get path _) as [o|]; [|done]. apply bool_decide_eq_true in H as [x Hx]. eauto.
Qed.

Lemma stdio_working X pid cur pos v k u k' : stdio_object pid pos v k = Ret (u, k') -> working X pid cur k ->
  working X pid cur k'.
Proof.
  unfold stdio_object. intros H Hw. destruct v as [o|]; [|by apply mret_Ret in H as [_ <-]].
  apply bind_Ret_inv in H as (r & k1 & H1 & H). apply mret_Ret in H as [_ <-].
  apply (with_ref_working X pid cur o _ k r k1 H1 Hw). intros k2 k3 Hw2 H3.
  destruct (setObject_inv _ pid pos (Some o) k2 r k3 H3 (working_idle _ _ _ _ Hw2) (working_inv _ _ _ _ Hw2)) as [Hi3 Ht3].
  by apply (working_touches (extra 1 o X) _ pid cur k2).
Qed.

Lemma stage_working k pid k' : new_process None k = Ret (pid, k') -> stage (fun _ => 0) k ->
  pid = 0 /\ working (refs (k_ext k).1) 0 0 k'.
Proof.
  unfold new_process. intros H [[_ Hi] _ Hl Hc]. apply bind_Ret_inv in H as (k1 & k2 & H1 & H).
  apply pget_Ret in H1 as [-> ->]. rewrite Hl in H. cbn in H.
  apply bind_Ret_inv in H as (u & k2 & H2 & H). apply pmodify_Ret in H2 as ->. apply mret_Ret in H as [<- <-].
  split; [done|]. split; [|done|].
  - apply inv_new_process; try done; [by rewrite Hl|]. eapply inv_ext; [|exact Hi]. intros o. cbn. lia.
  - eexists. cbn. by rewrite lookup_insert_eq.
Qed.

Lemma enter_init_user k hlt args u k' : enter_init hlt args k = Ret (u, k') -> stage (fun _ => 0) k ->
  user_mode (refs (k_ext k).1) k' /\ current_process k' = 0 /\
  exists p, process_list k' !! 0 = Some p /\ process_sche_type p = PROCESS_SCHE_IDLE /\
    user_tss k' = usermode_state p.
Proof.
  unfold enter_init. intros H Hs. set (X := refs (k_ext k).1).
  apply bind_Ret_inv in H as (pid & k1 & H1 & H). destruct (stage_working _ _ _ H1 Hs) as [-> Hw1]. fold X in Hw1.
  apply bind_Ret_inv in H as (g & k2 & H2 & H). apply get_globals_Ret in H2 as [-> ->].
  apply bind_Ret_inv in H as (u2 & k2 & H2 & H). pose proof (stdio_working _ _ _ _ _ _ _ _ H2 Hw1) as Hw2.
  apply bind_Ret_inv in H as (u3 & k3 & H3 & H). pose proof (stdio_working _ _ _ _ _ _ _ _ H3 Hw2) as Hw3.
  apply bind_Ret_inv in H as (u4 & k4 & H4 & H). pose proof (stdio_working _ _ _ _ _ _ _ _ H4 Hw3) as Hw4.
  apply bind_Ret_inv in H as (r & k5 & H5 & H). pose proof (execv_working _ _ _ _ _ _ _ _ _ _ H5 Hw4) as Hw5.
  case_match; [|runs].
  apply bind_Ret_inv in H as (u6 & k6 & H6 & H). apply mod_proc_Ret in H6 as (p & Hp & ->).
  destruct Hw5 as [Hi5 Hc5 (q & Hq & Hr)]. assert (q = p) as -> by congruence.
  set (p1 := set_sche_type PROCESS_SCHE_IDLE p) in *.
  assert (inv X (set_process_list (<[0 := p1]> (process_list k5)) k5)) as Hi6
    by by apply (inv_put_proc_same X k5 0 p p1).
  apply bind_Ret_inv in H as (u7 & k7 & H7 & H). unfold run in H7.
  apply bind_Ret_inv in H7 as (u8 & k8 & H8 & H7). apply mod_proc_Ret in H8 as (p2 & Hp2 & ->).
  apply pmodify_Ret in H7 as ->. cbn in Hp2. rewrite lookup_insert_eq in Hp2. injection Hp2 as <-.
  set (p2 := set_process_state PROCESS_STATE_RUNNABLE p1) in *.
  assert (p2 = p1) as E2 by (unfold p2, p1; destruct p; cbn in *; by subst).
  unfold leaveKernelMode in H. apply bind_Ret_inv in H as (c & k9 & H9 & H). apply getCurrentProcess_Ret in H9 as [-> ->].
  apply bind_Ret_inv in H as (p3 & k9 & H9 & H). apply getProcess_Ret in H9 as (-> & -> & _).
  cbn in H. rewrite lookup_insert_eq in H. apply pmodify_Ret in H as ->.
  split; [split|split].
  - apply inv_same with (k := set_current 0 (set_process_list (<[0 := p2]> (<[0 := p1]> (process_list k5))) k5)); [by split|].
    apply inv_set_current. rewrite E2, insert_insert_eq. exact Hi6.
  - exists p2. cbn. by rewrite lookup_insert_eq.
  - done.
  - exists p2. cbn. rewrite lookup_insert_eq. done.
Qed.
End boot_inv.

(** ** The property *)
Section boot_theorem.
Context {W : Type} {HE : External (globals * W)} {HL : Layout} {HF : Files (globals * W)}.

(** C14: From the state of crt_init() the devices are made, named and counted; and
    when main() hands over to the first program, the idle one, the state is
    well-formed, so that every state that the system then reaches is. *)
Theorem boot_well_formed early com1 con garbage dashes cmdline init hlt args (k k' : kernel (globals * W)) :
  power_on k -> boot early com1 con garbage dashes cmdline init hlt args k = Ret (tt, k') ->
  exists kd, (crt_init early;; init_devices com1 con garbage) k = Ret (tt, kd) /\
    (forall path, path ∈ device_names -> exists o x, special_path_get path (k_ext kd).1 = Some o /\ store kd !! o = Some x) /\
    current_process k' = 0 /\
    (exists p, process_list k' !! 0 = Some p /\ process_sche_type p = PROCESS_SCHE_IDLE /\
       user_tss k' = usermode_state p) /\
    forall k'', rtc system_step k' k'' -> user_mode (refs (k_ext kd).1) k''.
Proof.
  intros Hon H. destruct (init_devices_runs early com1 con garbage k Hon) as (kd & Hd & Hpaths).
  exists kd. split; [done|]. split; [done|].
  apply bind_Ret_inv in Hd as ([] & k1 & Hc & Hd). pose proof (crt_init_stage early k tt k1 Hc Hon) as Hs1.
  pose proof (init_devices_stage com1 con garbage k1 tt kd Hd Hs1) as Hsd.
  unfold boot, main in H. rewrite (bind_Ret _ _ _ _ _ Hc), (bind_Ret _ _ _ _ _ Hd) in H.
  apply bind_Ret_inv in H as (u2 & k2 & H2 & H). apply kmem_Ret in H2 as (m2 & _ & ->).
  apply bind_Ret_inv in H as (u3 & k3 & H3 & H). apply kmem_Ret in H3 as (m3 & _ & ->).
  destruct (enter_init_user _ hlt args tt k' H) as (Hu & Hcur & Hp).
  { destruct Hsd as [[HX Hi] ? ? ?]. split; [split; [done|]|done..]. apply inv_same with kd; [by split|done]. }
  split; [done|]. split; [done|]. intros k'' Hr. exact (system_user _ _ _ Hr Hu).
Qed.
End boot_theorem.

(** *** A small machine: [/bin/hlt.elf] is one segment of 8 bytes at 2000 *)
Section small_boot.
#[local] Instance boot_devices : External (globals * unit) := {
  ext_is_input _ := true; ext_is_output _ := true; ext_read _ _ n := mret n; ext_write _ _ n := mret n
}.
#[local] Instance boot_layout : Layout := {
  USER_SPACE_START := 20000; user_stack_pos := 30000; kernel_stack_pos := 50000
}.
#[local] Instance boot_files : Files (globals * unit) := {
  special_get _ := mret None; openFile _ := mret (Some 9); file_size _ := mret 100; is_file _ := true;
  dir_entries _ := mret None; new_bytes _ := mret 2000; delete_bytes _ := mret tt
}.

Definition hlt_elf : list Z :=
  [127; 69; 76; 70; 1; 1] ++ repeat 0 6 ++ le32 1 ++ le32 0 ++ le32 0 ++ le32 4 ++ le32 12 ++ le32 8 ++ repeat 0 400.

Definition boot_example : kernel (globals * unit) :=
  Kernel (mem_of [(100, chars "--" ++ [0]); (200, chars "/sh.elf" ++ [0]); (300, repeat 0 100);
                  (2000, hlt_elf); (20000, repeat 0 16); (37600, repeat 0 600)])
    (no_globals, tt) 0 ∅ ∅ 0 ∅ ∅ ∅ ∅ 0 30 tss_zero.
Definition booted : option (kernel (globals * unit)) :=
  match boot 1 2 3 ∅ 100 200 150 160 300 boot_example with Ret (_, k') => Some k' | _ => None end.

Lemma boot_well_formed_witness : exists k', booted = Some k' /\ user_tss k' Eip = 20004 /\ exists X, user_mode X k'.
Proof.
  assert ((fun k => user_tss k Eip) <$> booted = Some 20004) as He by (vm_compute; reflexivity).
  destruct booted as [k'|] eqn:E; [|discriminate He]. exists k'. split; [done|]. split; [by injection He|].
  assert (power_on boot_example) as Hon by (split; [split; reflexivity|reflexivity|reflexivity]).
  assert (boot 1 2 3 ∅ 100 200 150 160 300 boot_example = Ret (tt, k')) as Hk.
  { unfold booted in E. destruct (boot 1 2 3 ∅ 100 200 150 160 300 boot_example) as [[[] k1]| | |]; congruence. }
  destruct (boot_well_formed 1 2 3 ∅ 100 200 150 160 300 boot_example k' Hon Hk) as (kd & _ & _ & _ & _ & Hu).
  exists (refs (k_ext kd).1). apply Hu. apply rtc_refl.
Defined.
End small_boot.
