(* ===== verification/BootMemory.v ===== *)
(** * BootMemory: the memory that src/src/crt_init.cpp and src/src/main.cpp set up

    The two heaps, the copy of what the boot loader left (struct
    multiboot_info and the command line), the arguments of the first program
    and the stacks of the processes, at the places that src/ldscript.ld
    gives.  The devices and the first process are in Boot.v; what is printed
    is left out. *)
From S2P Require Import Prelude Mem CString Heap Malloc UserLib Kernel Process Cmdline Boot.

(** ** Definitions *)

(** The memory and the static pointers: [hKernelHeap] of heap.c,
    [kernel_stack_pos] and [user_stack_pos] of Process.hpp. *)
Record boot_state := BootState {
  b_mem : mem;
  b_kernel_heap : Z;
  b_kernel_stack : Z;
  b_user_stack : Z
}.

Definition set_b_mem m s := BootState m (b_kernel_heap s) (b_kernel_stack s) (b_user_stack s).
Definition set_b_kernel_heap h s := BootState (b_mem s) h (b_kernel_stack s) (b_user_stack s).
Definition set_kernel_stack p s := BootState (b_mem s) (b_kernel_heap s) p (b_user_stack s).
Definition set_user_stack p s := BootState (b_mem s) (b_kernel_heap s) (b_kernel_stack s) p.

Definition bmem {A} (p : prog mem A) : prog boot_state A := zoom b_mem set_b_mem p.
Definition bheap {A} (p : prog Z A) : prog boot_state A := zoom b_kernel_heap set_b_kernel_heap p.
Definition setKernelStack (addr : Z) : prog boot_state unit := pmodify (set_kernel_stack addr).
Definition setUserStack (addr : Z) : prog boot_state unit := pmodify (set_user_stack addr).

(** multiboot.h *)
Definition MULTIBOOT_BOOTLOADER_MAGIC : Z := 0x2BADB002.
Definition mbi_flags (info : Z) : Z := info.
Definition mbi_mem_upper (info : Z) : Z := info + 8.
Definition mbi_boot_device (info : Z) : Z := info + 12.
Definition mbi_cmdline (info : Z) : Z := info + 16.
Definition sizeof_multiboot_info : Z := 120.

(** [userspace] of the linker script. *)
Definition userspace : Z := 0x2000000.

(** [((uintptr_t)(p)) / (a) * (a)] *)
Definition ALIGN_FLOOR (p a : Z) : Z := u32 (p / a * a).
(** [(flags) & (1 << (bit))] *)
Definition CHECK_FLAG (flags bit : Z) : Z := Z.land flags (Z.shiftl 1 bit).

Definition PROCESS_STACK_ALIGNMENT : Z := 4096.
Definition kernel_cmdline_size : Z := 512.

Section boot_memory.
(** Addresses that the linker chooses: of the boot heap, of the end of the
    image, and of the globals. *)
Variables KERNEL_BOOT_STACK_PROTECTOR KERNEL_BOOT_HEAP_START KERNEL_BOOT_HEAP_END _end : Z.
Variables mbi_info kernel_cmdline : Z.

Definition crt_init_memory (magic info_addr : Z) : prog boot_state unit :=
  bmem (store32 KERNEL_BOOT_STACK_PROTECTOR 0x1919810);;
  h ← bmem (HeapInitialize (u32 (KERNEL_BOOT_HEAP_END - KERNEL_BOOT_HEAP_START)) KERNEL_BOOT_HEAP_START);
  bheap (setKernelHeap h);;
  if negb (magic =? MULTIBOOT_BOOTLOADER_MAGIC) then ppanic "magic == 0x2BADB002"
  else
    bmem (memcpy mbi_info info_addr sizeof_multiboot_info);;
    cmdline ← bmem (load32 (mbi_cmdline mbi_info));
    bmem (strlcpy kernel_cmdline cmdline kernel_cmdline_size);;
    mret tt.

(** The loop of enter_main() over the pointers to constructors; [call] runs the
    function at an address. *)
Fixpoint run_constructors (fuel : nat) (call : Z -> prog boot_state unit) (p __init_array_end : Z) : prog boot_state unit :=
  match fuel with
  | O => pnofuel
  | S fuel =>
      if p =? __init_array_end then mret tt
      else f ← bmem (load32 p); call f;; run_constructors fuel call (p + 4) __init_array_end
  end.

(** [mem_upper] of main(). *)
Definition read_mem_upper : prog boot_state Z :=
  flags ← bmem (load32 (mbi_flags mbi_info));
  if CHECK_FLAG flags 0 =? 0 then ppanic "Multiboot info doesn't have memory info"
  else
    mem_upper ← bmem (load32 (mbi_mem_upper mbi_info));
    mret (ALIGN_FLOOR (u32 (mem_upper * 1024)) 8192).

(** [boot_device] of main(): drive, partition and its sub partitions. *)
Definition read_boot_device : prog boot_state (list Z) :=
  flags ← bmem (load32 (mbi_flags mbi_info));
  if CHECK_FLAG flags 1 =? 0 then ppanic "Multiboot info doesn't have boot disk info"
  else
    d ← bmem (load32 (mbi_boot_device mbi_info));
    mret [u8 (Z.shiftr d 24); u8 (Z.shiftr d 16); u8 (Z.shiftr d 8); u8 d].

(** The heap behind the image, and the stacks. *)
Definition init_stacks (mem_upper : Z) : prog boot_state unit :=
  h ← bmem (HeapInitialize (u32 (userspace - _end)) _end);
  bheap (setKernelHeap h);;
  h ← bheap getKernelHeap;
  p ← bmem (HeapAlloc h 0 (MAX_PROCESS_NUM * PROCESS_STACK_SIZE + PROCESS_STACK_ALIGNMENT));
  setKernelStack (ALIGN_CEIL p PROCESS_STACK_ALIGNMENT);;
  setUserStack (u32 (mem_upper - MAX_PROCESS_NUM * PROCESS_STACK_SIZE)).

(** main() from [args] on; the result is [init_path], [args] and
    [boot_device]. *)
Definition main_memory (dashes default_init : Z) : prog boot_state (Z * Z * list Z) :=
  h ← bheap getKernelHeap;
  args ← bmem (malloc h (4 * (PROCESS_MAX_ARGUMENTS + 1)));
  bmem (clear_args (Z.to_nat (PROCESS_MAX_ARGUMENTS + 1)) args);;
  mem_upper ← read_mem_upper;
  boot_device ← read_boot_device;
  init_path ← bmem (parse_cmdline dashes kernel_cmdline default_init args);
  init_stacks mem_upper;;
  mret (init_path, args, boot_device).
End boot_memory.

(** ** Lemmas *)

Lemma bmem_at {A} (p : prog mem A) s a m : p (b_mem s) = Ret (a, m) -> bmem p s = Ret (a, set_b_mem m s).
Proof. intros H. unfold bmem, zoom. by rewrite H. Qed.

Lemma getKernelHeap_at s : bheap getKernelHeap s = Ret (b_kernel_heap s, s).
Proof. by destruct s. Qed.

Lemma ALIGN_CEIL_bounds p a : 0 <= p -> 0 < a -> p + a < 2 ^ 32 ->
  p <= ALIGN_CEIL p a < p + a /\ ALIGN_CEIL p a mod a = 0.
Proof.
  intros H1 Ha H2. unfold ALIGN_CEIL. rewrite (wrap_small 32 (p + a - 1)) by (unfold urange; lia).
  pose proof (Z.div_mod (p + a - 1) a ltac:(lia)). pose proof (Z.mod_pos_bound (p + a - 1) a ltac:(lia)).
  rewrite wrap_small by (unfold urange; nia). split; [nia|]. apply Z.mod_mul. lia.
Qed.

Lemma ALIGN_FLOOR_bounds p a : urange 32 p -> 0 < a ->
  p - a < ALIGN_FLOOR p a <= p /\ 0 <= ALIGN_FLOOR p a /\ ALIGN_FLOOR p a mod a = 0.
Proof.
  intros [H1 H2] Ha. unfold ALIGN_FLOOR.
  pose proof (Z.div_mod p a ltac:(lia)). pose proof (Z.mod_pos_bound p a ltac:(lia)).
  pose proof (Z.div_pos p a H1 Ha). rewrite wrap_small by (unfold urange; nia).
  split; [nia|]. split; [nia|]. apply Z.mod_mul. lia.
Qed.

Lemma keeps_HeapInitialize size h : keeps_mapped (HeapInitialize size h).
Proof. unfold HeapInitialize. auto 20 with mapped. Qed.

(** The loop that clears the arguments writes zero bytes. *)
Lemma clear_args_spec n args m : mapped m args (4 * Z.of_nat n) ->
  clear_args n args m = Ret (tt, write_bytes m args (replicate (4 * n) 0)).
Proof.
  revert args m. induction n as [|n IH]; intros args m Hm; [done|]. cbn [clear_args].
  rewrite (bind_Ret _ _ _ _ _ (store32_at m args 0 ltac:(apply (mapped_le _ _ _ _ Hm); lia))).
  rewrite IH by (apply mapped_write, (mapped_sub _ _ _ _ _ Hm); lia).
  replace (4 * S n)%nat with (4 + 4 * n)%nat by lia. rewrite replicate_add, write_bytes_app. done.
Qed.

Lemma zero_word m a n i : (i < n)%nat ->
  word_at (write_bytes m a (replicate (4 * n) 0)) (a + 4 * Z.of_nat i) 0.
Proof.
  intros Hi. split; [unfold urange; lia|]. pose proof (bytes_at_write m a (replicate (4 * n) 0)) as H.
  replace (4 * n)%nat with (4 * i + (4 + 4 * (n - i - 1)))%nat in H at 2 by lia.
  rewrite !replicate_add in H. apply bytes_at_app in H as [_ H]. apply bytes_at_app in H as [H _].
  rewrite length_replicate in H. by replace (a + 4 * Z.of_nat i) with (a + Z.of_nat (4 * i)) by lia.
Qed.

Lemma words_at_snoc_frame m a l v : (forall i p, l !! i = Some p -> word_at m (a + 4 * Z.of_nat i) p) ->
  word_at m (a + 4 * Z.of_nat (length l)) v -> UserLib.words_at m a (l ++ [v]).
Proof.
  intros Hl Hv i p Hi. apply lookup_app_Some in Hi as [Hi|[Hi1 Hi2]]; [by apply Hl|].
  apply list_lookup_singleton_Some in Hi2 as [Hi2 <-].
  by replace i with (length l) by lia.
Qed.

(** Every constructor is called, once and in order, as long as none of them
    changes the array. *)
Fixpoint call_all (call : Z -> prog boot_state unit) (fs : list Z) : prog boot_state unit :=
  match fs with [] => mret tt | f :: fs => call f;; call_all call fs end.

Lemma run_constructors_correct call fs p s :
  (forall f s u s' a l, call f s = Ret (u, s') -> UserLib.words_at (b_mem s) a l -> p <= a ->
     a + 4 * Z.of_nat (length l) <= p + 4 * Z.of_nat (length fs) -> UserLib.words_at (b_mem s') a l) ->
  UserLib.words_at (b_mem s) p fs ->
  run_constructors (S (length fs)) call p (p + 4 * Z.of_nat (length fs)) s = call_all call fs s.
Proof.
  intros Hkeep. assert (forall gs a s, UserLib.words_at (b_mem s) a gs -> p <= a ->
    a + 4 * Z.of_nat (length gs) = p + 4 * Z.of_nat (length fs) ->
    run_constructors (S (length gs)) call a (p + 4 * Z.of_nat (length fs)) s = call_all call gs s) as H.
  { induction gs as [|f gs IH]; intros a s1 Hw Ha He; cbn [run_constructors call_all length] in *.
    - by replace (a =? _) with true by lia.
    - replace (a =? _) with false by lia. apply words_at_cons in Hw as [Hf Hw].
      erewrite bind_Ret by (apply bmem_at, load32_at; exact Hf). destruct s1 as [m h ks us].
      unfold set_b_mem. cbn [b_mem b_kernel_heap b_kernel_stack b_user_stack]. unfold mbind, prog_bind.
      destruct (call f _) as [[u s2]| | |] eqn:E; try done.
      apply IH; [|lia|lia]. apply (Hkeep _ _ _ _ _ _ E Hw); lia. }
  intros Hw. by apply H.
Qed.

(** A word that was copied with the bytes around it. *)
Lemma copied_word m m' a a' l k v : bytes_at m a l -> bytes_at m' a' l -> word_at m (a + k) v ->
  0 <= k -> k + 4 <= Z.of_nat (length l) -> word_at m' (a' + k) v.
Proof.
  rewrite !bytes_at_lookup. intros Hl Hl' [Hv Hw] Hk1 Hk2. split; [done|].
  rewrite bytes_at_lookup in Hw |- *. intros i b Hi. specialize (Hw i b Hi).
  apply lookup_lt_Some in Hi. cbn [length le32] in Hi.
  destruct (lookup_lt_is_Some_2 l (Z.to_nat k + i)) as [c Hc]; [lia|].
  specialize (Hl _ _ Hc). specialize (Hl' _ _ Hc).
  replace (a + Z.of_nat (Z.to_nat k + i)) with (a + k + Z.of_nat i) in Hl by lia.
  replace (a' + Z.of_nat (Z.to_nat k + i)) with (a' + k + Z.of_nat i) in Hl' by lia. congruence.
Qed.

(** An allocation from the kernel's heap that finds a node. *)
Lemma HeapAlloc_some m h first bs size bs' off : heap_rep m h first bs -> 1 <= size -> size + 15 < 2 ^ 32 ->
  alloc_first_fit ((size + 7) / 8 * 8 + 8) bs = Some (bs', off) ->
  let p := first + off + 8 in
  exists m', HeapAlloc h 0 size m = Ret (p, m') /\ heap_rep m' h first bs' /\ total bs' = total bs /\
    (forall x, x < h \/ first + total bs <= x -> m' !! x = m !! x) /\
    (forall x, p <= x < p + size -> in_payload first bs' x) /\
    first + 8 <= p /\ p + size <= first + total bs /\ p mod 8 = 0.
Proof.
  intros Hrep H1 H2 E p.
  pose proof (HeapAlloc_spec m h 0 h first bs size Hrep ltac:(by right) H1 H2) as Ha.
  unfold HeapAlloc_contract in Ha. rewrite E in Ha. destruct Ha as (m' & Hrun & Hrep' & Hf & H8 & Hin & _).
  pose proof (hw_sizes _ _ (hr_wf _ _ _ _ Hrep')) as Hok.
  assert (total bs' = total bs) as Et.
  { destruct (alloc_first_fit_cases ((size + 7) / 8 * 8 + 8) bs) as [[_ E']|(bs1 & n & bs2 & -> & _ & _ & E')];
      [congruence|]. rewrite E in E'. injection E' as -> _. rewrite !total_app, total_taken. done. }
  exists m'. split; [done|]. split; [done|]. split; [done|].
  split; [intros x Hx; apply Hf; tauto|]. split; [intros x Hx; by apply Hin|].
  pose proof (in_payload_range _ _ _ Hok (proj1 (Hin p ltac:(lia)))).
  pose proof (in_payload_range _ _ _ Hok (proj1 (Hin (p + size - 1) ltac:(lia)))). split; [lia|]. split; [lia|done].
Qed.

(** ** What crt_init() leaves *)

(** The start of the image, and the sizes that main() asks for. *)
Definition physbase : Z := 0x400000.
Definition stacks_size : Z := MAX_PROCESS_NUM * PROCESS_STACK_SIZE.

Section layout.
Variables prot hstart hend _end mbi line dashes : Z.

(** The globals and the constants lie below the boot stack, which lies below
    the boot heap; the rest of the memory below the programs has room for the
    stacks of the kernel. *)
Record image_layout : Prop := {
  il_globals : physbase <= mbi /\ mbi + sizeof_multiboot_info <= prot /\
    physbase <= line /\ line + kernel_cmdline_size <= prot;
  il_apart : mbi + sizeof_multiboot_info <= line \/ line + kernel_cmdline_size <= mbi;
  il_dashes : physbase <= dashes /\ dashes + 3 <= mbi /\ dashes + 3 <= line;
  il_heap : prot + 4 <= hstart /\ hstart + 32 <= hend /\ hend <= _end;
  il_end : _end + stacks_size + PROCESS_STACK_ALIGNMENT + 64 <= userspace
}.

(** The first node of a heap. *)
Definition first_node (h : Z) : Z := ALIGN_CEIL (h + sizeof_HeapInfo) 8.

Record booted (bs : list node) (s : list Z) (flags up dev : Z) (st : boot_state) : Prop := {
  bt_handle : b_kernel_heap st = hstart;
  bt_rep : heap_rep (b_mem st) hstart (first_node hstart) bs;
  bt_total : first_node hstart + total bs = hend;
  bt_line : cstr_at (b_mem st) line s;
  bt_short : (length s < 512)%nat;
  bt_flags : word_at (b_mem st) (mbi_flags mbi) flags;
  bt_upper : word_at (b_mem st) (mbi_mem_upper mbi) up;
  bt_device : word_at (b_mem st) (mbi_boot_device mbi) dev;
  bt_dashes : cstr_at (b_mem st) dashes (chars "--");
  bt_room : mapped (b_mem st) _end (userspace - _end)
}.

Ltac boot_unfold := unfold sizeof_multiboot_info, kernel_cmdline_size, physbase, userspace, stacks_size,
  mbi_flags, mbi_mem_upper, mbi_boot_device, mbi_cmdline,
  PROCESS_STACK_ALIGNMENT, MAX_PROCESS_NUM, PROCESS_STACK_SIZE in *.

(** The memory that the boot loader hands over: its structure and the command
    line lie below the image. *)
Record loaded (m : mem) (info cmdline : Z) (s : list Z) (flags up dev : Z) : Prop := {
  ld_info : exists l, bytes_at m info l /\ Forall (urange 8) l /\ Z.of_nat (length l) = sizeof_multiboot_info;
  ld_below : 0 <= info /\ info + sizeof_multiboot_info <= physbase;
  ld_flags : word_at m (mbi_flags info) flags;
  ld_upper : word_at m (mbi_mem_upper info) up;
  ld_device : word_at m (mbi_boot_device info) dev;
  ld_cmdline : word_at m (mbi_cmdline info) cmdline;
  ld_string : cstr_at m cmdline s;
  ld_string_below : 0 <= cmdline /\ cmdline + Z.of_nat (length s) < physbase;
  ld_dashes : cstr_at m dashes (chars "--");
  ld_image : mapped m physbase (userspace - physbase)
}.

Lemma loaded_frame m m' info cmdline s flags up dev : image_layout -> loaded m info cmdline s flags up dev ->
  mapped m' physbase (userspace - physbase) -> (forall x, x < prot -> m' !! x = m !! x) ->
  loaded m' info cmdline s flags up dev.
Proof.
  intros [Hg Hap Hd Hh He] [(l & Hb & Hl & Hlen) Hib Hfl Hup Hdev Hcl Hs Hsb Hda Him] Him' Hf. boot_unfold.
  assert (forall k v, 0 <= k <= 116 -> word_at m (info + k) v -> word_at m' (info + k) v) as Hw
    by (intros k v Hk Hw; apply (word_at_frame m); [done|]; intros x Hx; apply Hf; lia).
  rewrite <- (Z.add_0_r info) in Hfl. split; boot_unfold; try done; try (apply Hw; [lia|done]).
  - exists l. split; [|done]. apply (bytes_at_frame m); [done|]. intros x Hx. apply Hf. lia.
  - rewrite <- (Z.add_0_r info). apply Hw; [lia|done].
  - apply (cstr_at_frame m); [done|]. intros x Hx. apply Hf. lia.
  - apply (cstr_at_frame m); [done|]. cbn [length chars]. intros x Hx. apply Hf. simpl in Hx. lia.
Qed.

(** The boot heap. *)
Lemma crt_heap_spec m : image_layout -> mapped m physbase (userspace - physbase) ->
  exists m1 m2, store32 prot 0x1919810 m = Ret (tt, m1) /\
    HeapInitialize (u32 (hend - hstart)) hstart m1 = Ret (hstart, m2) /\
    heap_rep m2 hstart (first_node hstart) [(true, hend - first_node hstart)] /\
    mapped m2 physbase (userspace - physbase) /\ (forall x, x < prot \/ hend <= x -> m2 !! x = m !! x).
Proof.
  intros [Hg Hap Hd Hh He] Him. boot_unfold. set (m1 := write_bytes m prot (le32 0x1919810)).
  assert (mapped m1 0x400000 (0x2000000 - 0x400000)) as Him1 by by apply mapped_write.
  assert (store32 prot 0x1919810 m = Ret (tt, m1)) as H1 by (apply store32_at, (mapped_sub _ _ _ _ _ Him); lia).
  destruct (HeapInitialize_correct m1 (hend - hstart) hstart) as (m2 & H2 & Hrep & _ & Hf2);
    [apply (mapped_sub _ _ _ _ _ Him1); lia|lia|lia|lia|unfold AVAIL_MAGIC; lia|].
  replace (hstart + (hend - hstart)) with hend in * by lia. rewrite wrap_small by (unfold urange; lia).
  exists m1, m2. split; [done|]. split; [done|]. split; [done|].
  split; [exact (keeps_HeapInitialize _ _ _ _ _ H2 _ _ Him1)|].
  intros x Hx. rewrite Hf2 by lia. apply lookup_write_out. cbn. lia.
Qed.

(** The copies of the structure and of the command line. *)
Lemma crt_copy_spec m info cmdline s flags up dev : image_layout -> loaded m info cmdline s flags up dev ->
  exists m1 n m2, memcpy mbi info sizeof_multiboot_info m = Ret (mbi, m1) /\
    word_at m1 (mbi_cmdline mbi) cmdline /\
    strlcpy line cmdline kernel_cmdline_size m1 = Ret (n, m2) /\ cstr_at m2 line (take 511 s) /\
    word_at m2 (mbi_flags mbi) flags /\ word_at m2 (mbi_mem_upper mbi) up /\ word_at m2 (mbi_boot_device mbi) dev /\
    cstr_at m2 dashes (chars "--") /\ mapped m2 physbase (userspace - physbase) /\
    (forall x, prot <= x -> m2 !! x = m !! x).
Proof.
  intros [Hg Hap Hd Hh He] [(l & Hb & Hl & Hlen) Hib Hfl Hup Hdev Hcl Hs Hsb Hda Him]. boot_unfold.
  pose proof (memcpy_spec mbi info l m Hl Hb) as H3. rewrite Hlen in H3.
  specialize (H3 ltac:(apply (mapped_sub _ _ _ _ _ Him); lia) ltac:(lia)). set (m3 := write_bytes m mbi l) in *.
  assert (forall k v, 0 <= k <= 116 -> word_at m (info + k) v -> word_at m3 (mbi + k) v) as Hcopy
    by (intros k v Hk Hw; apply (copied_word m m3 info mbi l k v Hb (bytes_at_write m mbi l) Hw); lia).
  assert (cstr_at m3 cmdline s) as Hs3 by (apply cstr_at_write_out; [lia|done]).
  pose proof (strlcpy_correct line cmdline s 512 m3 Hs3 ltac:(lia)
    ltac:(apply mapped_write, (mapped_sub _ _ _ _ _ Him); lia) ltac:(lia) ltac:(lia)) as H4. cbn [Z.eqb] in H4.
  change (Z.to_nat 512 - 1)%nat with 511%nat in H4. set (m4 := write_bytes m3 line (take 511 s ++ [0])) in *.
  assert (Z.of_nat (length (take 511 s ++ [0])) <= 512) as Hlt by (rewrite length_app, length_take; change (length [0]) with 1%nat; lia).
  assert (forall k v, 0 <= k <= 116 -> word_at m (info + k) v -> word_at m4 (mbi + k) v) as Hcopy4
    by (intros k v Hk Hw; apply word_at_write_out; [lia|by apply Hcopy]).
  exists m3, (Z.of_nat (length s)), m4. split; [done|]. split; [by apply Hcopy; [lia|]|]. split; [done|].
  split; [split; [apply list.Forall_take, Hs|apply bytes_at_write]|].
  split; [rewrite <- (Z.add_0_r mbi); apply Hcopy4; [lia|by rewrite Z.add_0_r]|].
  split; [by apply Hcopy4; [lia|]|]. split; [by apply Hcopy4; [lia|]|].
  split; [apply cstr_at_write_out; [simpl; lia|]; apply cstr_at_write_out; [simpl; lia|done]|].
  split; [by apply mapped_write, mapped_write|]. intros x Hx. unfold m4, m3. rewrite !lookup_write_out by lia. done.
Qed.

Lemma crt_init_memory_spec info cmdline s flags up dev st : image_layout ->
  loaded (b_mem st) info cmdline s flags up dev ->
  exists st', crt_init_memory prot hstart hend mbi line MULTIBOOT_BOOTLOADER_MAGIC info st = Ret (tt, st') /\
    booted [(true, hend - first_node hstart)] (take 511 s) flags up dev st'.
Proof.
  intros Hlay Hld. destruct (crt_heap_spec _ Hlay (ld_image _ _ _ _ _ _ _ Hld)) as (m1 & m2 & H1 & H2 & Hrep & Him & Hf).
  pose proof (loaded_frame _ m2 _ _ _ _ _ _ Hlay Hld Him ltac:(intros; apply Hf; lia)) as Hld2.
  destruct (crt_copy_spec m2 _ _ _ _ _ _ Hlay Hld2) as (m3 & n & m4 & H3 & Hc & H4 & Hs & Hfl & Hup & Hdev & Hda & Him4 & Hf4).
  unfold crt_init_memory. eexists. split.
  - rewrite (bind_Ret _ _ _ _ _ (bmem_at _ _ _ _ H1)), (bind_Ret _ _ _ _ _ (bmem_at _ (set_b_mem m1 _) _ _ H2)).
    erewrite bind_Ret by reflexivity. rewrite Z.eqb_refl. cbn [negb].
    erewrite bind_Ret by (apply bmem_at; exact H3). erewrite bind_Ret by (apply bmem_at, load32_at; exact Hc).
    erewrite bind_Ret by (apply bmem_at; exact H4). reflexivity.
  - destruct Hlay. pose proof (hr_bound _ _ _ _ Hrep). boot_unfold. split; boot_unfold; cbn; try done.
    + apply (heap_client_frame m2); [done| |].
      * apply (mapped_sub _ _ _ _ _ Him4); cbn in *; lia.
      * intros x Hx. apply Hf4. unfold heap_client in Hx. lia.
    + lia.
    + rewrite length_take. lia.
    + apply (mapped_sub _ _ _ _ _ Him4); lia.
Qed.

(** ** What main() makes of it *)

(** The stacks and the heaps when main() hands over. *)
Record memory_ready (bs : list node) (top : Z) (st : boot_state) : Prop := {
  mr_handle : b_kernel_heap st = _end;
  mr_boot_heap : heap_rep (b_mem st) hstart (first_node hstart) bs;
  mr_kernel_heap : exists bs', heap_rep (b_mem st) _end (first_node _end) bs' /\
    forall x, b_kernel_stack st <= x < b_kernel_stack st + stacks_size -> in_payload (first_node _end) bs' x;
  mr_kernel_aligned : b_kernel_stack st mod PROCESS_STACK_ALIGNMENT = 0;
  mr_kernel_bounds : _end < b_kernel_stack st /\ b_kernel_stack st + stacks_size <= userspace;
  mr_user_aligned : b_user_stack st mod PROCESS_STACK_SIZE = 0;
  mr_user_bounds : userspace + MAX_PROCESS_NUM * PROCESS_USER_IMAGE_SPACE <= b_user_stack st /\
    b_user_stack st + stacks_size <= top
}.

(** The block of the arguments: within the boot heap, and empty. *)
Lemma main_args_spec bs s flags up dev st bs' off : image_layout -> booted bs s flags up dev st ->
  alloc_first_fit 80 bs = Some (bs', off) ->
  let args := first_node hstart + off + 8 in
  exists m1 m2, malloc hstart (4 * (PROCESS_MAX_ARGUMENTS + 1)) (b_mem st) = Ret (args, m1) /\
    clear_args (Z.to_nat (PROCESS_MAX_ARGUMENTS + 1)) args m1 = Ret (tt, m2) /\
    booted bs' s flags up dev (set_b_mem m2 st) /\
    (forall i, (i < 17)%nat -> word_at m2 (args + 4 * Z.of_nat i) 0) /\ mapped m2 args 68 /\
    (forall x, args <= x < args + 68 -> in_payload (first_node hstart) bs' x) /\ hstart < args /\ args + 68 <= hend.
Proof.
  intros Hlay [Hh Hrep Ht Hl Hs Hfl Hup Hdev Hda Hr] E args. unfold PROCESS_MAX_ARGUMENTS.
  change (4 * (16 + 1)) with 68. change (Z.to_nat (16 + 1)) with 17%nat.
  destruct (HeapAlloc_some _ _ _ _ 68 _ _ Hrep ltac:(lia) ltac:(lia) E) as (m1 & H1 & Hrep1 & Et & Hf & Hin & Hlo & Hhi & _).
  fold args in H1, Hin, Hlo, Hhi. pose proof (hr_bound _ _ _ _ Hrep1) as Hb. destruct Hlay. boot_unfold.
  assert (mapped m1 args 68) as Hm by (apply (mapped_sub _ _ _ _ _ (hr_mapped _ _ _ _ Hrep1)); lia).
  pose proof (clear_args_spec 17 args m1 Hm) as H2. set (m2 := write_bytes m1 args _) in H2.
  assert (forall x, x < hstart \/ hend <= x -> m2 !! x = b_mem st !! x) as Hout.
  { intros x Hx. unfold m2. rewrite lookup_write_out by (rewrite length_replicate; lia). apply Hf. lia. }
  exists m1, m2. split; [exact H1|]. split; [done|]. split; [split; cbn [b_mem b_kernel_heap set_b_mem]; boot_unfold; try done|].
  - apply heap_client_write; [done|]. intros x Hx. left. apply Hin. rewrite length_replicate in Hx. lia.
  - lia.
  - apply (cstr_at_frame (b_mem st)); [done|]. intros x Hx. apply Hout. lia.
  - apply (word_at_frame (b_mem st)); [done|]. intros x Hx. apply Hout. lia.
  - apply (word_at_frame (b_mem st)); [done|]. intros x Hx. apply Hout. lia.
  - apply (word_at_frame (b_mem st)); [done|]. intros x Hx. apply Hout. lia.
  - apply (cstr_at_frame (b_mem st)); [done|]. intros x Hx. simpl in Hx. apply Hout. lia.
  - intros x Hx. rewrite Hout by lia. by apply Hr.
  - split; [intros i Hi; by apply (zero_word m1 args 17)|]. split; [by apply mapped_write|].
    split; [done|]. lia.
Qed.

(** The line is cut in place; the arguments, ended by NULL, fill the block. *)
Lemma main_parse_spec bs s flags up dev st default args : image_layout -> booted bs s flags up dev st ->
  urange 32 default -> (forall i, (i < 17)%nat -> word_at (b_mem st) (args + 4 * Z.of_nat i) 0) ->
  mapped (b_mem st) args 68 -> (forall x, args <= x < args + 68 -> in_payload (first_node hstart) bs x) ->
  hstart < args -> args + 68 <= hend ->
  let '(path, argv) := spec_cmd (cmd_words line s) default in
  exists m, parse_cmdline dashes line default args (b_mem st) = Ret (path, m) /\
    heap_rep m hstart (first_node hstart) bs /\ mapped m _end (userspace - _end) /\
    (length argv <= 16)%nat /\ UserLib.words_at m args (argv ++ [0]) /\
    (forall p w, (p, w) ∈ cmd_words line s -> cstr_at m p w).
Proof.
  intros Hlay [Hh Hrep Ht [Hc Hl] Hs Hfl Hup Hdev Hda Hr] Hdef Hz Hm Hin Ha1 Ha2. destruct Hlay. boot_unfold.
  pose proof (parse_cmdline_spec (b_mem st) s dashes line args Hc Hs ltac:(lia) Hda ltac:(lia) ltac:(lia) default Hl Hdef Hm) as Hp.
  destruct (spec_cmd _ _) as [path argv]. destruct Hp as (m & Hrun & Hcut).
  pose proof Hcut as [_ Hargs Hroom Hcount Hout].
  assert (forall x, hstart <= x -> ~ (args <= x < args + 68) -> m !! x = b_mem st !! x) as Hf
    by (intros x H1 H2; apply Hout; unfold elsewhere; lia).
  exists m. split; [done|]. split; [|split; [|split; [done|split]]].
  - apply (heap_client_frame (b_mem st)); [done| |].
    + intros x Hx. pose proof (hr_bound _ _ _ _ Hrep). destruct (decide (args <= x < args + 68)); [by apply Hroom|].
      rewrite Hf by lia. by apply (hr_mapped _ _ _ _ Hrep).
    + intros x Hx. apply Hf; [unfold heap_client in Hx; lia|]. intros H. apply Hx. left. by apply Hin.
  - intros x Hx. rewrite Hf by lia. by apply Hr.
  - apply words_at_snoc_frame; [done|]. apply (word_at_frame (b_mem st)); [by apply Hz; lia|].
    intros x Hx. apply Hout. unfold elsewhere. lia.
  - intros p w. by apply (cut_words_strings (b_mem st) s line args Hc argv).
Qed.

(** The heap behind the image, with the stacks of the kernel in it. *)
Lemma init_stacks_spec bs st mem_upper top : image_layout -> heap_rep (b_mem st) hstart (first_node hstart) bs ->
  first_node hstart + total bs = hend -> mapped (b_mem st) _end (userspace - _end) ->
  mem_upper mod 8192 = 0 -> mem_upper <= top < 2 ^ 32 ->
  userspace + MAX_PROCESS_NUM * PROCESS_USER_IMAGE_SPACE + stacks_size <= mem_upper ->
  exists st', init_stacks _end mem_upper st = Ret (tt, st') /\ memory_ready bs top st' /\
    (forall x, x < _end -> b_mem st' !! x = b_mem st !! x).
Proof.
  intros Hlay Hrep Ht Hr H8 Hup Huser. destruct Hlay. pose proof (hr_bound _ _ _ _ Hrep) as Hb.
  unfold PROCESS_USER_IMAGE_SPACE in *. boot_unfold.
  destruct (HeapInitialize_correct (b_mem st) (0x2000000 - _end) _end) as (m1 & H1 & Hrep1 & Hfirst & Hf1);
    [done|lia|lia|lia|unfold AVAIL_MAGIC; lia|].
  change (ALIGN_CEIL (_end + 8) 8) with (first_node _end) in Hrep1, Hfirst.
  replace (_end + (0x2000000 - _end)) with 0x2000000 in * by lia.
  set (size := 32 * 8192 + 4096) in *. set (n := 0x2000000 - first_node _end) in *.
  assert (alloc_first_fit ((size + 7) / 8 * 8 + 8) [(true, n)] = Some (taken 266248 n, 0)) as E.
  { change ((size + 7) / 8 * 8 + 8) with 266248. cbn [alloc_first_fit andb]. unfold taken.
    destruct (Z.leb_spec 266248 n); [|unfold n in *; lia]. by destruct (_ <=? _). }
  destruct (HeapAlloc_some _ _ _ _ size _ _ Hrep1 ltac:(lia) ltac:(lia) E) as (m2 & H2 & Hrep2 & Et & Hf2 & Hin & Hlo & Hhi & _).
  set (p := first_node _end + 0 + 8) in *. cbn in Hhi.
  destruct (ALIGN_CEIL_bounds p 4096 ltac:(lia) ltac:(lia) ltac:(lia)) as [Hp1 Hp2].
  eexists. split.
  - unfold init_stacks. boot_unfold. rewrite (wrap_small 32 (_ - _end)), (wrap_small 32 (mem_upper - _)) by (unfold urange; lia).
    erewrite bind_Ret by (apply bmem_at; exact H1). erewrite bind_Ret by reflexivity. erewrite bind_Ret by reflexivity.
    erewrite bind_Ret by (apply bmem_at; exact H2). erewrite bind_Ret by reflexivity. reflexivity.
  - split; [|intros x Hx; cbn; rewrite Hf2 by lia; apply Hf1; lia].
    split; cbn [b_mem b_kernel_heap b_kernel_stack b_user_stack set_b_mem set_kernel_stack set_user_stack set_b_kernel_heap];
      boot_unfold; try done; try lia.
    + apply (heap_client_frame (b_mem st)); [done| |].
      * intros x Hx. rewrite Hf2, Hf1 by lia. by apply (hr_mapped _ _ _ _ Hrep).
      * intros x Hx. unfold heap_client in Hx. rewrite Hf2, Hf1 by lia. done.
    + eexists. split; [exact Hrep2|]. intros x Hx. apply Hin. lia.
    + by rewrite Zminus_mod, H8.
    + unfold PROCESS_USER_IMAGE_SPACE. lia.
Qed.

Lemma read_mem_upper_spec bs s flags up dev st : booted bs s flags up dev st ->
  read_mem_upper mbi st = if CHECK_FLAG flags 0 =? 0 then Panic "Multiboot info doesn't have memory info"
    else Ret (ALIGN_FLOOR (u32 (up * 1024)) 8192, st).
Proof.
  intros Hb. unfold read_mem_upper. erewrite bind_Ret by (apply bmem_at, load32_at, Hb).
  destruct (_ =? 0); [done|]. erewrite bind_Ret by (apply bmem_at, load32_at, Hb). by destruct st.
Qed.

Lemma read_boot_device_spec bs s flags up dev st : booted bs s flags up dev st ->
  read_boot_device mbi st = if CHECK_FLAG flags 1 =? 0 then Panic "Multiboot info doesn't have boot disk info"
    else Ret ([u8 (Z.shiftr dev 24); u8 (Z.shiftr dev 16); u8 (Z.shiftr dev 8); u8 dev], st).
Proof.
  intros Hb. unfold read_boot_device. erewrite bind_Ret by (apply bmem_at, load32_at, Hb).
  destruct (_ =? 0); [done|]. erewrite bind_Ret by (apply bmem_at, load32_at, Hb). by destruct st.
Qed.

(** C15: after crt_init(), on a machine with [up] KiB, main() cuts the command
    line into an array that ends with NULL inside the boot heap, makes a second
    heap of the memory between the image and the programs, and takes from it
    the kernel stacks of all processes, 4096-aligned; the user stacks lie above
    the images of all programs and below the end of the memory, and the boot
    heap keeps working.  It panics when the boot loader did not say how much
    memory or which disk there is. *)
Theorem boot_memory_correct bs s flags up dev st default bs' off : image_layout -> booted bs s flags up dev st ->
  alloc_first_fit 80 bs = Some (bs', off) -> urange 32 default ->
  userspace + MAX_PROCESS_NUM * PROCESS_USER_IMAGE_SPACE + stacks_size + 8192 <= up * 1024 < 2 ^ 32 ->
  let args := first_node hstart + off + 8 in
  let '(path, argv) := spec_cmd (cmd_words line s) default in
  if CHECK_FLAG flags 0 =? 0 then
    main_memory _end mbi line dashes default st = Panic "Multiboot info doesn't have memory info"
  else if CHECK_FLAG flags 1 =? 0 then
    main_memory _end mbi line dashes default st = Panic "Multiboot info doesn't have boot disk info"
  else exists st',
    main_memory _end mbi line dashes default st =
      Ret ((path, args, [u8 (Z.shiftr dev 24); u8 (Z.shiftr dev 16); u8 (Z.shiftr dev 8); u8 dev]), st') /\
    memory_ready bs' (up * 1024) st' /\
    UserLib.words_at (b_mem st') args (argv ++ [0]) /\
    (forall p w, (p, w) ∈ cmd_words line s -> cstr_at (b_mem st') p w).
Proof.
  intros Hlay Hb E Hdef Hup args. unfold MAX_PROCESS_NUM, PROCESS_USER_IMAGE_SPACE in Hup.
  assert (0 <= stacks_size) by (vm_compute; discriminate).
  destruct (main_args_spec _ _ _ _ _ _ _ _ Hlay Hb E) as (m1 & m2 & H1 & H2 & Hb2 & Hz & Hm & Hin & Ha1 & Ha2).
  pose proof (main_parse_spec _ _ _ _ _ _ default _ Hlay Hb2 Hdef Hz Hm Hin Ha1 Ha2) as Hp. fold args in H1, H2, Hp.
  destruct (spec_cmd _ _) as [path argv]. destruct Hp as (m3 & H3 & Hrep3 & Hroom & Hcount & Hw & Hstr).
  unfold main_memory. rewrite (bind_Ret _ _ _ _ _ (getKernelHeap_at _)), (bt_handle _ _ _ _ _ _ Hb).
  rewrite (bind_Ret _ _ _ _ _ (bmem_at _ _ _ _ H1)), (bind_Ret _ _ _ _ _ (bmem_at _ (set_b_mem m1 _) _ _ H2)).
  change (set_b_mem m2 (set_b_mem m1 st)) with (set_b_mem m2 st).
  pose proof (read_mem_upper_spec _ _ _ _ _ _ Hb2) as Hu. destruct (_ =? 0); [by unfold mbind, prog_bind; rewrite Hu|].
  rewrite (bind_Ret _ _ _ _ _ Hu). clear Hu.
  pose proof (read_boot_device_spec _ _ _ _ _ _ Hb2) as Hd. destruct (_ =? 0); [by unfold mbind, prog_bind; rewrite Hd|].
  rewrite (bind_Ret _ _ _ _ _ Hd), (bind_Ret _ _ _ _ _ (bmem_at _ (set_b_mem m2 st) _ _ H3)). clear Hd.
  rewrite (wrap_small 32 (up * 1024)) by (unfold urange, userspace in *; lia).
  destruct (ALIGN_FLOOR_bounds (up * 1024) 8192 ltac:(unfold urange, userspace in *; lia) ltac:(lia)) as (Hu1 & Hu2 & Hu3).
  destruct (init_stacks_spec bs' (set_b_mem m3 st) (ALIGN_FLOOR (up * 1024) 8192) (up * 1024) Hlay Hrep3
    (bt_total _ _ _ _ _ _ Hb2) Hroom Hu3 ltac:(lia) ltac:(unfold MAX_PROCESS_NUM, PROCESS_USER_IMAGE_SPACE; lia)) as (st' & H4 & Hready & Hf).
  change (set_b_mem m3 (set_b_mem m2 st)) with (set_b_mem m3 st). rewrite (bind_Ret _ _ _ _ _ H4).
  pose proof (proj2 (proj2 (il_heap Hlay))) as Hend.
  exists st'. split; [done|]. split; [done|]. split.
  - intros i v Hi. apply (word_at_frame m3); [by apply Hw|]. apply lookup_lt_Some in Hi. rewrite length_app in Hi. cbn in Hi.
    intros x Hx. apply Hf. lia.
  - intros p w Hin'. apply (cstr_at_frame m3); [by apply Hstr|]. intros x Hx. apply Hf.
    apply cmd_words_in in Hin' as (pre & r & -> & -> & _). pose proof (bt_short _ _ _ _ _ _ Hb) as Hlt.
    rewrite !length_app in Hlt. destruct Hlay. boot_unfold. lia.
Qed.
End layout.

(** ** The theorem at a concrete machine *)

(** 128 MiB, the first partition of the first hard disk, a small boot heap. *)
Definition boot_info_example : list Z :=
  le32 3 ++ le32 640 ++ le32 131072 ++ le32 0x8000FFFF ++ le32 2000 ++ replicate 100 0.
Definition boot_image : mem := write_bytes ∅ physbase (replicate (Z.to_nat (userspace - physbase)) 0).
Definition boot_example (image : mem) : mem :=
  write_bytes (write_bytes (write_bytes image physbase (chars "--" ++ [0])) 1000 boot_info_example)
    2000 (chars "/k -- -v" ++ [0]).

Lemma boot_info_words m a : bytes_at m a boot_info_example ->
  word_at m a 3 /\ word_at m (a + 8) 131072 /\ word_at m (a + 12) 0x8000FFFF /\ word_at m (a + 16) 2000.
Proof.
  unfold boot_info_example. rewrite !bytes_at_app. intros (Hf & _ & Hu & Hd & Hc & _).
  cbn [length le32] in *. replace (a + Z.of_nat 4 + Z.of_nat 4) with (a + 8) in * by lia.
  replace (a + 8 + Z.of_nat 4) with (a + 12) in * by lia. replace (a + 12 + Z.of_nat 4) with (a + 16) in * by lia.
  split_and!; (split; [unfold urange; lia|done]).
Qed.

Lemma boot_example_layout : image_layout 0x400300 0x400310 0x400390 0x400390 0x400010 0x400100 physbase.
Proof. split; vm_compute; intuition discriminate. Qed.

Lemma boot_image_mapped : mapped boot_image physbase (userspace - physbase).
Proof.
  pose proof (bytes_at_mapped _ _ _ (bytes_at_write ∅ physbase (replicate (Z.to_nat (userspace - physbase)) 0))) as H.
  rewrite length_replicate, Z2Nat.id in H by (vm_compute; discriminate). exact H.
Qed.

Lemma boot_example_loaded image : mapped image physbase (userspace - physbase) ->
  loaded physbase (boot_example image) 1000 2000 (chars "/k -- -v") 3 131072 0x8000FFFF.
Proof.
  intros Him. assert (bytes_at (boot_example image) 1000 boot_info_example) as Hi
    by (apply bytes_at_write_out; [right; vm_compute; discriminate|apply bytes_at_write]).
  pose proof (boot_info_words _ _ Hi) as (Hf & Hu & Hd & Hc). split; try done.
  - exists boot_info_example. split; [done|]. split; [|done].
    apply (bool_decide_eq_true_1 _). vm_compute. reflexivity.
  - split; [mem_compute|]. apply bytes_at_write.
  - split; [mem_compute|]. apply bytes_at_write_out; [left; vm_compute; discriminate|].
    apply bytes_at_write_out; [left; vm_compute; discriminate|]. apply bytes_at_write.
  - by apply mapped_write, mapped_write, mapped_write.
Qed.

Lemma boot_memory_correct_witness :
  exists st1 st2,
    crt_init_memory 0x400300 0x400310 0x400390 0x400010 0x400100 MULTIBOOT_BOOTLOADER_MAGIC 1000
      (BootState (boot_example boot_image) 0 0 0) = Ret (tt, st1) /\
    main_memory 0x400390 0x400010 0x400100 physbase 0 st1 = Ret ((0x400100, 0x400320, [128; 0; 255; 255]), st2) /\
    b_kernel_stack st2 mod 4096 = 0 /\
    UserLib.words_at (b_mem st2) 0x400320 [0x400100; 0x400106; 0] /\ cstr_at (b_mem st2) 0x400106 (chars "-v").
Proof.
  destruct (crt_init_memory_spec 0x400300 0x400310 0x400390 0x400390 0x400010 0x400100 physbase 1000 2000
    (chars "/k -- -v") 3 131072 0x8000FFFF (BootState (boot_example boot_image) 0 0 0)
    boot_example_layout (boot_example_loaded _ boot_image_mapped)) as (st1 & H1 & Hb).
  change (0x400390 - first_node 0x400310) with 120 in Hb. change (take 511 (chars "/k -- -v")) with (chars "/k -- -v") in Hb.
  assert (userspace + MAX_PROCESS_NUM * PROCESS_USER_IMAGE_SPACE + stacks_size + 8192 <= 131072 * 1024 < 2 ^ 32) as Htop
    by (vm_compute; by split).
  pose proof (boot_memory_correct 0x400300 0x400310 0x400390 0x400390 0x400010 0x400100 physbase [(true, 120)]
    (chars "/k -- -v") 3 131072 0x8000FFFF st1 0 [(false, 80); (true, 40)] 0
    boot_example_layout Hb eq_refl ltac:(by split) Htop) as H2.
  change (spec_cmd _ _) with (0x400100, [0x400100; 0x400106]) in H2.
  destruct H2 as (st2 & H2 & Hready & Hw & Hs). exists st1, st2. split; [exact H1|]. split; [exact H2|].
  split; [apply Hready|]. split; [exact Hw|]. apply Hs. apply (bool_decide_eq_true_1 _). vm_compute. reflexivity.
Defined.
