(* ===== verification/System.v ===== *)
(** * System: the kernel with its file system, its terminals and its heap

    The interfaces through which the kernel proper reaches the rest of the
    system, [External] of Kernel.v and [Files] of Syscall.v, implemented by the
    models of the rest: the files of File.v and Directory.v, the terminals of
    Terminal.v, the special paths of SpecialPath.v and the heap of Heap.v.
    What is left open is the hardware: the BIOS, the ports and the screen. *)
From S2P Require Import Prelude Mem CString Heap Kernel Devices Process File FileSpec Directory DirectorySpec.
From S2P Require Import Keyboard Terminal TerminalSpec SpecialPath Invariant Syscall SyscallInv ForkExit.

(** The state behind the interfaces: the open files by their numbers, the file
    of the FAT, the two terminals with their line buffers, and the cursor of
    the early output. *)
Record machine (S : Type) := Machine {
  open_files : gmap Z file;
  next_file : Z;
  fat_file : seq_file;
  con_lines : line_buffer;
  con_state : vga S;
  com_lines : line_buffer;
  early_cursor : Z
}.
Arguments Machine {S} _ _ _ _ _ _ _.
Arguments open_files {S} _.
Arguments next_file {S} _.
Arguments fat_file {S} _.
Arguments con_lines {S} _.
Arguments con_state {S} _.
Arguments com_lines {S} _.
Arguments early_cursor {S} _.

(** The numbers of the devices; files are numbered from [FIRST_FILE] on. *)
Definition EARLY_DEVICE : Z := 0.
Definition COM1_DEVICE : Z := 1.
Definition CON_DEVICE : Z := 2.
Definition FIRST_FILE : Z := 3.

Section system.
Context {S : Type} `{HB : !Bios} `{HP : !PortIO S} `{HV : !VgaMachine S}.
(** The boot disk, its volume, the serial port, the bound of the polls of the
    serial line, and the heap that main() sets up. *)
Variable d : disk.
Variable info : fs_info.
Variable SERIAL_PORT : Z.
Variable polls : nat.
Variable hKernelHeap : Z.
Abbreviation world := (globals * machine S)%type.
Abbreviation wprog := (prog (mem * world)).

(** ** The parts of the state *)
Definition on_mem {A} (p : prog mem A) : wprog A := zoom fst (fun m x => (m, x.2)) p.
Definition on_machine {A} (p : prog (machine S) A) : wprog A :=
  zoom (fun x => x.2.2) (fun w x => (x.1, (x.2.1, w))) p.
Definition on_fat {A} (p : prog seq_file A) : prog (machine S) A :=
  zoom fat_file (fun f w => Machine (open_files w) (next_file w) f (con_lines w) (con_state w) (com_lines w) (early_cursor w)) p.
Definition on_con {A} (p : prog (line_buffer * vga S) A) : prog (machine S) A :=
  zoom (fun w => (con_lines w, con_state w))
    (fun x w => Machine (open_files w) (next_file w) (fat_file w) x.1 x.2 (com_lines w) (early_cursor w)) p.
(** The serial device works on the ports of the machine. *)
Definition on_ports {A} (p : prog S A) : prog (machine S) A :=
  zoom (fun w => vga_devices (con_state w))
    (fun s w => let v := con_state w in
      Machine (open_files w) (next_file w) (fat_file w) (con_lines w)
        (Vga (kbd_shift v) (kbd_buffer v) (text_cursor v) s) (com_lines w) (early_cursor w)) p.
Definition on_com {A} (p : prog (line_buffer * S) A) : prog (machine S) A :=
  zoom (fun w => (com_lines w, vga_devices (con_state w)))
    (fun x w => let v := con_state w in
      Machine (open_files w) (next_file w) (fat_file w) (con_lines w)
        (Vga (kbd_shift v) (kbd_buffer v) (text_cursor v) x.2) x.1 (early_cursor w)) p.

Definition put_file (n : Z) (f : file) (w : machine S) : machine S :=
  Machine (<[n := f]> (open_files w)) (next_file w) (fat_file w) (con_lines w) (con_state w) (com_lines w) (early_cursor w).
Definition on_file {A} (n : Z) (p : prog file A) : prog (machine S) A := fun w =>
  match open_files w !! n with
  | Some f =>
      match p f with
      | Ret (a, f) => Ret (a, put_file n f w)
      | Fault => Fault
      | Panic msg => Panic msg
      | NoFuel => NoFuel
      end
  | None => Fault
  end.

(** ** The terminals *)
#[local] Instance com_line_base : LineBase S := {
  base_getc := l ← serial_read SERIAL_PORT 1; mret (match l with Some (ch :: _) => Some ch | _ => None end);
  base_write := serial_write SERIAL_PORT polls;
  base_backspace := serial_backspace SERIAL_PORT polls
}.

(** What has been typed on the console lies in the ring of the keyboard. *)
Definition con_fuel : nat := Z.to_nat KBD_BUFFER_SIZE.

Definition early_output (l : list Z) : prog (machine S) unit := fun w =>
  (c ← on_ports (zoom machine_mem machine_set_mem (early_write VGA_TEXT_BASE l (early_cursor w)));
   pmodify (fun w => Machine (open_files w) (next_file w) (fat_file w) (con_lines w) (con_state w) (com_lines w) c)) w.

(** ** External: the virtual read and write of the objects *)
Definition read_bytes (dev size : Z) : prog (machine S) (Z * list Z) :=
  if dev =? CON_DEVICE then on_con (line_read con_fuel size)
  else if dev =? COM1_DEVICE then on_com (line_read polls size)
  else l ← on_file dev (file_read d info size); mret (Z.of_nat (length l), l).

Definition write_out (dev : Z) (l : list Z) : prog (machine S) unit :=
  if dev =? CON_DEVICE then on_con (on_base (vga_write l))
  else if dev =? COM1_DEVICE then on_ports (serial_write SERIAL_PORT polls l)
  else early_output l.

Definition system_external : External world := {|
  ext_is_input dev := negb (dev =? EARLY_DEVICE);
  ext_is_output dev := dev <? FIRST_FILE;
  ext_read dev buffer size :=
    '(r, l) ← on_machine (read_bytes dev size); on_mem (store_bytes buffer l);; mret r;
  ext_write dev data size :=
    l ← on_mem (load_bytes (Z.to_nat size) data); on_machine (write_out dev l);; mret size
|}.

(** ** Files: paths, files and memory *)
Definition cstring (a : Z) : prog mem (list Z) := n ← strlen a; load_bytes (Z.to_nat n) a.

(** The shared pointer to a new File object. *)
Definition new_file (f : file) : prog (machine S) Z := fun w =>
  Ret (next_file w, Machine (<[next_file w := f]> (open_files w)) (next_file w + 1) (fat_file w) (con_lines w)
    (con_state w) (com_lines w) (early_cursor w)).

(** [seek(0, SEEK_END)], [tell()], [seek(0, SEEK_SET)] *)
Definition measure : prog file Z :=
  file_seek 0 SEEK_END;; f ← pget; file_seek 0 SEEK_SET;; mret (file_tell f).

(** Directory::fromFile() works on the file it is given. *)
Definition dir_listing : prog file (option (list (list Z * Z * Z))) := fun f =>
  match fromFile d info f with
  | Ret (Some dir) => Ret (Some ((fun i => (fi_filename i, fi_size i, b2z (fi_directory i))) <$> dir_infos dir), dir_file dir)
  | Ret None => Ret (None, f)
  | Fault => Fault
  | Panic msg => Panic msg
  | NoFuel => NoFuel
  end.

Definition system_files : Files world := {|
  special_get a := name ← on_mem (cstring a); x ← pget; mret (special_path_get name x.2.1);
  openFile a :=
    path ← on_mem (cstring a);
    f ← on_machine (on_fat (Directory.openFile d info path));
    match f with
    | Some f => n ← on_machine (new_file f); mret (Some n)
    | None => mret None
    end;
  file_size n := on_machine (on_file n measure);
  is_file n := FIRST_FILE <=? n;
  dir_entries n := on_machine (on_file n dir_listing);
  new_bytes n := on_mem (HeapAlloc hKernelHeap 0 n);
  delete_bytes a := on_mem (HeapFree a)
|}.
End system.
