(* ===== verification/SystemSpec.v ===== *)
(** * SystemSpec: system calls on files, down to the sectors of the disk

    The handlers of Syscall.v on the machine of System.v: what open(), read()
    and close() of a program do, in terms of the bytes on the disk. *)
From S2P Require Import Prelude Mem CString Kernel Devices Process File FileSpec Directory DirectorySpec Strtok.
From S2P Require Import Keyboard Terminal TerminalSpec SpecialPath Invariant Syscall System.

(** ** Strings *)
Lemma cstring_at m a s : cstr_at m a s -> Z.of_nat (length s) < 2 ^ 32 -> cstring a m = Ret (s, m).
Proof.
  intros Hs Hlen. unfold cstring. rewrite (bind_Ret _ _ _ _ _ (strlen_spec _ _ _ Hs Hlen)), Nat2Z.id.
  apply load_bytes_at. by destruct Hs as [_ [Hs _]%bytes_at_app].
Qed.

(** ** The handlers over the interface of the objects behind them *)
Section handlers.
Context {W : Type} `{!External W} `{!Files W}.
Implicit Types (k : kernel W).

Lemma object_id x : set_ref (o_ref x) x = x.
Proof. by destruct x. Qed.

(** The file or terminal behind a descriptor of the current process. *)
Record behind k (fd o dev r : Z) (q : option (list pending_read)) (p : process) : Prop := {
  bh_pid : valid_pid (current_process k) = true;
  bh_proc : process_list k !! current_process k = Some p;
  bh_fd : 0 <= fd < PROCESS_MAX_OBJECTS;
  bh_obj : objects p !! fd = Some o;
  bh_store : store k !! o = Some (Object r (BExt dev) q);
  bh_ref : 0 < r
}.

Lemma getObject_behind k fd o dev r q p : behind k fd o dev r q p ->
  getObject (current_process k) (s32 fd) k = Ret (Some o, k).
Proof.
  intros [Hv Hp Hfd Ho _ _]. unfold getObject. unfold PROCESS_MAX_OBJECTS in *.
  rewrite (bind_Ret _ _ _ _ _ (proc_at _ _ _ Hv Hp)), sgn_small by (unfold srange; pow2_literals; lia).
  rewrite (proj2 (Z.leb_le 0 fd)), (proj2 (Z.ltb_lt fd 128)) by lia. cbn [andb]. by rewrite Ho.
Qed.

(** A read that does not block: the virtual function runs, and the count of
    the object is as before. *)
Lemma read_handler_at k fd o dev r p buffer n a mx : behind k fd o dev r None p -> ext_is_input dev = true ->
  ext_read dev buffer n (k_mem k, k_ext k) = Ret (a, mx) ->
  read_handler fd buffer n k = Ret (u64 a, set_world mx k).
Proof.
  intros Hb Hin Hread. pose proof Hb as [_ _ _ _ Hx Hr]. unfold read_handler, getCurrentProcess. prog_norm.
  rewrite (bind_Ret _ _ _ _ _ (getObject_behind _ _ _ _ _ _ _ Hb)). cbn beta iota. unfold with_ref.
  rewrite (bind_Ret _ _ _ _ _ (addRef_at _ _ _ Hx)). cbn [o_ref]. set (x := Object r _ _) in *. prog_norm.
  set (k1 := set_store _ k).
  assert (store k1 !! o = Some (set_ref (r + 1) x)) as Hx1 by (cbn; apply lookup_insert_eq).
  prog_step (obj_at _ _ _ Hx1). unfold is_input. cbn [o_base set_ref]. subst x. cbn [o_base]. rewrite Hin. prog_norm.
  assert (dev_read o buffer n k1 = Ret (a, set_world mx k1)) as Hdev.
  { unfold dev_read. rewrite (bind_Ret _ _ _ _ _ (obj_at _ _ _ Hx1)). cbn [o_pending set_ref]. unfold base_read.
    rewrite (bind_Ret _ _ _ _ _ (obj_at _ _ _ Hx1)). cbn [o_base set_ref]. by apply kworld_at. }
  prog_step Hdev. prog_norm. assert (store (set_world mx k1) !! o = Some (set_ref (r + 1) (Object r (BExt dev) None))) as Hx2 by exact Hx1.
  pose proof (release_at _ _ _ Hx2) as Hrel. cbn [o_ref set_ref] in Hrel. rewrite (bind_Ret _ _ _ _ _ (Hrel ltac:(lia))).
  unfold mret, prog_ret. do 2 f_equal. unfold set_store, set_world, k1. cbn. rewrite insert_insert_eq.
  rewrite insert_id; [done|]. rewrite Hx. unfold set_ref. cbn. by replace (r + 1 - 1) with r by lia.
Qed.
(** The lowest free descriptor of a process. *)
Definition free_fd (p : process) : option Z :=
  free_object (Z.to_nat (PROCESS_MAX_OBJECTS - PROCESS_NORMAL_OBJECT_BEGIN)) PROCESS_NORMAL_OBJECT_BEGIN (objects p).

Lemma free_fd_range p fd : free_fd p = Some fd -> PROCESS_NORMAL_OBJECT_BEGIN <= fd < PROCESS_MAX_OBJECTS.
Proof. intros (H & _)%free_object_Some. unfold PROCESS_MAX_OBJECTS, PROCESS_NORMAL_OBJECT_BEGIN in *. lia. Qed.

(** open() of a file: the new object is behind the lowest free descriptor. *)
Lemma open_handler_at k path p fd dev mx1 mx2 :
  valid_pid (current_process k) = true -> process_list k !! current_process k = Some p -> free_fd p = Some fd ->
  special_get path (k_mem k, k_ext k) = Ret (None, mx1) -> openFile path mx1 = Ret (Some dev, mx2) ->
  exists k', open_handler path k = Ret (u64 fd, k') /\ k_mem k' = mx2.1 /\ k_ext k' = mx2.2 /\
    current_process k' = current_process k /\
    behind k' fd (next_object k) dev 1 None (set_objects (<[fd := next_object k]> (objects p)) p).
Proof.
  intros Hv Hp Hfd Hsp Hopen. pose proof (free_fd_range _ _ Hfd) as Hr. unfold open_handler, getCurrentProcess.
  prog_norm. rewrite (bind_Ret _ _ _ _ _ (kworld_at _ _ _ _ Hsp)). cbn beta iota.
  assert (openFile path (k_mem (set_world mx1 k), k_ext (set_world mx1 k)) = Ret (Some dev, mx2)) as Ho by (by destruct mx1).
  rewrite (bind_Ret _ _ _ _ _ (kworld_at _ _ _ _ Ho)). cbn beta iota. unfold new_object at 1. prog_norm.
  set (o := next_object _). set (x1 := Object 1 (BExt dev) None). set (k2 := set_world mx2 (set_world mx1 k)).
  rewrite (bind_Ret (pput _) _ _ tt (set_next_object (o + 1) (set_store (<[o := x1]> (store k2)) k2))) by reflexivity.
  prog_norm. set (k3 := set_next_object _ _). assert (store k3 !! o = Some x1) as Hx3 by apply lookup_insert_eq.
  set (k4 := set_store (<[o := set_ref 2 x1]> (store k3)) k3).
  set (k5 := set_process_list (<[current_process k := set_objects (<[fd := o]> (objects p)) p]> (process_list k4)) k4).
  assert (add_or_nospc (current_process k) o k3 = Ret (fd, k5)) as Hadd.
  { unfold add_or_nospc, addObject. rewrite (bind_Ret _ _ _ _ _ (obj_at _ _ _ Hx3)).
    rewrite (bind_Ret _ _ _ _ _ (proc_at k3 _ _ Hv Hp)). cbn [is_segment o_base x1]. unfold free_fd in Hfd.
    change (is_segment x1) with false. cbn beta iota zeta. rewrite Hfd. unfold attach. prog_norm.
    rewrite (bind_Ret _ _ _ _ _ (addRef_at _ _ _ Hx3)). change (o_ref x1 + 1) with 2. fold k4. unfold mod_proc.
    prog_norm. rewrite (bind_Ret _ _ _ _ _ (proc_at k4 _ _ Hv Hp)). reflexivity. }
  prog_step Hadd. assert (store k5 !! o = Some (set_ref 2 x1)) as Hx5 by apply lookup_insert_eq.
  pose proof (release_at k5 _ _ Hx5) as Hrel. cbn [o_ref set_ref] in Hrel.
  rewrite (bind_Ret _ _ _ _ _ (Hrel ltac:(lia))).
  eexists. split; [reflexivity|]. split; [done|]. split; [done|]. split; [done|].
  unfold PROCESS_NORMAL_OBJECT_BEGIN in Hr. split; [done| |lia| | |lia].
  - apply lookup_insert_eq.
  - cbn. apply lookup_insert_eq.
  - cbn. rewrite lookup_insert_eq. reflexivity.
Qed.

Lemma base_read_at k o dev r q buffer n a mx : store k !! o = Some (Object r (BExt dev) q) ->
  ext_read dev buffer n (k_mem k, k_ext k) = Ret (a, mx) -> base_read o buffer n k = Ret (a, set_world mx k).
Proof.
  intros Hx Hread. unfold base_read. rewrite (bind_Ret _ _ _ _ _ (obj_at _ _ _ Hx)). cbn [o_base]. by apply kworld_at.
Qed.

Lemma pending_of_at k o r b q : store k !! o = Some (Object r b (Some q)) -> pending_of o k = Ret (q, k).
Proof. intros Hx. unfold pending_of. by rewrite (bind_Ret _ _ _ _ _ (obj_at _ _ _ Hx)). Qed.

Lemma put_pending_at k o r b q l : store k !! o = Some (Object r b q) ->
  put_pending o l k = Ret (tt, set_store (<[o := Object r b (Some l)]> (store k)) k).
Proof. intros Hx. unfold put_pending. by rewrite (bind_Ret _ _ _ _ _ (obj_at _ _ _ Hx)). Qed.

(** A read that has nothing to return: the process waits in the queue. *)
Lemma do_read_blocks k o dev r q pid p buffer n mx : valid_pid pid = true -> process_list k !! pid = Some p ->
  store k !! o = Some (Object r (BExt dev) (Some q)) -> Z.of_nat (length q) < MAX_PROCESS_NUM ->
  ext_read dev buffer n (k_mem k, k_ext k) = Ret (- EAGAIN, mx) ->
  do_read o pid buffer n k = Ret (- EAGAIN,
    set_process_list (<[pid := set_process_state PROCESS_STATE_SLEEPING p]> (process_list k))
      (set_store (<[o := Object r (BExt dev) (Some (q ++ [PendingRead pid buffer n]))]> (store k)) (set_world mx k))).
Proof.
  intros Hv Hp Hx Hq Hread. unfold do_read. rewrite (bind_Ret _ _ _ _ _ (base_read_at _ _ _ _ _ _ _ _ _ Hx Hread)).
  change (s32 (- EAGAIN)) with (- EAGAIN). rewrite Z.eqb_refl.
  assert (store (set_world mx k) !! o = Some (Object r (BExt dev) (Some q))) as Hx1 by exact Hx.
  rewrite (bind_Ret _ _ _ _ _ (pending_of_at _ _ _ _ _ Hx1)), (proj2 (Z.ltb_lt _ _) Hq).
  rewrite (bind_Ret _ _ _ _ _ (put_pending_at _ _ _ _ _ _ Hx1)).
  by rewrite (bind_Ret _ _ _ _ _ (mod_proc_at (set_store _ (set_world mx k)) _ _ _ Hv Hp)).
Qed.

Lemma do_read_at k o dev r q pid buffer n a mx : store k !! o = Some (Object r (BExt dev) q) ->
  ext_read dev buffer n (k_mem k, k_ext k) = Ret (a, mx) -> 0 <= a < 2 ^ 31 ->
  do_read o pid buffer n k = Ret (a, set_world mx k).
Proof.
  intros Hx Hread Ha. unfold do_read. rewrite (bind_Ret _ _ _ _ _ (base_read_at _ _ _ _ _ _ _ _ _ Hx Hread)).
  rewrite sgn_small by (unfold srange; lia). rewrite (proj2 (Z.eqb_neq a _)) by (unfold EAGAIN; lia). done.
Qed.

(** read() of a device whose read blocks. *)
Lemma read_handler_blocks k fd o dev r p buffer n mx : behind k fd o dev r (Some []) p -> ext_is_input dev = true ->
  ext_read dev buffer n (k_mem k, k_ext k) = Ret (- EAGAIN, mx) ->
  exists k1, read_handler fd buffer n k = Ret (u64 (- EAGAIN), k1) /\ k_mem k1 = mx.1 /\ k_ext k1 = mx.2 /\
    process_list k1 = <[current_process k := set_process_state PROCESS_STATE_SLEEPING p]> (process_list k) /\
    store k1 !! o = Some (Object r (BExt dev) (Some [PendingRead (current_process k) buffer n])).
Proof.
  intros Hb Hin Hread. pose proof Hb as [Hv Hp _ _ Hx Hr]. unfold read_handler, getCurrentProcess at 1. prog_norm.
  rewrite (bind_Ret _ _ _ _ _ (getObject_behind _ _ _ _ _ _ _ Hb)). cbn beta iota. unfold with_ref.
  rewrite (bind_Ret _ _ _ _ _ (addRef_at _ _ _ Hx)). cbn [o_ref]. prog_norm.
  set (k1 := set_store _ k).
  assert (store k1 !! o = Some (Object (r + 1) (BExt dev) (Some []))) as Hx1 by apply lookup_insert_eq.
  prog_step (obj_at _ _ _ Hx1). unfold is_input. cbn [o_base]. rewrite Hin. prog_norm.
  unfold dev_read. prog_step (obj_at _ _ _ Hx1). cbn [o_pending]. unfold getCurrentProcess. prog_norm.
  prog_step (do_read_blocks k1 o dev (r + 1) [] (current_process k1) p buffer n mx Hv Hp Hx1 ltac:(done) Hread).
  prog_norm.
  set (k2 := set_process_list _ _).
  assert (store k2 !! o = Some (Object (r + 1) (BExt dev) (Some [PendingRead (current_process k) buffer n]))) as Hx2
    by apply lookup_insert_eq.
  pose proof (release_at _ _ _ Hx2) as Hrel. cbn [o_ref set_ref] in Hrel.
  rewrite (bind_Ret _ _ _ _ _ (Hrel ltac:(lia))). eexists. split; [reflexivity|]. do 3 (split; [done|]).
  cbn. rewrite lookup_insert_eq. unfold set_ref. cbn. by replace (r + 1 - 1) with r by lia.
Qed.

(** check() of a device with one waiting process, whose read can now return. *)
Lemma check_wakes k o dev r pid p buffer n a mx mx2 : valid_pid pid = true -> process_list k !! pid = Some p ->
  store k !! o = Some (Object r (BExt dev) (Some [PendingRead pid buffer n])) ->
  ext_read dev 0 0 (k_mem k, k_ext k) = Ret (0, mx) -> ext_read dev buffer n mx = Ret (a, mx2) -> 0 <= a < 2 ^ 31 ->
  exists k1, check o k = Ret (tt, k1) /\ k_mem k1 = mx2.1 /\ k_ext k1 = mx2.2 /\ current_process k1 = current_process k /\
    process_list k1 = <[pid := set_usermode_state (retval a (usermode_state p))
      (set_process_state PROCESS_STATE_RUNNABLE p)]> (process_list k) /\
    store k1 !! o = Some (Object r (BExt dev) (Some [])).
Proof.
  intros Hv Hp Hx Hprobe Hread Ha. unfold check, getCurrentProcess. prog_norm. cbn [check_loop]. prog_norm.
  prog_step (pending_of_at _ _ _ _ _ Hx). change ([?x] !! 0%nat) with (Some x). cbn beta iota.
  prog_step (base_read_at _ _ _ _ _ _ _ _ _ Hx Hprobe). change (0 =? - EAGAIN) with false. cbn iota.
  unfold setCurrentProcess. cbn [pr_proc pr_buffer pr_size]. prog_norm.
  set (k1 := set_world mx k). rewrite (bind_Ret (pmodify _) _ k1 tt (set_current pid k1)) by reflexivity.
  prog_step (mod_proc_at (set_current pid k1) pid (set_process_state PROCESS_STATE_RUNNABLE) p Hv Hp).
  set (k2 := set_process_list _ _).
  assert (store k2 !! o = Some (Object r (BExt dev) (Some [PendingRead pid buffer n]))) as Hx2 by exact Hx.
  assert (ext_read dev buffer n (k_mem k2, k_ext k2) = Ret (a, mx2)) as Hread2 by (by destruct mx).
  prog_step (do_read_at _ _ _ _ _ pid _ _ _ _ Hx2 Hread2 Ha). unfold syscall_set_retval.
  assert (process_list (set_world mx2 k2) !! pid = Some (set_process_state PROCESS_STATE_RUNNABLE p)) as Hp3
    by apply lookup_insert_eq.
  prog_step (mod_proc_at _ pid (fun p => set_usermode_state (retval (u64 a) (usermode_state p)) p) _ Hv Hp3).
  set (k3 := set_process_list _ _). cbn [check_loop].
  assert (store k3 !! o = Some (Object r (BExt dev) (Some [PendingRead pid buffer n]))) as Hx3 by exact Hx.
  prog_step (pending_of_at _ _ _ _ _ Hx3). cbn [lookup list_lookup]. prog_norm.
  prog_step (pending_of_at _ _ _ _ _ Hx3). prog_step (put_pending_at _ _ _ _ _ [] Hx3).
  eexists. split; [reflexivity|]. do 3 (split; [done|]). split; [|cbn; apply lookup_insert_eq].
  cbn. rewrite insert_insert_eq. rewrite (wrap_small 64) by (unfold urange; lia). done.
Qed.
End handlers.

Section files.
Context {S : Type} `{HB : !Bios} `{HG : !GoodBios HB} `{HP : !PortIO S} `{HV : !VgaMachine S}.
Variable d : disk.
Variable info : fs_info.
Variable SERIAL_PORT : Z.
Variable polls : nat.
Variable hKernelHeap : Z.
Abbreviation world := (globals * machine S)%type.
#[local] Instance the_external : External world := system_external d info SERIAL_PORT polls.
#[local] Instance the_files : Files world := system_files d info hKernelHeap.
Implicit Types (k : kernel world) (w : machine S) (m : mem).

Lemma on_file_Ret {A} dev (p : prog file A) f a f' w :
  open_files w !! dev = Some f -> p f = Ret (a, f') -> on_file dev p w = Ret (a, put_file dev f' w).
Proof. unfold on_file. by intros -> ->. Qed.

(** read() of an open file. *)
Lemma ext_read_file dev f content buffer n m (g : globals) w :
  FIRST_FILE <= dev -> open_files w !! dev = Some f -> file_ok d info content f -> Forall (urange 8) content ->
  mapped m buffer n -> 0 <= n ->
  let l := take (Z.to_nat n) (drop (Z.to_nat (file_tell f)) content) in
  exists f', ext_read dev buffer n (m, (g, w)) =
      Ret (Z.of_nat (length l), (write_bytes m buffer l, (g, put_file dev f' w))) /\
    file_ok d info content f' /\ file_tell f' = file_tell f + Z.of_nat (length l).
Proof.
  intros Hdev Hf Hok Hb Hm Hn l.
  destruct (read_loop_spec (HS := file_stream d info content Hb) _ _ (Z.to_nat n) f Hok) as (f' & Hrun & Hok' & Hpos).
  exists f'. split; [|done]. cbn [ext_read the_external system_external].
  assert (on_machine (read_bytes d info SERIAL_PORT polls dev n) (m, (g, w)) =
    Ret ((Z.of_nat (length l), l), (m, (g, put_file dev f' w)))) as Hread.
  { unfold on_machine, zoom, read_bytes. cbn [snd fst]. unfold FIRST_FILE, CON_DEVICE, COM1_DEVICE in *.
    rewrite (proj2 (Z.eqb_neq dev 2)), (proj2 (Z.eqb_neq dev 1)) by lia.
    by rewrite (bind_Ret _ _ _ _ _ (on_file_Ret dev _ f l f' w Hf Hrun)). }
  rewrite (bind_Ret _ _ _ _ _ Hread). cbn beta iota.
  assert (on_mem (S := S) (store_bytes buffer l) (m, (g, put_file dev f' w)) =
    Ret (tt, (write_bytes m buffer l, (g, put_file dev f' w)))) as Hstore.
  { unfold on_mem, zoom. cbn [fst snd]. rewrite store_bytes_at; [done| |].
    - eapply mapped_le; [exact Hm|]. unfold l. rewrite length_take. lia.
    - by apply Forall_take, Forall_drop. }
  by rewrite (bind_Ret _ _ _ _ _ Hstore).
Qed.

(** Descriptor [fd] of the running process is an open file with the bytes
    [content], read up to [pos]. *)
Definition reading (fd : Z) (content : list Z) (pos : Z) k : Prop :=
  exists o dev r p f, behind k fd o dev r None p /\ FIRST_FILE <= dev /\
    open_files (k_ext k).2 !! dev = Some f /\ file_ok d info content f /\ file_tell f = pos.

Lemma read_file_spec fd content pos buffer n k : Forall (urange 8) content -> 0 <= pos ->
  reading fd content pos k -> mapped (k_mem k) buffer n -> 0 <= n -> n < 2 ^ 32 ->
  let l := take (Z.to_nat n) (drop (Z.to_nat pos) content) in
  exists k', read_handler fd buffer n k = Ret (Z.of_nat (length l), k') /\
    k_mem k' = write_bytes (k_mem k) buffer l /\ reading fd content (pos + Z.of_nat (length l)) k'.
Proof.
  intros Hb Hpos (o & dev & r & p & f & Hbh & Hdev & Hf & Hok & Htell) Hm Hn Hlt l.
  destruct (k_ext k) as [g w] eqn:Ek. cbn [snd] in Hf.
  destruct (ext_read_file dev f content buffer n (k_mem k) g w) as (f' & Hrun & Hok' & Hpos'); try done.
  rewrite Htell in Hrun, Hpos'. fold l in Hrun, Hpos'. rewrite <- Ek in Hrun.
  assert (Z.of_nat (length l) <= n) as Hl by (unfold l; rewrite length_take; lia).
  eexists. split; [|split].
  - rewrite (read_handler_at _ _ _ _ _ _ _ _ _ _ Hbh) with (2 := Hrun).
    + rewrite wrap_small by (unfold urange; pow2_literals; lia). reflexivity.
    + cbn. unfold EARLY_DEVICE, FIRST_FILE in *. rewrite (proj2 (Z.eqb_neq dev 0)) by lia. done.
  - done.
  - exists o, dev, r, p, f'. destruct Hbh. split; [done|]. split; [done|]. split; [|done]. cbn. apply lookup_insert_eq.
Qed.

(** A program that reads [sizes] bytes in turn into its buffer. *)
Fixpoint reads (fd buffer : Z) (sizes : list Z) : prog (kernel world) (list (list Z)) :=
  match sizes with
  | [] => mret []
  | n :: sizes =>
      r ← read_handler fd buffer n;
      l ← kmem (load_bytes (Z.to_nat r) buffer);
      ls ← reads fd buffer sizes;
      mret (l :: ls)
  end.

Lemma take_add {A} (a b : nat) (l : list A) : take (a + b) l = take a l ++ take b (drop a l).
Proof. revert l. induction a as [|a IH]; intros [|x l]; cbn; [done|done|by rewrite take_nil|]. by rewrite IH. Qed.

Lemma reads_spec sizes fd content pos buffer len k : Forall (urange 8) content -> 0 <= pos ->
  reading fd content pos k -> mapped (k_mem k) buffer len -> Forall (fun n => 0 <= n <= len) sizes -> len < 2 ^ 32 ->
  exists ls k', reads fd buffer sizes k = Ret (ls, k') /\
    concat ls = take (Z.to_nat (foldr Z.add 0 sizes)) (drop (Z.to_nat pos) content) /\
    (forall x, ~ (buffer <= x < buffer + len) -> k_mem k' !! x = k_mem k !! x).
Proof.
  intros Hb Hpos Hr Hm Hs Hlen. revert pos k Hpos Hr Hm. induction Hs as [|n sizes Hn Hs IH]; intros pos k Hpos Hr Hm.
  { exists [], k. by split_and!. }
  destruct (read_file_spec fd content pos buffer n k) as (k1 & Hrun & Hmem & Hr1); try done; [|lia|lia|].
  { eapply mapped_le; [done|lia]. }
  set (l := take (Z.to_nat n) (drop (Z.to_nat pos) content)) in *.
  assert (Z.of_nat (length l) <= n) as Hl by (unfold l; rewrite length_take; lia).
  destruct (IH (pos + Z.of_nat (length l)) k1) as (ls & k2 & Hrun2 & Hcat & Hmem2); [lia|done| |].
  { rewrite Hmem. by apply mapped_write. }
  exists (l :: ls), k2. cbn [reads]. rewrite (bind_Ret _ _ _ _ _ Hrun), Nat2Z.id.
  assert (kmem (load_bytes (length l) buffer) k1 = Ret (l, k1)) as Hload.
  { rewrite (kmem_at _ _ l (k_mem k1)); [by destruct k1|]. rewrite load_bytes_at; [done|]. rewrite Hmem. apply bytes_at_write. }
  rewrite (bind_Ret _ _ _ _ _ Hload), (bind_Ret _ _ _ _ _ Hrun2). split; [done|]. split.
  - cbn [concat foldr]. rewrite Hcat. assert (0 <= foldr Z.add 0 sizes) as Hsum.
    { clear -Hs. induction Hs; cbn; lia. }
    rewrite (Z2Nat.inj_add n) by lia. rewrite take_add. f_equal. fold l.
    rewrite drop_drop. destruct (decide (Z.to_nat n <= length (drop (Z.to_nat pos) content))%nat) as [Hle|Hgt].
    + do 2 f_equal. assert (length l = Z.to_nat n) as -> by (unfold l; rewrite length_take; lia). lia.
    + rewrite !drop_ge; [done| |]; rewrite length_drop in Hgt; [lia|].
      assert (length l = length content - Z.to_nat pos)%nat as -> by (unfold l; rewrite length_take, length_drop; lia). lia.
  - intros x Hx. rewrite Hmem2, Hmem by done. apply lookup_write_out. lia.
Qed.

(** *** open() through the path, the directories and the FAT *)
Abbreviation fat_first := (first_fat_sector info).
Abbreviation fat_last := (first_fat_sector info + fat_size info).

(** The volume is mounted: its numbers fit, and the file of the FAT is open. *)
Record mounted w : Prop := {
  mt_volume : volume_ok info;
  mt_root : root_dir_sectors info <= first_data_sector info;
  mt_fat : seq_ok d fat_first fat_last (fat_file w);
  mt_next : FIRST_FILE <= next_file w
}.

(** The path of a file, and what it leads to. *)
Record leads_to m (g : globals) (path : Z) (name : list Z) (r : option (FileInfo * list Z)) : Prop := {
  lt_name : cstr_at m path name;
  lt_length : Z.of_nat (length name) < 2 ^ 32;
  lt_special : special_path_get name g = None;
  lt_opens : opens d info fat_first fat_last (root_listing d info) (split_tokens [47] name) r;
  lt_short : Forall (fun n => Z.of_nat (length n) <= MAX_FILENAME_LENGTH) (split_tokens [47] name);
  lt_last : list.last name <> Some 47
}.

Lemma openFile_system m g w path name r : mounted w -> leads_to m g path name r ->
  special_get path (m, (g, w)) = Ret (None, (m, (g, w))) /\
  exists fat', seq_ok d fat_first fat_last fat' /\
    match r with
    | None => openFile path (m, (g, w)) = Ret (None, (m, (g, Machine (open_files w) (next_file w) fat' (con_lines w)
        (con_state w) (com_lines w) (early_cursor w))))
    | Some (i, cs) => exists f, opened d info i cs f /\
        openFile path (m, (g, w)) = Ret (Some (next_file w), (m, (g, Machine (<[next_file w := ClusterFile f]> (open_files w))
          (next_file w + 1) fat' (con_lines w) (con_state w) (com_lines w) (early_cursor w))))
    end.
Proof.
  intros [Hv Hroot Hfat _] [Hname Hlen Hsp Hopens Hshort Hlast].
  assert (on_mem (S := S) (cstring path) (m, (g, w)) = Ret (name, (m, (g, w)))) as Hstr.
  { unfold on_mem, zoom. cbn [fst snd]. by rewrite (cstring_at _ _ _ Hname Hlen). }
  split.
  { cbn [special_get the_files system_files]. rewrite (bind_Ret _ _ _ _ _ Hstr). prog_norm. cbn [snd fst]. by rewrite Hsp. }
  destruct (openFile_spec d info (fat_file w) name r Hv Hfat Hroot Hopens Hshort Hlast) as (o & fat' & Hrun & Hfound & Hok).
  exists fat'. split; [done|]. set (w1 := Machine (open_files w) (next_file w) fat' _ _ _ _).
  assert (on_machine (on_fat (Directory.openFile d info name)) (m, (g, w)) = Ret (o, (m, (g, w1)))) as Hopen.
  { unfold on_machine, on_fat, zoom. cbn [fst snd]. by rewrite Hrun. }
  cbn [openFile the_files system_files]. rewrite (bind_Ret _ _ _ _ _ Hstr), (bind_Ret _ _ _ _ _ Hopen).
  destruct r as [[i cs]|]; cbn [found] in Hfound; [|by subst o].
  destruct Hfound as (f & -> & Hf). exists f. by split.
Qed.

(** C8: A program that opens a file and then reads it gets the bytes on the disk:
    open() resolves the path through the directories of the volume and gives
    the lowest free descriptor; the reads that follow, of whatever sizes,
    return the bytes of the clusters of the file in order, each from where the
    last one ended, and write nothing but the buffer.  A path that leads
    nowhere gives -ENOENT. *)
Theorem open_read_refines k p fd path name r sizes buffer len :
  mounted (k_ext k).2 -> leads_to (k_mem k) (k_ext k).1 path name r ->
  valid_pid (current_process k) = true -> process_list k !! current_process k = Some p -> free_fd p = Some fd ->
  mapped (k_mem k) buffer len -> Forall (fun n => 0 <= n <= len) sizes -> len < 2 ^ 32 ->
  match r with
  | None => exists k', open_handler path k = Ret (u64 (- ENOENT), k') /\ k_mem k' = k_mem k /\
      process_list k' = process_list k
  | Some (i, cs) => exists k1 ls k2, open_handler path k = Ret (fd, k1) /\ k_mem k1 = k_mem k /\
      reads fd buffer sizes k1 = Ret (ls, k2) /\
      concat ls = take (Z.to_nat (foldr Z.add 0 sizes)) (content_of d info cs) /\
      (forall x, ~ (buffer <= x < buffer + len) -> k_mem k2 !! x = k_mem k !! x)
  end.
Proof.
  intros Hmt Hl Hv Hp Hfd Hm Hs Hlen. destruct (k_ext k) as [g w] eqn:Ek. cbn [fst snd] in *.
  destruct (openFile_system (k_mem k) g w path name r Hmt Hl) as (Hsp & fat' & _ & Hopen). rewrite <- Ek in Hsp.
  destruct r as [[i cs]|].
  - destruct Hopen as (f & [Hok Hcur _] & Hopen). rewrite <- Ek in Hopen at 1.
    destruct (open_handler_at k path p fd _ _ _ Hv Hp Hfd Hsp Hopen) as (k1 & Hrun & Hmem & Hext & Hcp & Hbh).
    cbn [fst snd] in Hmem, Hext. pose proof (free_fd_range _ _ Hfd) as Hr.
    unfold PROCESS_MAX_OBJECTS, PROCESS_NORMAL_OBJECT_BEGIN in Hr.
    destruct (reads_spec sizes fd (content_of d info cs) 0 buffer len k1) as (ls & k2 & Hreads & Hcat & Hframe); try done.
    + apply sectors_bytes.
    + exists (next_object k), (next_file w), 1, (set_objects (<[fd := next_object k]> (objects p)) p), (ClusterFile f).
      split; [done|]. split; [apply (mt_next _ Hmt)|]. rewrite Hext. cbn [snd open_files].
      split; [apply lookup_insert_eq|]. split; [by apply (ok_clus _ _ _ cs)|done].
    + by rewrite Hmem.
    + exists k1, ls, k2. rewrite Hrun, wrap_small by (unfold urange; pow2_literals; lia).
      split; [done|]. split; [done|]. split; [done|]. split; [done|]. intros x Hx. by rewrite Hframe, Hmem.
  - rewrite <- Ek in Hopen at 1.
    pose proof (kworld_at (openFile path) (set_world (k_mem k, k_ext k) k) None _ Hopen) as Ho.
    eexists. split.
    { unfold open_handler, getCurrentProcess. prog_norm. rewrite (bind_Ret _ _ _ _ _ (kworld_at _ _ _ _ Hsp)). cbn beta iota.
      rewrite (bind_Ret _ _ _ _ _ Ho). reflexivity. }
    by split.
Qed.
End files.

(** ** The console *)
Section console.
Context {S : Type} `{HB : !Bios} `{HP : !PortIO S} `{HV : !VgaMachine S} `{HS : !Screen S}.
Variable d : disk.
Variable info : fs_info.
Variable SERIAL_PORT : Z.
Variable polls : nat.
Abbreviation world := (globals * machine S)%type.
#[local] Instance con_external : External world := system_external d info SERIAL_PORT polls.
Implicit Types (k : kernel world) (w : machine S) (m : mem).

Definition put_con (lb : line_buffer) (v : vga S) w : machine S :=
  Machine (open_files w) (next_file w) (fat_file w) lb v (com_lines w) (early_cursor w).

(** What has been typed on the keyboard and not yet been read. *)
Definition keys w : list Z := typed (con_state w).

(** The console with the pending and the committed text of its line buffer. *)
Record console w (pending done_ : list Z) : Prop := {
  con_lines_ok : lb_ok (con_lines w) pending done_;
  con_open : lb_eof (con_lines w) = false;
  con_vga : base_ok (con_state w)
}.

Lemma keys_fuel w pending done_ : console w pending done_ -> (length (keys w) < con_fuel)%nat.
Proof.
  intros [_ _ [_ (l & Hl & _)]]. unfold keys. cbn. rewrite length_map, (ring_list_ok _ _ _ Hl).
  pose proof (ring_len _ _ _ Hl) as H. unfold con_fuel, KBD_BUFFER_SIZE in *. lia.
Qed.

(** A read of the console is a read of the line discipline. *)
Lemma ext_read_con buffer n m (g : globals) w p q :
  console w p q -> mapped m buffer n -> 0 <= n -> Forall (urange 8) (t_done (type_chars (keys w) p q)) ->
  let '((r, l), (eof, t)) := line_read_spec n false (keys w) p q in
  exists lb v, ext_read CON_DEVICE buffer n (m, (g, w)) = Ret (r, (write_bytes m buffer l, (g, put_con lb v w))) /\
    lb_ok lb (t_pending t) (t_done t) /\ lb_eof lb = eof /\ base_ok v /\ typed v = t_rest t.
Proof.
  intros Hcon Hm Hn Hb. pose proof (keys_fuel _ _ _ Hcon) as Hf. destruct Hcon as [Hlb Heof Hv].
  pose proof (line_read_ok con_fuel n (con_lines w) (con_state w) p q Hlb Hv Hf) as H. rewrite Heof in H.
  assert (let '((r, l), _) := line_read_spec n false (typed (con_state w)) p q in
    Forall (urange 8) l /\ Z.of_nat (length l) <= n) as Hl.
  { unfold line_read_spec. destruct (t_eof _); [by split; [constructor|]|].
    change (typed (con_state w)) with (keys w). destruct (t_done _) as [|x q1] eqn:Eq; [by split; [constructor|]|].
    split; [by apply Forall_take|rewrite length_take; lia]. }
  change (typed (con_state w)) with (keys w) in *. destruct (line_read_spec n false (keys w) p q) as [[r l] [eof t]].
  destruct H as (lb & v & Hrun & Hlb' & Heof' & Hv' & Ht & _). destruct Hl as [Hlr Hll].
  exists lb, v. split; [|by split_and!]. cbn [ext_read con_external system_external].
  assert (on_machine (read_bytes d info SERIAL_PORT polls CON_DEVICE n) (m, (g, w)) =
    Ret ((r, l), (m, (g, put_con lb v w)))) as Hread.
  { unfold on_machine, zoom, read_bytes. cbn [snd fst]. change (CON_DEVICE =? CON_DEVICE) with true. cbn iota.
    unfold on_con, zoom. by rewrite Hrun. }
  rewrite (bind_Ret _ _ _ _ _ Hread). cbn beta iota.
  assert (on_mem (S := S) (store_bytes buffer l) (m, (g, put_con lb v w)) =
    Ret (tt, (write_bytes m buffer l, (g, put_con lb v w)))) as Hstore.
  { unfold on_mem, zoom. cbn [fst snd]. rewrite store_bytes_at; [done| |done]. by eapply mapped_le. }
  by rewrite (bind_Ret _ _ _ _ _ Hstore).
Qed.

Lemma keys_range w p q : console w p q -> Forall (fun c => 0 <= c) (keys w).
Proof.
  intros [_ _ [_ (l & Hl & Hpos)]]. unfold keys. cbn. rewrite (ring_list_ok _ _ _ Hl).
  apply Forall_fmap. eapply list.Forall_impl; [exact Hpos|]. intros c Hc. cbn. unfold key. by destruct (c =? 13).
Qed.

(** The three reads of the console that matter here: with nothing typed, the
    probe of check() when a line has been typed, and the read after it. *)
Lemma read_idle buffer n m g w : console w [] [] -> keys w = [] -> mapped m buffer n -> 0 <= n ->
  exists w', ext_read CON_DEVICE buffer n (m, (g, w)) = Ret (- EAGAIN, (m, (g, w'))) /\ console w' [] [] /\ keys w' = [].
Proof.
  intros Hcon Hk Hm Hn. pose proof (ext_read_con buffer n m g w [] [] Hcon Hm Hn) as H. rewrite Hk in H.
  destruct H as (lb & v & Hrun & Hlb & Heof & Hv & Ht); [constructor|]. cbn in *. exists (put_con lb v w).
  split; [exact Hrun|]. by split.
Qed.

Section line.
Variable cs : list Z.
Hypothesis Hcs : Forall plain cs.
Hypothesis Hlen : (length cs < 255)%nat.
Let line := edit [] cs ++ [10].

Lemma line_bytes w : console w [] [] -> keys w = cs ++ [10] -> Forall (urange 8) line.
Proof.
  intros Hcon Hk. pose proof (keys_range _ _ _ Hcon) as Hp. rewrite Hk in Hp. apply list.Forall_app in Hp as [Hp _].
  apply list.Forall_app. split; [|repeat constructor; done]. apply edit_Forall; [|constructor].
  apply list.Forall_forall. intros c Hc. rewrite list.Forall_forall in Hp, Hcs. specialize (Hp c Hc).
  destruct (Hcs c Hc) as [H _]. unfold urange. pow2_literals. lia.
Qed.

Lemma line_turn : exists out, type_chars (cs ++ [10]) [] [] = Turn false [] [] line out.
Proof. by apply type_line_empty. Qed.

Lemma read_probe m g w : console w [] [] -> keys w = cs ++ [10] ->
  exists w', ext_read CON_DEVICE 0 0 (m, (g, w)) = Ret (0, (m, (g, w'))) /\ console w' [] line /\ keys w' = [].
Proof.
  intros Hcon Hk. pose proof (line_bytes w Hcon Hk) as Hb. destruct line_turn as [out E].
  pose proof (ext_read_con 0 0 m g w [] [] Hcon) as H. rewrite Hk, E in H. unfold line_read_spec in H. rewrite E in H.
  cbn [t_eof t_done t_rest t_pending t_shown] in H. destruct line as [|x l] eqn:El; [by destruct (edit [] cs)|].
  destruct H as (lb & v & Hrun & Hlb & Heof & Hv & Ht); [intros y Hy; lia|lia|done|].
  cbn [t_pending t_done t_rest] in *. exists (put_con lb v w). split; [exact Hrun|]. by split.
Qed.

Lemma read_line buffer n m g w : console w [] line -> keys w = [] -> mapped m buffer n -> 0 <= n -> Forall (urange 8) line ->
  exists w', ext_read CON_DEVICE buffer n (m, (g, w)) =
      Ret (Z.min n (Z.of_nat (length line)), (write_bytes m buffer (take (Z.to_nat n) line), (g, w'))) /\
    console w' [] (drop (Z.to_nat n) line) /\ keys w' = [].
Proof.
  intros Hcon Hk Hm Hn Hb. pose proof (ext_read_con buffer n m g w [] line Hcon Hm Hn) as H.
  rewrite Hk in H. cbn [type_chars t_done] in H. specialize (H Hb). unfold line_read_spec in H.
  cbn [type_chars t_eof t_done t_rest t_pending t_shown] in H. destruct line as [|x l] eqn:El; [by destruct (edit [] cs)|].
  rewrite <- El in *. destruct H as (lb & v & Hrun & Hlb & Heof & Hv & Ht). exists (put_con lb v w). split.
  - rewrite Hrun, length_take. do 3 f_equal. lia.
  - by split.
Qed.
End line.

(** C9: A program that reads the console before anything is typed sleeps in the
    queue of the device; and whatever happens meanwhile, once a line has been
    typed, with backspaces, the check() that ends the next system call wakes
    it with the first [n] bytes of the edited line in its buffer and their
    number as the result of its read; the rest of the line stays for the next
    read, although check() asks with a read of size 0 first. *)
Theorem console_read_wakes k fd o r p buffer n cs :
  behind k fd o CON_DEVICE r (Some []) p -> console (k_ext k).2 [] [] -> keys (k_ext k).2 = [] ->
  mapped (k_mem k) buffer n -> 0 <= n -> Forall plain cs -> (length cs < 255)%nat ->
  let pid := current_process k in
  let line := edit [] cs ++ [10] in
  let count := Z.min n (Z.of_nat (length line)) in
  exists k1, read_handler fd buffer n k = Ret (u64 (- EAGAIN), k1) /\ k_mem k1 = k_mem k /\
    process_list k1 !! pid = Some (set_process_state PROCESS_STATE_SLEEPING p) /\
    store k1 !! o = Some (Object r (BExt CON_DEVICE) (Some [PendingRead pid buffer n])) /\
    forall k2 p2 r2, process_list k2 !! pid = Some p2 ->
      store k2 !! o = Some (Object r2 (BExt CON_DEVICE) (Some [PendingRead pid buffer n])) ->
      mapped (k_mem k2) buffer n -> console (k_ext k2).2 [] [] -> keys (k_ext k2).2 = cs ++ [10] ->
      exists k3 p3, check o k2 = Ret (tt, k3) /\ k_mem k3 = write_bytes (k_mem k2) buffer (take (Z.to_nat n) line) /\
        process_list k3 = <[pid := p3]> (process_list k2) /\ process_state p3 = PROCESS_STATE_RUNNABLE /\
        usermode_state p3 = retval count (usermode_state p2) /\ current_process k3 = current_process k2 /\
        store k3 !! o = Some (Object r2 (BExt CON_DEVICE) (Some [])) /\
        console (k_ext k3).2 [] (drop (Z.to_nat n) line) /\ keys (k_ext k3).2 = [].
Proof.
  intros Hb Hcon Hk Hm Hn Hcs Hlen pid line count. pose proof Hb as [Hv Hp _ _ _ _].
  destruct (k_ext k) as [g w] eqn:Ek. cbn [snd] in Hcon, Hk.
  destruct (read_idle buffer n (k_mem k) g w Hcon Hk Hm Hn) as (w1 & Hrun & _ & _). rewrite <- Ek in Hrun.
  assert (ext_is_input CON_DEVICE = true) as Hin by reflexivity.
  destruct (read_handler_blocks k fd o CON_DEVICE r p buffer n _ Hb Hin Hrun) as (k1 & H1 & Hm1 & _ & Hl1 & Hs1).
  exists k1. split; [done|]. split; [done|]. split; [rewrite Hl1; apply lookup_insert_eq|]. split; [done|].
  intros k2 p2 r2 Hp2 Hx2 Hm2 Hcon2 Hk2. destruct (k_ext k2) as [g2 w2] eqn:Ek2. cbn [snd] in Hcon2, Hk2.
  pose proof (line_bytes cs Hcs Hlen w2 Hcon2 Hk2) as Hbytes.
  destruct (read_probe cs Hcs Hlen (k_mem k2) g2 w2 Hcon2 Hk2) as (w3 & Hprobe & Hcon3 & Hk3).
  destruct (read_line cs Hlen buffer n (k_mem k2) g2 w3 Hcon3 Hk3 Hm2 Hn Hbytes) as (w4 & Hread & Hcon4 & Hk4).
  rewrite <- Ek2 in Hprobe. fold line in Hread, Hcon4. fold count in Hread.
  destruct (check_wakes k2 o CON_DEVICE r2 pid p2 buffer n count _ _ Hv Hp2 Hx2 Hprobe Hread)
    as (k3 & Hcheck & Hm3 & He3 & Hc3 & Hl3 & Hs3).
  { assert (length line <= 256)%nat by (unfold line; rewrite length_app; pose proof (edit_length cs []); cbn in *; lia).
    unfold count. split; [lia|]. change (2 ^ 31) with 2147483648. lia. }
  exists k3, (set_usermode_state (retval count (usermode_state p2)) (set_process_state PROCESS_STATE_RUNNABLE p2)).
  rewrite He3. cbn [snd]. by split_and!.
Qed.
End console.

(** ** A small machine: the volume of DirectorySpec.v, and ports that read 0 *)
Section small.
#[local] Existing Instances small_bios small_bios_good.
#[local] Instance zero_ports : PortIO unit := {| inb _ := mret 0; outb _ _ := mret tt |}.
#[local] Instance zero_vga : VgaMachine unit := {|
  int10 _ := mret tt; v8086_busy _ := false; machine_mem _ := ∅; machine_set_mem _ s := s; VGA_TEXT_BASE := 0xB8000
|}.

Definition small_machine : machine unit :=
  Machine ∅ FIRST_FILE small_fat line_buffer_new (Vga 0 (ring_new KBD_BUFFER_SIZE) 0xB8000 tt) line_buffer_new 0xB8000.
Definition small_kernel : kernel (globals * machine unit) :=
  Kernel (mem_of [(100, chars "/bin//Sh.elf" ++ [0]); (200, repeat 0 600)]) (no_globals, small_machine) 1
    (list_to_map [(1, Process (-1) PROCESS_STATE_RUNNABLE PROCESS_SCHE_NORMAL 0 None tss_zero ∅)])
    ∅ 0 ∅ ∅ ∅ ∅ 0 7 tss_zero.
#[local] Instance small_external : External (globals * machine unit) := system_external small_disk small_info 0x3F8 1.
#[local] Instance small_files : Files (globals * machine unit) := system_files small_disk small_info 0.

Lemma open_read_refines_witness : exists k1 ls k2,
  open_handler 100 small_kernel = Ret (3, k1) /\ reads small_disk small_info 0x3F8 1 3 200 [500; 100; 600] k1 = Ret (ls, k2) /\
  concat ls = repeat 1 512 ++ repeat 2 512.
Proof.
  assert (mounted small_disk small_info (k_ext small_kernel).2) as H1.
  { destruct (Fat16_ok small_disk small_info small_fat small_volume) as [Hv Hok]; [cbn; lia|]. by split. }
  assert (leads_to small_disk small_info (k_mem small_kernel) (k_ext small_kernel).1 100 (chars "/bin//Sh.elf")
    (Some (sh_info, [3; 4]))) as H2.
  { split; [| | |exact small_opens| |].
    - split; [repeat constructor; lia|]. apply bytes_at_compute. vm_compute. reflexivity.
    - cbn. lia.
    - vm_compute. reflexivity.
    - repeat constructor; vm_compute; done.
    - vm_compute. done. }
  assert (mapped (k_mem small_kernel) 200 600) as H3 by (apply mapped_compute; vm_compute; reflexivity).
  destruct (open_read_refines small_disk small_info 0x3F8 1 0 small_kernel _ 3 100 _ _ [500; 100; 600] 200 600 H1 H2
    eq_refl eq_refl eq_refl H3) as (k1 & ls & k2 & Hopen & _ & Hreads & Hcat & _); [repeat constructor; lia|lia|].
  exists k1, ls, k2. split; [exact Hopen|]. split; [exact Hreads|]. rewrite Hcat. vm_compute. reflexivity.
Defined.
End small.

(** *** The terminal of TerminalSpec.v: the keys l, x, backspace, s, return *)
Section small_console.
#[local] Existing Instances small_bios log_ports log_machine log_screen.
#[local] Instance log_external : External (globals * machine (list Z)) := system_external small_disk small_info 0x3F8 1.

(** The process 1 with the console as its descriptor 0, in the state
    [s], with the queue [q] and the keyboard [v]. *)
Definition console_kernel (s : pstate) (q : list pending_read) (v : vga (list Z)) : kernel (globals * machine (list Z)) :=
  Kernel (mem_of [(200, repeat 0 100)])
    (no_globals, Machine ∅ FIRST_FILE small_fat line_buffer_new v line_buffer_new 0xB8000) 1
    (list_to_map [(1, Process (-1) s PROCESS_SCHE_NORMAL 0 None tss_zero {[0 := 7]})])
    {[7 := Object 1 (BExt CON_DEVICE) (Some q)]} 8 {[0 := 7]} ∅ ∅ ∅ 0 7 tss_zero.

Definition console_before : kernel (globals * machine (list Z)) :=
  console_kernel PROCESS_STATE_RUNNABLE [] (Vga 0 (ring_new KBD_BUFFER_SIZE) 0xB8000 []).
Definition console_after : kernel (globals * machine (list Z)) :=
  console_kernel PROCESS_STATE_SLEEPING [PendingRead 1 200 100] small_vga.

Lemma console_read_wakes_witness :
  (exists k1, read_handler 0 200 100 console_before = Ret (u64 (- EAGAIN), k1)) /\
  exists k3, check 7 console_after = Ret (tt, k3) /\ bytes_at (k_mem k3) 200 [108; 115; 10].
Proof.
  assert (behind console_before 0 7 CON_DEVICE 1 (Some [])
    (Process (-1) PROCESS_STATE_RUNNABLE PROCESS_SCHE_NORMAL 0 None tss_zero {[0 := 7]})) as H1.
  { split; [done|reflexivity|done|reflexivity|reflexivity|lia]. }
  assert (console (k_ext console_before).2 [] []) as H2.
  { split; [apply line_buffer_new_ok|done|]. split; [done|]. exists []. split; [|constructor].
    apply ring_new_ok. unfold KBD_BUFFER_SIZE. lia. }
  assert (keys (k_ext console_before).2 = []) as H3 by (vm_compute; reflexivity).
  assert (mapped (k_mem console_before) 200 100) as H4 by (apply mapped_compute; vm_compute; reflexivity).
  assert (Forall plain [108; 120; 8; 115]) as H5 by (repeat constructor; lia).
  assert (length [108; 120; 8; 115] < 255)%nat as H6 by (cbn; lia).
  destruct (console_read_wakes small_disk small_info 0x3F8 1 console_before 0 7 1 _ 200 100 _ H1 H2 H3 H4 ltac:(lia) H5 H6)
    as (k1 & Hread & _ & _ & _ & Hwake).
  split; [by exists k1|].
  assert (console (k_ext console_after).2 [] []) as H7 by (split; [apply line_buffer_new_ok|done|exact small_vga_ok]).
  assert (mapped (k_mem console_after) 200 100) as H8 by (apply mapped_compute; vm_compute; reflexivity).
  assert (keys (k_ext console_after).2 = [108; 120; 8; 115] ++ [10]) as H9 by (vm_compute; reflexivity).
  edestruct (Hwake console_after) as (k3 & p3 & Hcheck & Hmem & _); [reflexivity|reflexivity|exact H8|exact H7|exact H9|].
  exists k3. split; [exact Hcheck|]. rewrite Hmem. apply bytes_at_compute. vm_compute. reflexivity.
Defined.
End small_console.
