(* ===== verification/ExecImage.v ===== *)
(** * ExecImage: exec() from the file image to the first instruction

    Process::exec() and parseElfSections(), proved to return on a well-formed
    kernel: what is left of the caller's descriptors, the image in the memory,
    the registers, and the parent that forked the caller. *)
From stdpp Require Import gmultiset.
From S2P Require Import Prelude Mem CString Kernel Devices UserLib Process Elf Invariant ProcessInv.
From S2P Require Import Syscall SyscallInv ForkExit ExecArgs.

(** ** The program headers *)

(** The program header at [ph] of the image at [buffer] describes [sec]. *)
Record header_at (m : mem) (buffer ph : Z) (sec : section) : Prop := {
  ha_type : word_at m (ph_p_type ph) PT_LOAD;
  ha_paddr : word_at m (ph_p_paddr ph) (sec_base sec);
  ha_memsz : word_at m (ph_p_memsz ph) (sec_limit sec);
  ha_offset : exists off, word_at m (ph_p_offset ph) off /\ sec_buffer sec = u32 (buffer + off)
}.

(** The image at [buffer]: the headers of [sections] come first, and none of
    the others that the loop of parseElfSections() reads (as many as the
    offset of the table says) is loadable. *)
Record elf_image (m : mem) (buffer phoff entry : Z) (sections : list section) : Prop := {
  ei_magic : bytes_at m buffer ELF_MAGIC;
  ei_class : m !! (buffer + EI_CLASS) = Some 1;
  ei_data : m !! (buffer + EI_DATA) = Some 1;
  ei_entry : word_at m (hdr_e_entry buffer) entry;
  ei_phoff : word_at m (hdr_e_phoff buffer) phoff;
  ei_load : forall i sec, sections !! i = Some sec ->
    header_at m buffer (buffer + phoff + sizeof_elf32_phdr * Z.of_nat i) sec;
  ei_rest : forall i, Z.of_nat (length sections) <= i < phoff ->
    exists t, word_at m (buffer + phoff + sizeof_elf32_phdr * i) t /\ t <> PT_LOAD;
  ei_number : Z.of_nat (length sections) <= phoff;
  ei_end : 0 <= buffer /\ forall i, i = 0 \/ 0 <= i < phoff -> buffer + phoff + sizeof_elf32_phdr * i < 2 ^ 32
}.

Lemma bytes_differ_same m a l : bytes_at m a l -> bytes_differ a l m = Ret (false, m).
Proof.
  revert a. induction l as [|c l IH]; intros a H; [done|]. destruct H as [Hc H]. cbn [bytes_differ].
  rewrite (bind_Ret _ _ _ _ _ (load8_at _ _ _ Hc)), Z.eqb_refl. by apply IH.
Qed.

(** The entries [i] to [n] of the array are the sections. *)
Definition filled (sections : list section) (i n : Z) (a a' : gmap Z section) : Prop :=
  forall j, a' !! j = if bool_decide (i <= j < Z.min n (Z.of_nat (length sections))) then sections !! Z.to_nat j else a !! j.

Lemma elf_loop_spec m buffer phoff entry sections n : elf_image m buffer phoff entry sections ->
  forall count i a, 0 <= i -> i + Z.of_nat count = phoff ->
  exists a', elf_loop count buffer (u32 (buffer + phoff)) i (Z.min i (Z.of_nat (length sections))) n a m =
      Ret ((Z.of_nat (length sections), a'), m) /\ filled sections i n a a'.
Proof.
  intros [_ _ _ _ Hphoff Hload Hrest Hnum [H0 Hend]]. set (len := Z.of_nat (length sections)) in *.
  unfold sizeof_elf32_phdr in *.
  induction count as [|count IH]; intros i a Hi Hc; cbn [elf_loop].
  { exists a. replace (Z.min i len) with len by lia. split; [done|]. intros j. by rewrite bool_decide_eq_false_2 by lia. }
  assert (u32 (u32 (buffer + phoff) + sizeof_elf32_phdr * i) = buffer + phoff + 32 * i) as ->.
  { unfold sizeof_elf32_phdr. pose proof (Hend 0 ltac:(by left)). pose proof (Hend i ltac:(right; lia)).
    rewrite (wrap_small 32 (buffer + phoff)) by (unfold urange; lia). apply wrap_small. unfold urange. lia. }
  destruct (decide (i < len)) as [Hlt|Hge].
  - destruct (lookup_lt_is_Some_2 sections (Z.to_nat i)) as [sec Hsec]; [lia|].
    pose proof (Hload _ _ Hsec) as Hh. rewrite Z2Nat.id in Hh by lia. destruct Hh as [Ht Hb Hl (off & Ho & Eb)].
    rewrite (bind_Ret _ _ _ _ _ (load32_at _ _ _ Ht)). cbn [Z.eqb PT_LOAD Pos.eqb].
    replace (Z.min i len) with i by lia.
    set (a1 := if decide (i < n) then <[i := sec]> a else a).
    rewrite (bind_Ret _ _ m a1 m).
    + destruct (IH (i + 1) a1) as (a' & Hrun & Ha'); [lia|lia|]. replace (Z.min (i + 1) len) with (i + 1) in Hrun by lia.
      exists a'. split; [done|]. intros j. rewrite Ha'. unfold a1. destruct (decide (j = i)) as [->|Hj].
      * rewrite bool_decide_eq_false_2 by lia. destruct (decide (i < n)).
        -- by rewrite lookup_insert_eq, bool_decide_eq_true_2 by lia.
        -- by rewrite bool_decide_eq_false_2 by lia.
      * rewrite (bool_decide_ext (i + 1 <= j < Z.min n len) (i <= j < Z.min n len)) by lia.
        destruct (decide (i < n)); [by rewrite lookup_insert_ne|done].
    + unfold a1. destruct (decide (i < n)).
      * rewrite (proj2 (Z.ltb_lt i n)) by done.
        rewrite (bind_Ret _ _ _ _ _ (load32_at _ _ _ Hb)), (bind_Ret _ _ _ _ _ (load32_at _ _ _ Hl)), (bind_Ret _ _ _ _ _ (load32_at _ _ _ Ho)).
        rewrite <- Eb. by destruct sec.
      * by rewrite (proj2 (Z.ltb_ge i n)) by lia.
  - destruct (Hrest i) as (t & Ht & Hne); [lia|]. rewrite (bind_Ret _ _ _ _ _ (load32_at _ _ _ Ht)).
    rewrite (proj2 (Z.eqb_neq t PT_LOAD)) by done. destruct (IH (i + 1) a) as (a' & Hrun & Ha'); [lia|lia|].
    replace (Z.min (i + 1) len) with (Z.min i len) in Hrun by lia. exists a'. split; [done|].
    intros j. rewrite Ha'. by rewrite !bool_decide_eq_false_2 by lia.
Qed.

Lemma parse_spec m buffer phoff entry sections n : elf_image m buffer phoff entry sections ->
  exists a, parseElfSections buffer n m = Ret (Some (Z.of_nat (length sections), entry, a), m) /\ filled sections 0 n ∅ a.
Proof.
  intros Himg. pose proof Himg as [Hmagic Hclass Hdata Hentry Hphoff _ _ Hnum _].
  destruct (elf_loop_spec m buffer phoff entry sections n Himg (Z.to_nat phoff) 0 ∅) as (a & Hrun & Ha); [lia|lia|].
  exists a. split; [|done]. unfold parseElfSections.
  rewrite (bind_Ret _ _ _ _ _ (bytes_differ_same _ _ _ Hmagic)), (bind_Ret _ _ _ _ _ (load8_at _ _ _ Hclass)). cbn [negb Z.eqb Pos.eqb].
  rewrite (bind_Ret _ _ _ _ _ (load8_at _ _ _ Hdata)). cbn [negb Z.eqb Pos.eqb].
  rewrite (bind_Ret _ _ _ _ _ (load32_at _ _ _ Hentry)), (bind_Ret _ _ _ _ _ (load32_at _ _ _ Hphoff)).
  replace (Z.min 0 (Z.of_nat (length sections))) with 0 in Hrun by lia. by rewrite (bind_Ret _ _ _ _ _ Hrun).
Qed.

Lemma section_array_spec l i a : (forall j sec, l !! j = Some sec -> a !! (i + Z.of_nat j) = Some sec) ->
  section_array (length l) i a = Some l.
Proof.
  revert i. induction l as [|sec l IH]; intros i H; [done|]. cbn [section_array length].
  pose proof (H 0%nat sec eq_refl) as H0. rewrite Z.add_0_r in H0. rewrite H0. cbn. rewrite IH; [done|].
  intros j sec' Hj. rewrite <- (H (S j) sec' Hj). f_equal. lia.
Qed.

Section exec.
Context {W : Type} `{HE : !External W} `{HL : !Layout}.
Implicit Types (k : kernel W).

(** ** The descriptors that exec() closes *)
Lemma valid_pid_true pid : 0 <= pid < MAX_PROCESS_NUM -> valid_pid pid = true.
Proof. unfold valid_pid. lia. Qed.

Lemma working_pid X pid cur k p : working X pid cur k -> process_list k !! pid = Some p -> valid_pid pid = true.
Proof. intros Hw Hp. apply valid_pid_true. by apply (inv_pids X k (working_inv _ _ _ _ Hw) pid p). Qed.

Lemma slot_present X k pid p i o : inv X k -> process_list k !! pid = Some p -> objects p !! i = Some o ->
  is_Some (store k !! o).
Proof.
  intros Hi Hp Ho. pose proof (all_slots_lookup _ _ _ _ _ Hp Ho) as Hm. pose proof (inv_refs X k Hi o) as Hr.
  destruct (store k !! o); [done|]. lia.
Qed.

Lemma release_runs o k : is_Some (store k !! o) -> exists k', release o k = Ret (tt, k') /\ k_mem k' = k_mem k /\
  process_list k' = process_list k.
Proof.
  intros [x Hx]. unfold release. rewrite (bind_Ret _ _ _ _ _ (obj_at _ _ _ Hx)).
  destruct (o_ref x - 1 =? 0); [destruct (o_pending x)|]; by eexists.
Qed.

Lemma onRemoved_runs o pid k : is_Some (store k !! o) -> exists k', onRemovedByOwner o pid k = Ret (tt, k') /\
  k_mem k' = k_mem k /\ process_list k' = process_list k /\ is_Some (store k' !! o).
Proof.
  intros [x Hx]. unfold onRemovedByOwner. rewrite (bind_Ret _ _ _ _ _ (obj_at _ _ _ Hx)).
  destruct (o_pending x) as [l|]; [|by eexists; rewrite Hx].
  eexists. split; [reflexivity|]. split; [done|]. split; [done|]. cbn. by rewrite lookup_insert_eq.
Qed.

Lemma removeObject_runs X pid pos k p : inv X k -> process_list k !! pid = Some p -> 0 <= pos < PROCESS_MAX_OBJECTS ->
  exists k', removeObject pid pos k = Ret (tt, k') /\ k_mem k' = k_mem k /\
    process_list k' = <[pid := set_objects (delete pos (objects p)) p]> (process_list k).
Proof.
  intros Hi Hp Hpos. pose proof (valid_pid_true _ (inv_pids X k Hi pid p Hp)) as Hv.
  unfold removeObject. rewrite (bind_Ret _ _ _ _ _ (proc_at _ _ _ Hv Hp)). unfold remove_object.
  rewrite (proj2 (Z.leb_le 0 pos)), (proj2 (Z.ltb_lt pos PROCESS_MAX_OBJECTS)) by lia. cbn [andb].
  destruct (objects p !! pos) as [o|] eqn:Ho.
  - destruct (onRemoved_runs o pid k (slot_present X k pid p pos o Hi Hp Ho)) as (k1 & H1 & Hm1 & Hl1 & Hs1).
    destruct (release_runs o k1 Hs1) as (k2 & H2 & Hm2 & Hl2).
    rewrite bind_assoc, (bind_Ret _ _ _ _ _ H1), bind_assoc, (bind_Ret _ _ _ _ _ H2). prog_norm.
    eexists. split; [reflexivity|]. cbn. by rewrite Hl2, Hl1, Hm2, Hm1.
  - prog_norm. eexists. split; [reflexivity|]. cbn. by rewrite delete_id, set_objects_id.
Qed.

(** What exec() keeps of the descriptors from [i] to [i + n]. *)
Lemma exec_remove_runs X n pid i low high cur k p : working X pid cur k -> process_list k !! pid = Some p ->
  0 <= i -> i + Z.of_nat n <= PROCESS_MAX_OBJECTS ->
  exists k' m, exec_remove n pid i low high k = Ret (tt, k') /\ k_mem k' = k_mem k /\
    process_list k' = <[pid := set_objects m p]> (process_list k) /\
    forall j, m !! j = if bool_decide (i <= j < i + Z.of_nat n) && negb (exec_keep low high j) then None else objects p !! j.
Proof.
  revert i k p. induction n as [|n IH]; intros i k p Hw Hp Hi Hn; cbn [exec_remove].
  { exists k, (objects p). split; [done|]. split; [done|]. split; [by rewrite set_objects_id, insert_id|].
    intros j. by rewrite bool_decide_eq_false_2 by lia. }
  set (step := if exec_keep low high i then _ else _).
  assert (exists k1 m1, step k = Ret (tt, k1) /\ k_mem k1 = k_mem k /\ process_list k1 = <[pid := set_objects m1 p]> (process_list k) /\
    m1 = if exec_keep low high i then objects p else delete i (objects p)) as (k1 & m1 & H1 & Hm1 & Hl1 & E1).
  { unfold step. destruct (exec_keep low high i).
    - exists k, (objects p). by rewrite set_objects_id, insert_id.
    - destruct (removeObject_runs X pid i k p (working_inv _ _ _ _ Hw) Hp) as (k1 & H1 & Hm1 & Hl1); [lia|]. by exists k1, (delete i (objects p)). }
  assert (working X pid cur k1) as Hw1.
  { apply (exec_remove_working X 1 pid i low high cur k tt); [|done]. cbn [exec_remove]. fold step.
    by rewrite (bind_Ret _ _ _ _ _ H1). }
  destruct (IH (i + 1) k1 (set_objects m1 p) Hw1) as (k' & m & H & Hm & Hl & Ho); [by rewrite Hl1, lookup_insert_eq|lia|lia|].
  exists k', m. rewrite (bind_Ret _ _ _ _ _ H1), H, Hm, Hm1. split; [done|]. split; [done|].
  split; [by rewrite Hl, Hl1, insert_insert_eq|].
  intros j. rewrite Ho. cbn [objects set_objects]. rewrite E1.
  destruct (decide (j = i)) as [->|Hj].
  - rewrite bool_decide_eq_false_2, bool_decide_eq_true_2 by lia. cbn [andb]. destruct (exec_keep low high i); [done|].
    apply lookup_delete_eq.
  - replace (bool_decide (i <= j < i + Z.of_nat (Datatypes.S n))) with (bool_decide (i + 1 <= j < i + 1 + Z.of_nat n))
      by (apply bool_decide_ext; lia).
    destruct (exec_keep low high i); [done|]. by rewrite lookup_delete_ne.
Qed.

(** ** The segments of the image *)
Record segment := Segment { seg_paddr : Z; seg_data : list Z }.

(** The section [sec] of parseElfSections() describes the segment [s], whose
    bytes lie outside the space of the process [pid]. *)
Record section_of (pid : Z) (m : mem) (sec : section) (s : segment) : Prop := {
  so_base : sec_base sec = seg_paddr s;
  so_limit : sec_limit sec = Z.of_nat (length (seg_data s));
  so_bytes : bytes_at m (sec_buffer sec) (seg_data s);
  so_range : Forall (urange 8) (seg_data s);
  so_room : 0 <= seg_paddr s /\ seg_paddr s + Z.of_nat (length (seg_data s)) < PROCESS_USER_IMAGE_SPACE;
  so_outside : sec_buffer sec + Z.of_nat (length (seg_data s)) <= image_base pid \/
    image_base pid + PROCESS_USER_IMAGE_SPACE <= sec_buffer sec
}.

Fixpoint write_segments (base : Z) (m : mem) (l : list segment) : mem :=
  match l with
  | [] => m
  | s :: l => write_segments base (write_bytes m (base + seg_paddr s) (seg_data s)) l
  end.

Lemma section_of_write pid m sec s a l : section_of pid m sec s ->
  image_base pid <= a -> a + Z.of_nat (length l) <= image_base pid + PROCESS_USER_IMAGE_SPACE ->
  section_of pid (write_bytes m a l) sec s.
Proof. intros [? ? ? ? ? Hout] Ha Hl. split; try done. rewrite bytes_at_write_out by lia. done. Qed.

Lemma free_object_lt n i m j : i <= j < i + Z.of_nat n -> m !! j = None ->
  exists j', free_object n i m = Some j' /\ i <= j' <= j.
Proof.
  revert i. induction n as [|n IH]; intros i Hj Hm; [lia|]. cbn [free_object].
  destruct (m !! i) eqn:E; [|by exists i; split; [|lia]].
  assert (i <> j) by congruence. destruct (IH (i + 1)) as (j1 & H1 & ?); [lia|done|]. exists j1. split; [done|lia].
Qed.

(** One turn of the loop of exec(): the segment gets an object of its own. *)
Lemma load_section_runs pid k p sec s i0 : valid_pid pid = true -> process_list k !! pid = Some p ->
  PROCESS_SEGMENT_BEGIN <= i0 < PROCESS_MAX_OBJECTS -> objects p !! i0 = None ->
  mapped (k_mem k) (image_base pid) PROCESS_USER_IMAGE_SPACE -> image_base pid + PROCESS_USER_IMAGE_SPACE <= 2 ^ 32 ->
  section_of pid (k_mem k) sec s ->
  exists k' o i, (forall rest, exec_load pid (sec :: rest) k = exec_load pid rest k') /\
    k_mem k' = write_bytes (k_mem k) (image_base pid + seg_paddr s) (seg_data s) /\
    process_list k' = <[pid := set_objects (<[i := o]> (objects p)) p]> (process_list k) /\ PROCESS_SEGMENT_BEGIN <= i <= i0.
Proof.
  intros Hv Hp Hi0 Hfree Hm Hspace [Hb Hl Hbytes Hr [H0 Hroom] Hout].
  assert (urange 32 (image_base pid)) as Hbase by by apply wrap_range.
  destruct (free_object_lt (Z.to_nat (PROCESS_MAX_OBJECTS - PROCESS_SEGMENT_BEGIN)) PROCESS_SEGMENT_BEGIN (objects p) i0)
    as (i & Hi & Hir); [unfold PROCESS_SEGMENT_BEGIN, PROCESS_MAX_OBJECTS in *; lia|done|].
  set (base := image_base pid + seg_paddr s). set (o := next_object k). set (x := Object 1 (BSegment base (sec_limit sec)) None).
  set (k1 := set_next_object (o + 1) (set_store (<[o := x]> (store k)) k)).
  set (k2 := set_mem (write_bytes (k_mem k) base (seg_data s)) k1).
  set (k3 := set_store (<[o := set_ref 2 x]> (store k2)) k2).
  set (k4 := set_process_list (<[pid := set_objects (<[i := o]> (objects p)) p]> (process_list k3)) k3).
  exists (set_store (<[o := x]> (store k4)) k4), o, i. split; [|done]. intros rest. cbn [exec_load].
  rewrite Hb. replace (u32 (seg_paddr s + image_base pid)) with base
    by (symmetry; unfold base; rewrite Z.add_comm; apply wrap_small; unfold urange in *; lia).
  rewrite (bind_Ret (new_object _ _) _ k o k1) by reflexivity.
  rewrite (bind_Ret (kmem _) _ k1 base k2).
  2: { apply kmem_at. rewrite Hl. apply memcpy_spec; [done|done| |unfold base; lia].
       intros a Ha. apply Hm. unfold base in Ha. lia. }
  assert (store k2 !! o = Some x) as Hx2 by apply lookup_insert_eq.
  assert (addObject pid (Some o) k2 = Ret (i, k4)) as Hadd.
  { unfold addObject. rewrite (bind_Ret _ _ _ _ _ (obj_at _ _ _ Hx2)), (bind_Ret _ _ _ _ _ (proc_at k2 _ _ Hv Hp)).
    change (is_segment x) with true. cbn beta iota zeta. rewrite Hi. unfold attach.
    rewrite bind_assoc, (bind_Ret _ _ _ _ _ (addRef_at _ _ _ Hx2)). by rewrite (bind_Ret _ _ _ _ _ (mod_proc_at k3 _ _ _ Hv Hp)). }
  rewrite (bind_Ret _ _ _ _ _ Hadd).
  assert (store k4 !! o = Some (set_ref 2 x)) as Hx4 by apply lookup_insert_eq.
  by rewrite (bind_Ret _ _ _ _ _ (release_at _ _ _ Hx4 ltac:(cbn; lia))).
Qed.

Lemma exec_load_runs pid sections segs k p i0 : valid_pid pid = true -> process_list k !! pid = Some p ->
  PROCESS_SEGMENT_BEGIN <= i0 -> i0 + Z.of_nat (length sections) <= PROCESS_MAX_OBJECTS ->
  (forall j, i0 <= j < PROCESS_MAX_OBJECTS -> objects p !! j = None) ->
  mapped (k_mem k) (image_base pid) PROCESS_USER_IMAGE_SPACE -> image_base pid + PROCESS_USER_IMAGE_SPACE <= 2 ^ 32 ->
  Forall2 (section_of pid (k_mem k)) sections segs ->
  exists k' m, exec_load pid sections k = Ret (tt, k') /\ k_mem k' = write_segments (image_base pid) (k_mem k) segs /\
    process_list k' = <[pid := set_objects m p]> (process_list k) /\
    forall j, j < PROCESS_SEGMENT_BEGIN -> m !! j = objects p !! j.
Proof.
  intros Hv Hp Hi0 Hn Hfree Hm Hspace Hs. revert k p i0 Hp Hi0 Hn Hfree Hm Hs.
  revert segs. induction sections as [|sec sections IH]; intros segs k p i0 Hp Hi0 Hn Hfree Hm Hs.
  { inversion Hs; subst. exists k, (objects p). split; [done|]. split; [done|]. by rewrite set_objects_id, insert_id. }
  inversion Hs as [|? s ? segs' Hsec Hrest]; subst. cbn [length] in Hn.
  destruct (load_section_runs pid k p sec s i0 Hv Hp) as (k1 & o & i & H1 & Hm1 & Hl1 & Hi); try done; [lia|apply Hfree; lia|].
  destruct (IH segs' k1 (set_objects (<[i := o]> (objects p)) p) (i0 + 1)) as (k2 & m & H2 & Hm2 & Hl2 & Ho2).
  - by rewrite Hl1, lookup_insert_eq.
  - lia.
  - lia.
  - intros j Hj. cbn. rewrite lookup_insert_ne by lia. apply Hfree. lia.
  - rewrite Hm1. by apply mapped_write.
  - rewrite Hm1. eapply list.Forall2_impl; [exact Hrest|]. intros sec' s' H. destruct Hsec as [? ? ? ? [? ?] ?].
    apply section_of_write; [done|lia|lia].
  - exists k2, m. rewrite H1, H2, Hm2, Hm1. split; [done|]. split; [done|].
    split; [by rewrite Hl2, Hl1, insert_insert_eq|]. intros j Hj. rewrite Ho2 by done. cbn. by rewrite lookup_insert_ne by lia.
Qed.

(** No two segments overlap. *)
Fixpoint apart (l : list segment) : Prop :=
  match l with
  | [] => True
  | s :: l => Forall (fun t => seg_paddr s + Z.of_nat (length (seg_data s)) <= seg_paddr t \/
      seg_paddr t + Z.of_nat (length (seg_data t)) <= seg_paddr s) l /\ apart l
  end.

Definition in_space (s : segment) : Prop :=
  0 <= seg_paddr s /\ seg_paddr s + Z.of_nat (length (seg_data s)) < PROCESS_USER_IMAGE_SPACE.

Lemma write_segments_out base m l x : Forall in_space l ->
  ~ (base <= x < base + PROCESS_USER_IMAGE_SPACE) -> write_segments base m l !! x = m !! x.
Proof.
  intros Hl Hx. revert m. induction Hl as [|s l [? ?] Hl IH]; intros m; [done|]. cbn [write_segments].
  rewrite IH. apply lookup_write_out. lia.
Qed.

Lemma write_segments_keep base m l a b : Forall in_space l -> bytes_at m (base + a) b ->
  Forall (fun t => a + Z.of_nat (length b) <= seg_paddr t \/ seg_paddr t + Z.of_nat (length (seg_data t)) <= a) l ->
  bytes_at (write_segments base m l) (base + a) b.
Proof.
  intros Hl. revert m. induction Hl as [|s l Hs Hl IH]; intros m Hb Ha; [done|]. apply list.Forall_cons in Ha as [Ha1 Ha].
  cbn [write_segments]. apply IH; [|done]. rewrite bytes_at_write_out by lia. done.
Qed.

Lemma write_segments_at base m l : Forall in_space l -> apart l ->
  Forall (fun s => bytes_at (write_segments base m l) (base + seg_paddr s) (seg_data s)) l.
Proof.
  intros Hl. revert m. induction Hl as [|s l Hs Hl IH]; intros m Ha; [constructor|]. destruct Ha as [Ha1 Ha].
  constructor; [|by apply IH]. cbn [write_segments]. apply write_segments_keep; [done|apply bytes_at_write|done].
Qed.

Lemma write_segments_mapped base m l a n : mapped m a n -> mapped (write_segments base m l) a n.
Proof. revert m. induction l as [|s l IH]; intros m H; [done|]. by apply IH, mapped_write. Qed.

(** ** The parent whose stack was saved at the fork *)
Definition parent_of k p : option process := if 0 <=? ppid p then process_list k !! ppid p else None.
Definition saved_stack k p : Z * list Z :=
  match parent_of k p with
  | Some q => match stack_backup q with Some b => (stack_top_backup q, b) | None => (0, []) end
  | None => (0, [])
  end.

Lemma restore_parent_runs k p : ppid p < MAX_PROCESS_NUM ->
  mapped (k_mem k) (saved_stack k p).1 (Z.of_nat (length (saved_stack k p).2)) -> Forall (urange 8) (saved_stack k p).2 ->
  exists k', restore_parent p k = Ret (tt, k') /\ k_mem k' = write_bytes (k_mem k) (saved_stack k p).1 (saved_stack k p).2 /\
    process_list k' = match parent_of k p with
      | Some q => <[ppid p := match stack_backup q with Some _ => awake q | None => q end]> (process_list k)
      | None => process_list k
      end.
Proof.
  unfold saved_stack, parent_of, restore_parent. intros Hp Hm Hr. destruct (0 <=? ppid p) eqn:E0; [|by exists k].
  assert (valid_pid (ppid p) = true) as Hv by (apply valid_pid_true; lia). unfold getProcess. rewrite Hv. prog_norm.
  destruct (process_list k !! ppid p) as [q|] eqn:Eq; [|by exists k].
  unfold restoreStack. rewrite (bind_Ret _ _ _ _ _ (proc_at _ _ _ Hv Eq)).
  destruct (stack_backup q) as [b|] eqn:Eb; [|by exists k; rewrite insert_id].
  cbn [fst snd] in *. rewrite (bind_Ret _ _ _ _ _ (kmem_at _ _ _ _ (store_bytes_at _ _ _ Hm Hr))).
  rewrite (mod_proc_at (set_mem _ k) _ _ q Hv Eq). by eexists.
Qed.

(** ** exec() *)
Definition new_esp (pid : Z) : Z := u32 (stack_top user_stack_pos pid - sizeof_runtime_info).

(** Two ranges of addresses do not meet. *)
Definition clear_of (a n b m : Z) : Prop := a + n <= b \/ b + m <= a.

(** The process [pid] is at work in a well-formed kernel; its arguments can be
    read; its space, its stack and the saved stack of its parent are memory,
    and apart from each other; the slots of the old segments are not kept. *)
Record caller_ready (X : Z -> Z) pid cur k p args strs low high : Prop := {
  cr_working : working X pid cur k;
  cr_proc : process_list k !! pid = Some p;
  cr_parent : ppid p < MAX_PROCESS_NUM /\ ppid p <> pid;
  cr_args : args_at 16 (k_mem k) args strs;
  cr_slots : forall j, PROCESS_SEGMENT_BEGIN <= j < PROCESS_MAX_OBJECTS -> exec_keep low high j = false;
  cr_space : mapped (k_mem k) (image_base pid) PROCESS_USER_IMAGE_SPACE;
  cr_space_end : image_base pid + PROCESS_USER_IMAGE_SPACE <= 2 ^ 32;
  cr_stack : mapped (k_mem k) (new_esp pid - 4) (4 + sizeof_runtime_info);
  cr_esp : 4 <= new_esp pid;
  cr_stack_space : clear_of (new_esp pid - 4) (4 + sizeof_runtime_info) (image_base pid) PROCESS_USER_IMAGE_SPACE;
  cr_saved : mapped (k_mem k) (saved_stack k p).1 (Z.of_nat (length (saved_stack k p).2));
  cr_saved_range : Forall (urange 8) (saved_stack k p).2;
  cr_saved_space : clear_of (saved_stack k p).1 (Z.of_nat (length (saved_stack k p).2)) (image_base pid) PROCESS_USER_IMAGE_SPACE;
  cr_saved_stack : clear_of (saved_stack k p).1 (Z.of_nat (length (saved_stack k p).2)) (new_esp pid - 4) (4 + sizeof_runtime_info)
}.

(** The sections of an image that fits the space of [pid]. *)
Record image_ready pid (m : mem) sections segs : Prop := {
  ir_sections : Forall2 (section_of pid m) sections segs;
  ir_apart : apart segs;
  ir_number : Z.of_nat (length sections) <= PROCESS_MAX_SEGMENTS;
  ir_stack : Forall (fun sec => clear_of (new_esp pid - 4) (4 + sizeof_runtime_info) (sec_buffer sec) (sec_limit sec)) sections
}.

(** The bytes that exec() may write. *)
Definition exec_writes pid k p (x : Z) : Prop :=
  image_base pid <= x < image_base pid + PROCESS_USER_IMAGE_SPACE \/
  new_esp pid - 4 <= x < new_esp pid + sizeof_runtime_info \/
  (saved_stack k p).1 <= x < (saved_stack k p).1 + Z.of_nat (length (saved_stack k p).2).

(** The registers with which a program starts at [entry]. *)
Record first_registers pid entry (t : tss) : Prop := {
  fr_eip : t Eip = u32 (entry + image_base pid);
  fr_esp : t Esp = new_esp pid - 4;
  fr_esp0 : t Esp0 = stack_top kernel_stack_pos pid /\ t Ss0 = SEGMENT_SELECTOR SEG_KERNEL_DATA 0 0;
  fr_cs : t Cs = SEGMENT_SELECTOR SEG_USER_CODE 0 3;
  fr_data : Forall (fun r => t r = SEGMENT_SELECTOR SEG_USER_DATA 0 3) [Ds; Es; Fs; Gs; Ss];
  fr_flags : t Eflags = 2 ^ 9;
  fr_zero : Forall (fun r => t r = 0) [Eax; Ecx; Edx; Ebx; Ebp; Esi; Edi; Cr3; Ldt]
}.

Lemma exec_tss_registers pid entry : first_registers pid entry (tss_set Esp (new_esp pid - 4) (exec_tss pid entry)).
Proof. by split; [..|repeat constructor| |repeat constructor]. Qed.

(** What exec() leaves of the process [p]: the program [segs] with the
    arguments [strs], about to run its first instruction at [entry]. *)
Record started pid k p k' p' entry strs segs low high : Prop := {
  st_regs : first_registers pid entry (usermode_state p');
  st_ppid : ppid p' = ppid p;
  st_kept : forall j, 0 <= j < PROCESS_SEGMENT_BEGIN -> objects p' !! j = if exec_keep low high j then objects p !! j else None;
  st_image : Forall (fun s => bytes_at (k_mem k') (image_base pid + seg_paddr s) (seg_data s)) segs;
  st_info : word_at (k_mem k') (new_esp pid) (new_esp pid) /\
    runtime_info_at (k_mem k') (new_esp pid) (offsets 0 (map (take 19) strs)) /\
    strings_at (k_mem k') (new_esp pid) 0 0 (map (take 19) strs);
  st_parent : forall q b, parent_of k p = Some q -> stack_backup q = Some b ->
    process_list k' !! ppid p = Some (awake q) /\ bytes_at (k_mem k') (stack_top_backup q) b
}.

(** The bytes that [started] speaks of are among those that exec() writes. *)
Lemma started_frame pid k p k' k2 p' entry strs segs low high : started pid k p k' p' entry strs segs low high ->
  (length strs <= 16)%nat -> Forall in_space segs -> process_list k2 = process_list k' ->
  (forall x, exec_writes pid k p x -> k_mem k2 !! x = k_mem k' !! x) -> started pid k p k2 p' entry strs segs low high.
Proof.
  intros [Hr Hpp Hk Hi (Hw & Hinfo & Hs) Hpar] Hlen Hin Hl Hf. unfold exec_writes in Hf.
  assert (sizeof_runtime_info = 528) as Esize by reflexivity. split; try done.
  - apply list.Forall_forall. intros s Hx. rewrite list.Forall_forall in Hi, Hin. destruct (Hin s Hx).
    apply (bytes_at_frame (k_mem k')); [by apply Hi|]. intros x Hx'. apply Hf. lia.
  - split; [apply (word_at_frame (k_mem k')); [done|intros x Hx; apply Hf; lia]|]. split.
    + apply (runtime_info_frame (k_mem k')); [done|]. intros x Hx. apply Hf. lia.
    + pose proof (room_take _ _ Hlen). apply (strings_at_frame (k_mem k') _ _ _ _ _ 492); try done; rewrite ?length_map; try lia.
      unfold info_args, info_buffer, PROCESS_MAX_ARGUMENTS. intros x Hx. apply Hf. lia.
  - intros q b Hq Hb. destruct (Hpar q b Hq Hb) as [H1 H2]. rewrite Hl. split; [done|].
    apply (bytes_at_frame (k_mem k')); [done|]. intros x Hx. apply Hf. unfold saved_stack. rewrite Hq, Hb. cbn. lia.
Qed.

(** Steps that leave the processes and the bytes of the caller alone. *)
Lemma caller_ready_moved X pid cur k k' p args strs low high : caller_ready X pid cur k p args strs low high ->
  working X pid cur k' -> process_list k' = process_list k -> args_at 16 (k_mem k') args strs ->
  (forall x, exec_writes pid k p x -> k_mem k' !! x = k_mem k !! x) -> caller_ready X pid cur k' p args strs low high.
Proof.
  intros [Hw Hp Hpar Ha Hslots Hsp Hend Hst Hesp Hss Hsv Hsvr Hsvs Hsvt] Hw' Hl Ha' Hf.
  assert (saved_stack k' p = saved_stack k p) as E by (unfold saved_stack, parent_of; by rewrite Hl).
  assert (forall a n, (forall x, a <= x < a + n -> exec_writes pid k p x) -> mapped (k_mem k) a n -> mapped (k_mem k') a n) as Hm.
  { intros a n Hin Hm x Hx. rewrite Hf by auto. by apply Hm. }
  unfold exec_writes in Hm. split; rewrite ?E, ?Hl; try done; (apply Hm; [|done]); intros x Hx; lia.
Qed.

Lemma good_sections pid m sections segs : Forall2 (section_of pid m) sections segs -> existsb bad_section sections = false.
Proof.
  induction 1 as [|sec s sections segs [Hb Hl _ _ [H0 Hr] _] _ IH]; [done|]. cbn. rewrite IH, orb_false_r.
  unfold bad_section. rewrite Hb, Hl, wrap_small; [|unfold urange, PROCESS_USER_IMAGE_SPACE in *; pow2_literals; lia].
  apply Z.leb_gt. lia.
Qed.

Lemma sections_in_space pid m sections segs : Forall2 (section_of pid m) sections segs -> Forall in_space segs.
Proof. induction 1 as [|sec s sections segs [] _ IH]; by constructor. Qed.

Lemma sections_frame pid m m' sections segs a n : Forall2 (section_of pid m) sections segs ->
  Forall (fun sec => clear_of a n (sec_buffer sec) (sec_limit sec)) sections ->
  (forall x, ~ (a <= x < a + n) -> m' !! x = m !! x) -> Forall2 (section_of pid m') sections segs.
Proof.
  intros H Hc Hf. induction H as [|sec s sections segs [Hb Hl Hbytes Hr Hroom Hout] _ IH]; [constructor|].
  apply list.Forall_cons in Hc as [Hc1 Hc]. constructor; [|by apply IH]. split; try done.
  apply (bytes_at_frame m); [done|]. intros x Hx. apply Hf. unfold clear_of in Hc1. lia.
Qed.

Lemma parent_of_insert k pid p p' l : ppid p' = ppid p -> ppid p <> pid ->
  forall k', process_list k' = <[pid := l]> (process_list k) -> parent_of k' p' = parent_of k p.
Proof.
  intros E Hne k' Hl. unfold parent_of. rewrite E, Hl. destruct (0 <=? ppid p); [|done]. by rewrite lookup_insert_ne.
Qed.

(** Up to the loop over the sections. *)
Lemma exec_prefix X pid cur k p args strs sections segs entry low high :
  caller_ready X pid cur k p args strs low high -> image_ready pid (k_mem k) sections segs ->
  exists k4 m, (Process.exec pid args sections entry low high k =
      (exec_load pid sections;; p ← proc pid; restore_parent p) k4) /\
    process_list k4 = <[pid := set_usermode_state (tss_set Esp (new_esp pid - 4) (exec_tss pid entry)) (set_objects m p)]> (process_list k) /\
    (forall j, 0 <= j < PROCESS_MAX_OBJECTS -> m !! j = if exec_keep low high j then objects p !! j else None) /\
    word_at (k_mem k4) (new_esp pid) (new_esp pid) /\
    runtime_info_at (k_mem k4) (new_esp pid) (offsets 0 (map (take 19) strs)) /\
    strings_at (k_mem k4) (new_esp pid) 0 0 (map (take 19) strs) /\
    (forall x, ~ (new_esp pid - 4 <= x < new_esp pid + sizeof_runtime_info) -> k_mem k4 !! x = k_mem k !! x) /\
    forall a n, mapped (k_mem k) a n -> mapped (k_mem k4) a n.
Proof.
  intros [Hw Hp [Hpp Hne] Ha Hslots Hsp Hend Hst Hesp Hss Hsv Hsvr Hsvs Hsvt] [Hs Hap Hnum Hsi].
  pose proof (working_pid _ _ _ _ _ Hw Hp) as Hv. unfold Process.exec. rewrite (good_sections _ _ _ _ Hs).
  pose proof (kmem_at _ k _ _ (exec_args_spec _ _ _ _ Ha)) as Hargs. set (k0 := set_mem (k_mem k) k) in Hargs.
  rewrite (bind_Ret _ _ _ _ _ Hargs).
  destruct (exec_remove_runs X (Z.to_nat PROCESS_MAX_OBJECTS) pid 0 low high cur k0 p) as (k1 & m & H1 & Hm1 & Hl1 & Ho);
    [by apply (working_kmem X pid cur (exec_args 16 args) k (map (take 19) strs))|done|lia|done|].
  rewrite (bind_Ret _ _ _ _ _ H1).
  assert (process_list k1 !! pid = Some (set_objects m p)) as Hp1 by (rewrite Hl1; apply lookup_insert_eq).
  rewrite (bind_Ret _ _ _ _ _ (mod_proc_at k1 pid _ _ Hv Hp1)). set (k2 := set_process_list _ k1).
  destruct (args_at_chars _ _ _ _ Ha) as [Hlen Hch]. pose proof (room_take _ _ Hlen) as Hroom.
  assert (k_mem k2 = k_mem k) as Hm2 by (by rewrite <- (eq_refl : k_mem k0 = k_mem k), <- Hm1).
  destruct (exec_stack_spec pid (map (take 19) strs) (k_mem k2)) as (m3 & Hstack & _ & Hword & Hinfo & Hat & Hframe & Hkeep).
  { by apply Forall_chars_take. } { by rewrite length_map. } { unfold sizeof_info_buffer, PROCESS_RUNTIME_INFO_SIZE, PROCESS_MAX_ARGUMENTS. lia. }
  { by rewrite Hm2. } { done. }
  rewrite (bind_Ret _ _ _ _ _ (kmem_at _ k2 _ _ Hstack)). set (k3 := set_mem m3 k2).
  assert (process_list k3 !! pid = Some (set_usermode_state (exec_tss pid entry) (set_objects m p))) as Hp3 by apply lookup_insert_eq.
  rewrite (bind_Ret _ _ _ _ _ (mod_proc_at k3 pid _ _ Hv Hp3)). eexists _, m. split; [reflexivity|].
  split; [cbn; by rewrite !insert_insert_eq, Hl1, insert_insert_eq|].
  split; [intros j Hj; rewrite Ho, bool_decide_eq_true_2 by (cbn in *; lia); cbn [andb]; by destruct (exec_keep low high j)|].
  rewrite Hm2 in Hframe, Hkeep. by do 4 (split; [done|]).
Qed.

(** The image after the writes to the stack of the parent. *)
Lemma image_settled base segs m a b : Forall in_space segs -> apart segs ->
  clear_of a (Z.of_nat (length b)) base PROCESS_USER_IMAGE_SPACE ->
  Forall (fun s => bytes_at (write_bytes (write_segments base m segs) a b) (base + seg_paddr s) (seg_data s)) segs.
Proof.
  intros Hin Hap Hc. pose proof (write_segments_at base m segs Hin Hap) as H.
  apply list.Forall_forall. intros s Hs. rewrite list.Forall_forall in H, Hin. destruct (Hin s Hs) as [H0 H1].
  rewrite bytes_at_write_out; [by apply H|]. unfold clear_of in Hc. lia.
Qed.

Lemma exec_runs X pid cur k p args strs sections segs entry low high :
  caller_ready X pid cur k p args strs low high -> image_ready pid (k_mem k) sections segs ->
  exists k' p', Process.exec pid args sections entry low high k = Ret (tt, k') /\ process_list k' !! pid = Some p' /\
    working X pid cur k' /\ started pid k p k' p' entry strs segs low high /\
    (forall x, ~ exec_writes pid k p x -> k_mem k' !! x = k_mem k !! x) /\
    forall a n, mapped (k_mem k) a n -> mapped (k_mem k') a n.
Proof.
  intros Hready Himg. destruct (exec_prefix _ _ _ _ _ _ _ _ _ entry _ _ Hready Himg) as (k4 & m & Hexec & Hl4 & Ho & Hword & Hinfo & Hat & Hframe & Hkeep).
  destruct Hready as [Hw Hp [Hpp Hne] Ha Hslots Hsp Hend Hst Hesp Hss Hsv Hsvr Hsvs Hsvt].
  destruct Himg as [Hs Hap Hnum Hsi].
  pose proof (working_pid _ _ _ _ _ Hw Hp) as Hv. rewrite Hexec.
  set (p4 := set_usermode_state (tss_set Esp (new_esp pid - 4) (exec_tss pid entry)) (set_objects m p)) in *.
  assert (process_list k4 !! pid = Some p4) as Hp4 by (rewrite Hl4; apply lookup_insert_eq).
  set (esp := new_esp pid) in *. set (base := image_base pid) in *.
  pose proof (sections_in_space _ _ _ _ Hs) as Hin.
  assert (mapped (k_mem k4) base PROCESS_USER_IMAGE_SPACE) as Hsp4 by by apply Hkeep.
  assert (Forall2 (section_of pid (k_mem k4)) sections segs) as Hs4
    by (apply (sections_frame pid (k_mem k) _ _ _ (esp - 4) (4 + sizeof_runtime_info)); [done|done|intros x Hx; apply Hframe; lia]).
  destruct (exec_load_runs pid sections segs k4 p4 PROCESS_SEGMENT_BEGIN Hv Hp4) as (k5 & m5 & H5 & Hm5 & Hl5 & Ho5);
    [lia|unfold PROCESS_SEGMENT_BEGIN, PROCESS_MAX_SEGMENTS, PROCESS_MAX_OBJECTS in *; lia| |done|done|done|].
  { intros j Hj. cbn. rewrite Ho, Hslots; [done|done|unfold PROCESS_SEGMENT_BEGIN, PROCESS_MAX_SEGMENTS, PROCESS_MAX_OBJECTS in *; lia]. }
  set (p5 := set_objects m5 p4) in *.
  assert (process_list k5 !! pid = Some p5) as Hp5 by (rewrite Hl5; apply lookup_insert_eq).
  assert (process_list k5 = <[pid := p5]> (process_list k)) as Hl5k by (by rewrite Hl5, Hl4, insert_insert_eq).
  rewrite (bind_Ret _ _ _ _ _ H5), (bind_Ret _ _ _ _ _ (proc_at _ _ _ Hv Hp5)).
  assert (parent_of k5 p5 = parent_of k p) as Epar by by apply (parent_of_insert k pid p p5 p5).
  assert (saved_stack k5 p5 = saved_stack k p) as Esav by (unfold saved_stack; by rewrite Epar).
  destruct (restore_parent_runs k5 p5) as (k6 & H6 & Hm6 & Hl6); [done| |by rewrite Esav|].
  { rewrite Esav, Hm5. by apply write_segments_mapped, Hkeep. }
  rewrite Esav, Hm5 in Hm6. rewrite Epar in Hl6. set (a := (saved_stack k p).1) in *. set (b := (saved_stack k p).2) in *.
  change (ppid p5) with (ppid p) in Hl6.
  assert (process_list k6 !! pid = Some p5) as Hp6.
  { rewrite Hl6. destruct (parent_of k p); [by rewrite lookup_insert_ne|done]. }
  assert (forall x, esp - 4 <= x < esp + sizeof_runtime_info -> k_mem k6 !! x = k_mem k4 !! x) as Hsame.
  { intros x Hx. rewrite Hm6. unfold clear_of in Hsvt, Hss.
    rewrite lookup_write_out by lia. apply write_segments_out; [done|]. lia. }
  exists k6, p5. split; [done|]. split; [done|]. split.
  { apply (exec_working X pid args sections entry low high cur k tt); [|done].
    by rewrite Hexec, (bind_Ret _ _ _ _ _ H5), (bind_Ret _ _ _ _ _ (proc_at _ _ _ Hv Hp5)). }
  assert (sizeof_runtime_info = 528) as Esize by reflexivity. split; [|split].
  2: { unfold exec_writes. fold esp base a b. intros x Hx. rewrite Hm6, lookup_write_out by lia.
    rewrite write_segments_out by (done || lia). apply Hframe. lia. }
  2: { intros c n Hc. rewrite Hm6. by apply mapped_write, write_segments_mapped, Hkeep. }
  split; [apply exec_tss_registers|done| | | |].
  - intros j Hj. cbn. rewrite Ho5 by lia. cbn. apply Ho. unfold PROCESS_SEGMENT_BEGIN, PROCESS_MAX_SEGMENTS in Hj. lia.
  - rewrite Hm6. by apply image_settled.
  - split; [apply (word_at_frame (k_mem k4)); [done|intros x Hx; apply Hsame; lia]|]. split.
    + apply (runtime_info_frame (k_mem k4)); [done|]. intros x Hx. apply Hsame. lia.
    + destruct (args_at_chars _ _ _ _ Ha) as [Hlen _]. pose proof (room_take _ _ Hlen).
      apply (strings_at_frame (k_mem k4) _ _ _ _ _ 492); try done; rewrite ?length_map; try lia.
      unfold info_args, info_buffer, PROCESS_MAX_ARGUMENTS. intros x Hx. apply Hsame. lia.
  - intros q c Hq Hc. assert (a = stack_top_backup q /\ b = c) as [Ea Eb] by (unfold a, b, saved_stack; by rewrite Hq, Hc).
    rewrite Hq, Hc in Hl6. split; [by rewrite Hl6, lookup_insert_eq|]. rewrite Hm6, Ea, Eb. apply bytes_at_write.
Qed.

Lemma set_mem_id k : set_mem (k_mem k) k = k.
Proof. by destruct k. Qed.

(** exec() of an image in the memory. *)
Lemma exec_image_runs X pid args buffer phoff low high cur k p strs segs sections entry :
  elf_image (k_mem k) buffer phoff entry sections -> caller_ready X pid cur k p args strs low high ->
  image_ready pid (k_mem k) sections segs ->
  exists k' p', exec_image pid args buffer low high k = Ret (0, k') /\ process_list k' !! pid = Some p' /\
    working X pid cur k' /\ started pid k p k' p' entry strs segs low high /\
    (forall x, ~ exec_writes pid k p x -> k_mem k' !! x = k_mem k !! x) /\
    forall a n, mapped (k_mem k) a n -> mapped (k_mem k') a n.
Proof.
  intros Himg Hready Hsec. destruct (exec_runs _ _ _ _ _ _ _ _ _ entry _ _ Hready Hsec) as (k' & p' & Hexec & Hrest).
  exists k', p'. split; [|done]. unfold exec_image.
  destruct (parse_spec _ _ _ _ _ 0 Himg) as (a0 & H0 & _).
  destruct (parse_spec _ _ _ _ _ (Z.of_nat (length sections)) Himg) as (a & H1 & Ha).
  pose proof (kmem_at _ k _ _ H0) as H0k. pose proof (kmem_at _ k _ _ H1) as H1k. rewrite set_mem_id in H0k, H1k.
  rewrite (bind_Ret _ _ _ _ _ H0k). cbn beta iota. rewrite (bind_Ret _ _ _ _ _ H1k). cbn beta iota.
  rewrite Nat2Z.id, section_array_spec; [unfold exec_or_noexec; by rewrite Hexec|].
  intros j sec Hj. rewrite Ha. pose proof (lookup_lt_Some _ _ _ Hj).
  rewrite bool_decide_eq_true_2 by lia. by replace (Z.to_nat (0 + Z.of_nat j)) with j by lia.
Qed.
End exec.
