(* ===== verification/ExecDisk.v ===== *)
(** * ExecDisk: the exec() system call, from the path to the program

    exec_handler() on the machine of System.v: the path is resolved on the
    disk, the file is read into a block of the kernel heap, its segments are
    copied to the space of the process, and the block is given back. *)
From stdpp Require Import gmultiset.
From S2P Require Import Prelude Mem CString Strtok Heap Malloc Keyboard Kernel Devices UserLib Process Elf Invariant ProcessInv.
From S2P Require Import File FileSpec Directory DirectorySpec Terminal SpecialPath Syscall SyscallInv ForkExit.
From S2P Require Import ExecArgs System SystemSpec ExecImage.

(** ** The bytes of a program file *)
Definition at_offset (content : list Z) (off : Z) (l : list Z) : Prop :=
  0 <= off /\ take (length l) (drop (Z.to_nat off) content) = l.


Lemma at_offset_bytes m a content off l : bytes_at m a content -> at_offset content off l -> bytes_at m (a + off) l.
Proof.
  intros Hc [H0 H]. rewrite bytes_at_lookup in *. intros i b Hi. rewrite <- H in Hi.
  apply lookup_take_Some in Hi as [Hi _]. rewrite lookup_drop in Hi. specialize (Hc _ _ Hi).
  rewrite <- Hc. f_equal. lia.
Qed.







(** ** The heap while exec() works *)




Section exec_disk.
Context {S : Type} `{HB : !Bios} `{HG : !GoodBios HB} `{HP : !PortIO S} `{HV : !VgaMachine S} `{HL : !Layout}.
Variable d : disk.
Variable info : fs_info.
Variable SERIAL_PORT : Z.
Variable polls : nat.
Variables h first : Z.
Abbreviation world := (globals * machine S)%type.
#[local] Instance exec_external : External world := system_external d info SERIAL_PORT polls.
#[local] Instance exec_files : Files world := system_files d info h.
#[local] Existing Instance kernel_heap.
Implicit Types (k : kernel world) (w : machine S) (m : mem).

(** ** The size of a file *)
Lemma capacity_nonneg cs g : clus_ok d info cs g -> 0 <= capacity info cs.
Proof. intros Hok. pose proof (clus_spc _ _ _ _ Hok). unfold capacity. lia. Qed.

Lemma measure_spec cs g : clus_ok d info cs g ->
  exists g', measure (ClusterFile g) = Ret (capacity info cs, ClusterFile g') /\ clus_ok d info cs g' /\ cf_cursor g' = 0.
Proof.
  intros Hok. pose proof (clus_size _ _ _ _ Hok) as Hs. pose proof (capacity_nonneg _ _ Hok) as H0.
  pose proof (clus_range _ _ _ _ Hok) as Hr.
  assert (file_seek 0 SEEK_END (ClusterFile g) = Ret (0, ClusterFile (cf_seek (capacity info cs) g))) as Hend.
  { cbn [file_seek]. unfold clus_seek, seek_to. cbn. by rewrite Hs, Z.add_0_r, wrap_small. }
  assert (clus_ok d info cs (cf_seek (capacity info cs) g)) as Hok1 by (by destruct Hok; split).
  destruct (clus_seek_set d info cs 0 _ Hok1) as [Hset Hok2]; [done|].
  unfold measure. rewrite (bind_Ret _ _ _ _ _ Hend). prog_norm. cbn [file_seek].
  assert (file_seek 0 SEEK_SET (ClusterFile (cf_seek (capacity info cs) g)) =
    Ret (0, ClusterFile (cf_seek 0 (cf_seek (capacity info cs) g)))) as Hset2 by (cbn [file_seek]; by rewrite Hset).
  rewrite (bind_Ret _ _ _ _ _ Hset2). eexists. split; [reflexivity|]. by split.
Qed.

(** ** The file in a block of the heap *)
Lemma content_length cs : 0 < sectors_per_cluster info -> Z.of_nat (length (content_of d info cs)) = capacity info cs.
Proof. apply chain_content_length. Qed.

(** The block [buffer] that malloc() gave for [n] bytes, seen from before. *)
Record new_block (bs : list node) m (n buffer size : Z) (bs' : list node) m' : Prop := {
  nb_rep : heap_rep m' h first bs';
  nb_size : n <= size;
  nb_live : node_live first bs' buffer size;
  nb_client : forall x, heap_client h first bs x -> m' !! x = m !! x /\ heap_client h first bs' x;
  nb_fresh : forall x, buffer <= x < buffer + size -> ~ heap_client h first bs x;
  nb_free : forall m2, heap_rep m2 h first bs' -> exists m3, free buffer m2 = Ret (tt, m3) /\ heap_rep m3 h first bs /\
    forall x, heap_client h first bs x -> m3 !! x = m2 !! x
}.

(** The heap has a free node for a block of [n] bytes. *)
Definition room_for (bs : list node) (n : Z) : Prop := alloc_first_fit ((n + 7) / 8 * 8 + 8) bs <> None.

Lemma room_malloc bs m n : heap_rep m h first bs -> room_for bs n -> 1 <= n -> n + 15 < 2 ^ 32 ->
  forall msg, malloc h n m <> Panic msg.
Proof.
  intros Hrep Hroom H1 H2 msg. pose proof (HeapAlloc_spec m h 0 h first bs n Hrep ltac:(by right) H1 H2) as Ha.
  unfold HeapAlloc_contract in Ha. unfold malloc. unfold room_for in Hroom.
  destruct (alloc_first_fit _ bs) as [[bs' off]|]; [|done]. destruct Ha as (m' & Hrun & _). by rewrite Hrun.
Qed.

Lemma read_program m (g : globals) w path name i cs bs :
  mounted d info w -> leads_to d info m g path name (Some (i, cs)) -> heap_rep m h first bs ->
  0 < capacity info cs -> capacity info cs + 15 < 2 ^ 32 -> room_for bs (capacity info cs) ->
  let n := capacity info cs in
  exists dev buffer size bs' m1 w1 w2 w3 r,
    openFile path (m, (g, w)) = Ret (Some dev, (m, (g, w1))) /\ file_size dev (m, (g, w1)) = Ret (n, (m, (g, w2))) /\
    new_bytes n (m, (g, w2)) = Ret (buffer, (m1, (g, w2))) /\
    ext_read dev buffer n (m1, (g, w2)) = Ret (r, (write_bytes m1 buffer (content_of d info cs), (g, w3))) /\
    new_block bs m n buffer size bs' m1.
Proof.
  intros Hmt Hl Hrep Hpos Hmax Hroom n.
  destruct (openFile_system d info h m g w path name _ Hmt Hl) as (_ & fat' & _ & f & [Hok Hcur _] & Hopen).
  set (dev := next_file w) in *. set (w1 := Machine _ _ _ _ _ _ _) in Hopen.
  destruct (measure_spec cs f Hok) as (f2 & Hmeasure & Hok2 & Hcur2).
  set (w2 := put_file dev (ClusterFile f2) w1).
  destruct (malloc_law (Allocator := kernel_heap h first) bs m n Hrep) as [(buffer & m1 & bs' & size & Hm & Hrep' & Hn & Hlive & Hcl & Hfresh & _ & Hundo)|[msg Hm]];
    [lia|done| |by apply (room_malloc bs m n Hrep Hroom ltac:(lia) Hmax msg) in Hm].
  destruct (live_client (Allocator := kernel_heap h first) bs' m1 buffer size Hrep' Hlive) as (_ & _ & Hmap & _).
  pose proof (clus_spc _ _ _ _ Hok) as Hspc. pose proof (content_length cs Hspc) as Hlen.
  destruct (ext_read_file d info SERIAL_PORT polls dev (ClusterFile f2) (content_of d info cs) buffer n m1 g w2) as (f3 & Hread & _).
  { apply (mt_next _ _ _ Hmt). } { apply lookup_insert_eq. } { by apply (ok_clus _ _ _ cs). } { apply sectors_bytes. }
  { by eapply mapped_le. } { lia. }
  cbn [file_tell] in Hread. unfold clus_tell in Hread. rewrite Hcur2, drop_0, take_ge in Hread by lia.
  exists dev, buffer, size, bs', m1, w1, w2, (put_file dev f3 w2). eexists. split; [exact Hopen|]. split; [|split; [|split; [exact Hread|by split]]].
  - cbn [file_size exec_files system_files]. unfold on_machine, zoom. cbn [fst snd].
    rewrite (on_file_Ret dev measure (ClusterFile f) n (ClusterFile f2) w1); [done|apply lookup_insert_eq|done].
  - cbn [new_bytes exec_files system_files]. unfold on_mem, zoom. cbn [fst snd]. unfold malloc in Hm. cbn in Hm. by rewrite Hm.
Qed.

(** ** execv() *)

(** Up to the two calls of parseElfSections(). *)
Lemma execv_reads pid k path name i cs args low high bs :
  mounted d info (k_ext k).2 -> leads_to d info (k_mem k) (k_ext k).1 path name (Some (i, cs)) ->
  heap_rep (k_mem k) h first bs -> 0 < capacity info cs -> capacity info cs + 15 < 2 ^ 32 -> room_for bs (capacity info cs) ->
  exists buffer size bs' m1 w3, new_block bs (k_mem k) (capacity info cs) buffer size bs' m1 /\
    execv pid path args low high k =
      (ret ← exec_image pid args buffer low high; kworld (delete_bytes buffer);; mret ret)
      (set_world (write_bytes m1 buffer (content_of d info cs), ((k_ext k).1, w3)) k).
Proof.
  intros Hmt Hl Hrep Hpos Hmax Hroom. destruct (k_ext k) as [g w] eqn:Ek. cbn [fst snd] in Hmt, Hl |- *.
  destruct (read_program (k_mem k) g w path name i cs bs Hmt Hl Hrep Hpos Hmax Hroom)
    as (dev & buffer & size & bs' & m1 & w1 & w2 & w3 & r & Hopen & Hsize & Hnew & Hread & Hblock).
  exists buffer, size, bs', m1, w3. split; [done|]. rewrite <- Ek in Hopen at 1. unfold execv.
  rewrite (bind_Ret _ _ _ _ _ (kworld_at _ _ _ _ Hopen)). cbn beta iota.
  set (k1 := set_world _ k). rewrite (bind_Ret _ _ _ _ _ (kworld_at _ k1 _ _ Hsize)).
  set (k2 := set_world _ k1). rewrite wrap_sgn, (wrap_small 32 (capacity info cs)) by (unfold urange; lia).
  rewrite (bind_Ret _ _ _ _ _ (kworld_at _ k2 _ _ Hnew)). set (k3 := set_world _ k2).
  by rewrite (bind_Ret _ _ _ _ _ (kworld_at _ k3 _ _ Hread)).
Qed.

(** What the block and its bytes are to exec_image(). *)
Lemma new_block_facts bs m n buffer size bs' m1 cs : new_block bs m n buffer size bs' m1 ->
  Z.of_nat (length (content_of d info cs)) = n ->
  let m2 := write_bytes m1 buffer (content_of d info cs) in
  0 < buffer /\ buffer + n < 2 ^ 32 /\ heap_rep m2 h first bs' /\ (forall x, heap_client h first bs x -> m2 !! x = m !! x).
Proof.
  intros [Hrep1 Hn Hlive Hcl Hfresh _] Hlen m2.
  destruct (live_client (Allocator := kernel_heap h first) bs' m1 buffer size Hrep1 Hlive) as (Hb0 & Hbmax & _ & Hbcl).
  split; [done|]. split; [lia|]. split.
  - apply (client_write (Allocator := kernel_heap h first)); [done|]. intros x Hx. apply Hbcl. lia.
  - intros x Hx. unfold m2. rewrite lookup_write_out; [by apply Hcl|].
    destruct (decide (buffer <= x < buffer + size)) as [Hin|]; [by destruct (Hfresh x Hin)|lia].
Qed.

(** The block is given back: the heap has the nodes of before the call, and
    no byte of a client changes. *)
Lemma execv_frees bs m n buffer size bs' m1 k : new_block bs m n buffer size bs' m1 -> heap_rep (k_mem k) h first bs' ->
  exists m', kworld (delete_bytes buffer) k = Ret (tt, set_world (m', k_ext k) k) /\ heap_rep m' h first bs /\
    forall x, heap_client h first bs x -> m' !! x = k_mem k !! x.
Proof.
  intros Hblock Hrep. destruct (nb_free _ _ _ _ _ _ _ Hblock _ Hrep) as (m' & Hfree & Hrep' & Hsame).
  exists m'. split; [|by split].
  apply kworld_at. cbn [delete_bytes exec_files system_files]. unfold on_mem, zoom. cbn [fst snd].
  unfold free in Hfree. by rewrite Hfree.
Qed.



Lemma bytes_differ_diff m a l b : bytes_at m a b -> length b = length l -> b <> l -> bytes_differ a l m = Ret (true, m).
Proof.
  revert a b. induction l as [|c l IH]; intros a [|x b] Hb Hlen Hne; try done. destruct Hb as [Hx Hb]. cbn [bytes_differ].
  rewrite (bind_Ret _ _ _ _ _ (load8_at _ _ _ Hx)). destruct (Z.eqb_spec x c) as [->|]; [|done].
  apply (IH _ b); [done|by injection Hlen|congruence].
Qed.

(** C16: exec() that fails leaves the caller as it was: a path that leads nowhere
    gives -ENOENT, a file that does not start with the magic number of ELF
    -ENOEXEC; the process keeps its registers and descriptors, no byte outside
    the free memory of the heap has changed, and the heap has the nodes it
    had. *)
Theorem exec_refused k path name r args low high bs :
  mounted d info (k_ext k).2 -> leads_to d info (k_mem k) (k_ext k).1 path name r -> heap_rep (k_mem k) h first bs ->
  match r with
  | None => exists k', exec_handler path args low high k = Ret (u64 (- ENOENT), k') /\
      process_list k' = process_list k /\ k_mem k' = k_mem k
  | Some (_, cs) => 0 < capacity info cs -> capacity info cs + 15 < 2 ^ 32 -> room_for bs (capacity info cs) ->
      take 4 (content_of d info cs) <> ELF_MAGIC ->
      exists k', exec_handler path args low high k = Ret (u64 (- ENOEXEC), k') /\
        process_list k' = process_list k /\ heap_rep (k_mem k') h first bs /\
        forall x, heap_client h first bs x -> k_mem k' !! x = k_mem k !! x
  end.
Proof.
  intros Hmt Hl Hrep. unfold exec_handler, getCurrentProcess. prog_norm. destruct r as [[i cs]|].
  - intros Hpos Hmax Hroom Hmagic. pose proof (content_length cs (proj1 (vol_spc _ (mt_volume _ _ _ Hmt)))) as Hlen.
    destruct (execv_reads (current_process k) k path name i cs args low high bs Hmt Hl Hrep Hpos Hmax Hroom)
      as (buffer & size & bs' & m1 & w3 & Hblock & Hrun).
    destruct (new_block_facts _ _ _ _ _ _ _ cs Hblock Hlen) as (_ & _ & Hrep2 & Hsame).
    set (content := content_of d info cs) in *. set (k4 := set_world _ k) in Hrun.
    assert (4 <= length content)%nat as Hsize.
    { unfold capacity in *. pose proof (vol_spc _ (mt_volume _ _ _ Hmt)). nia. }
    assert (exec_image (current_process k) args buffer low high k4 = Ret (- ENOEXEC, k4)) as Himage.
    { unfold exec_image. rewrite (bind_Ret _ _ k4 None k4); [done|]. rewrite <- (set_mem_id k4) at 2. apply kmem_at.
      unfold parseElfSections. rewrite (bind_Ret _ _ _ true (k_mem k4)); [done|].
      apply (bytes_differ_diff _ _ _ (take 4 content)); [|rewrite length_take; change (length ELF_MAGIC) with 4%nat; lia|done].
      rewrite <- (Z.add_0_r buffer). apply (at_offset_bytes _ _ content); [apply bytes_at_write|].
      split; [done|]. rewrite drop_0, length_take. f_equal. lia. }
    rewrite (bind_Ret _ _ _ _ _ Himage) in Hrun.
    destruct (execv_frees _ _ _ _ _ _ _ k4 Hblock Hrep2) as (m6 & Hdel & Hrep6 & Hsame6).
    rewrite (bind_Ret _ _ _ _ _ Hdel) in Hrun. rewrite (bind_Ret _ _ _ _ _ Hrun).
    eexists. split; [reflexivity|]. split; [done|]. split; [exact Hrep6|].
    intros x Hx. cbn. rewrite Hsame6 by done. by apply Hsame.
  - destruct (k_ext k) as [g w] eqn:Ek. cbn [fst snd] in Hmt, Hl.
    destruct (openFile_system d info h (k_mem k) g w path name None Hmt Hl) as (_ & fat' & _ & Hopen).
    rewrite <- Ek in Hopen at 1. unfold execv. rewrite bind_assoc, (bind_Ret _ _ _ _ _ (kworld_at _ _ _ _ Hopen)).
    eexists. split; [reflexivity|]. by split.
Qed.
End exec_disk.

(** ** A program of two segments on a small disk

    The volume of DirectorySpec.v with another SH.ELF; process 2 is the child
    of process 1, which waits in fork() with its stack saved. *)
Section example.
Definition elf_header (off paddr size : Z) : list Z :=
  le32 PT_LOAD ++ le32 off ++ le32 0 ++ le32 paddr ++ le32 size ++ le32 size ++ le32 5 ++ le32 0.
Definition elf_sector (lba : Z) : list Z :=
  if lba =? 1 then pad 512 0 [0xF8; 0xFF; 0xFF; 0xFF; 0xFF; 0xFF; 4; 0; 5; 0; 6; 0; 0xFF; 0xFF]
  else if lba =? 3 then pad 512 0 (entry_bytes "SH" "ELF" 0x20 3 2048)
  else if lba =? 4 then pad 512 0 (ELF_MAGIC ++ [1; 1] ++ repeat 0 18 ++ le32 4 ++ le32 52 ++ repeat 0 20 ++
    elf_header 1728 0 16 ++ elf_header 1744 4096 8)
  else if lba =? 7 then pad 512 0 (repeat 0 192 ++ repeat 0x90 16 ++ repeat 7 8)
  else if (lba =? 5) || (lba =? 6) then repeat 0 512
  else small_sector lba.
#[local] Instance elf_bios : Bios := fun _ lba => elf_sector lba.

#[local] Instance elf_bios_good : GoodBios elf_bios.
Proof.
  assert (forall lba, check_sector (elf_sector lba) = true) as H.
  { intros lba. unfold elf_sector, small_sector. repeat match goal with |- context [if ?b then _ else _] => destruct b end;
      vm_compute; reflexivity. }
  split; intros drive lba; apply (check_sector_ok _ (H lba)).
Qed.





(** *** The kernel: a heap at 1000, the caller's strings, and the spaces *)
#[local] Instance elf_layout : Layout := {|
  USER_SPACE_START := 0x100000; user_stack_pos := 0x80000; kernel_stack_pos := 0x90000 |}.
#[local] Instance no_ports : PortIO unit := {| inb _ := mret 0; outb _ _ := mret tt |}.
#[local] Instance no_vga : VgaMachine unit := {|
  int10 _ := mret tt; v8086_busy _ := false; machine_mem _ := ∅; machine_set_mem _ s := s; VGA_TEXT_BASE := 0xB8000
|}.

Definition elf_small_mem : mem :=
  mem_of [(1000, le32 4104 ++ le32 1008 ++ le32 4096 ++ le32 AVAIL_MAGIC ++ le32 0 ++ repeat 0 4084);
          (20000, chars "/bin//Sh.elf" ++ [0]); (20100, le32s [20200; 0]); (20200, chars "sh" ++ [0]);
          (30000, repeat 0 128); (548332, repeat 0 532)].
(** The space of process 2, which is all zero. *)
Definition elf_mem : mem := write_bytes elf_small_mem 2359296 (replicate (Z.to_nat PROCESS_USER_IMAGE_SPACE) 0).
Definition elf_machine : machine unit :=
  Machine ∅ FIRST_FILE small_fat line_buffer_new (Vga 0 (ring_new KBD_BUFFER_SIZE) 0xB8000 tt) line_buffer_new 0xB8000.
Definition elf_parent : process :=
  Process (-1) PROCESS_STATE_SLEEPING PROCESS_SCHE_NORMAL 30000 (Some (repeat 9 128)) tss_zero ∅.
Definition elf_child : process := Process 1 PROCESS_STATE_RUNNABLE PROCESS_SCHE_NORMAL 0 None tss_zero ∅.
Definition elf_kernel : kernel (globals * machine unit) :=
  Kernel elf_mem (no_globals, elf_machine) 2 (list_to_map [(1, elf_parent); (2, elf_child)]) ∅ 0 ∅ ∅ ∅ ∅ 0 7 tss_zero.
#[local] Instance elf_external : External (globals * machine unit) := system_external small_disk small_info 0x3F8 1.
#[local] Instance elf_files : Files (globals * machine unit) := system_files small_disk small_info 1000.

Lemma elf_mem_bytes a l : bytes_at elf_small_mem a l -> a + Z.of_nat (length l) <= 2359296 -> bytes_at elf_mem a l.
Proof. intros Hb Ha. unfold elf_mem. by rewrite bytes_at_write_out by lia. Qed.

Lemma elf_heap : heap_rep elf_small_mem 1000 1008 [(true, 4096)].
Proof.
  split.
  - unfold heap_list. cbn [next_free nodes_at]. split_and!; try intros _; first [mem_compute|done].
  - split; [repeat constructor; done|done|by split].
  - simpl. lia.
  - done.
  - mem_compute.
Qed.







Lemma elf_leads (HB : Bios) r :
  opens small_disk small_info 1 2 (root_listing small_disk small_info) (split_tokens [47] (chars "/bin//Sh.elf")) r ->
  leads_to small_disk small_info (k_mem elf_kernel) (k_ext elf_kernel).1 20000 (chars "/bin//Sh.elf") r.
Proof.
  intros H. split; [|cbn; lia|vm_compute; reflexivity|exact H|repeat constructor; vm_compute; done|vm_compute; done].
  split; [repeat constructor; lia|]. apply elf_mem_bytes; [mem_compute|cbn; lia].
Qed.

Lemma elf_kernel_heap : heap_rep (k_mem elf_kernel) 1000 1008 [(true, 4096)].
Proof.
  apply (heap_client_write elf_small_mem 1000 1008); [apply elf_heap|]. intros x Hx. right. right. right.
  change (1008 + total [(true, 4096)]) with 5104. lia.
Qed.

End example.

(** On the volume of DirectorySpec.v, /bin/sh.elf is not a program. *)
Section refused.
#[local] Existing Instances small_bios small_bios_good no_ports no_vga elf_layout.
#[local] Instance refused_external : External (globals * machine unit) := system_external small_disk small_info 0x3F8 1.
#[local] Instance refused_files : Files (globals * machine unit) := system_files small_disk small_info 1000.

Lemma exec_refused_witness : exists k', exec_handler 20000 20100 7 0 elf_kernel = Ret (u64 (- ENOEXEC), k') /\
  process_list k' = process_list elf_kernel /\ k_mem k' !! 30000 = Some 0.
Proof.
  assert (mounted small_disk small_info (k_ext elf_kernel).2) as H1.
  { destruct (Fat16_ok small_disk small_info small_fat small_volume) as [Hok Hfat]; [cbn; lia|].
    split; [exact Hok|cbn; lia|exact Hfat|cbn; lia]. }
  destruct (exec_refused small_disk small_info 0x3F8 1 1000 1008 elf_kernel 20000 _ _ 20100 7 0 [(true, 4096)] H1
    (elf_leads _ _ small_opens) elf_kernel_heap) as (k' & Hrun & Hl & _ & Hm);
    [vm_compute; reflexivity|vm_compute; reflexivity|vm_compute; discriminate|vm_compute; discriminate|].
  exists k'. split; [exact Hrun|]. split; [exact Hl|]. rewrite Hm.
  - assert (bytes_at elf_mem 30000 (repeat 0 128)) as [H _] by (apply elf_mem_bytes; [mem_compute|cbn; lia]). exact H.
  - right. right. right. change (1008 + total [(true, 4096)]) with 5104. lia.
Defined.
End refused.
